(* ===== verification/_CoqProject ===== *)
-Q . S2P
Prelude.v
GoInt.v
GoStrings.v
GoUrl.v
Effects.v
Concurrency.v
GoJson.v
GoJsonText.v
Services.v
RootFS.v
Resources.v
Conversion.v
AuctionCellRep.v
ContainerDelegate.v
OrdinaryLRPProcessor.v
EvacuationLRPProcessor.v
TaskProcessor.v
LRPProcessor.v
Operation.v
Queue.v
TaskOnce.v
Generator.v
EvacuationContext.v
Cleanup.v
Evacuator.v
Harmonizer.v
Maintain.v
Wire.v
Routes.v
Handlers.v
Client.v
Auction.v
Lifecycle.v
EvacuatedCell.v
Config.v
Main.v
CellPresenceClient.v
Convergence.v
Startup.v
Drain.v
Rounds.v
TestRunner.v
