(* ===== verification/Prelude.v ===== *)
(** * The Diego cell rep, verified

    The rep runs on every cell of a Diego deployment.  It offers the cell to the
    auctioneer, turns auctioned work into containers of the executor, keeps the
    bulletin board (BBS) in agreement with those containers, and empties the cell
    when it is evacuated.  This development models the rep's own Go code under src/
    as executable definitions and proves what makes each part correct.

    ** How the program is modelled

    - Pure code is a function with the source's name.  Machine integers are [Z] with
      their wrap-around written out ([GoInt]: int, int32, uint16); Go strings are
      byte strings ([GoStrings], which also models the functions of strconv,
      strings and sort that the rep calls); net/url's parser is in [GoUrl]; JSON
      text and values are in [GoJson] and [GoJsonText].  Scores are binary64 floats.
    - Code that calls the executor, the BBS, the clock or another service is a
      program [prog] of the calls of [Services] ([Effects]).  [exec] relates a
      program to every conversation it can have: replies are arbitrary, so a theorem
      about [exec] covers every error path and every interleaving with the rest of
      the world.  [run] plays a program against a stateful environment and computes.
      Every program is a finite tree, so it returns for any replies ([run_exec]).
    - Loops around [select] are state machines: one function that maps a state and
      an input (what the [select] receives, a reply, time passing) to the next state.
    - Goroutines are programs that take turns ([Concurrency]: a history shared by
      any number of threads, and a scheduler), a transition system where the atomic
      actions matter ([EvacuationContext]), an order of calls ([Generator], any
      permutation) or a program cut off by a timer ([Cleanup]).
    - Maps are [gmap]s; a range over a map takes its order as an argument, any
      permutation of the entries ([iteration_of]).
    - Code of other repositories is a parameter: the class [Models] of [Services]
      (bbs/models and executor conversions), [Consul], [CellSetLaws] and the key-value
      store [KV] of [CellPresenceClient], [KeyFields] of [Wire], [ConfigDefaults] of [Config], [Board] of [Convergence],
      [Cell] of [Drain].  The queue of operations is the hypothesis
      [one_at_a_time] of [Queue].  Each has a concrete instance, with which the
      witnesses compute.

    ** The files, and the source they model

    - [GoInt], [GoStrings], [GoUrl], [GoJson], [GoJsonText]: the language and its
      library.
    - [Effects], [Concurrency], [Services]: programs, programs at the same time, and
      the calls to the services.
    - [RootFS]: rootfs_providers.go.  [Resources]: resources.go and scoring.go.
    - [Conversion]: conversion_helpers.go.
    - [AuctionCellRep]: auctioncellrep/.
    - [ContainerDelegate], [OrdinaryLRPProcessor], [EvacuationLRPProcessor],
      [TaskProcessor], [LRPProcessor]: generator/internal/.  [LRPProcessor] has the
      interface [Processor] and its promises [SafeProcessor].
    - [Operation], [Generator]: generator/.  [Queue], [TaskOnce]: the operations as
      the queue of main.go executes them.
    - [EvacuationContext], [Cleanup], [Evacuator]: evacuation/.
    - [Harmonizer]: harmonizer/, against the interface [GeneratorInterface].
    - [Maintain], [CellPresenceClient]: maintain/.
    - [Wire]: the JSON of the structs of resources.go, which client.go and handlers/
      exchange.  [Routes]: routes.go.  [Handlers]: handlers/, against the interface
      [AuctionCellClient].  [Client]: client.go, composed with the handlers.
    - [Config], [Main], [Startup]: cmd/rep/; [Startup] composes the others as [main]
      does, with what constructors of other repositories return as input.
      [TestRunner]: cmd/rep/testrunner/, over a world of files and processes.
    - Compositions.  [Auction]: client, handlers, placement and the auction cell.
      [Lifecycle]: from the allocation request to the processors.  [EvacuatedCell]:
      the evacuation flag, against the interface [Flag], and everything that reads
      it.  [Convergence], [Drain], [Rounds]: generator, bulker, queue, operations,
      processors and evacuator.

    ** What is proved

    - Placement: cells are never overcommitted, resource matching is exact, every
      item of auctioned work is placed or handed back, the reported state is that of
      the executor, and what placements leave of it is exact, machine integers
      included ([Handlers.placed_amounts_are_exact]).  Composed over HTTP: what a cell asks of its
      executor never exceeds what the executor had reported, and all the work that
      matched is asked for ([Auction]).
    - The container life cycle: an LRP runs only after a claim and a task only after
      a start; ends are reported before containers are deleted; while evacuating the
      BBS is told first; each processor's conversations are listed completely; and
      auctioned work is processed as the LRP or task it was auctioned as ([Lifecycle]).
    - Operations and batches: a batch is the prescribed one under every schedule;
      concurrent operations are isolated by their keys and all finish within seven
      calls each ([Queue]); however many there are for a task's container, they run
      it at most once ([TaskOnce]); residual operations, when the executor does
      not return their container, remove exactly the stale records; and
      together, under any interleaving, one round of synchronisation leaves no stale
      record on the bulletin board ([Convergence.sync_converges]) and, on a cell that
      is being evacuated, no container that could go ([Drain.evacuation_round_empties]).
      Played on services that work, a round ends, leaves no exception
      ([Rounds.round_heals]), and ends an evacuation ([Rounds.evacuation_ends]).
    - Evacuation: the flag is set once and safely under concurrency, [Evacuate]
      always returns, nothing that starts after it takes up work ([EvacuatedCell]),
      the evacuator leaves for a reason and can always leave, the cleanup removes
      records before it stops containers (and gives up, without an error, when it
      cannot list them).
    - Presence: readiness, and when the presence process is started and told to stop;
      a held presence is found by its cell's id, and only then; both backends announce the same; the announced URL is usable.
    - The API: every document with JSON numbers is read back from its text, with its
      strings as they were or, where they are not UTF-8, with U+FFFD in them
      ([GoJsonText.parse_Marshal]), so states and work of UTF-8 strings survive the
      wire byte for byte ([Wire.wire_roundtrip]); bodies of requests and responses are
      such texts, and calling a cell over HTTP is calling it with what arrives
      ([Client]).  The stack map of the configuration survives its codec.
    - The program: if it starts, servers and presence are consistent and the members
      stop in a safe order ([Startup.main_starts]); when it ends, the executor is
      cleaned up unless the end is an [os.Exit] ([Startup.executor_is_cleaned_up]).
      A test runner has at most one rep running ([TestRunner.one_rep_at_a_time]).

    ** Bounds and fuel

    [decimal] prints with fuel 20, which holds every 64-bit value.  The JSON parser
    takes fuel from the length of its input.  [checkRunningContainers] gets fuel
    [S n] for [n] calls before the exit timer; every round makes a call, so it is
    never used up ([Cleanup.cleanup_outcomes] covers every outcome).  The evacuator's
    time is explicit.  A scheduler ([Concurrency.schedule]) is given its turns; every
    pool of threads has turns that finish it ([Concurrency.schedule_finishes]), and for
    operations seven each are enough ([Queue.operations_finish]).

    ** Not modelled

    Logging and metrics beyond the call made; HTTP transport, TLS setup and the
    router (rata), whose documented part (a route calls its handler, parameters
    become form values) is used in [Client]; the operation queue (operationq) and
    the process groups (ifrit), which belong to other repositories, as do the
    clients that cmd/rep/main.go constructs and the configurations embedded in its
    own; the test doubles, which counterfeiter generates and no code of the rep calls. *)

From stdpp Require Export base gmap sets list strings.
From Stdlib Require Export ZArith Lia.
From Stdlib Require Ascii.
Export Ascii.AsciiSyntax.
Delimit Scope char_scope with char.

(** Go's [(T, error)] results: a value with a nil error, or an error. *)
Inductive result (E A : Type) : Type :=
| Ok (a : A)
| Err (e : E).
Arguments Ok {E A} a.
Arguments Err {E A} e.

Section result_monad.
Context {E : Type}.

#[global] Instance result_ret : MRet (result E) := fun A a => Ok a.
#[global] Instance result_bind : MBind (result E) := fun A B f r =>
  match r with Ok a => f a | Err e => Err e end.
#[global] Instance result_fmap : FMap (result E) := fun A B f r =>
  match r with Ok a => Ok (f a) | Err e => Err e end.

Definition is_ok {A} (r : result E A) : bool :=
  match r with Ok _ => true | Err _ => false end.

End result_monad.

#[global] Instance result_eq_dec {E A} `{EqDecision E, EqDecision A} : EqDecision (result E A).
Proof. solve_decision. Defined.

(** The lookup of a Go map: the zero value [d] for an absent key. *)
Definition lookup_default {V} (d : V) (m : gmap string V) (k : string) : V :=
  default d (m !! k).

(** A [for key, value := range m] loop sees the entries of the map once each, in
    an order that the language leaves open. *)
Definition iteration_of {V} (m : gmap string V) (l : list (string * V)) : Prop :=
  l ≡ₚ map_to_list m.

Create HintDb rep.

(** Splits every [match] and [if] of the goal and of the hypotheses. *)
Ltac cases := repeat (case_match || case_decide || case_bool_decide); simplify_eq/=.
Ltac crush := cases; naive_solver.

(** ** Loops over lists that collect successes *)
Section list_loops.
Context {E A B : Type}.

(** [for i := range l { out[i], err = f(l[i]); if err != nil { return err } }] *)
Fixpoint result_mapM (f : A → result E B) (l : list A) : result E (list B) :=
  match l with
  | [] => Ok []
  | x :: l => match f x with
              | Err e => Err e
              | Ok y => match result_mapM f l with
                        | Err e => Err e
                        | Ok ys => Ok (y :: ys)
                        end
              end
  end.

Lemma result_mapM_ok (f : A → result E B) l ys :
  result_mapM f l = Ok ys ↔ Forall2 (λ x y, f x = Ok y) l ys.
Proof.
  revert ys. induction l as [|x l IH]; intros ys; simpl.
  { split; [intros [= <-]; constructor | by inversion 1]. }
  destruct (f x) as [y|e] eqn:Hx.
  - destruct (result_mapM f l) as [zs|e] eqn:Hl.
    + split; [intros [= <-] | inversion 1; subst].
      * constructor; [done | by apply IH].
      * assert (y0 = y) as -> by congruence. repeat f_equal.
        assert (Ok zs = Ok (E:=E) l') as [= ->] by (by apply IH). done.
    + split; [done | inversion 1; subst].
      match goal with H : Forall2 _ l _ |- _ => by apply IH in H end.
  - split; [done | inversion 1; congruence].
Qed.

Lemma result_mapM_err (f : A → result E B) l e :
  result_mapM f l = Err e ↔
  ∃ l1 x l2 ys, l = l1 ++ x :: l2 ∧ result_mapM f l1 = Ok ys ∧ f x = Err e.
Proof.
  split.
  - induction l as [|x l IH] in e |- *; simpl; [done|]. intros H.
    destruct (f x) as [y|e'] eqn:Hx; simplify_eq; [|by exists [], x, l, []].
    destruct (result_mapM f l) as [zs|e'] eqn:Hl; simplify_eq.
    destruct (IH e eq_refl) as (l1 & x' & l2 & ys & -> & H1 & H2).
    exists (x :: l1), x', l2, (y :: ys). simpl. by rewrite Hx, H1.
  - intros (l1 & x & l2 & ys & -> & H1 & H2). revert ys H1.
    induction l1 as [|z l1 IH]; intros ys H1; simpl in *; [by rewrite H2|].
    destruct (f z); [|done]. destruct (result_mapM f l1); [|done]. by erewrite IH.
Qed.

End list_loops.

Lemma NoDup_fmap_filter {A B} (f : A → B) (P : A → Prop) `{∀ x, Decision (P x)} l :
  NoDup (f <$> l) → NoDup (f <$> filter P l).
Proof.
  induction l as [|x l IH]; [done|]. rewrite fmap_cons, NoDup_cons. intros [Hx Hl].
  rewrite filter_cons. case_decide; [|by apply IH].
  rewrite fmap_cons, NoDup_cons. split; [|by apply IH]. contradict Hx.
  apply list_elem_of_fmap in Hx as (y & -> & [_ ?]%list_elem_of_filter).
  by apply list_elem_of_fmap_2.
Qed.

Lemma omap_fmap_list {A B C} (f : A → B) (g : B → option C) (l : list A) :
  omap g (f <$> l) = omap (λ x, g (f x)) l.
Proof. induction l as [|x l IH]; [done|]. cbn. rewrite IH. done. Qed.

Lemma filter_none {A} (P : A → Prop) `{∀ x, Decision (P x)} l : Forall (λ x, ¬ P x) l → filter P l = [].
Proof. induction 1 as [|x l Hx _ IH]; [done|]. rewrite filter_cons. by case_decide. Qed.

Lemma filter_prefix {A} (P : A → Prop) `{∀ x, Decision (P x)} l1 l2 : length (filter P l1) ≤ length (filter P (l1 ++ l2)).
Proof. rewrite list.filter_app, length_app. lia. Qed.

(** Two entries of a list that are kept by a filter. *)
Lemma filter_two {A} (P : A → Prop) `{∀ x, Decision (P x)} l x y :
  x ∈ l → y ∈ l → x ≠ y → P x → P y → 2 ≤ length (filter P l).
Proof.
  intros Hx Hy Hne Px Py.
  assert (x ∈ filter P l) as Hx' by by apply list_elem_of_filter.
  assert (y ∈ filter P l) as Hy' by by apply list_elem_of_filter.
  destruct (filter P l) as [|a [|b l']]; simpl; [by apply elem_of_nil in Hx'| |lia].
  apply list_elem_of_singleton in Hx' as ->. by apply list_elem_of_singleton in Hy' as ->.
Qed.

Lemma filter_twice {A} (P Q : A → Prop) `{∀ x, Decision (P x), ∀ x, Decision (Q x)} l :
  length (filter Q (filter P l)) ≤ length (filter Q l).
Proof.
  induction l as [|x l IH]; [done|]. rewrite !filter_cons. case_decide; [rewrite filter_cons|];
    case_decide; simpl; lia.
Qed.

(** The entries that one index contributes to a list of indexed values. *)
Lemma filter_indexed {A} (Q : A → Prop) `{∀ x, Decision (Q x)} i (l : list (nat * A)) :
  length (filter (λ x, x.1 = i ∧ Q x.2) l) = length (filter Q (filter (λ x, x.1 = i) l).*2).
Proof.
  induction l as [|[j e] l IH]; [done|]. rewrite !filter_cons. simpl.
  destruct (decide (j = i)) as [->|Hne].
  - rewrite fmap_cons, filter_cons. simpl. repeat case_decide; simpl; naive_solver lia.
  - by rewrite decide_False by naive_solver.
Qed.
