(* ===== verification/GoInt.v ===== *)
(** Go's fixed-width integers.  A value of a w-bit type is a [Z] inside the
    type's range; conversions and arithmetic reduce modulo [2 ^ w] as the
    language says.  [int] and [uint] are 64 bits wide (the rep runs on amd64). *)

From S2P Require Import Prelude.

#[local] Open Scope Z_scope.

(** Two's complement reduction to [w] bits, signed and unsigned. *)
Definition wrap_signed (w z : Z) : Z :=
  (z + 2 ^ (w - 1)) mod 2 ^ w - 2 ^ (w - 1).
Definition wrap_unsigned (w z : Z) : Z := z mod 2 ^ w.

Definition int32 (z : Z) : Z := wrap_signed 32 z.
Definition int (z : Z) : Z := wrap_signed 64 z.
Definition uint16 (z : Z) : Z := wrap_unsigned 16 z.
Definition uint32 (z : Z) : Z := wrap_unsigned 32 z.
Definition uint64 (z : Z) : Z := wrap_unsigned 64 z.

(** Range predicates, decidable. *)
Definition is_int32 (z : Z) : Prop := -2147483648 <= z <= 2147483647.
Definition is_int (z : Z) : Prop := -9223372036854775808 <= z <= 9223372036854775807.
Definition is_uint16 (z : Z) : Prop := 0 <= z <= 65535.

#[global] Instance is_int32_dec z : Decision (is_int32 z).
Proof. unfold is_int32. apply _. Defined.
#[global] Instance is_int_dec z : Decision (is_int z).
Proof. unfold is_int. apply _. Defined.
#[global] Instance is_uint16_dec z : Decision (is_uint16 z).
Proof. unfold is_uint16. apply _. Defined.

(** Turns every reduction into linear arithmetic over its quotient. *)
Ltac wrap_lia :=
  unfold int32, int, uint16, uint32, uint64, is_int32, is_int, is_uint16,
    wrap_signed, wrap_unsigned in *;
  repeat match goal with
  | |- context [2 ^ ?n] => let v := eval vm_compute in (2 ^ n) in change (2 ^ n) with v in *
  | H : context [2 ^ ?n] |- _ => let v := eval vm_compute in (2 ^ n) in change (2 ^ n) with v in *
  end;
  Z.div_mod_to_equations; lia.

Lemma int32_range z : is_int32 (int32 z).
Proof. wrap_lia. Qed.

Lemma int_range z : is_int (int z).
Proof. wrap_lia. Qed.

Lemma uint16_range z : is_uint16 (uint16 z).
Proof. wrap_lia. Qed.

Lemma int32_small z : is_int32 z → int32 z = z.
Proof. wrap_lia. Qed.

Lemma int_small z : is_int z → int z = z.
Proof. wrap_lia. Qed.

Lemma uint16_small z : is_uint16 z → uint16 z = z.
Proof. wrap_lia. Qed.

Lemma int32_is_int z : is_int32 z → is_int z.
Proof. wrap_lia. Qed.

Lemma int32_idemp z : int32 (int32 z) = int32 z.
Proof. apply int32_small, int32_range. Qed.

(** Subtraction of an already reduced operand is reduced once. *)
Lemma int32_sub_l a b : int32 (int32 a - b) = int32 (a - b).
Proof. wrap_lia. Qed.

Lemma int_sub_l a b : int (int a - b) = int (a - b).
Proof. wrap_lia. Qed.

Lemma int_add_l a b : int (int a + b) = int (a + b).
Proof. wrap_lia. Qed.

(** Subtraction that stays in range does not wrap. *)
Lemma int32_sub_nonneg a b :
  is_int32 a → is_int32 b → 0 <= b → b <= a → int32 (a - b) = a - b.
Proof. intros. apply int32_small. unfold is_int32 in *. lia. Qed.

#[export] Hint Resolve int32_range int_range uint16_range int32_small int_small
  uint16_small int32_is_int : rep.
