(* ===== verification/GoStrings.v ===== *)
(** The functions of Go's [strconv], [strings] and [sort] that the rep calls.
    A Go string is a sequence of bytes, here [string] (a sequence of [ascii]).
    The separators the rep splits at are single bytes. *)

From stdpp Require Export sorting.
From S2P Require Import Prelude GoInt.

#[local] Open Scope Z_scope.

(** ** strconv.Itoa and strconv.Atoi *)

Definition digit (d : Z) : Ascii.ascii := Ascii.ascii_of_N (Z.to_N (d + 48)).

Definition digit_value (c : Ascii.ascii) : option Z :=
  let n := Z.of_N (Ascii.N_of_ascii c) in
  if bool_decide (48 <= n <= 57) then Some (n - 48) else None.

(** The decimal digits of [n], put in front of [acc]; 20 digits hold any 64-bit value. *)
Fixpoint decimal (fuel : nat) (n : Z) (acc : string) : string :=
  match fuel with
  | O => acc
  | S fuel => if bool_decide (n < 10) then String (digit n) acc
              else decimal fuel (n / 10) (String (digit (n mod 10)) acc)
  end.

Definition Itoa (n : Z) : string :=
  if bool_decide (n < 0) then String "-"%char (decimal 20 (- n) "") else decimal 20 n "".

Fixpoint parse_decimal (acc : Z) (s : string) : option Z :=
  match s with
  | EmptyString => Some acc
  | String c s => match digit_value c with
                  | Some d => parse_decimal (acc * 10 + d) s
                  | None => None
                  end
  end.

(** An optional sign, then at least one digit. *)
Definition parse_unsigned (s : string) : option Z :=
  match s with EmptyString => None | _ => parse_decimal 0 s end.

(** [None] stands for a non-nil error: a syntax error or a value out of range. *)
Definition Atoi (s : string) : option Z :=
  n ← match s with
      | String "-"%char s => Z.opp <$> parse_unsigned s
      | String "+"%char s => parse_unsigned s
      | _ => parse_unsigned s
      end;
  if bool_decide (is_int n) then Some n else None.

Lemma digit_value_digit d : 0 <= d < 10 → digit_value (digit d) = Some d.
Proof.
  intros. unfold digit_value, digit.
  rewrite Ascii.N_ascii_embedding by lia.
  rewrite bool_decide_true by lia. f_equal. lia.
Qed.

Lemma parse_decimal_app fuel n s :
  0 <= n < 10 ^ Z.of_nat fuel → (0 < fuel)%nat →
  parse_decimal 0 (decimal fuel n s) = parse_decimal n s.
Proof.
  revert n s. induction fuel as [|fuel IH]; intros n s Hn Hf; [lia|]. simpl.
  case_bool_decide.
  { simpl. by rewrite digit_value_digit by lia. }
  rewrite Nat2Z.inj_succ, Z.pow_succ_r in Hn by lia.
  rewrite IH; [| Z.div_mod_to_equations; lia |
    destruct fuel; [simpl in Hn; lia | lia]].
  simpl. rewrite digit_value_digit by (Z.div_mod_to_equations; lia).
  f_equal. Z.div_mod_to_equations; lia.
Qed.

Lemma decimal_cons fuel n s :
  0 <= n → (0 < fuel)%nat →
  ∃ d s', decimal fuel n s = String (digit d) s' ∧ 0 <= d < 10.
Proof.
  revert n s. induction fuel as [|fuel IH]; intros n s Hn Hf; [lia|]. simpl.
  case_bool_decide; [by exists n, s|].
  destruct fuel as [|fuel].
  { simpl. exists (n mod 10), s. split; [done|]. Z.div_mod_to_equations; lia. }
  apply IH; [|lia]. Z.div_mod_to_equations; lia.
Qed.

Lemma parse_unsigned_decimal n :
  0 <= n < 10 ^ 20 → parse_unsigned (decimal 20 n "") = Some n.
Proof.
  intros Hn. pose proof (parse_decimal_app 20 n "" Hn ltac:(lia)) as Hp.
  destruct (decimal_cons 20 n "") as (d & s' & Hd & _); [lia|lia|].
  unfold parse_unsigned. rewrite Hd in *. by rewrite Hp.
Qed.

Lemma Atoi_signed_match s d s' :
  s = String (digit d) s' → 0 <= d < 10 →
  Atoi s = (n ← parse_unsigned s; if bool_decide (is_int n) then Some n else None).
Proof.
  intros -> Hd. assert (d ∈ [0;1;2;3;4;5;6;7;8;9]) as Hin.
  { rewrite list_elem_of_In. simpl. lia. }
  rewrite list_elem_of_In in Hin. simpl in Hin.
  repeat destruct Hin as [<-|Hin]; try done.
Qed.

Lemma Atoi_Itoa n : is_int n → Atoi (Itoa n) = Some n.
Proof.
  intros Hn. unfold Itoa. case_bool_decide.
  - unfold Atoi. rewrite parse_unsigned_decimal by (unfold is_int in Hn; lia).
    simpl. rewrite bool_decide_true by (by replace (- - n) with n by lia).
    f_equal. lia.
  - destruct (decimal_cons 20 n "") as (d & s' & Hd & ?); [lia|lia|].
    rewrite (Atoi_signed_match _ d s') by done.
    rewrite parse_unsigned_decimal by (unfold is_int in Hn; lia).
    simpl. by rewrite bool_decide_true.
Qed.

Lemma Atoi_range s n : Atoi s = Some n → is_int n.
Proof. intros (m & _ & Hm)%bind_Some. by case_bool_decide; simplify_eq. Qed.

Lemma Itoa_inj n m : is_int n → is_int m → Itoa n = Itoa m → n = m.
Proof.
  intros Hn Hm Heq. apply Atoi_Itoa in Hn, Hm. rewrite Heq in Hn. congruence.
Qed.

(** ** strings.Split, SplitN(s, sep, 2), Replace, Join, HasPrefix *)

Fixpoint Split (s : string) (sep : Ascii.ascii) : list string :=
  match s with
  | EmptyString => [EmptyString]
  | String c s =>
      if bool_decide (c = sep) then EmptyString :: Split s sep
      else match Split s sep with
           | x :: xs => String c x :: xs
           | [] => []
           end
  end.

(** The two parts around the first [sep], [None] when there is no separator. *)
Fixpoint Cut (s : string) (sep : Ascii.ascii) : option (string * string) :=
  match s with
  | EmptyString => None
  | String c s =>
      if bool_decide (c = sep) then Some (EmptyString, s)
      else '(x, y) ← Cut s sep; Some (String c x, y)
  end.

Definition SplitN2 (s : string) (sep : Ascii.ascii) : list string :=
  match Cut s sep with
  | Some (x, y) => [x; y]
  | None => [s]
  end.

Fixpoint ReplaceAll (s : string) (old new : Ascii.ascii) : string :=
  match s with
  | EmptyString => EmptyString
  | String c s => String (if bool_decide (c = old) then new else c) (ReplaceAll s old new)
  end.

Fixpoint Join (l : list string) (sep : string) : string :=
  match l with
  | [] => ""
  | [x] => x
  | x :: l => x +:+ sep +:+ Join l sep
  end.

Fixpoint contains_byte (s : string) (c : Ascii.ascii) : bool :=
  match s with
  | EmptyString => false
  | String a s => bool_decide (a = c) || contains_byte s c
  end.

Fixpoint HasPrefix (s prefix : string) : bool :=
  match prefix, s with
  | EmptyString, _ => true
  | String p ps, String c cs => bool_decide (p = c) && HasPrefix cs ps
  | String _ _, EmptyString => false
  end.

Lemma string_app_cons c s t : (String c s +:+ t) = String c (s +:+ t).
Proof. done. Qed.

Lemma string_app_nil_r s : s +:+ "" = s.
Proof. induction s as [|c s IH]; [done|]. by rewrite string_app_cons, IH. Qed.

Lemma string_app_assoc s t u : s +:+ (t +:+ u) = (s +:+ t) +:+ u.
Proof. induction s as [|c s IH]; [done|]. by rewrite !string_app_cons, IH. Qed.

Lemma contains_byte_app s t c :
  contains_byte (s +:+ t) c = contains_byte s c || contains_byte t c.
Proof.
  induction s as [|a s IH]; [done|].
  rewrite string_app_cons. simpl. rewrite IH. by destruct (bool_decide _).
Qed.

(** Cutting at the first separator. *)
Lemma Cut_app s t sep :
  contains_byte s sep = false → Cut (s +:+ String sep t) sep = Some (s, t).
Proof.
  induction s as [|c s IH]; simpl.
  { change ("" +:+ String sep t) with (String sep t). simpl. by rewrite bool_decide_true. }
  intros [Hc Hs]%orb_false_iff. by rewrite Hc, IH.
Qed.

Lemma Cut_None s sep : Cut s sep = None ↔ contains_byte s sep = false.
Proof.
  induction s as [|c s IH]; simpl; [done|].
  case_bool_decide; [done|]. simpl. rewrite <- IH.
  destruct (Cut s sep) as [[x y]|]; done.
Qed.

Lemma Cut_Some s sep x y :
  Cut s sep = Some (x, y) → s = x +:+ String sep y ∧ contains_byte x sep = false.
Proof.
  revert x. induction s as [|c s IH]; intros x; simpl; [done|].
  case_bool_decide; [intros; simplify_eq; done|]. intros Hcut.
  destruct (Cut s sep) as [[x' y']|]; simplify_option_eq.
  destruct (IH x' eq_refl) as [-> Hx]. done.
Qed.

Lemma Split_nonempty s sep : Split s sep ≠ [].
Proof.
  induction s as [|c s IH]; simpl; [done|]. case_bool_decide; [done|]. by case_match.
Qed.

(** The field after the first separator, as in [strings.Split(s, sep)[1]]. *)
Lemma Split_field1 s t sep :
  contains_byte s sep = false → contains_byte t sep = false →
  Split (s +:+ String sep t) sep = [s; t].
Proof.
  intros Hs Ht. assert (∀ u, contains_byte u sep = false → Split u sep = [u]) as Hone.
  { clear. induction u as [|c u IH]; simpl; [done|].
    intros [Hc Hu]%orb_false_iff. rewrite Hc, IH by done. done. }
  induction s as [|c s IH]; simpl in *.
  { change ("" +:+ String sep t) with (String sep t). simpl.
    rewrite bool_decide_true by done. by rewrite Hone. }
  apply orb_false_iff in Hs as [Hc Hs]. rewrite Hc. by rewrite IH.
Qed.

(** ** sort.Strings *)
Definition SortStrings (l : list string) : list string := merge_sort String.le l.

Lemma SortStrings_perm l : SortStrings l ≡ₚ l.
Proof. apply merge_sort_Permutation. Qed.

Lemma SortStrings_sorted l : StronglySorted String.le (SortStrings l).
Proof. apply StronglySorted_merge_sort; apply _. Qed.

(** Sorting forgets the order the strings came in. *)
Lemma SortStrings_order l1 l2 : l1 ≡ₚ l2 → SortStrings l1 = SortStrings l2.
Proof.
  intros Hp. apply (StronglySorted_unique String.le);
    [apply SortStrings_sorted.. |]. by rewrite !SortStrings_perm.
Qed.

#[export] Hint Resolve Atoi_Itoa Atoi_range Cut_app : rep.
