(* ===== verification/GoUrl.v ===== *)
(** [url.Parse] of Go's [net/url] (Go 1.8), as far as the rep observes it: the
    scheme, the opaque part, the raw query, and whether there is an error.
    The user info, host, path and fragment only decide whether the text is
    rejected, so their decoded values are not kept. *)

From S2P Require Import Prelude GoInt GoStrings.

#[local] Open Scope Z_scope.

Record URL := mkURL { Scheme : string; Opaque : string; RawQuery : string }.

#[global] Instance URL_eq_dec : EqDecision URL.
Proof. solve_decision. Defined.

(** Why a text is rejected; the rep only tests the error for nil. *)
Inductive url_error :=
| MissingProtocolScheme
| FirstSegmentColon
| EscapeError
| InvalidHost.

#[global] Instance url_error_eq_dec : EqDecision url_error.
Proof. solve_decision. Defined.

Definition code (c : Ascii.ascii) : Z := Z.of_N (Ascii.N_of_ascii c).

Definition is_lower (c : Ascii.ascii) : bool := (97 <=? code c) && (code c <=? 122).
Definition is_upper (c : Ascii.ascii) : bool := (65 <=? code c) && (code c <=? 90).
Definition is_digit (c : Ascii.ascii) : bool := (48 <=? code c) && (code c <=? 57).
Definition is_alpha (c : Ascii.ascii) : bool := is_lower c || is_upper c.
Definition is_scheme_extra (c : Ascii.ascii) : bool :=
  is_digit c || bool_decide (c = "+"%char) || bool_decide (c = "-"%char) || bool_decide (c = "."%char).

Definition to_lower (c : Ascii.ascii) : Ascii.ascii :=
  if is_upper c then Ascii.ascii_of_N (Ascii.N_of_ascii c + 32) else c.
Fixpoint ToLower (s : string) : string :=
  match s with
  | EmptyString => EmptyString
  | String c s => String (to_lower c) (ToLower s)
  end.

(** [getscheme]: the text before the first colon when it is a scheme name.
    [first] marks the first byte, [rest] is what is left to read; the result is
    [None] when the text has no scheme. *)
Fixpoint getscheme_loop (first : bool) (s : string) : result url_error (option (string * string)) :=
  match s with
  | EmptyString => Ok None
  | String c s =>
      if is_alpha c then
        r ← getscheme_loop false s;
        Ok (match r with Some (x, y) => Some (String c x, y) | None => None end)
      else if is_scheme_extra c then
        if first then Ok None else
        r ← getscheme_loop false s;
        Ok (match r with Some (x, y) => Some (String c x, y) | None => None end)
      else if bool_decide (c = ":"%char) then
        if first then Err MissingProtocolScheme else Ok (Some (EmptyString, s))
      else Ok None
  end.

Definition getscheme (rawurl : string) : result url_error (string * string) :=
  r ← getscheme_loop true rawurl;
  Ok (match r with Some (scheme, path) => (scheme, path) | None => (EmptyString, rawurl) end).

(** [split(s, c, true)]: the text before and after the first [c]. *)
Definition split (s : string) (c : Ascii.ascii) : string * string :=
  default (s, EmptyString) (Cut s c).

(** The text before and after the last [c]. *)
Fixpoint cut_last (s : string) (c : Ascii.ascii) : option (string * string) :=
  match s with
  | EmptyString => None
  | String a s =>
      match cut_last s c with
      | Some (x, y) => Some (String a x, y)
      | None => if bool_decide (a = c) then Some (EmptyString, s) else None
      end
  end.

Lemma cut_last_None t c : contains_byte t c = false → cut_last t c = None.
Proof.
  induction t as [|a t IH]; simpl; [done|]. intros [Ha Ht]%orb_false_iff.
  by rewrite IH, Ha.
Qed.

Lemma cut_last_app s t c : contains_byte t c = false → cut_last (s +:+ String c t) c = Some (s, t).
Proof.
  intros Ht. induction s as [|a s IH].
  - change ("" +:+ String c t) with (String c t). simpl.
    by rewrite cut_last_None, bool_decide_true.
  - rewrite string_app_cons. simpl. by rewrite IH.
Qed.

Definition is_hex (c : Ascii.ascii) : bool :=
  is_digit c || ((97 <=? code c) && (code c <=? 102)) || ((65 <=? code c) && (code c <=? 70)).
Definition unhex (c : Ascii.ascii) : Z :=
  if is_digit c then code c - 48
  else if is_lower c then code c - 97 + 10 else code c - 65 + 10.

Inductive encoding := encodePath | encodeUserPassword | encodeFragment | encodeHost | encodeZone.

(** [shouldEscape] for the two host modes, the only ones [unescape] consults. *)
Definition should_escape_host (c : Ascii.ascii) : bool :=
  negb (is_alpha c || is_digit c ||
        contains_byte "!$&'()*+,;=:[]<>-_.~" c || bool_decide (code c = 34)).

Definition is_host_mode (m : encoding) : bool :=
  match m with encodeHost | encodeZone => true | _ => false end.

(** Whether [unescape(s, mode)] returns without an error. *)
Fixpoint unescape_ok (m : encoding) (s : string) : result url_error unit :=
  match s with
  | EmptyString => Ok tt
  | String "%"%char (String a (String b s)) =>
      let v := unhex a * 16 + unhex b in
      if negb (is_hex a && is_hex b) then Err EscapeError
      else if match m with
              | encodeHost => (unhex a <? 8) && negb (v =? 37)
              | encodeZone => negb (v =? 37) && negb (v =? 32) &&
                              should_escape_host (Ascii.ascii_of_N (Z.to_N v))
              | _ => false
              end then Err EscapeError
      else unescape_ok m s
  | String "%"%char _ => Err EscapeError
  | String c s =>
      if is_host_mode m && (code c <? 128) && should_escape_host c then Err InvalidHost
      else unescape_ok m s
  end.

(** [validOptionalPort]: empty, or a colon and digits. *)
Fixpoint all_digits (s : string) : bool :=
  match s with EmptyString => true | String c s => is_digit c && all_digits s end.
Definition valid_optional_port (s : string) : bool :=
  match s with
  | EmptyString => true
  | String ":"%char s => all_digits s
  | _ => false
  end.

(** The first "%25", splitting the text in front of it. *)
Fixpoint cut_zone (s : string) : option (string * string) :=
  if HasPrefix s "%25" then Some (EmptyString, s)
  else match s with
       | EmptyString => None
       | String c s => '(x, y) ← cut_zone s; Some (String c x, y)
       end.

Definition parseHost (host : string) : result url_error unit :=
  match host with
  | String "["%char _ =>
      match cut_last host "]"%char with
      | None => Err InvalidHost
      | Some (before, after) =>
          if negb (valid_optional_port after) then Err InvalidHost
          else match cut_zone before with
               | Some (host1, host2) =>
                   _ ← unescape_ok encodeHost host1;
                   _ ← unescape_ok encodeZone host2;
                   unescape_ok encodeHost (String "]"%char after)
               | None => unescape_ok encodeHost host
               end
      end
  | _ => unescape_ok encodeHost host
  end.

Definition parseAuthority (authority : string) : result url_error unit :=
  match cut_last authority "@"%char with
  | None => parseHost authority
  | Some (userinfo, host) =>
      _ ← parseHost host;
      match Cut userinfo ":"%char with
      | None => unescape_ok encodeUserPassword userinfo
      | Some (username, password) =>
          _ ← unescape_ok encodeUserPassword username;
          unescape_ok encodeUserPassword password
      end
  end.

(** [strings.HasSuffix(rest, "?") && strings.Count(rest, "?") == 1] drops the
    mark with an empty query, which is what splitting at the first one gives. *)
Definition parse (rawurl : string) : result url_error URL :=
  if bool_decide (rawurl = "*") then Ok (mkURL "" "" "")
  else
    '(scheme, rest) ← getscheme rawurl;
    let scheme := ToLower scheme in
    let (rest, query) := split rest "?"%char in
    if negb (HasPrefix rest "/") && negb (bool_decide (scheme = "")) then
      Ok (mkURL scheme rest query)
    else if negb (HasPrefix rest "/") &&
            contains_byte (split rest "/"%char).1 ":"%char then Err FirstSegmentColon
    else
      if (negb (bool_decide (scheme = "")) || negb (HasPrefix rest "///")) && HasPrefix rest "//" then
        let after := match rest with String _ (String _ s) => s | _ => "" end in
        let (authority, path) := match Cut after "/"%char with
                                 | Some (a, p) => (a, String "/"%char p)
                                 | None => (after, "")
                                 end in
        _ ← parseAuthority authority;
        _ ← unescape_ok encodePath path;
        Ok (mkURL scheme "" query)
      else
        _ ← unescape_ok encodePath rest;
        Ok (mkURL scheme "" query).

Definition Parse (rawurl : string) : result url_error URL :=
  let (u, frag) := split rawurl "#"%char in
  url ← parse u;
  if bool_decide (frag = "") then Ok url
  else _ ← unescape_ok encodeFragment frag; Ok url.

(** ** Opaque URLs: [scheme:rest] *)

(** A lower-case scheme name: a letter, then letters, digits, "+", "-" or ".". *)
Fixpoint scheme_tail (s : string) : bool :=
  match s with
  | EmptyString => true
  | String c s => (is_lower c || is_scheme_extra c) && scheme_tail s
  end.
Definition scheme_name (s : string) : bool :=
  match s with EmptyString => false | String c s => is_lower c && scheme_tail s end.

Lemma scheme_name_tail s : scheme_name s = true → scheme_tail s = true.
Proof. destruct s as [|c s]; simpl; [done|]. intros [-> ->]%andb_true_iff. done. Qed.

(** The bytes of a scheme name are not upper-case, and are none of the separators. *)
Lemma scheme_char_cases c :
  is_lower c || is_scheme_extra c = true →
  is_upper c = false ∧ c ≠ ":"%char ∧ c ≠ "#"%char ∧ c ≠ "?"%char ∧ c ≠ "*"%char.
Proof.
  destruct c as [[] [] [] [] [] [] [] []]; vm_compute; (done || naive_solver).
Qed.

Lemma ToLower_scheme s : scheme_tail s = true → ToLower s = s.
Proof.
  induction s as [|c s IH]; simpl; [done|].
  intros [Hc Hs]%andb_true_iff. apply scheme_char_cases in Hc as [Hc _].
  unfold to_lower. rewrite Hc. by rewrite IH.
Qed.

Lemma getscheme_tail w rest :
  scheme_tail w = true →
  getscheme_loop false (w +:+ String ":"%char rest) = Ok (Some (w, rest)).
Proof.
  induction w as [|c w IH]; simpl; [done|].
  intros [Hc Hw]%andb_true_iff. unfold is_alpha.
  destruct (is_lower c); simpl in *; [by rewrite IH|].
  rewrite Hc, IH by done. by destruct (is_upper c).
Qed.

Lemma getscheme_name w rest :
  scheme_name w = true → getscheme (w +:+ String ":"%char rest) = Ok (w, rest).
Proof.
  destruct w as [|c w]; [done|]. simpl. intros [Hc Hw]%andb_true_iff.
  unfold getscheme. rewrite string_app_cons. simpl. unfold is_alpha. rewrite Hc. simpl.
  by rewrite getscheme_tail.
Qed.

Lemma scheme_tail_no_hash w : scheme_tail w = true → contains_byte w "#"%char = false.
Proof.
  induction w as [|a w IH]; simpl; [done|].
  intros [Ha Hw]%andb_true_iff. rewrite IH by done.
  apply scheme_char_cases in Ha as (_ & _ & Ha & _). by rewrite bool_decide_false.
Qed.

(** After the scheme, parsing is splitting at the query mark. *)
Lemma Parse_scheme scheme rest :
  scheme_name scheme = true → contains_byte rest "#"%char = false →
  HasPrefix (split rest "?"%char).1 "/" = false →
  Parse (scheme +:+ String ":"%char rest)
    = Ok (mkURL scheme (split rest "?"%char).1 (split rest "?"%char).2).
Proof.
  intros Hw Hr Hp. pose proof (scheme_name_tail _ Hw) as Ht. set (u := scheme +:+ _).
  assert (contains_byte u "#"%char = false) as Hfrag.
  { unfold u. rewrite contains_byte_app, scheme_tail_no_hash by done. done. }
  unfold Parse. unfold split at 1. rewrite (proj2 (Cut_None u _) Hfrag). simpl.
  unfold parse. rewrite bool_decide_false.
  2:{ unfold u. destruct scheme as [|c s]; [done|]. intros Heq.
      injection Heq as -> Hs. by destruct s. }
  unfold u. rewrite getscheme_name by done. simpl.
  rewrite ToLower_scheme by done.
  destruct (split rest "?"%char) as [r q]. simpl in *. rewrite Hp. simpl.
  rewrite bool_decide_false; [done|]. by intros ->.
Qed.

(** The text [scheme:opaque?query] parses to its three parts, whatever they
    hold, when no fragment mark occurs and the opaque part is not a path. *)
Lemma Parse_opaque scheme opaque query :
  scheme_name scheme = true →
  contains_byte opaque "#"%char = false → contains_byte query "#"%char = false →
  contains_byte opaque "?"%char = false → HasPrefix opaque "/" = false →
  Parse (scheme +:+ String ":"%char (opaque +:+ String "?"%char query))
    = Ok (mkURL scheme opaque query).
Proof.
  intros Hw Ho Hq Hoq Hp. rewrite Parse_scheme; [|done| |].
  - unfold split. by rewrite Cut_app.
  - rewrite contains_byte_app, Ho. simpl. by rewrite Hq.
  - unfold split. by rewrite Cut_app.
Qed.

Lemma Parse_opaque_no_query scheme opaque :
  scheme_name scheme = true →
  contains_byte opaque "#"%char = false →
  contains_byte opaque "?"%char = false → HasPrefix opaque "/" = false →
  Parse (scheme +:+ String ":"%char opaque) = Ok (mkURL scheme opaque "").
Proof.
  intros Hw Ho Hoq Hp. apply Cut_None in Hoq.
  rewrite Parse_scheme; unfold split; rewrite ?Hoq; done.
Qed.

Lemma Cut_app_later s t sep :
  contains_byte s sep = false →
  Cut (s +:+ t) sep = match Cut t sep with Some (x, y) => Some (s +:+ x, y) | None => None end.
Proof.
  induction s as [|c s IH]; cbn [contains_byte].
  { intros _. change ("" +:+ t) with t. by destruct (Cut t sep) as [[x y]|]. }
  intros [Hc Hs]%orb_false_iff. rewrite string_app_cons. simpl. rewrite Hc, IH by done.
  by destruct (Cut t sep) as [[]|].
Qed.

(** Whatever follows the scheme, a URL that parses has that scheme. *)
Lemma Parse_Scheme w rest url :
  scheme_name w = true → Parse (w +:+ String ":"%char rest) = Ok url → Scheme url = w.
Proof.
  intros Hw. pose proof (scheme_name_tail _ Hw) as Ht. unfold Parse.
  assert (∃ rest' frag, split (w +:+ String ":"%char rest) "#"%char = (w +:+ String ":"%char rest', frag))
    as (rest' & frag & ->).
  { unfold split. rewrite Cut_app_later by by apply scheme_tail_no_hash. simpl.
    destruct (Cut rest "#"%char) as [[x y]|]; eauto. }
  unfold parse. rewrite (bool_decide_false (_ = "*")).
  2: { destruct w as [|c s]; [done|]. intros Heq. injection Heq as -> Hs. by destruct s. }
  rewrite getscheme_name by done. simpl. rewrite ToLower_scheme by done.
  destruct (split rest' "?"%char) as [r q]. intros Hp.
  assert (∀ u : result url_error URL, (url ← u; if bool_decide (frag = "") then Ok url
    else _ ← unescape_ok encodeFragment frag; Ok url) = Ok url → u = Ok url) as Hfrag.
  { intros [u|]; simpl; [|done]. case_bool_decide; [done|]. by destruct (unescape_ok _ _). }
  apply Hfrag in Hp. clear Hfrag. repeat case_match; simplify_eq/=; try done.
  all: repeat match goal with H : context [mbind _ ?x] |- _ => destruct x; simplify_eq/= end; done.
Qed.

Example Parse_docker :
  Parse "docker://registry.example.com:5000/repo/img#tag" = Ok (mkURL "docker" "" "").
Proof. vm_compute. reflexivity. Qed.

Example Parse_bad_escape : Parse "/foo%zz" = Err EscapeError.
Proof. vm_compute. reflexivity. Qed.

Example Parse_missing_scheme : Parse ":foo" = Err MissingProtocolScheme.
Proof. vm_compute. reflexivity. Qed.

Example Parse_oci :
  Parse "preloaded+layer:cflinuxfs2?layer=http://file-server/d.tgz&layer_path=/"
  = Ok (mkURL "preloaded+layer" "cflinuxfs2" "layer=http://file-server/d.tgz&layer_path=/").
Proof. vm_compute. reflexivity. Qed.
