(* ===== verification/Effects.v ===== *)
(** Programs that call services of the environment.

    A handler of the rep is a finite tree: it returns, or makes one call and
    goes on with the reply.  Nothing is assumed about the services: [exec]
    relates a program to every conversation (sequence of calls with replies)
    it can have with an environment that may change its mind between calls,
    [run] plays it against a stateful environment and computes, and [wp] is the
    weakest precondition of a property of the conversation. *)

From S2P Require Import Prelude.

Section prog.
Context {call : Type} {reply : call → Type}.

Inductive prog (A : Type) : Type :=
| Ret (a : A)
| Do (c : call) (k : reply c → prog A).
#[global] Arguments Ret {A} a.
#[global] Arguments Do {A} c k.

Fixpoint prog_bind {A B} (f : A → prog B) (p : prog A) : prog B :=
  match p with
  | Ret a => f a
  | Do c k => Do c (λ r, prog_bind f (k r))
  end.

(** One call, returning its reply. *)
Definition do (c : call) : prog (reply c) := Do c Ret.

(** [for _, x := range l { body }] *)
Fixpoint for_each {A} (l : list A) (body : A → prog unit) : prog unit :=
  match l with
  | [] => Ret tt
  | x :: l => prog_bind (λ _, for_each l body) (body x)
  end.

(** The first [n] calls of a program that may be cut off: [None] when it did not
    finish.  A [select] between a goroutine and a timer is [within n] for a number
    that the timer decides. *)
Fixpoint within {A} (n : nat) (p : prog A) {struct p} : prog (option A) :=
  match p with
  | Ret a => Ret (Some a)
  | Do c k => match n with
              | 0 => Ret None
              | S n => Do c (λ r, within n (k r))
              end
  end.

(** ** Conversations *)
Definition event : Type := sigT reply.
Definition trace : Type := list event.

Definition calls (tr : trace) : list call := projT1 <$> tr.

Fixpoint exec {A} (p : prog A) (tr : trace) (a : A) : Prop :=
  match p with
  | Ret a' => tr = [] ∧ a = a'
  | Do c k => ∃ r tr', tr = existT c r :: tr' ∧ exec (k r) tr' a
  end.

Fixpoint wp {A} (p : prog A) (Q : trace → A → Prop) : Prop :=
  match p with
  | Ret a => Q [] a
  | Do c k => ∀ r, wp (k r) (λ tr a, Q (existT c r :: tr) a)
  end.

Fixpoint run {S A} (h : ∀ c, S → reply c * S) (p : prog A) (s : S) : trace * A * S :=
  match p with
  | Ret a => ([], a, s)
  | Do c k =>
      let (r, s) := h c s in
      let '(tr, a, s) := run h (k r) s in (existT c r :: tr, a, s)
  end.

Lemma wp_exec {A} (p : prog A) Q : wp p Q ↔ ∀ tr a, exec p tr a → Q tr a.
Proof.
  induction p as [a|c k IH] in Q |- *; simpl.
  - split; [by intros ? ?? [-> ->] | eauto].
  - split.
    + intros Hwp tr a (r & tr' & -> & Hex). by eapply (IH r) in Hex; [|apply Hwp].
    + intros Hex r. apply IH. intros tr a ?. apply Hex. eauto.
Qed.

(** For programs without a result. *)
Lemma exec_wp_unit (p : prog unit) (Q : trace → Prop) tr :
  exec p tr tt → wp p (λ tr _, Q tr) → Q tr.
Proof. rewrite wp_exec. eauto. Qed.

Lemma wp_mono {A} (p : prog A) (Q Q' : trace → A → Prop) :
  (∀ tr a, Q tr a → Q' tr a) → wp p Q → wp p Q'.
Proof. rewrite !wp_exec. eauto. Qed.

Lemma wp_and {A} (p : prog A) (Q Q' : trace → A → Prop) :
  wp p Q → wp p Q' → wp p (λ tr a, Q tr a ∧ Q' tr a).
Proof. rewrite !wp_exec. eauto. Qed.

Lemma wp_bind {A B} (f : A → prog B) (p : prog A) Q :
  wp (prog_bind f p) Q ↔ wp p (λ tr a, wp (f a) (λ tr' b, Q (tr ++ tr') b)).
Proof.
  induction p as [a|c k IH] in Q |- *; simpl; [done|].
  split; intros H r; specialize (H r); apply (IH r (λ tr b, Q (existT c r :: tr) b)); exact H.
Qed.

(** A conversation of a sequence is a conversation of each part. *)
Lemma exec_bind {A B} (f : A → prog B) (p : prog A) tr b :
  exec (prog_bind f p) tr b ↔
  ∃ tr1 a tr2, tr = tr1 ++ tr2 ∧ exec p tr1 a ∧ exec (f a) tr2 b.
Proof.
  induction p as [a|c k IH] in tr |- *; simpl.
  - split; [intros; by exists [], a, tr | by intros (? & ? & ? & -> & [-> ->] & ?)].
  - split.
    + intros (r & tr' & -> & (tr1 & a & tr2 & -> & ? & ?)%IH).
      exists (existT c r :: tr1), a, tr2. split; [done|]. eauto 10.
    + intros (? & a & tr2 & -> & (r & tr1 & -> & ?) & ?).
      exists r, (tr1 ++ tr2). split; [done|]. apply IH. eauto 10.
Qed.

(** Playing against an environment gives one of the conversations: every
    program ends, with a result, whatever the environment answers. *)
Lemma run_exec {S A} (h : ∀ c, S → reply c * S) (p : prog A) s :
  exec p (run h p s).1.1 (run h p s).1.2.
Proof.
  induction p as [a|c k IH] in s |- *; simpl; [done|].
  destruct (h c s) as [r s']. specialize (IH r s').
  destruct (run h (k r) s') as [[tr a] s'']. simpl in *. eauto.
Qed.

(** What holds of every answer of an environment holds of the events of a run. *)
Lemma run_Forall {S A} (h : ∀ c, S → reply c * S) (P : event → Prop) (p : prog A) s :
  (∀ c s, P (existT c (h c s).1)) → Forall P (run h p s).1.1.
Proof.
  intros HP. induction p as [a|c k IH] in s |- *; simpl; [constructor|]. pose proof (HP c s) as Hc.
  destruct (h c s) as [r s']. specialize (IH r s'). destruct (run h (k r) s') as [[tr a] s''].
  by constructor.
Qed.

Lemma run_bind {S A B} (h : ∀ c, S → reply c * S) (f : A → prog B) (p : prog A) s :
  run h (prog_bind f p) s =
    let '(tr1, a, s1) := run h p s in
    let '(tr2, b, s2) := run h (f a) s1 in (tr1 ++ tr2, b, s2).
Proof.
  induction p as [a|c k IH] in s |- *; simpl.
  { by destruct (run h (f a) s) as [[tr b] s']. }
  destruct (h c s) as [r s']. rewrite IH.
  destruct (run h (k r) s') as [[tr1 a] s1].
  by destruct (run h (f a) s1) as [[tr2 b] s2].
Qed.

Lemma calls_app tr1 tr2 : calls (tr1 ++ tr2) = calls tr1 ++ calls tr2.
Proof. apply fmap_app. Qed.

Lemma calls_cons e tr : calls (e :: tr) = projT1 e :: calls tr.
Proof. done. Qed.

(** A loop whose body's conversations all satisfy a property of single events. *)
Lemma wp_for_each {A} (l : list A) body (P : event → Prop) :
  (∀ x, x ∈ l → wp (body x) (λ tr _, Forall P tr)) →
  wp (for_each l body) (λ tr _, Forall P tr).
Proof.
  induction l as [|x l IH]; simpl; intros H; [constructor|].
  apply wp_bind. eapply wp_mono; [|apply H; set_solver].
  intros tr ? Htr. eapply wp_mono; [|apply IH; set_solver].
  intros tr' ? Htr'. by apply Forall_app.
Qed.

(** [guarded need act tr]: in [tr], no event of [act] happens before one of [need]. *)
Fixpoint guarded (need act : event → bool) (tr : trace) : bool :=
  match tr with
  | [] => true
  | e :: tr => if need e then true else negb (act e) && guarded need act tr
  end.

Lemma guarded_spec need act tr :
  guarded need act tr = true ↔
  ∀ pre e post, tr = pre ++ e :: post → act e = true → need e = false →
    ∃ e', e' ∈ pre ∧ need e' = true.
Proof.
  induction tr as [|x tr IH]; simpl.
  { split; [|done]. intros _ [] ???; simplify_eq. }
  destruct (need x) eqn:Hn.
  - split; [|done]. intros _ [|y pre] e post ???; simplify_eq/=; [congruence|].
    exists y. set_solver.
  - rewrite andb_true_iff, negb_true_iff, IH. split.
    + intros [Ha Htr] [|y pre] e post ???; simplify_eq/=; [congruence|].
      destruct (Htr pre e post) as (e' & ? & ?); [done..|]. exists e'. set_solver.
    + intros H. split.
      * destruct (act x) eqn:Ha; [|done].
        destruct (H [] x tr) as (? & ?%elem_of_nil & _); done.
      * intros pre e post ???. destruct (H (x :: pre) e post) as (e' & Hin & ?); [by subst|done..|].
        apply elem_of_cons in Hin as [->|Hin]; [congruence|eauto].
Qed.

(** A program that finished in time behaved as without the limit. *)
Lemma within_Some {A} n (p : prog A) tr a :
  exec (within n p) tr (Some a) → exec p tr a ∧ length tr ≤ n.
Proof.
  induction p as [a'|c k IH] in n, tr |- *; simpl; [intros [-> [= ->]]; split; [done|simpl; lia]|].
  destruct n as [|n]; simpl; [by intros [_ ?]|].
  intros (r & tr' & -> & [Hex Hlen]%IH). split; [eauto|simpl; lia].
Qed.

Lemma within_None {A} n (p : prog A) tr : exec (within n p) tr None → length tr = n.
Proof.
  induction p as [a'|c k IH] in n, tr |- *; simpl; [by intros [_ ?]|].
  destruct n as [|n]; simpl; [by intros [-> _]|]. intros (r & tr' & -> & Hex%IH). simpl. lia.
Qed.

(** The calls of a loop whose body makes one fixed call and ignores the reply. *)
Lemma exec_for_each_calls {A} (l : list A) (f : A → call) tr :
  exec (for_each l (λ x, Do (f x) (λ _, Ret tt))) tr tt → calls tr = f <$> l.
Proof.
  induction l as [|x l IH] in tr |- *; simpl; [by intros [-> _]|].
  intros (r & tr' & -> & Hex). cbn. f_equal. by apply IH.
Qed.

Lemma guarded_never need act tr :
  Forall (λ e, act e = false) tr → guarded need act tr = true.
Proof. induction 1 as [|e tr He _ IH]; simpl; [done|]. rewrite He, IH. by destruct (need e). Qed.

(** One element's part of a loop. *)
Lemma exec_for_each_elem {A} (l : list A) (body : A → prog unit) tr x :
  exec (for_each l body) tr tt → x ∈ l → ∃ sub, exec (body x) sub tt ∧ sub ⊆ tr.
Proof.
  induction l as [|y l IH] in tr |- *; simpl; [by intros _ ?%elem_of_nil|].
  intros (tr1 & [] & tr2 & -> & Hy & Hl)%exec_bind [->|Hin]%elem_of_cons.
  - exists tr1. split; [done|]. by apply list_subseteq_app_l.
  - destruct (IH _ Hl Hin) as (sub & Hsub & Hs). exists sub. split; [done|]. set_solver.
Qed.

End prog.

Arguments prog {call} reply A.
Arguments event {call} reply.
Arguments trace {call} reply.

(** Sequencing, as the statements of a function body follow each other. *)
Declare Scope prog_scope.
Delimit Scope prog_scope with prog.
Bind Scope prog_scope with prog.
Notation "'let*' x := p 'in' k" := (prog_bind (λ x, k) p)
  (at level 200, x pattern, p at level 100, k at level 200) : prog_scope.
Open Scope prog_scope.

(** Turns a goal about the conversation of the hypothesis [H] into a [wp] goal. *)
Ltac to_wp H :=
  lazymatch type of H with
  | exec ?p ?tr tt => pattern tr; apply (exec_wp_unit p _ _ H); clear H
  end.

(** Reduces a [wp] goal to one subgoal per branch of the program, the replies
    introduced and every decision on them split. *)
Ltac wp_simpl :=
  cbn [wp prog_bind do app negb].
Ltac wp_go :=
  repeat (wp_simpl; match goal with
  | |- ∀ _, _ => intros ?
  | |- wp (if negb ?b then _ else _) _ => destruct b eqn:?
  | |- wp (match ?x with _ => _ end) _ => destruct x eqn:?
  | |- context [prog_bind _ (match ?x with _ => _ end)] => destruct x eqn:?
  | |- wp (if ?b then _ else _) _ => destruct b eqn:?
  end); wp_simpl.
