(* ===== verification/Concurrency.v ===== *)
(** Programs that run at the same time.

    The goroutines of the rep, and whatever else talks to the same services, take
    turns: one call is answered, then another, perhaps of another thread.  A
    [history] is the sequence of calls that a service answered; the events of a
    shared history carry the number of the thread that made the call, and
    [of_thread] is what one thread saw.  [schedule] executes a pool of threads,
    one step at a time, in a given order. *)

From S2P Require Import Prelude Effects.

Section concurrency.
Context {call : Type} {reply : call → Type} {St : Type} (h : ∀ c, St → reply c * St).

(** [history s tr s']: the service in state [s] answers the calls of [tr] as in
    [tr], and is then in state [s']. *)
Fixpoint history (s : St) (tr : trace reply) (s' : St) : Prop :=
  match tr with
  | [] => s' = s
  | existT c r :: tr => r = (h c s).1 ∧ history (h c s).2 tr s'
  end.

Lemma history_app s tr1 tr2 s' :
  history s (tr1 ++ tr2) s' ↔ ∃ s1, history s tr1 s1 ∧ history s1 tr2 s'.
Proof.
  induction tr1 as [|[c r] tr1 IH] in s |- *; simpl.
  - split; [eauto|by intros (? & -> & ?)].
  - rewrite IH. naive_solver.
Qed.

Lemma run_history {A} (p : prog reply A) s : history s (run h p s).1.1 (run h p s).2.
Proof.
  induction p as [a|c k IH] in s |- *; simpl; [done|]. specialize (IH (h c s).1 (h c s).2).
  destruct (h c s) as [r s'] eqn:Hc. simpl in *. destruct (run h (k r) s') as [[tr a] s'']. simpl in *. by rewrite Hc.
Qed.

(** What holds of every answer of a service holds of the events of its histories. *)
Lemma history_Forall (P : event reply → Prop) s tr s' :
  (∀ c s, P (existT c (h c s).1)) → history s tr s' → Forall P tr.
Proof.
  intros HP. induction tr as [|[c r] tr IH] in s |- *; simpl; [constructor|].
  intros [-> Hh]. constructor; eauto.
Qed.

(** ** Tracing a fact of the final state back through a history

    [P] is a fact of the service that only the calls of [causes] bring about. *)
Section origin.
Context (valid P : St → Prop) (causes : call → Prop).
Context (h_valid : ∀ c s, valid s → valid (h c s).2).
Context (h_origin : ∀ c s, valid s → P (h c s).2 → P s ∨ causes c).

Definition caused (tr : trace reply) : Prop := Exists (λ e, causes (projT1 e)) tr.

Lemma history_valid s tr s' : history s tr s' → valid s → valid s'.
Proof using h_valid.
  induction tr as [|[c r] tr IH] in s |- *; simpl; [by intros ->|]. intros [_ Hh] Hs. eauto.
Qed.

Lemma history_origin s tr s' : history s tr s' → valid s → P s' → caused tr ∨ P s.
Proof using h_valid h_origin.
  induction tr as [|[c r] tr IH] in s |- *; simpl; [intros ->; by right|]. intros [_ Hh] Hs Hp.
  destruct (IH _ Hh (h_valid c s Hs) Hp) as [|[|]%h_origin]; [|by right|..|done].
  - left. by apply Exists_cons_tl.
  - left. by apply Exists_cons_hd.
Qed.

(** It also held right after every call of the history, or was caused by it. *)
Lemma history_event s tr s' e :
  history s tr s' → valid s → e ∈ tr → P s' →
  caused tr ∨ ∃ s1, valid s1 ∧ (h (projT1 e) s1).1 = projT2 e ∧ P (h (projT1 e) s1).2.
Proof using h_valid h_origin.
  induction tr as [|[c r] tr IH] in s |- *; simpl; [by intros _ _ ?%elem_of_nil|].
  intros [Hr Hh] Hs Hin Hp. pose proof (h_valid c s Hs) as Hs'. apply elem_of_cons in Hin as [->|Hin].
  - destruct (history_origin _ _ _ Hh Hs' Hp); [left; by apply Exists_cons_tl|]. right. by exists s.
  - destruct (IH _ Hh Hs' Hin Hp); [left; by apply Exists_cons_tl|by right].
Qed.

End origin.

(** Every event of a history is the answer of a valid state. *)
Lemma history_answered (valid : St → Prop) s tr s' e :
  (∀ c s, valid s → valid (h c s).2) → history s tr s' → valid s → e ∈ tr →
  ∃ s1, valid s1 ∧ (h (projT1 e) s1).1 = projT2 e.
Proof.
  intros Hv Hh Hs He.
  destruct (history_event valid (λ _, True) (λ _, False) Hv (λ _ _ _ _, or_introl I) s tr s' e Hh Hs He I)
    as [Hc|(s1 & ? & ? & _)]; [|eauto].
  unfold caused in Hc. by apply Exists_exists in Hc as (? & _ & []).
Qed.

(** ** Threads *)
#[local] Notation shared := (list (nat * event reply)).

Definition of_thread (i : nat) (tr : shared) : trace reply := (filter (λ e, e.1 = i) tr).*2.
Definition by_thread (i : nat) (tr : trace reply) : shared := (i,.) <$> tr.

Lemma of_thread_subseteq i tr : of_thread i tr ⊆ tr.*2.
Proof.
  intros e (x & -> & [_ Hx]%list_elem_of_filter)%list_elem_of_fmap. by apply list_elem_of_fmap_2.
Qed.

Lemma of_thread_app i tr1 tr2 : of_thread i (tr1 ++ tr2) = of_thread i tr1 ++ of_thread i tr2.
Proof. unfold of_thread. by rewrite list.filter_app, fmap_app. Qed.

Lemma of_thread_cons i j e tr :
  of_thread i ((j, e) :: tr) = if decide (j = i) then e :: of_thread i tr else of_thread i tr.
Proof. unfold of_thread. rewrite filter_cons. simpl. by case_decide. Qed.

Lemma elem_of_thread i e tr : e ∈ of_thread i tr ↔ (i, e) ∈ tr.
Proof.
  unfold of_thread. rewrite list_elem_of_fmap. setoid_rewrite list_elem_of_filter. split.
  - by intros ([j e'] & -> & <- & ?).
  - intros. by exists (i, e).
Qed.

(** The first event of a thread, in the history that it is part of. *)
Lemma of_thread_head i e l tr :
  of_thread i tr = e :: l →
  ∃ tr1 tr2, tr = tr1 ++ (i, e) :: tr2 ∧ of_thread i tr1 = [] ∧ of_thread i tr2 = l.
Proof.
  induction tr as [|[j e'] tr IH]; [done|]. rewrite of_thread_cons. case_decide as Hj.
  - subst j. intros He. injection He as -> <-. by exists [], tr.
  - intros (tr1 & tr2 & -> & H1 & H2)%IH. exists ((j, e') :: tr1), tr2.
    by rewrite of_thread_cons, decide_False.
Qed.

(** Thread [j] makes a call between two calls of thread [i]. *)
Fixpoint since (i : nat) (tr : shared) : shared :=
  match tr with
  | [] => []
  | (j, _) :: tr => if decide (j = i) then tr else since i tr
  end.

Definition interrupts (j i : nat) (tr : shared) : bool :=
  negb (Nat.eqb (length (of_thread i (since j (since i tr)))) 0).

Lemma since_suffix i e tr1 tr2 : ∃ tr, since i (tr1 ++ (i, e) :: tr2) = tr ++ tr2.
Proof.
  induction tr1 as [|[j e'] tr1 [tr IH]]; simpl; [rewrite decide_True by done; by exists []|].
  case_decide; [|by exists tr]. exists (tr1 ++ [(i, e)]). by rewrite <-app_assoc.
Qed.

Lemma interrupts_spec i j e x e' tr1 tr2 tr3 tr4 :
  interrupts j i (tr1 ++ (i, e) :: tr2 ++ (j, x) :: tr3 ++ (i, e') :: tr4) = true.
Proof.
  unfold interrupts. destruct (since_suffix i e tr1 (tr2 ++ (j, x) :: tr3 ++ (i, e') :: tr4)) as [l ->].
  rewrite app_assoc. destruct (since_suffix j x (l ++ tr2) (tr3 ++ (i, e') :: tr4)) as [l' ->].
  rewrite app_assoc, of_thread_app, of_thread_cons, decide_True, length_app by done. simpl.
  by rewrite Nat.add_succ_r.
Qed.

Lemma of_thread_filter (Q : event reply → Prop) `{∀ e, Decision (Q e)} i tr :
  length (filter (λ x, x.1 = i ∧ Q x.2) tr) = length (filter Q (of_thread i tr)).
Proof. apply (filter_indexed Q i tr). Qed.

Lemma of_by_thread i tr : of_thread i (by_thread i tr) = tr.
Proof. induction tr as [|e tr IH]; [done|]. simpl. rewrite of_thread_cons, decide_True by done. by f_equal. Qed.

Lemma by_thread_events i tr : (by_thread i tr).*2 = tr.
Proof. unfold by_thread. rewrite <-list_fmap_compose. apply list_fmap_id. Qed.

(** ** A scheduler *)
Section pool.
Context {A : Type}.

(** One step of thread [i]: nothing when it has returned, or is not there. *)
Definition thread_step (i : nat) (ps : list (prog reply A)) (s : St) :
    option (event reply * list (prog reply A) * St) :=
  match ps !! i with
  | Some (Do c k) => Some (existT c (h c s).1, <[i := k (h c s).1]> ps, (h c s).2)
  | _ => None
  end.

Fixpoint schedule (turns : list nat) (ps : list (prog reply A)) (s : St) : shared * list (prog reply A) * St :=
  match turns with
  | [] => ([], ps, s)
  | i :: turns =>
      match thread_step i ps s with
      | None => schedule turns ps s
      | Some (e, ps, s) => let '(tr, ps, s) := schedule turns ps s in ((i, e) :: tr, ps, s)
      end
  end.

(** What a schedule computes is a history, and ... *)
Lemma schedule_history turns ps s :
  let '(tr, _, s') := schedule turns ps s in history s tr.*2 s'.
Proof.
  induction turns as [|i turns IH] in ps, s |- *; simpl; [done|]. unfold thread_step.
  destruct (ps !! i) as [[a|c k]|]; [by apply IH| |by apply IH].
  specialize (IH (<[i:=k (h c s).1]> ps) (h c s).2). destruct (schedule turns _ _) as [[tr ps'] s']. by split.
Qed.

(** ... every thread has a conversation with the service: what it has left to do
    completes what it did. *)
Lemma schedule_threads turns ps s i p :
  ps !! i = Some p →
  let '(tr, ps', _) := schedule turns ps s in
  ∃ p', ps' !! i = Some p' ∧ ∀ tr' a, exec p' tr' a → exec p (of_thread i tr ++ tr') a.
Proof.
  induction turns as [|j turns IH] in ps, s, p |- *; simpl; intros Hp; [by exists p|]. unfold thread_step.
  destruct (ps !! j) as [[a|c k]|] eqn:Hj; [by apply IH| |by apply IH].
  destruct (decide (j = i)) as [->|Hne].
  - specialize (IH (<[i:=k (h c s).1]> ps) (h c s).2 (k (h c s).1)).
    destruct (schedule turns _ _) as [[tr ps'] s'].
    destruct IH as (p' & Hp' & Hex); [by apply list_lookup_insert_eq, (lookup_lt_Some _ _ _ Hp)|].
    exists p'. split; [done|]. intros tr' a Ha. rewrite of_thread_cons, decide_True by done.
    simplify_eq. simpl. eauto.
  - specialize (IH (<[j:=k (h c s).1]> ps) (h c s).2 p).
    destruct (schedule turns _ _) as [[tr ps'] s'].
    destruct IH as (p' & Hp' & Hex); [by rewrite list_lookup_insert_ne|].
    exists p'. split; [done|]. by rewrite of_thread_cons, decide_False.
Qed.

Definition returned (p : prog reply A) : bool := match p with Ret _ => true | Do _ _ => false end.
Definition finished (ps : list (prog reply A)) : bool := forallb returned ps.

Lemma finished_spec ps i p : finished ps = true → ps !! i = Some p → ∃ a, p = Ret a.
Proof.
  unfold finished. rewrite forallb_forall. intros Hf Hi%list_elem_of_lookup_2%list_elem_of_In%Hf.
  destruct p as [a|c k]; [by exists a|done].
Qed.

(** A pool that runs one program per element of a list. *)
Lemma schedule_executes {B} (f : B → prog reply A) (l : list B) turns s :
  finished (schedule turns (f <$> l) s).1.2 = true →
  ∀ x, x ∈ l → ∃ i a, exec (f x) (of_thread i (schedule turns (f <$> l) s).1.1) a.
Proof.
  intros Hf x [i Hi]%list_elem_of_lookup.
  assert ((f <$> l) !! i = Some (f x)) as Hp by by rewrite list_lookup_fmap, Hi.
  pose proof (schedule_threads turns (f <$> l) s i (f x) Hp) as Ht.
  destruct (schedule turns (f <$> l) s) as [[tr ps'] s']. simpl in *. destruct Ht as (p' & Hp' & Hex).
  destruct (finished_spec _ _ _ Hf Hp') as [a ->]. exists i, a. rewrite <-(app_nil_r (of_thread i tr)). by apply Hex.
Qed.

(** A call of a pool is made by one of its threads. *)
Lemma schedule_owned turns ps s i e : (i, e) ∈ (schedule turns ps s).1.1 → i < length ps.
Proof.
  induction turns as [|j turns IH] in ps, s |- *; simpl; [by intros ?%elem_of_nil|]. unfold thread_step.
  destruct (ps !! j) as [[a|c k]|] eqn:Hj; [apply IH| |apply IH].
  specialize (IH (<[j:=k (h c s).1]> ps) (h c s).2). rewrite length_insert in IH.
  destruct (schedule turns _ _) as [[tr ps'] s']. simpl in *. intros [[= -> _]|Hin]%elem_of_cons; [|auto].
  by eapply lookup_lt_Some.
Qed.

Lemma schedule_events {B} (f : B → prog reply A) (l : list B) turns s e :
  finished (schedule turns (f <$> l) s).1.2 = true → e ∈ (schedule turns (f <$> l) s).1.1.*2 →
  ∃ x i a, x ∈ l ∧ e ∈ of_thread i (schedule turns (f <$> l) s).1.1 ∧
    exec (f x) (of_thread i (schedule turns (f <$> l) s).1.1) a.
Proof.
  intros Hf ([i e'] & -> & He)%list_elem_of_fmap. pose proof (schedule_owned _ _ _ _ _ He) as Hi.
  rewrite length_fmap in Hi. apply lookup_lt_is_Some_2 in Hi as [x Hx].
  pose proof (schedule_threads turns (f <$> l) s i (f x)) as Ht. apply elem_of_thread in He.
  destruct (schedule turns (f <$> l) s) as [[tr ps'] s']. simpl in *.
  destruct Ht as (p' & Hp' & Hex); [by rewrite list_lookup_fmap, Hx|].
  destruct (finished_spec _ _ _ Hf Hp') as [a ->]. exists x, i, a.
  split_and!; [by eapply list_elem_of_lookup_2|done|]. rewrite <-(app_nil_r (of_thread i tr)). by apply Hex.
Qed.

(** ** Turns

    A thread that makes at most [n] calls, whatever it is answered, has returned
    after [n] turns, whoever else had turns in between. *)
Definition turns_of (i : nat) (turns : list nat) : nat := length (filter (λ j, j = i) turns).

Definition calls_at_most (n : nat) (p : prog reply A) : Prop := wp p (λ tr _, length tr ≤ n).

Lemma calls_at_most_step n c k s :
  calls_at_most n (Do c k) → ∃ n', n = S n' ∧ calls_at_most n' (k (h c s).1).
Proof.
  intros Hw. specialize (Hw (h c s).1). destruct n as [|n].
  - exfalso. pose proof (proj1 (wp_exec _ _) Hw _ _ (run_exec h (k (h c s).1) s)) as Hl. simpl in Hl. lia.
  - exists n. split; [done|]. eapply wp_mono; [|exact Hw]. simpl. intros; lia.
Qed.

Lemma turns_of_cons i j turns : turns_of i (j :: turns) = (if decide (j = i) then 1 else 0) + turns_of i turns.
Proof. unfold turns_of. rewrite filter_cons. by case_decide. Qed.

Lemma schedule_returns turns ps s i p n :
  ps !! i = Some p → calls_at_most n p → n ≤ turns_of i turns →
  ∃ a, (schedule turns ps s).1.2 !! i = Some (Ret a).
Proof.
  induction turns as [|j turns IH] in ps, s, p, n |- *; intros Hi Hn Ht.
  { destruct p as [a|c k]; [by exists a|]. apply (calls_at_most_step n c k s) in Hn as (n' & -> & _). by inversion Ht. }
  rewrite turns_of_cons in Ht. simpl. unfold thread_step.
  destruct (ps !! j) as [[a|c k]|] eqn:Hj.
  - case_decide as Hji; [|by eapply IH]. subst j. simplify_eq. eapply (IH ps s (Ret a) 0); [done|simpl; unfold calls_at_most; simpl; lia|lia].
  - destruct (decide (j = i)) as [->|Hne].
    + simplify_eq. apply (calls_at_most_step n c k s) in Hn as (n' & -> & Hn').
      destruct (IH (<[i:=k (h c s).1]> ps) (h c s).2 (k (h c s).1) n') as [a Ha]; [|done|lia|].
      { by apply list_lookup_insert_eq, (lookup_lt_Some _ _ _ Hi). }
      exists a. by destruct (schedule turns _ _) as [[tr ps'] s'].
    + destruct (IH (<[j:=k (h c s).1]> ps) (h c s).2 p n) as [a Ha]; [by rewrite list_lookup_insert_ne|done|lia|].
      exists a. by destruct (schedule turns _ _) as [[tr ps'] s'].
  - case_decide as Hji; [subst j; congruence|]. by eapply IH.
Qed.

Lemma schedule_length turns ps s : length (schedule turns ps s).1.2 = length ps.
Proof.
  induction turns as [|j turns IH] in ps, s |- *; simpl; [done|]. unfold thread_step.
  destruct (ps !! j) as [[a|c k]|]; [apply IH| |apply IH].
  specialize (IH (<[j:=k (h c s).1]> ps) (h c s).2). rewrite length_insert in IH.
  by destruct (schedule turns _ _) as [[tr ps'] s'].
Qed.

Lemma schedule_all_return n turns ps s :
  Forall (calls_at_most n) ps → (∀ i, i < length ps → n ≤ turns_of i turns) →
  finished (schedule turns ps s).1.2 = true.
Proof.
  intros Hps Ht. unfold finished. apply forallb_forall. intros p Hp%list_elem_of_In.
  apply list_elem_of_lookup in Hp as [i Hi]. pose proof (lookup_lt_Some _ _ _ Hi) as Hlt.
  rewrite schedule_length in Hlt. destruct (lookup_lt_is_Some_2 ps i Hlt) as [q Hq].
  rewrite Forall_lookup in Hps. destruct (schedule_returns turns ps s i q n Hq (Hps _ _ Hq) (Ht _ Hlt)) as [a Ha].
  by simplify_eq.
Qed.

(** And all the threads together make no more calls than each of them may. *)
Lemma sum_list_spend ns i n : ns !! i = Some (S n) → S (sum_list (<[i := n]> ns)) = sum_list ns.
Proof.
  induction ns as [|m ns IH] in i |- *; [done|]. destruct i as [|i]; simpl; [by intros [= ->]|].
  intros Hi. rewrite <-(IH _ Hi). lia.
Qed.

Lemma schedule_calls turns ps ns s :
  Forall2 calls_at_most ns ps → length (schedule turns ps s).1.1 ≤ sum_list ns.
Proof.
  induction turns as [|j turns IH] in ps, ns, s |- *; intros Hn; simpl; [lia|]. unfold thread_step.
  destruct (ps !! j) as [[a|c k]|] eqn:Hj; [by apply IH| |by apply IH].
  destruct (Forall2_lookup_r _ _ _ _ _ Hn Hj) as (n & Hi & Hc).
  apply (calls_at_most_step n c k s) in Hc as (n' & -> & Hc).
  specialize (IH _ (<[j:=n']> ns) (h c s).2 (Forall2_insert _ _ _ _ _ j Hn Hc)).
  pose proof (sum_list_spend _ _ _ Hi). destruct (schedule turns _ _) as [[tr ps'] s']. simpl in *. lia.
Qed.

Lemma schedule_calls_each n turns ps s :
  Forall (calls_at_most n) ps → length (schedule turns ps s).1.1 ≤ n * length ps.
Proof.
  intros Hps. etrans; [apply (schedule_calls _ _ (replicate (length ps) n))|].
  - induction Hps; by constructor.
  - clear Hps. induction (length ps) as [|m IH]; simpl; lia.
Qed.

(** ** Every pool finishes

    Whichever thread moves, and whatever it is answered, the pool gets smaller in
    a well-founded order: there is no infinite execution. *)
Definition pool_step (ps' ps : list (prog reply A)) : Prop :=
  ∃ i, match ps !! i with
       | Some (Do c k) => ∃ r, ps' = <[i := k r]> ps
       | _ => False
       end.

Lemma pool_step_wf : well_founded pool_step.
Proof.
  intros ps. induction ps as [|p ps IH]; [constructor; by intros ? [i Hi]|].
  revert p. induction IH as [ps Hps IHps]. intros p.
  induction p as [a|c k IHp]; constructor; intros ps' [[|i] Hi]; simpl in *.
  - done.
  - destruct (ps !! i) as [[a'|c k]|] eqn:Hp; [done| |done]. destruct Hi as [r ->].
    apply IHps. exists i. rewrite Hp. eauto.
  - destruct Hi as [r ->]. apply IHp.
  - destruct (ps !! i) as [[a'|c' k']|] eqn:Hp; [done| |done]. destruct Hi as [r ->].
    apply IHps. exists i. rewrite Hp. eauto.
Qed.

Lemma thread_step_pool_step i ps s e ps' s' :
  thread_step i ps s = Some (e, ps', s') → pool_step ps' ps.
Proof. unfold thread_step. intros. exists i. repeat case_match; simplify_eq. eauto. Qed.

(** So there is a schedule that runs every thread to its end. *)
Lemma schedule_finishes ps s : ∃ turns, finished (schedule turns ps s).1.2 = true.
Proof.
  induction (pool_step_wf ps) as [ps _ IH] in s |- *.
  destruct (finished ps) eqn:Hf; [by exists []|].
  assert (∃ i e ps' s', thread_step i ps s = Some (e, ps', s')) as (i & e & ps' & s' & Hs).
  { clear IH. induction ps as [|p ps IHps]; [done|]. destruct p as [a|c k]; [|by exists 0; eexists _, _, _].
    destruct IHps as (i & e & ps' & s' & Hs); [done|]. exists (S i). unfold thread_step in *. simpl.
    destruct (ps !! i) as [[]|]; [done| |done]. by eexists _, _, _. }
  destruct (IH ps' (thread_step_pool_step _ _ _ _ _ _ Hs) s') as [turns Ht]. exists (i :: turns). simpl. rewrite Hs.
  by destruct (schedule turns ps' s') as [[tr ps''] s''].
Qed.

Lemma schedule_app turns1 turns2 ps s :
  schedule (turns1 ++ turns2) ps s =
    let '(tr1, ps1, s1) := schedule turns1 ps s in
    let '(tr2, ps2, s2) := schedule turns2 ps1 s1 in (tr1 ++ tr2, ps2, s2).
Proof.
  induction turns1 as [|i turns IH] in ps, s |- *; simpl.
  { by destruct (schedule turns2 ps s) as [[tr2 ps2] s2]. }
  destruct (thread_step i ps s) as [[[e ps'] s']|]; [|apply IH]. rewrite IH.
  destruct (schedule turns ps' s') as [[tr1 ps1] s1]. by destruct (schedule turns2 ps1 s1) as [[tr2 ps2] s2].
Qed.

End pool.
End concurrency.

(** A shared history: events with the number of the thread that made the call. *)
Notation shared reply := (list (nat * event reply)).
