(* ===== verification/GoJson.v ===== *)
(** JSON as Go's [encoding/json] reads it: documents as trees, a parser from
    text, and the decoding rules the rep relies on (objects into maps, arrays
    into slices, field names matched without regard to case, [null] leaving the
    zero value).  Numbers keep their literal; bytes that are not UTF-8 are read as
    U+FFFD. *)

From S2P Require Import Prelude GoInt GoStrings GoUrl.

#[local] Open Scope Z_scope.

Inductive json : Type :=
| JNull
| JBool (b : bool)
| JNumber (lit : string)
| JString (s : string)
| JArray (l : list json)
| JObject (fields : list (string * json)).

(** ** Text to tree *)

Definition is_space (c : Ascii.ascii) : bool :=
  (code c =? 32) || (code c =? 9) || (code c =? 10) || (code c =? 13).

Fixpoint skip_space (s : string) : string :=
  match s with
  | String c s' => if is_space c then skip_space s' else s
  | EmptyString => EmptyString
  end.

Definition byte (n : Z) : Ascii.ascii := Ascii.ascii_of_N (Z.to_N n).

(** The UTF-8 encoding of a code point, in front of [s]. *)
Definition utf8 (n : Z) (s : string) : string :=
  if n <? 128 then String (byte n) s
  else if n <? 2048 then String (byte (192 + n / 64)) (String (byte (128 + n mod 64)) s)
  else if n <? 65536 then
    String (byte (224 + n / 4096)) (String (byte (128 + n / 64 mod 64))
      (String (byte (128 + n mod 64)) s))
  else String (byte (240 + n / 262144)) (String (byte (128 + n / 4096 mod 64))
      (String (byte (128 + n / 64 mod 64)) (String (byte (128 + n mod 64)) s))).

(** The sequences of bytes that are a rune of more than one byte ([unicode/utf8]):
    no overlong forms, no surrogates, nothing above U+10FFFF. *)
Definition cont (c : Ascii.ascii) : bool := (128 <=? code c) && (code c <? 192).
Definition rune2 (a b : Ascii.ascii) : bool := (194 <=? code a) && (code a <=? 223) && cont b.
Definition rune3 (a b c : Ascii.ascii) : bool :=
  cont b && cont c &&
  ((code a =? 224) && (160 <=? code b) || (code a =? 237) && (code b <? 160) ||
   negb (code a =? 237) && (225 <=? code a) && (code a <=? 239)).
Definition rune4 (a b c d : Ascii.ascii) : bool :=
  cont b && cont c && cont d &&
  ((code a =? 240) && (144 <=? code b) || (241 <=? code a) && (code a <=? 243) ||
   (code a =? 244) && (code b <? 144)).

(** [utf8.DecodeRuneInString]: the bytes of the first rune and the rest, [None] when
    the string is empty or does not start with a rune. *)
Definition next_rune (s : string) : option (string * string) :=
  match s with
  | EmptyString => None
  | String a s1 =>
      if code a <? 128 then Some (String a "", s1)
      else match s1 with
      | EmptyString => None
      | String b s2 =>
          if rune2 a b then Some (String a (String b ""), s2)
          else match s2 with
          | EmptyString => None
          | String c s3 =>
              if rune3 a b c then Some (String a (String b (String c "")), s3)
              else match s3 with
              | EmptyString => None
              | String d s4 =>
                  if rune4 a b c d then Some (String a (String b (String c (String d ""))), s4) else None
              end
          end
      end
  end.

Definition hex4 (s : string) : option (Z * string) :=
  match s with
  | String a (String b (String c (String d s))) =>
      if is_hex a && is_hex b && is_hex c && is_hex d
      then Some (((unhex a * 16 + unhex b) * 16 + unhex c) * 16 + unhex d, s)
      else None
  | _ => None
  end.

Definition simple_escape (c : Ascii.ascii) : option Ascii.ascii :=
  if bool_decide (code c = 34) || bool_decide (c = "\"%char) || bool_decide (c = "/"%char) then Some c
  else if bool_decide (c = "b"%char) then Some (byte 8)
  else if bool_decide (c = "f"%char) then Some (byte 12)
  else if bool_decide (c = "n"%char) then Some (byte 10)
  else if bool_decide (c = "r"%char) then Some (byte 13)
  else if bool_decide (c = "t"%char) then Some (byte 9)
  else None.

(** A lone surrogate reads as U+FFFD, a pair as the code point it encodes. *)
Definition unicode_escape (s : string) : option (Z * string) :=
  '(n, rest) ← hex4 s;
  if (55296 <=? n) && (n <? 57344) then
    match rest with
    | String "\"%char (String "u"%char rest') =>
        match hex4 rest' with
        | Some (m, rest'') =>
            if (n <? 56320) && (56320 <=? m) && (m <? 57344)
            then Some ((n - 55296) * 1024 + (m - 56320) + 65536, rest'')
            else Some (65533, rest)
        | None => Some (65533, rest)
        end
    | _ => Some (65533, rest)
    end
  else Some (n, rest).

(** The text after an opening quote: the string and what follows its closing quote. *)
Fixpoint parse_string (fuel : nat) (s : string) : option (string * string) :=
  match fuel with
  | O => None
  | S fuel =>
      match s with
      | EmptyString => None
      | String c s =>
          if code c =? 34 then Some (EmptyString, s)
          else if code c <? 32 then None
          else if bool_decide (c = "\"%char) then
            match s with
            | String "u"%char s =>
                '(n, s) ← unicode_escape s;
                '(x, rest) ← parse_string fuel s; Some (utf8 n x, rest)
            | String e s =>
                e ← simple_escape e;
                '(x, rest) ← parse_string fuel s; Some (String e x, rest)
            | EmptyString => None
            end
          else
            match next_rune (String c s) with
            | Some (r, s) => '(x, rest) ← parse_string fuel s; Some (r +:+ x, rest)
            | None => '(x, rest) ← parse_string fuel s; Some (utf8 65533 x, rest)
            end
      end
  end.

(** The longest prefix of digits. *)
Fixpoint digits (s : string) : string * string :=
  match s with
  | String c s' => if is_digit c then let (x, rest) := digits s' in (String c x, rest) else (EmptyString, s)
  | EmptyString => (EmptyString, EmptyString)
  end.

(** The rest of [s] after the character [c], when it starts with it. *)
Definition eat (c : Ascii.ascii) (s : string) : option string :=
  match s with String c' s => if bool_decide (c' = c) then Some s else None | EmptyString => None end.

(** The fraction and the exponent of a number, possibly empty. *)
Definition parse_fraction (s : string) : option (string * string) :=
  match eat "."%char s with
  | Some s => let (fs, s) := digits s in if bool_decide (fs = "") then None else Some ("." +:+ fs, s)
  | None => Some ("", s)
  end.
Definition parse_exponent (s : string) : option (string * string) :=
  match eat "e"%char s, eat "E"%char s with
  | None, None => Some ("", s)
  | Some s', _ | _, Some s' =>
      let e := if eat "e"%char s then "e" else "E" in
      let (sg, s') := match eat "+"%char s', eat "-"%char s' with
                      | Some s'', _ => ("+", s'')
                      | _, Some s'' => ("-", s'')
                      | None, None => ("", s')
                      end in
      let (es, s') := digits s' in
      if bool_decide (es = "") then None else Some (e +:+ sg +:+ es, s')
  end.

Definition parse_number (s : string) : option (string * string) :=
  let (sign, s) := match eat "-"%char s with Some s => ("-", s) | None => ("", s) end in
  let (ds, s) := match eat "0"%char s with Some s => ("0", s) | None => digits s end in
  if bool_decide (ds = "") then None else
  '(fs, s) ← parse_fraction s;
  '(es, s) ← parse_exponent s;
  Some (sign +:+ ds +:+ fs +:+ es, s).

(** Drops the word [w] from the front of [s]. *)
Fixpoint drop_word (w s : string) : option string :=
  match w, s with
  | EmptyString, _ => Some s
  | String a w, String c s => if bool_decide (a = c) then drop_word w s else None
  | _, _ => None
  end.

(** Each step consumes a byte or moves to a smaller construct, so twice the
    length of the text, plus one, is enough fuel. *)
Fixpoint parse_value (fuel : nat) (s : string) : option (json * string) :=
  match fuel with
  | O => None
  | S fuel =>
      match skip_space s with
      | String c s' =>
          if code c =? 34 then '(x, rest) ← parse_string (S fuel) s'; Some (JString x, rest)
          else if bool_decide (c = "{"%char) then
            match skip_space s' with
            | String "}"%char rest => Some (JObject [], rest)
            | rest => '(fs, rest) ← parse_members fuel rest; Some (JObject fs, rest)
            end
          else if bool_decide (c = "["%char) then
            match skip_space s' with
            | String "]"%char rest => Some (JArray [], rest)
            | rest => '(vs, rest) ← parse_elements fuel rest; Some (JArray vs, rest)
            end
          else match drop_word "null" (String c s'), drop_word "true" (String c s'),
                     drop_word "false" (String c s') with
               | Some rest, _, _ => Some (JNull, rest)
               | _, Some rest, _ => Some (JBool true, rest)
               | _, _, Some rest => Some (JBool false, rest)
               | _, _, _ => '(n, rest) ← parse_number (String c s'); Some (JNumber n, rest)
               end
      | EmptyString => None
      end
  end
with parse_members (fuel : nat) (s : string) : option (list (string * json) * string) :=
  match fuel with
  | O => None
  | S fuel =>
      match skip_space s with
      | String q s =>
          if negb (code q =? 34) then None else
          '(key, s) ← parse_string (S fuel) s;
          match skip_space s with
          | String ":"%char s =>
              '(v, s) ← parse_value fuel s;
              match skip_space s with
              | String ","%char s => '(fs, s) ← parse_members fuel s; Some ((key, v) :: fs, s)
              | String "}"%char s => Some ([(key, v)], s)
              | _ => None
              end
          | _ => None
          end
      | EmptyString => None
      end
  end
with parse_elements (fuel : nat) (s : string) : option (list json * string) :=
  match fuel with
  | O => None
  | S fuel =>
      '(v, s) ← parse_value fuel s;
      match skip_space s with
      | String ","%char s => '(vs, s) ← parse_elements fuel s; Some (v :: vs, s)
      | String "]"%char s => Some ([v], s)
      | _ => None
      end
  end.

(** A whole document: one value and nothing but white space after it. *)
Definition parse_json (s : string) : option json :=
  '(v, rest) ← parse_value (2 * String.length s + 1) s;
  if bool_decide (skip_space rest = "") then Some v else None.

(** The first value of a stream, whatever follows it, as [Decoder.Decode] reads it. *)
Definition first_value (s : string) : option json := fst <$> parse_value (2 * String.length s + 1) s.

(** ** Numbers as floats

    [strconv.ParseFloat] of a number in the syntax of JSON: the error is overflow,
    that is, the value rounds to an infinity of binary64.  Values of at least
    2^1024 - 2^970, half a step above the greatest finite one, do. *)

(** The digits of the exponent; from 10000 on, further ones are ignored. *)
Fixpoint read_exponent (ds : string) (e : Z) : Z :=
  match ds with
  | EmptyString => e
  | String c ds => read_exponent ds (if e <? 10000 then e * 10 + (code c - 48) else e)
  end.

Fixpoint read_digits (ds : string) (n : Z) : Z :=
  match ds with
  | EmptyString => n
  | String c ds => read_digits ds (n * 10 + (code c - 48))
  end.

(** Whether [mantissa * 10 ^ exponent], without its sign, stays finite. *)
Definition finite (mantissa exponent : Z) : bool :=
  let limit := 2 ^ 1024 - 2 ^ 970 in
  if 0 <=? exponent then mantissa * 10 ^ exponent <? limit
  else mantissa <? limit * 10 ^ (- exponent).

Definition in_float64 (lit : string) : bool :=
  let lit := default lit (eat "-"%char lit) in
  let (ds, rest) := digits lit in
  let (fs, rest) := match eat "."%char rest with Some rest => digits rest | None => ("", rest) end in
  let exponent :=
    match eat "e"%char rest, eat "E"%char rest with
    | Some es, _ | None, Some es =>
        match eat "-"%char es with
        | Some es => - read_exponent es 0
        | None => read_exponent (default es (eat "+"%char es)) 0
        end
    | None, None => 0
    end in
  finite (read_digits (ds +:+ fs) 0) (exponent - Z.of_nat (String.length fs)).

(** Decoding into an [interface{}] fails when a number in the document does not fit. *)
Fixpoint floats_fit (v : json) : bool :=
  match v with
  | JNull | JBool _ | JString _ => true
  | JNumber lit => in_float64 lit
  | JArray l => forallb floats_fit l
  | JObject fields => forallb (λ kv, floats_fit kv.2) fields
  end.

(** ** Decoding rules *)

(** Later members with the same key win. *)
Definition members_map {V} (l : list (string * V)) : gmap string V :=
  foldl (λ m kv, <[kv.1 := kv.2]> m) ∅ l.

(** The value a struct field named [name] is set from: the last member whose
    key is the name up to case. *)
Definition struct_field (name : string) (l : list (string * json)) : option json :=
  foldl (λ acc kv, if bool_decide (ToLower kv.1 = ToLower name) then Some kv.2 else acc) None l.

Lemma members_map_list_to_map {V} (l : list (string * V)) :
  members_map l = list_to_map (reverse l).
Proof.
  unfold members_map. induction l as [|[k v] l IH] using rev_ind; [done|].
  rewrite foldl_app, reverse_snoc, IH. done.
Qed.

(** A map is recovered from any listing of its entries. *)
Lemma members_map_iteration {V} (m : gmap string V) l :
  iteration_of m l → members_map l = m.
Proof.
  intros Hl. rewrite members_map_list_to_map.
  rewrite <- (list_to_map_to_list m). apply list_to_map_proper.
  - rewrite fmap_reverse, reverse_Permutation.
    rewrite Hl. apply NoDup_fst_map_to_list.
  - by rewrite reverse_Permutation.
Qed.

(** ** Examples *)
Definition q : string := String (byte 34) "".

Example parse_json_nested :
  parse_json ("{" +:+ q +:+ "a" +:+ q +:+ ": [1.5e3, true, null], " +:+ q +:+ "b" +:+ q +:+ ":{}} ")
  = Some (JObject [("a", JArray [JNumber "1.5e3"; JBool true; JNull]); ("b", JObject [])]).
Proof. vm_compute. reflexivity. Qed.

Example parse_json_escape :
  parse_json (q +:+ "x\u0041\n\ud83d\ude00" +:+ q)
  = Some (JString (String "x"%char (String "A"%char (String (byte 10) (utf8 128512 ""))))).
Proof. vm_compute. reflexivity. Qed.

Example parse_json_not_utf8 :
  parse_json (q +:+ String "a"%char (String (byte 200) ("b" +:+ q))) =
    Some (JString (String "a"%char (utf8 65533 "b"))).
Proof. vm_compute. reflexivity. Qed.

Example in_float64_range :
  in_float64 "1.7976931348623158e308" = true ∧ in_float64 "-1.7976931348623159e+308" = false ∧
  in_float64 "1e400" = false ∧ in_float64 "0E400" = true ∧ in_float64 "1e-400" = true ∧ in_float64 "-0.5" = true.
Proof. vm_compute. auto 10. Qed.

Example parse_json_bad : parse_json "{1:2}" = None ∧ parse_json "01" = None ∧ parse_json "[1,]" = None.
Proof. vm_compute. auto. Qed.
