(* ===== verification/GoJsonText.v ===== *)
(** JSON as Go's [encoding/json] writes it, and what its parser reads back: the
    text of a document, with the escapes of [encodeState.string].  Strings arrive as
    they were, up to bytes that are not UTF-8, which arrive as U+FFFD. *)

From S2P Require Import Prelude GoInt GoStrings GoUrl GoJson.

#[local] Open Scope Z_scope.

(** ** Tree to text *)

Definition hex_digit (n : Z) : Ascii.ascii := byte (if n <? 10 then 48 + n else 87 + n).

(** ASCII characters: the quote, the backslash, control characters and, for HTML,
    the angle brackets and the ampersand are escaped. *)
Definition escape (c : Ascii.ascii) : string :=
  let n := code c in
  if (n =? 34) || bool_decide (c = "\"%char) then String "\"%char (String c "")
  else if n =? 10 then "\n"
  else if n =? 13 then "\r"
  else if n =? 9 then "\t"
  else if (n <? 32) || bool_decide (c = "<"%char) || bool_decide (c = ">"%char) || bool_decide (c = "&"%char)
  then "\u00" +:+ String (hex_digit (n / 16)) (String (hex_digit (n mod 16)) "")
  else String c "".

(** The line and paragraph separators U+2028 and U+2029 are escaped too. *)
Definition escape_rune (r : string) : string :=
  match r with
  | String c "" => escape c
  | String a (String b (String c "")) =>
      if (code a =? 226) && (code b =? 128) && ((code c =? 168) || (code c =? 169))
      then "\u202" +:+ String (hex_digit (code c - 160)) "" else r
  | _ => r
  end.

(** A byte that starts no rune is written as U+FFFD. *)
Fixpoint quote_text (fuel : nat) (s : string) : string :=
  match fuel, s with
  | O, _ | _, EmptyString => ""
  | S fuel, String _ s' =>
      match next_rune s with
      | Some (r, s) => escape_rune r +:+ quote_text fuel s
      | None => "\ufffd" +:+ quote_text fuel s'
      end
  end.

Definition quote (s : string) : string := q +:+ quote_text (String.length s) s +:+ q.

Fixpoint Marshal (v : json) : string :=
  match v with
  | JNull => "null"
  | JBool b => if b then "true" else "false"
  | JNumber lit => lit
  | JString s => quote s
  | JArray l => "[" +:+ Join (map Marshal l) "," +:+ "]"
  | JObject fields => "{" +:+ Join (map (λ kv, quote kv.1 +:+ ":" +:+ Marshal kv.2) fields) "," +:+ "}"
  end.

(** ** What arrives *)
Fixpoint replace_text (fuel : nat) (s : string) : string :=
  match fuel, s with
  | O, _ | _, EmptyString => ""
  | S fuel, String _ s' =>
      match next_rune s with
      | Some (r, s) => r +:+ replace_text fuel s
      | None => utf8 65533 (replace_text fuel s')
      end
  end.

(** The string with U+FFFD for every byte that starts no rune. *)
Definition to_utf8 (s : string) : string := replace_text (String.length s) s.

Fixpoint json_to_utf8 (v : json) : json :=
  match v with
  | JNull | JBool _ | JNumber _ => v
  | JString s => JString (to_utf8 s)
  | JArray l => JArray (map json_to_utf8 l)
  | JObject fields => JObject (map (λ kv, (to_utf8 kv.1, json_to_utf8 kv.2)) fields)
  end.

Fixpoint valid_text (fuel : nat) (s : string) : bool :=
  match fuel, s with
  | _, EmptyString => true
  | O, _ => false
  | S fuel, _ => match next_rune s with Some (_, s) => valid_text fuel s | None => false end
  end.

(** The string is UTF-8. *)
Definition valid_utf8 (s : string) : bool := valid_text (String.length s) s.

Definition number_ok (lit : string) : bool :=
  match parse_number lit with Some (lit', "") => bool_decide (lit' = lit) | _ => false end.

(** Every number of the document is one of JSON. *)
Fixpoint numbers_ok (v : json) : bool :=
  match v with
  | JNull | JBool _ | JString _ => true
  | JNumber lit => number_ok lit
  | JArray l => forallb numbers_ok l
  | JObject fields => forallb (λ kv, numbers_ok kv.2) fields
  end.

(** Induction over documents, under their arrays and objects. *)
Lemma json_nested_ind (P : json → Prop) :
  P JNull → (∀ b, P (JBool b)) → (∀ lit, P (JNumber lit)) → (∀ s, P (JString s)) →
  (∀ l, Forall P l → P (JArray l)) → (∀ fields, Forall (λ kv, P kv.2) fields → P (JObject fields)) →
  ∀ v, P v.
Proof.
  intros Hnull Hbool Hnum Hstr Harr Hobj. fix IH 1. intros [|b|lit|s|l|fields]; [apply Hnull|apply Hbool|apply Hnum|apply Hstr|..].
  - apply Harr. induction l as [|x l IHl]; constructor; [apply IH|exact IHl].
  - apply Hobj. induction fields as [|[k x] fields IHf]; constructor; [apply IH|exact IHf].
Qed.

(** ** Strings *)
Lemma string_length_app s t : String.length (s +:+ t) = (String.length s + String.length t)%nat.
Proof. induction s as [|c s IH]; [done|]. rewrite string_app_cons. simpl. by rewrite IH. Qed.

Lemma next_rune_Some s r t :
  next_rune s = Some (r, t) → s = r +:+ t ∧ r ≠ "" ∧ ∀ t', next_rune (r +:+ t') = Some (r, t').
Proof.
  unfold next_rune. destruct s as [|a s]; [done|]. destruct (code a <? 128) eqn:Ha.
  { intros [= <- <-]. split_and!; [done..|]. intros t'. simpl. by rewrite Ha. }
  destruct s as [|b s]; [done|]. destruct (rune2 a b) eqn:H2.
  { intros [= <- <-]. split_and!; [done..|]. intros t'. simpl. by rewrite Ha, H2. }
  destruct s as [|c s]; [done|]. destruct (rune3 a b c) eqn:H3.
  { intros [= <- <-]. split_and!; [done..|]. intros t'. simpl. by rewrite Ha, H2, H3. }
  destruct s as [|d s]; [done|]. destruct (rune4 a b c d) eqn:H4; [|done].
  intros [= <- <-]. split_and!; [done..|]. intros t'. simpl. by rewrite Ha, H2, H3, H4.
Qed.

(** The parser reads one escaped ASCII character. *)
Lemma parse_escape c fuel t :
  code c <? 128 = true →
  parse_string (S fuel) (escape c +:+ t) = ('(x, rest) ← parse_string fuel t; Some (String c x, rest)).
Proof. destruct c as [[] [] [] [] [] [] [] []]; try discriminate; reflexivity. Qed.

Lemma byte_code c n : code c = n → c = byte n.
Proof. intros <-. unfold byte, code. by rewrite N2Z.id, Ascii.ascii_N_embedding. Qed.

(** A rune of several bytes is read as it is. *)
Lemma parse_raw_rune a s r t fuel :
  next_rune (String a s) = Some (r, t) → code a <? 128 = false →
  parse_string (S fuel) (String a s) = ('(x, rest) ← parse_string fuel t; Some (r +:+ x, rest)).
Proof.
  intros Hr Ha. cbn [parse_string].
  destruct (code a =? 34) eqn:H1; [lia|]. destruct (code a <? 32) eqn:H2; [lia|].
  rewrite bool_decide_false; [by rewrite Hr|]. intros ->. done.
Qed.

Lemma parse_rune s r t0 fuel t :
  next_rune s = Some (r, t0) →
  parse_string (S fuel) (escape_rune r +:+ t) = ('(x, rest) ← parse_string fuel t; Some (r +:+ x, rest)).
Proof.
  intros Hr. destruct (next_rune_Some _ _ _ Hr) as (_ & Hne & Hr'). specialize (Hr' t).
  destruct r as [|a r]; [done|]. destruct (code a <? 128) eqn:Ha.
  { rewrite string_app_cons in Hr'. unfold next_rune in Hr'. rewrite Ha in Hr'. injection Hr' as <- _. simpl escape_rune. by apply parse_escape. }
  destruct r as [|b [|c [|d r]]]; [rewrite string_app_cons in Hr'; unfold next_rune in Hr'; rewrite Ha in Hr'; repeat case_match; discriminate|by apply parse_raw_rune| |by apply parse_raw_rune].
  unfold escape_rune. destruct (_ && _) eqn:Hsep; [|by apply parse_raw_rune].
  rewrite !andb_true_iff, orb_true_iff, !Z.eqb_eq in Hsep.
  destruct Hsep as [[->%byte_code ->%byte_code] [->%byte_code| ->%byte_code]]; reflexivity.
Qed.

Lemma next_rune_length s r t : next_rune s = Some (r, t) → (String.length t < String.length s)%nat.
Proof.
  intros (-> & Hr & _)%next_rune_Some. rewrite string_length_app. destruct r; [done|]. simpl. lia.
Qed.

Lemma quote_length n s : (String.length s <= n)%nat → (String.length (quote_text n s) >= String.length s)%nat.
Proof.
  induction n as [|n IH] in s |- *; destruct s as [|c s]; intros Hn; try (simpl in *; lia). cbn [quote_text].
  destruct (next_rune _) as [[r t]|] eqn:Hr.
  - pose proof (next_rune_length _ _ _ Hr). destruct (next_rune_Some _ _ _ Hr) as (Heq & _).
    apply (f_equal String.length) in Heq. rewrite string_length_app in *. specialize (IH t). simpl in *.
    assert (String.length (escape_rune r) >= String.length r)%nat; [|lia].
    clear. destruct r as [|a [|b [|c [|d r]]]]; simpl; try lia.
    + unfold escape. repeat case_match; simpl; lia.
    + case_match; simpl; lia.
  - rewrite string_length_app. specialize (IH s). simpl in *. lia.
Qed.

(** A string is read back up to the closing quote. *)
Lemma parse_quoted n s fuel rest :
  (String.length s <= n)%nat → (String.length s < fuel)%nat →
  parse_string fuel (quote_text n s +:+ q +:+ rest) = Some (replace_text n s, rest).
Proof.
  induction n as [|n IH] in s, fuel |- *; destruct s as [|c s]; intros Hn Hl;
    (destruct fuel as [|fuel]; [simpl in *; lia|]); try done; try (simpl in Hn; lia).
  cbn [quote_text replace_text]. destruct (next_rune _) as [[r t]|] eqn:Hr.
  - pose proof (next_rune_length _ _ _ Hr). rewrite <-string_app_assoc, (parse_rune _ _ _ _ _ Hr).
    simpl in *. rewrite IH by lia. done.
  - rewrite <-string_app_assoc.
    transitivity ('(x, rest) ← parse_string fuel (quote_text n s +:+ q +:+ rest); Some (utf8 65533 x, rest));
      [reflexivity|]. simpl in *. by rewrite IH by lia.
Qed.

Lemma replace_valid n s : valid_text n s = true → replace_text n s = s.
Proof.
  induction n as [|n IH] in s |- *; destruct s as [|c s]; try done. cbn [valid_text replace_text].
  destruct (next_rune _) as [[r t]|] eqn:Hr; [|done]. intros Hv%IH. rewrite Hv.
  by destruct (next_rune_Some _ _ _ Hr) as [-> _].
Qed.

Lemma to_utf8_valid s : valid_utf8 s = true → to_utf8 s = s.
Proof. apply replace_valid. Qed.

Lemma valid_replace n m s : (String.length (replace_text n s) <= m)%nat → valid_text m (replace_text n s) = true.
Proof.
  induction n as [|n IH] in s, m |- *; destruct s as [|c s]; try by destruct m. cbn [replace_text].
  destruct (next_rune _) as [[r t]|] eqn:Hr.
  - destruct (next_rune_Some _ _ _ Hr) as (_ & Hne & Hr'). rewrite string_length_app. intros Hm.
    destruct r as [|a r]; [done|]. destruct m as [|m]; [simpl in Hm; lia|].
    specialize (Hr' (replace_text n t)). rewrite string_app_cons in *. cbn [valid_text]. rewrite Hr'. apply IH. simpl in Hm. lia.
  - set (u := replace_text n s) in *. assert (next_rune (utf8 65533 u) = Some (utf8 65533 "", u)) as Hu by reflexivity.
    change (utf8 65533 u) with (String (byte 239) (String (byte 191) (String (byte 189) u))) in *.
    intros Hm. cbn [String.length] in Hm. destruct m as [|m]; [lia|]. cbn [valid_text].
    rewrite Hu. apply IH. fold u. lia.
Qed.

(** What arrives is UTF-8. *)
Lemma valid_to_utf8 s : valid_utf8 (to_utf8 s) = true.
Proof. by apply valid_replace. Qed.

Lemma to_utf8_idem s : to_utf8 (to_utf8 s) = to_utf8 s.
Proof. apply to_utf8_valid, valid_to_utf8. Qed.

(** ** Numbers *)

(** What may follow a value inside a document. *)
Definition ends (rest : string) : Prop :=
  match rest with "" => True | String c _ => c ∈ [","%char; "]"%char; "}"%char; byte 10] end.

Lemma digits_app s rest : ends rest → digits (s +:+ rest) = let (x, t) := digits s in (x, t +:+ rest).
Proof.
  intros He. induction s as [|c s IH].
  - destruct rest as [|c rest]; [done|]. simpl in He. rewrite !elem_of_cons in He.
    by destruct He as [->|[->|[->|[->|?%elem_of_nil]]]].
  - rewrite string_app_cons. simpl. rewrite IH. destruct (is_digit c); [|done]. by destruct (digits s).
Qed.

Lemma digits_split s x t : digits s = (x, t) → s = x +:+ t.
Proof.
  induction s as [|c s IH] in x |- *; simpl; [by intros [= <- <-]|].
  destruct (is_digit c); [|by intros [= <- <-]]. destruct (digits s) as [y u]. intros [= <- <-].
  by rewrite string_app_cons, <-IH.
Qed.

Lemma eat_app c s rest :
  ends rest → c ∉ [","%char; "]"%char; "}"%char; byte 10] → eat c (s +:+ rest) = (λ t, t +:+ rest) <$> eat c s.
Proof.
  intros He Hc. destruct s as [|c' s]; [|rewrite string_app_cons; simpl; by case_bool_decide].
  destruct rest as [|c' rest]; [done|]. simpl in *. rewrite bool_decide_false; [done|]. by intros ->.
Qed.

Lemma parse_fraction_app s rest :
  ends rest → parse_fraction (s +:+ rest) = prod_map id (λ t, t +:+ rest) <$> parse_fraction s.
Proof.
  intros He. unfold parse_fraction. rewrite eat_app by (done || set_solver).
  destruct (eat _ s) as [s'|]; simpl; [|done]. rewrite digits_app by done.
  destruct (digits s') as [fs t]. by case_bool_decide.
Qed.

Lemma parse_exponent_app s rest :
  ends rest → parse_exponent (s +:+ rest) = prod_map id (λ t, t +:+ rest) <$> parse_exponent s.
Proof.
  intros He. unfold parse_exponent. rewrite !(eat_app _ s) by (done || set_solver).
  destruct (eat "e"%char s) as [s'|], (eat "E"%char s) as [s''|]; simpl; try done;
    rewrite !eat_app by (done || set_solver);
    destruct (eat "+"%char _) as [u|], (eat "-"%char _) as [v|]; simpl;
    rewrite digits_app by done; destruct (digits _) as [es t]; by case_bool_decide.
Qed.

Lemma parse_number_app s n t rest :
  ends rest → parse_number s = Some (n, t) → parse_number (s +:+ rest) = Some (n, t +:+ rest).
Proof.
  intros He. unfold parse_number. rewrite eat_app by (done || set_solver).
  destruct (eat "-"%char s) as [s1|]; simpl; rewrite eat_app by (done || set_solver);
    (destruct (eat "0"%char _) as [s2|]; simpl; [|rewrite digits_app by done; destruct (digits _) as [ds s2]]);
    try (case_bool_decide; [done|]); rewrite parse_fraction_app by done;
    (destruct (parse_fraction s2) as [[fs s3]|]; simpl; [|done]); rewrite parse_exponent_app by done;
    (destruct (parse_exponent s3) as [[es s4]|]; simpl; [|done]); by intros [= <- <-].
Qed.

(** ** Values *)
Definition number_start (c : Ascii.ascii) : bool := bool_decide (c = "-"%char) || is_digit c.
Definition value_start (c : Ascii.ascii) : bool :=
  number_start c || bool_decide (c ∈ [byte 34; "{"%char; "["%char; "n"%char; "t"%char; "f"%char]).

Lemma number_head lit : number_ok lit = true → ∃ c s, lit = String c s ∧ number_start c = true.
Proof.
  unfold number_ok. destruct lit as [|c s]; [done|]. intros Hn. exists c, s. split; [done|].
  destruct (number_start c) eqn:Hc; [done|]. exfalso. apply orb_false_iff in Hc as [Hm Hd].
  assert (bool_decide (c = "0"%char) = false) as H0 by (rewrite bool_decide_eq_false; by intros ->).
  unfold parse_number, eat, digits in Hn. by rewrite Hm, H0, Hd in Hn.
Qed.

Lemma Marshal_head v : numbers_ok v = true → ∃ c s, Marshal v = String c s ∧ value_start c = true.
Proof.
  destruct v as [|[]|lit|s|l|fields]; simpl; try (intros _; by eexists _, _).
  intros (c & s & -> & Hc)%number_head. exists c, s. split; [done|]. unfold value_start. by rewrite Hc.
Qed.

Lemma parse_number_value c s fuel :
  number_start c = true →
  parse_value (S fuel) (String c s) = ('(n, rest) ← parse_number (String c s); Some (JNumber n, rest)).
Proof. destruct c as [[] [] [] [] [] [] [] []]; try discriminate; reflexivity. Qed.

Lemma parse_array c s fuel :
  value_start c = true →
  parse_value (S fuel) (String "["%char (String c s)) =
    ('(vs, rest) ← parse_elements fuel (String c s); Some (JArray vs, rest)).
Proof. destruct c as [[] [] [] [] [] [] [] []]; try discriminate; reflexivity. Qed.

Lemma ends_separators s : ends ("," +:+ s) ∧ ends ("]" +:+ s) ∧ ends ("}" +:+ s).
Proof. split_and!; simpl; [left|right; left|do 2 right; left]. Qed.

Definition reads_back (v : json) : Prop :=
  ∀ fuel rest, ends rest → (2 * String.length (Marshal v) <= fuel)%nat →
    parse_value fuel (Marshal v +:+ rest) = Some (json_to_utf8 v, rest).

Lemma parse_elements_Marshal l fuel rest :
  l ≠ [] → Forall reads_back l → (2 * String.length (Join (map Marshal l) ",") + 3 <= fuel)%nat →
  parse_elements fuel (Join (map Marshal l) "," +:+ "]" +:+ rest) = Some (map json_to_utf8 l, rest).
Proof.
  intros Hne Hl. induction Hl as [|v l Hv Hl IH] in fuel, Hne |- *; [done|]. intros Hf.
  destruct fuel as [|fuel]; [lia|]. cbn [parse_elements]. destruct l as [|w l].
  - cbn [map Join] in *. rewrite Hv; [reflexivity|apply ends_separators|lia].
  - change (Join (map Marshal (v :: w :: l)) ",") with (Marshal v +:+ "," +:+ Join (map Marshal (w :: l)) ",") in *.
    rewrite !string_length_app in Hf. simpl String.length in Hf at 2.
    rewrite <-!string_app_assoc, Hv; [|apply ends_separators|lia].
    transitivity ('(vs, rest) ← parse_elements fuel (Join (map Marshal (w :: l)) "," +:+ "]" +:+ rest); Some (json_to_utf8 v :: vs, rest));
      [reflexivity|]. rewrite IH; [done|done|lia].
Qed.

Lemma parse_members_Marshal fields fuel rest :
  fields ≠ [] → Forall (λ kv, reads_back kv.2) fields →
  let members fs := Join (map (λ kv, quote kv.1 +:+ ":" +:+ Marshal kv.2) fs) "," in
  (2 * String.length (members fields) + 3 <= fuel)%nat →
  parse_members fuel (members fields +:+ "}" +:+ rest) =
    Some (map (λ kv, (to_utf8 kv.1, json_to_utf8 kv.2)) fields, rest).
Proof.
  intros Hne Hl members. induction Hl as [|[k v] fields Hv Hl IH] in fuel, Hne |- *; [done|]. intros Hf.
  cbn [fst snd] in Hv. pose proof (quote_length (String.length k) k ltac:(done)) as Hkl.
  assert (members ((k, v) :: fields) = q +:+ quote_text (String.length k) k +:+ q +:+ ":" +:+ Marshal v +:+
            match fields with [] => "" | _ => "," +:+ members fields end) as Hm.
  { destruct fields; cbn [members map Join fst snd]; unfold quote; rewrite <-!string_app_assoc, ?string_app_nil_r; done. }
  rewrite Hm in *. rewrite !string_length_app in Hf. change (String.length q) with 1%nat in Hf. simpl (String.length ":") in Hf.
  destruct fuel as [|fuel]; [lia|]. rewrite <-!string_app_assoc.
  transitivity ('(key, s) ← parse_string (S fuel) (quote_text (String.length k) k +:+ q +:+ ":" +:+ Marshal v +:+
      match fields with [] => "" | _ => "," +:+ members fields end +:+ "}" +:+ rest);
    match skip_space s with
    | String ":"%char s =>
        '(v, s) ← parse_value fuel s;
        match skip_space s with
        | String ","%char s => '(fs, s) ← parse_members fuel s; Some ((key, v) :: fs, s)
        | String "}"%char s => Some ([(key, v)], s)
        | _ => None
        end
    | _ => None
    end); [reflexivity|].
  rewrite parse_quoted by (done || lia). cbn [mbind option_bind].
  transitivity ('(v, s) ← parse_value fuel (Marshal v +:+ match fields with [] => "" | _ => "," +:+ members fields end +:+ "}" +:+ rest);
    match skip_space s with
    | String ","%char s => '(fs, s) ← parse_members fuel s; Some ((to_utf8 k, v) :: fs, s)
    | String "}"%char s => Some ([(to_utf8 k, v)], s)
    | _ => None
    end); [reflexivity|].
  destruct fields as [|kv fields].
  - rewrite Hv; [reflexivity|apply ends_separators|lia].
  - rewrite <-string_app_assoc, Hv; [|apply ends_separators|lia].
    transitivity ('(fs, s) ← parse_members fuel (members (kv :: fields) +:+ "}" +:+ rest); Some ((to_utf8 k, json_to_utf8 v) :: fs, s));
      [reflexivity|]. rewrite string_length_app in Hf. rewrite IH; [done|done|simpl in Hf; lia].
Qed.

Lemma quoted_reads_back s : reads_back (JString s).
Proof.
  intros fuel rest _ Hf. pose proof (quote_length (String.length s) s ltac:(done)) as Hl. cbn [Marshal] in *. unfold quote in *.
  rewrite !string_length_app in Hf. change (String.length q) with 1%nat in Hf. destruct fuel as [|fuel]; [lia|].
  rewrite <-!string_app_assoc.
  transitivity ('(x, rest) ← parse_string (S fuel) (quote_text (String.length s) s +:+ q +:+ rest); Some (JString x, rest));
    [reflexivity|]. rewrite parse_quoted by (done || lia). reflexivity.
Qed.

(** Every document is read back with its strings as UTF-8, whatever follows it. *)
Lemma Marshal_reads_back v : numbers_ok v = true → reads_back v.
Proof.
  induction v as [|b|lit|s|l IH|fields IH] using json_nested_ind; intros Hok.
  1-2: intros [|fuel] rest _ Hf; [try destruct b; simpl in Hf; lia|try destruct b; reflexivity].
  - intros [|fuel] rest He Hf; destruct (number_head _ Hok) as (c & s & -> & Hc); [simpl in Hf; lia|].
    cbn [Marshal numbers_ok] in *. unfold number_ok in Hok. rewrite string_app_cons, parse_number_value by done.
    destruct (parse_number (String c s)) as [[n [|]]|] eqn:Hn; try done. apply bool_decide_eq_true_1 in Hok as ->.
    change (String c (s +:+ rest)) with (String c s +:+ rest). by rewrite (parse_number_app _ _ _ _ He Hn).
  - by apply quoted_reads_back.
  - intros [|fuel] rest _ Hf; cbn [Marshal] in *; [simpl in Hf; lia|]. destruct l as [|v l]; [reflexivity|].
    assert (Forall reads_back (v :: l)) as Hall.
    { cbn [numbers_ok] in Hok. rewrite Forall_forall in IH |- *. intros x Hx. apply IH; [done|].
      rewrite forallb_forall in Hok. by apply Hok, list_elem_of_In. }
    destruct (Marshal_head v) as (c & s & Hv & Hc); [by apply andb_true_iff in Hok as []|].
    rewrite !string_length_app in Hf. simpl (String.length "[") in Hf. simpl (String.length "]") in Hf.
    pose proof (parse_elements_Marshal (v :: l) fuel rest ltac:(done) Hall ltac:(lia)) as Hp.
    rewrite <-!string_app_assoc.
    assert (∃ t, Join (map Marshal (v :: l)) "," +:+ "]" +:+ rest = String c t) as [t Ht]
      by (destruct l; cbn [map Join]; rewrite Hv, <-?string_app_assoc, ?string_app_cons; by eexists).
    rewrite Ht in *. change ("[" +:+ String c t) with (String "["%char (String c t)). by rewrite parse_array, Hp.
  - intros [|fuel] rest _ Hf; cbn [Marshal] in *; [simpl in Hf; lia|]. destruct fields as [|kv fields]; [reflexivity|].
    assert (Forall (λ kv, reads_back kv.2) (kv :: fields)) as Hall.
    { cbn [numbers_ok] in Hok. rewrite Forall_forall in IH |- *. intros x Hx. apply IH; [done|].
      rewrite forallb_forall in Hok. by apply (Hok x), list_elem_of_In. }
    rewrite !string_length_app in Hf. simpl (String.length "{") in Hf. simpl (String.length "}") in Hf.
    pose proof (parse_members_Marshal (kv :: fields) fuel rest ltac:(done) Hall ltac:(lia)) as Hp.
    rewrite <-!string_app_assoc.
    transitivity ('(fs, rest) ← parse_members fuel (Join (map (λ kv, quote kv.1 +:+ ":" +:+ Marshal kv.2) (kv :: fields)) ","
      +:+ "}" +:+ rest); Some (JObject fs, rest)); [|by rewrite Hp].
    destruct kv as [k v], fields; reflexivity.
Qed.

(** [Encoder.Encode] writes a document and a newline. *)
Definition Encode (v : json) : string := Marshal v +:+ String (byte 10) "".

Lemma parse_value_Marshal v rest :
  numbers_ok v = true → ends rest →
  parse_value (2 * String.length (Marshal v +:+ rest) + 1)%nat (Marshal v +:+ rest) = Some (json_to_utf8 v, rest).
Proof. intros Hv Hrest. apply Marshal_reads_back; [done..|]. rewrite string_length_app. lia. Qed.

Theorem parse_Marshal v : numbers_ok v = true → parse_json (Marshal v) = Some (json_to_utf8 v).
Proof.
  intros Hv. unfold parse_json. pose proof (parse_value_Marshal v "" Hv I) as Hp.
  rewrite string_app_nil_r in Hp. by rewrite Hp.
Qed.

Lemma parse_Encode v : numbers_ok v = true → parse_json (Encode v) = Some (json_to_utf8 v).
Proof.
  intros Hv. unfold parse_json, Encode. rewrite (parse_value_Marshal v _ Hv) by (do 3 right; left). reflexivity.
Qed.

Lemma first_value_Marshal v rest : numbers_ok v = true → ends rest → first_value (Marshal v +:+ rest) = Some (json_to_utf8 v).
Proof. intros Hv Hrest. unfold first_value. by rewrite (parse_value_Marshal v rest). Qed.

(** ** Numbers are JSON *)
Lemma is_digit_digit d : 0 <= d < 10 → is_digit (digit d) = true.
Proof.
  intros Hd. unfold is_digit, digit, code. rewrite Ascii.N_ascii_embedding by lia.
  rewrite andb_true_iff, !Z.leb_le. lia.
Qed.

Lemma digits_decimal n z acc :
  0 <= z → digits acc = (acc, "") → digits (decimal n z acc) = (decimal n z acc, "").
Proof.
  induction n as [|n IH] in z, acc |- *; intros Hz Hacc; [done|]. cbn [decimal].
  assert (∀ d, 0 <= d < 10 → digits (String (digit d) acc) = (String (digit d) acc, "")) as Hd
    by (intros d ?; cbn [digits]; by rewrite is_digit_digit, Hacc).
  case_bool_decide; [by apply Hd|]. apply IH; [Z.div_mod_to_equations; lia|].
  apply Hd. Z.div_mod_to_equations; lia.
Qed.

(** No leading zeros. *)
Lemma decimal_head n z acc :
  0 < z < 10 ^ Z.of_nat n → ∃ d s, decimal n z acc = String (digit d) s ∧ 1 <= d < 10.
Proof.
  induction n as [|n IH] in z, acc |- *; intros Hz; [simpl in Hz; lia|]. cbn [decimal].
  case_bool_decide; [exists z, acc; split; [done|lia]|]. rewrite Nat2Z.inj_succ, Z.pow_succ_r in Hz by lia.
  apply IH. Z.div_mod_to_equations; lia.
Qed.

Lemma parse_digits sign s d t :
  sign = "" ∨ sign = "-" → s = String (digit d) t → 1 <= d < 10 → digits s = (s, "") →
  parse_number (sign +:+ s) = Some (sign +:+ s, "").
Proof.
  intros Hsign -> Hd Hs. assert (∀ c, c ∈ ["-"%char; "0"%char] → eat c (String (digit d) t) = None) as Heat.
  { intros c Hc. unfold eat. rewrite bool_decide_false; [done|]. intros Heq.
    assert (code (digit d) = d + 48) as Hcode by (unfold code, digit; rewrite Ascii.N_ascii_embedding; lia).
    rewrite Heq in Hcode. rewrite !elem_of_cons in Hc.
    assert (code "-"%char = 45 ∧ code "0"%char = 48) as [? ?] by done.
    destruct Hc as [->|[->|?%elem_of_nil]]; [lia..|done]. }
  unfold parse_number. destruct Hsign as [->| ->].
  - change ("" +:+ String (digit d) t) with (String (digit d) t). rewrite !Heat by set_solver. rewrite Hs.
    simpl. by rewrite string_app_nil_r.
  - change (eat "-"%char ("-" +:+ String (digit d) t)) with (Some (String (digit d) t)). cbv beta iota zeta.
    rewrite !Heat by set_solver. rewrite Hs. simpl. by rewrite string_app_nil_r.
Qed.

Lemma number_ok_Itoa n : is_int n → number_ok (Itoa n) = true.
Proof.
  intros Hn. assert (∀ sign z, sign = "" ∨ sign = "-" → 0 < z < 10 ^ 20 → number_ok (sign +:+ decimal 20 z "") = true) as Hpos.
  { intros sign z Hsign Hz. destruct (decimal_head 20 z "" Hz) as (d & s & Hs & Hd). unfold number_ok.
    rewrite (parse_digits sign _ d s Hsign Hs Hd); [by apply bool_decide_eq_true|apply digits_decimal; [lia|done]]. }
  unfold Itoa. unfold is_int in Hn. case_bool_decide as Hneg; [by apply (Hpos "-"); [right|lia]|].
  destruct (decide (n = 0)) as [->|Hne]; [reflexivity|]. apply (Hpos ""); [by left|lia].
Qed.
