(* ===== verification/Services.v ===== *)
(** What the rep shares with the services it calls.

    The bulletin board ([code.cloudfoundry.org/bbs], its [models] and its
    [InternalClient]) and the executor ([code.cloudfoundry.org/executor] and its
    [Client]) are other repositories.  Their data appear here with the fields
    the rep reads or writes; the types the rep only passes on, the validation
    and conversion functions of [models] and the constants it names are members
    of the class [Models], so that every theorem holds for any of them; their
    client methods are the calls of the signature [call], answered by an
    arbitrary environment.  Pointers inside slices and required sub-messages
    ([VolumeMount.Shared]) are taken to be non-nil. *)

From S2P Require Import Prelude GoInt GoStrings GoUrl GoJson Effects.

(** ** Errors *)

(** [models.Error_Type]: the codes the rep names, and all others. *)
Inductive Error_Type :=
| Error_UnknownError
| Error_InvalidJSON
| Error_ResourceNotFound
| Error_InvalidStateTransition
| Error_ActualLRPCannotBeClaimed
| Error_ActualLRPCannotBeStarted
| Error_Other (code : Z).

#[global] Instance Error_Type_eq_dec : EqDecision Error_Type.
Proof. solve_decision. Defined.

(** Values of Go's [error]: a message made with [errors.New] or [fmt.Errorf], an
    error with the message [prefix ++ cause.Error()], a [*models.Error], an error of [net/url], a JSON decoding error, or the
    executor's [ErrContainerNotFound]. *)
Inductive error :=
| errors_New (msg : string)
| fmt_Errorf (prefix : string) (cause : error)
| models_Error (t : Error_Type) (msg : string)
| url_Error (e : url_error)
| json_Error
| InsufficientResourcesError (Problems : gset string)
| executor_ErrContainerNotFound.

#[global] Instance error_eq_dec : EqDecision error.
Proof. solve_decision. Defined.

Notation res := (result error).

(** ** models *)

Record ActualLRPKey := mkActualLRPKey { ProcessGuid : string; Index : Z; Domain : string }.
Record ActualLRPInstanceKey := mkActualLRPInstanceKey { InstanceGuid : string; CellId : string }.

(** [models.NewPortMapping(hostPort, containerPort)], [models.NewActualLRPNetInfo]. *)
Record PortMapping := mkPortMapping { HostPort : Z; ContainerPort : Z }.
Record ActualLRPNetInfo := mkActualLRPNetInfo {
  Address : string; InstanceAddress : string; Ports : list PortMapping }.

Record ActualLRP := mkActualLRP {
  lrp_key : ActualLRPKey; lrp_instance_key : ActualLRPInstanceKey }.
Record ActualLRPGroup := mkActualLRPGroup {
  Instance_ : option ActualLRP; Evacuating_ : option ActualLRP }.

#[global] Instance ActualLRPKey_eq_dec : EqDecision ActualLRPKey.
Proof. solve_decision. Defined.
#[global] Instance ActualLRPInstanceKey_eq_dec : EqDecision ActualLRPInstanceKey.
Proof. solve_decision. Defined.
#[global] Instance PortMapping_eq_dec : EqDecision PortMapping.
Proof. solve_decision. Defined.
#[global] Instance ActualLRPNetInfo_eq_dec : EqDecision ActualLRPNetInfo.
Proof. solve_decision. Defined.

(** The same fields name the model's and the executor's cached dependency. *)
Record CachedDependency := mkCachedDependency {
  dep_Name : string; dep_From : string; dep_To : string; dep_CacheKey : string;
  dep_LogSource : string; dep_ChecksumValue : string; dep_ChecksumAlgorithm : string }.

Module models.
Record SharedDevice := mkSharedDevice { VolumeId : string; MountConfig : string }.
Record VolumeMount := mkVolumeMount {
  Driver : string; ContainerDir : string; Mode : string; Shared : SharedDevice }.
Record Network := mkNetwork { Properties : gmap string string }.
Record CertificateProperties := mkCertificateProperties { OrganizationalUnit : list string }.
End models.

(** ** executor *)

Inductive State :=
| StateReserved
| StateInitializing
| StateCreated
| StateRunning
| StateCompleted
| StateOther (s : string).

#[global] Instance State_eq_dec : EqDecision State.
Proof. solve_decision. Defined.

(** [executor.Tags] is a map that may be nil; reading a nil map gives "". *)
Definition Tags := option (gmap string string).
Definition tag (tags : Tags) (k : string) : string :=
  match tags with Some m => lookup_default "" m k | None => "" end.

Module executor.
Record PortMapping := mkPortMapping { HostPort : Z; ContainerPort : Z }.
Record EnvironmentVariable := mkEnvironmentVariable { Name : string; Value : string }.
Record ContainerRunResult := mkContainerRunResult {
  Failed : bool; FailureReason : string; Stopped : bool }.
Record ExecutorResources := mkExecutorResources { MemoryMB : Z; DiskMB : Z; Containers : Z }.
Record Resource := mkResource { res_MemoryMB : Z; res_DiskMB : Z; res_MaxPids : Z; res_RootFSPath : string }.
Record AllocationRequest := mkAllocationRequest {
  ar_Guid : string; ar_Resource : Resource; ar_Tags : Tags }.
Record AllocationFailure := mkAllocationFailure {
  af_AllocationRequest : AllocationRequest; af_ErrorMsg : string }.

Inductive BindMountMode := BindMountModeRO | BindMountModeRW.
Inductive DiskLimitScope := ExclusiveDiskLimit | TotalDiskLimit.

(** [Config] is a nil map or the decoded mount configuration. *)
Record VolumeMount := mkVolumeMount {
  Driver : string; VolumeId : string; ContainerPath : string;
  Mode : BindMountMode; Config : option (gmap string json) }.
Record Network := mkNetwork { Properties : gmap string string }.
Record CertificateProperties := mkCertificateProperties { OrganizationalUnit : list string }.
Record LogConfig := mkLogConfig { lc_Guid : string; lc_Index : Z; lc_SourceName : string }.
Record MetricsConfig := mkMetricsConfig { mc_Guid : string; mc_Index : Z }.
End executor.

Record Container := mkContainer {
  Guid : string;
  Container_State : State;
  Container_MemoryMB : Z;
  Container_DiskMB : Z;
  Container_Tags : Tags;
  Container_Ports : list executor.PortMapping;
  ExternalIP : string;
  InternalIP : string;
  RunResult : executor.ContainerRunResult }.

(** The result file's stream: what [tar.Reader.Next] returns, the content of
    the entry, how many bytes of it one [Read] can deliver, and the error that
    [Read] reports with them. *)
Record TarStream := mkTarStream {
  tar_next : option error;
  tar_content : string;
  tar_available : nat;
  tar_read_error : option error }.

(** ** What the other repositories define *)
Class Models := {
  (* passed on unread *)
  Action : Type;
  CheckDefinition : Type;
  SecurityGroupRule : Type;
  models_EnvironmentVariable : Type;
  (* models.PreloadedRootFSScheme, models.PreloadedOCIRootFSScheme *)
  PreloadedRootFSScheme : string;
  PreloadedOCIRootFSScheme : string;
  (* the Validate methods: nil or an error *)
  ActualLRPKey_Validate : ActualLRPKey → option error;
  ActualLRPInstanceKey_Validate : ActualLRPInstanceKey → option error;
  ActualLRPNetInfo_Validate : ActualLRPNetInfo → option error;
  (* the Type of models.ConvertError(err), for a non-nil err *)
  ConvertError_Type : error → Error_Type;
  (* executor.EnvironmentVariablesFromModel *)
  EnvironmentVariablesFromModel :
    list models_EnvironmentVariable → list executor.EnvironmentVariable;
}.

Section messages.
Context `{Models}.

Record DesiredLRP := mkDesiredLRP {
  d_RootFs : string; d_CpuWeight : Z; d_Ports : list Z;
  d_LogGuid : string; d_LogSource : string; d_MetricsGuid : string;
  d_StartTimeoutMs : Z; d_Privileged : bool;
  d_CachedDependencies : list CachedDependency;
  d_Setup : option Action; d_Action : option Action; d_Monitor : option Action;
  d_CheckDefinition : option CheckDefinition;
  d_EgressRules : list SecurityGroupRule;
  d_EnvironmentVariables : list models_EnvironmentVariable;
  d_TrustedSystemCertificatesPath : string;
  d_VolumeMounts : list models.VolumeMount;
  d_Network : option models.Network;
  d_CertificateProperties : option models.CertificateProperties;
  d_ImageUsername : string; d_ImagePassword : string }.

Record models_Task := mk_models_Task {
  t_TaskGuid : string; t_RootFs : string; t_ResultFile : string; t_CpuWeight : Z;
  t_Privileged : bool; t_LogGuid : string; t_LogSource : string; t_MetricsGuid : string;
  t_CachedDependencies : list CachedDependency;
  t_Action : option Action;
  t_EnvironmentVariables : list models_EnvironmentVariable;
  t_EgressRules : list SecurityGroupRule;
  t_TrustedSystemCertificatesPath : string;
  t_VolumeMounts : list models.VolumeMount;
  t_Network : option models.Network;
  t_CertificateProperties : option models.CertificateProperties;
  t_ImageUsername : string; t_ImagePassword : string }.

Record RunInfo := mkRunInfo {
  ri_CPUWeight : Z; ri_DiskScope : executor.DiskLimitScope;
  ri_Ports : list executor.PortMapping;
  ri_LogConfig : executor.LogConfig; ri_MetricsConfig : executor.MetricsConfig;
  ri_StartTimeoutMs : Z; ri_Privileged : bool;
  ri_CachedDependencies : list CachedDependency;
  ri_Setup : option Action; ri_Action : option Action; ri_Monitor : option Action;
  ri_CheckDefinition : option CheckDefinition;
  ri_EgressRules : list SecurityGroupRule;
  ri_Env : list executor.EnvironmentVariable;
  ri_TrustedSystemCertificatesPath : string;
  ri_VolumeMounts : list executor.VolumeMount;
  ri_Network : option executor.Network;
  ri_CertificateProperties : executor.CertificateProperties;
  ri_ImageUsername : string; ri_ImagePassword : string }.

Record RunRequest := mkRunRequest { rr_Guid : string; rr_RunInfo : RunInfo; rr_Tags : Tags }.

(** ** The calls *)
Inductive call :=
(* executor.Client *)
| Ping
| ListContainers
| GetContainer (guid : string)
| RunContainer (req : RunRequest)
| StopContainer (guid : string)
| DeleteContainer (guid : string)
| GetFiles (guid path : string)
| CloseStream
| AllocateContainers (requests : list executor.AllocationRequest)
| TotalResources
| RemainingResources
| VolumeDrivers
| Healthy
(* bbs.InternalClient *)
| ActualLRPGroups (cellID : string)
| TasksByCellID (cellID : string)
| DesiredLRPByProcessGuid (processGuid : string)
| TaskByGuid (guid : string)
| ClaimActualLRP (processGuid : string) (index : Z) (instanceKey : ActualLRPInstanceKey)
| StartActualLRP (key : ActualLRPKey) (instanceKey : ActualLRPInstanceKey) (netInfo : ActualLRPNetInfo)
| CrashActualLRP (key : ActualLRPKey) (instanceKey : ActualLRPInstanceKey) (reason : string)
| RemoveActualLRP (processGuid : string) (index : Z) (instanceKey : ActualLRPInstanceKey)
| EvacuateClaimedActualLRP (key : ActualLRPKey) (instanceKey : ActualLRPInstanceKey)
| EvacuateRunningActualLRP (key : ActualLRPKey) (instanceKey : ActualLRPInstanceKey)
    (netInfo : ActualLRPNetInfo) (ttl : Z)
| EvacuateStoppedActualLRP (key : ActualLRPKey) (instanceKey : ActualLRPInstanceKey)
| EvacuateCrashedActualLRP (key : ActualLRPKey) (instanceKey : ActualLRPInstanceKey) (reason : string)
| RemoveEvacuatingActualLRP (key : ActualLRPKey) (instanceKey : ActualLRPInstanceKey)
| StartTask (taskGuid cellID : string)
| CompleteTask (taskGuid cellID : string) (failed : bool) (failureReason result : string)
| FailTask (taskGuid reason : string)
(* evacuation_context.Evacuatable and EvacuationReporter, the guid generator and the metric sink *)
| Evacuate
| Evacuating
| GenerateInstanceGuid
| SendMetric (name : string) (value : Z)
| SendDuration (name : string) (value : Z)
| ClockNow
(* the clock, in nanoseconds: a wait for one of its timers or tickers *)
| WaitTimer (duration : Z).

(** A nil error is [None].  The Evacuate calls and [StartTask] return a flag
    beside the error. *)
Definition reply (c : call) : Type :=
  match c with
  | Ping | RunContainer _ | StopContainer _ | DeleteContainer _ => option error
  | ListContainers => res (list Container)
  | GetContainer _ => res Container
  | GetFiles _ _ => res TarStream
  | CloseStream | WaitTimer _ | Evacuate => unit
  | AllocateContainers _ => res (list executor.AllocationFailure)
  | TotalResources | RemainingResources => res executor.ExecutorResources
  | VolumeDrivers => res (list string)
  | Healthy => bool
  | ActualLRPGroups _ => res (list ActualLRPGroup)
  | TasksByCellID _ => res (list models_Task)
  | DesiredLRPByProcessGuid _ => res DesiredLRP
  | TaskByGuid _ => res models_Task
  | ClaimActualLRP _ _ _ | StartActualLRP _ _ _ | CrashActualLRP _ _ _
  | RemoveActualLRP _ _ _ | RemoveEvacuatingActualLRP _ _
  | CompleteTask _ _ _ _ _ | FailTask _ _ | SendMetric _ _ | SendDuration _ _ => option error
  | ClockNow => Z
  | EvacuateClaimedActualLRP _ _ | EvacuateRunningActualLRP _ _ _ _
  | EvacuateStoppedActualLRP _ _ | EvacuateCrashedActualLRP _ _ _
  | StartTask _ _ => bool * option error
  | Evacuating => bool
  | GenerateInstanceGuid => res string
  end.

(** A call with its reply. *)
Definition ev (c : call) (r : reply c) : event reply := existT c r.

(** The same call with the same reply. *)
Lemma ev_GetContainer_inj guid r r' : ev (GetContainer guid) r = ev (GetContainer guid) r' → r = r'.
Proof.
  intros He. pose (look := λ e : event reply, match e with existT c r =>
    match c return reply c → option (res Container) with GetContainer _ => Some | _ => λ _, None end r end).
  by injection (f_equal look He).
Qed.
Lemma ev_Evacuating_inj b b' : ev Evacuating b = ev Evacuating b' → b = b'.
Proof.
  intros He. pose (look := λ e : event reply, match e with existT c r =>
    match c return reply c → option bool with Evacuating => Some | _ => λ _, None end r end).
  by injection (f_equal look He).
Qed.
Lemma ev_RemainingResources_inj r r' : ev RemainingResources r = ev RemainingResources r' → r = r'.
Proof.
  intros He. pose (look := λ e : event reply, match e with existT c r =>
    match c return reply c → option (res executor.ExecutorResources) with
    | RemainingResources => Some | _ => λ _, None end r end).
  by injection (f_equal look He).
Qed.

(** The container a call to the executor changes, if it changes one. *)
Definition mutates (c : call) : option string :=
  match c with
  | RunContainer req => Some (rr_Guid req)
  | StopContainer guid | DeleteContainer guid => Some guid
  | _ => None
  end.

(** Whether a call asks the bulletin board to change a record. *)
Definition bbs_write (c : call) : bool :=
  match c with
  | ClaimActualLRP _ _ _ | StartActualLRP _ _ _ | CrashActualLRP _ _ _
  | RemoveActualLRP _ _ _ | EvacuateClaimedActualLRP _ _ | EvacuateRunningActualLRP _ _ _ _
  | EvacuateStoppedActualLRP _ _ | EvacuateCrashedActualLRP _ _ _
  | RemoveEvacuatingActualLRP _ _ | StartTask _ _ | CompleteTask _ _ _ _ _ | FailTask _ _ => true
  | _ => false
  end.

(** Whether some reading of the evacuation flag in [tr] found it set. *)
Definition saw_evacuating (tr : trace reply) : bool :=
  existsb (λ e, match e with existT c r =>
    match c return reply c → bool with Evacuating => λ b, b | _ => λ _, false end r end) tr.

(** The services at their quietest: every call succeeds, there is nothing on the
    cell and nothing on the bulletin board.  Concrete environments override the
    calls they are about. *)
Definition quiet (c : call) : reply c :=
  match c with
  | ListContainers => Ok []
  | GetContainer _ => Err executor_ErrContainerNotFound
  | GetFiles _ _ => Ok (mkTarStream None "" 0 None)
  | CloseStream | WaitTimer _ | Evacuate => tt
  | AllocateContainers _ => Ok []
  | TotalResources | RemainingResources => Ok (executor.mkExecutorResources 0 0 0)
  | VolumeDrivers => Ok []
  | Healthy => true
  | ClockNow => 0%Z
  | ActualLRPGroups _ => Ok []
  | TasksByCellID _ => Ok []
  | DesiredLRPByProcessGuid _ =>
      Ok (mkDesiredLRP "" 0 [] "" "" "" 0 false [] None None None None [] [] "" [] None None "" "")
  | TaskByGuid guid =>
      Ok (mk_models_Task guid "" "" 0 false "" "" "" [] None [] [] "" [] None None "" "")
  | EvacuateClaimedActualLRP _ _ | EvacuateRunningActualLRP _ _ _ _
  | EvacuateStoppedActualLRP _ _ | EvacuateCrashedActualLRP _ _ _ => (false, None)
  | StartTask _ _ => (true, None)
  | Evacuating => false
  | GenerateInstanceGuid => Ok "instance-guid"
  | _ => None
  end.

End messages.

Notation rep := (prog reply).

(** ** An instance for concrete runs: the documented checks of [models]. *)
Definition nonempty_check (what s : string) : option error :=
  if bool_decide (s = "") then Some (errors_New ("invalid field: " +:+ what)) else None.

#[local] Instance example_models : Models := {|
  Action := string;
  CheckDefinition := string;
  SecurityGroupRule := string;
  models_EnvironmentVariable := string * string;
  PreloadedRootFSScheme := "preloaded";
  PreloadedOCIRootFSScheme := "preloaded+layer";
  ActualLRPKey_Validate := λ k,
    if bool_decide (ProcessGuid k = "") then Some (errors_New "invalid field: process_guid")
    else if bool_decide (Index k < 0)%Z then Some (errors_New "invalid field: index")
    else nonempty_check "domain" (Domain k);
  ActualLRPInstanceKey_Validate := λ k,
    if bool_decide (CellId k = "") then Some (errors_New "invalid field: cell_id")
    else nonempty_check "instance_guid" (InstanceGuid k);
  ActualLRPNetInfo_Validate := λ n, nonempty_check "address" (Address n);
  ConvertError_Type := λ e, match e with models_Error t _ => t | _ => Error_UnknownError end;
  EnvironmentVariablesFromModel := fmap (λ nv, executor.mkEnvironmentVariable nv.1 nv.2);
|}.
