(* ===== verification/RootFS.v ===== *)
(** rootfs_providers.go: which root file systems a cell can provide.

    A provider accepts any URL of its scheme, or the opaque parts of a fixed
    set.  [RootFSProviders] maps a scheme to a provider; it travels as JSON. *)

From S2P Require Import Prelude GoInt GoStrings GoUrl GoJson Effects Services.

(** [StringSet] is a map with empty values: a finite set. *)
Definition StringSet := gset string.

Fixpoint NewStringSet (entries : list string) : StringSet :=
  match entries with
  | [] => ∅
  | entry :: entries => {[entry]} ∪ NewStringSet entries
  end.

Definition StringSet_Contains (set : StringSet) (candidate : string) : bool :=
  bool_decide (candidate ∈ set).

Inductive RootFSProviderType := RootFSProviderTypeArbitrary | RootFSProviderTypeFixedSet.

(** The strings of the two provider types. *)
Definition RootFSProviderType_string (t : RootFSProviderType) : string :=
  match t with
  | RootFSProviderTypeArbitrary => "arbitrary"
  | RootFSProviderTypeFixedSet => "fixed_set"
  end.

(** The two implementations of the interface [RootFSProvider]. *)
Inductive RootFSProvider :=
| ArbitraryRootFSProvider
| FixedSetRootFSProvider (FixedSet : StringSet).

Definition NewFixedSetRootFSProvider (rootfses : list string) : RootFSProvider :=
  FixedSetRootFSProvider (NewStringSet rootfses).

Definition RootFSProvider_Type (p : RootFSProvider) : RootFSProviderType :=
  match p with
  | ArbitraryRootFSProvider => RootFSProviderTypeArbitrary
  | FixedSetRootFSProvider _ => RootFSProviderTypeFixedSet
  end.

Definition RootFSProvider_Match (p : RootFSProvider) (rootfs : URL) : bool :=
  match p with
  | ArbitraryRootFSProvider => true
  | FixedSetRootFSProvider set => StringSet_Contains set (Opaque rootfs)
  end.

(** An interface value may be nil: [None].  Calling a method of a nil interface
    panics, which [RootFSProviders_Match] reports as [None]. *)
Notation RootFSProviders := (gmap string (option RootFSProvider)).

Definition RootFSProviders_Match (p : RootFSProviders) (rootFS : URL) : option bool :=
  match p !! Scheme rootFS with
  | None => Some false
  | Some None => None
  | Some (Some provider) => Some (RootFSProvider_Match provider rootFS)
  end.

(** [for key := range p { pCopy[key] = p[key] }], in the order [keys]. *)
Definition RootFSProviders_Copy (keys : list string) (p : RootFSProviders) : RootFSProviders :=
  foldl (λ pCopy key, <[key := default None (p !! key)]> pCopy) ∅ keys.

(** ** JSON *)

(** [json.Marshal] of a map writes its members sorted by key; an empty struct is {}.
    (A nil set, written as null and read back as such, is not told from an empty one.) *)
Definition StringSet_MarshalJSON (s : StringSet) : json :=
  JObject ((λ k, (k, JObject [])) <$> SortStrings (elements s)).

Definition RootFSProvider_MarshalJSON (p : RootFSProvider) : json :=
  match p with
  | ArbitraryRootFSProvider =>
      JObject [("type", JString (RootFSProviderType_string (RootFSProvider_Type p)))]
  | FixedSetRootFSProvider set =>
      JObject [("set", StringSet_MarshalJSON set);
               ("type", JString (RootFSProviderType_string (RootFSProvider_Type p)))]
  end.

(** A nil interface marshals as null. *)
Definition RootFSProviders_MarshalJSON (p : RootFSProviders) : json :=
  JObject ((λ k, (k, match p !! k with
                     | Some (Some v) => RootFSProvider_MarshalJSON v
                     | _ => JNull
                     end)) <$> SortStrings (elements (dom p))).

(** Decoding into [map[string]struct{}]: members must be objects or null. *)
Definition StringSet_UnmarshalJSON (v : json) : res StringSet :=
  match v with
  | JNull => Ok ∅
  | JObject fields =>
      if forallb (λ kv, match kv.2 with JObject _ | JNull => true | _ => false end) fields
      then Ok (NewStringSet fields.*1) else Err json_Error
  | _ => Err json_Error
  end.

(** The struct tag of [fixed.Set] is malformed (it reads [json"set"], without a
    colon), so the field is looked up under its own name, "Set"; decoding
    ignores case, so the member "set" still reaches it. *)
Definition FixedSetRootFSProvider_UnmarshalJSON (payload : json) : res RootFSProvider :=
  match payload with
  | JNull => Ok (FixedSetRootFSProvider ∅)
  | JObject fields =>
      match struct_field "Set" fields with
      | None => Ok (FixedSetRootFSProvider ∅)
      | Some v => set ← StringSet_UnmarshalJSON v; Ok (FixedSetRootFSProvider set)
      end
  | _ => Err json_Error
  end.

(** The envelope's type field: a string, or absent. *)
Definition rootFSProviderEnvelope (payload : json) : res string :=
  match payload with
  | JNull => Ok ""
  | JObject fields =>
      match struct_field "type" fields with
      | None | Some JNull => Ok ""
      | Some (JString t) => Ok t
      | Some _ => Err json_Error
      end
  | _ => Err json_Error
  end.

(** An unknown type yields a nil provider and a nil error. *)
Definition unmarshalRootFSProvider (payload : json) : res (option RootFSProvider) :=
  t ← rootFSProviderEnvelope payload;
  if bool_decide (t = RootFSProviderType_string RootFSProviderTypeArbitrary)
  then Ok (Some ArbitraryRootFSProvider)
  else if bool_decide (t = RootFSProviderType_string RootFSProviderTypeFixedSet)
  then provider ← FixedSetRootFSProvider_UnmarshalJSON payload; Ok (Some provider)
  else Ok None.

(** The loop over the envelope: stops at the first error. *)
Fixpoint unmarshal_members (l : list (string * json)) (providers : RootFSProviders) : res RootFSProviders :=
  match l with
  | [] => Ok providers
  | (key, value) :: l =>
      provider ← unmarshalRootFSProvider value;
      unmarshal_members l (<[key := provider]> providers)
  end.

(** [order] is the order in which the loop visits the decoded envelope. *)
Definition RootFSProviders_UnmarshalJSON (order : gmap string json → list (string * json))
    (payload : json) : res RootFSProviders :=
  match payload with
  | JNull => Ok ∅
  | JObject fields => unmarshal_members (order (members_map fields)) ∅
  | _ => Err json_Error
  end.

(** ** Sets and matching *)

Lemma elem_of_NewStringSet x l : x ∈ NewStringSet l ↔ x ∈ l.
Proof. induction l as [|y l IH]; simpl; set_solver. Qed.

Lemma StringSet_Contains_spec l x :
  StringSet_Contains (NewStringSet l) x = true ↔ x ∈ l.
Proof. unfold StringSet_Contains. rewrite bool_decide_eq_true. apply elem_of_NewStringSet. Qed.

Lemma NewStringSet_elements (s : StringSet) l : l ≡ₚ elements s → NewStringSet l = s.
Proof.
  intros Hl. apply set_eq. intros x. rewrite elem_of_NewStringSet, Hl.
  apply elem_of_elements.
Qed.

Lemma RootFSProviders_Copy_lookup keys (p : RootFSProviders) k :
  (∀ k, k ∈ keys ↔ is_Some (p !! k)) → RootFSProviders_Copy keys p !! k = p !! k.
Proof.
  intros Hkeys.
  assert (∀ ks (acc : RootFSProviders), foldl (λ pCopy key, <[key := default None (p !! key)]> pCopy) acc ks !! k
     = if decide (k ∈ ks) then Some (default None (p !! k)) else acc !! k) as Hfold.
  { induction ks as [|x ks IH]; intros acc; cbn [foldl].
    { by rewrite decide_False by set_solver. }
    rewrite IH. destruct (decide (k ∈ ks)).
    - by rewrite decide_True by set_solver.
    - destruct (decide (x = k)) as [->|].
      + rewrite decide_True by set_solver. by rewrite lookup_insert_eq.
      + rewrite decide_False by set_solver. by rewrite lookup_insert_ne. }
  unfold RootFSProviders_Copy. rewrite Hfold. rewrite lookup_empty.
  destruct (p !! k) eqn:E.
  - rewrite decide_True; [done|]. apply Hkeys. rewrite E. eauto.
  - rewrite decide_False; [done|]. intros [? Hx]%Hkeys. congruence.
Qed.

(** ** Round trip *)

Lemma struct_field_type set t :
  struct_field "type" [("set", set); ("type", t)] = Some t.
Proof. reflexivity. Qed.

Lemma struct_field_set set t :
  struct_field "Set" [("set", set); ("type", t)] = Some set.
Proof. reflexivity. Qed.

Lemma StringSet_roundtrip s : StringSet_UnmarshalJSON (StringSet_MarshalJSON s) = Ok s.
Proof.
  unfold StringSet_UnmarshalJSON, StringSet_MarshalJSON.
  rewrite (proj2 (forallb_forall _ _)).
  - f_equal. apply NewStringSet_elements.
    rewrite <- list_fmap_compose. simpl.
    rewrite (list_fmap_ext _ id) by done. rewrite list_fmap_id. apply SortStrings_perm.
  - intros [k v] Hin. apply list_elem_of_In, list_elem_of_fmap in Hin as (x & ? & _).
    by simplify_eq/=.
Qed.

Lemma RootFSProvider_roundtrip p :
  unmarshalRootFSProvider (RootFSProvider_MarshalJSON p) = Ok (Some p).
Proof.
  destruct p as [|set]; [done|].
  unfold unmarshalRootFSProvider, rootFSProviderEnvelope, RootFSProvider_MarshalJSON.
  rewrite struct_field_type. cbn [mbind result_bind].
  unfold FixedSetRootFSProvider_UnmarshalJSON.
  rewrite struct_field_set, StringSet_roundtrip. reflexivity.
Qed.

(** Decoding member by member when none of them fails. *)
Lemma unmarshal_members_ok l (f : string → option RootFSProvider) acc :
  (∀ k v, (k, v) ∈ l → unmarshalRootFSProvider v = Ok (f k)) → NoDup l.*1 →
  ∃ m, unmarshal_members l acc = Ok m ∧
       ∀ k, m !! k = if decide (k ∈ l.*1) then Some (f k) else acc !! k.
Proof.
  revert acc. induction l as [|[k v] l IH]; intros acc Hf Hnd; cbn [unmarshal_members].
  { exists acc. split; [done|]. intros k. by rewrite decide_False by set_solver. }
  apply NoDup_cons in Hnd as [Hk Hnd].
  rewrite (Hf k v) by set_solver. simpl.
  destruct (IH (<[k := f k]> acc)) as (m & -> & Hm); [set_solver|done|].
  exists m. split; [done|]. intros k'. rewrite Hm.
  destruct (decide (k' ∈ l.*1)).
  - by rewrite decide_True by set_solver.
  - destruct (decide (k = k')) as [->|].
    + rewrite decide_True by set_solver. by rewrite lookup_insert_eq.
    + rewrite decide_False by set_solver. by rewrite lookup_insert_ne.
Qed.

Lemma members_map_lookup_In {V} (l : list (string * V)) k v :
  NoDup l.*1 → members_map l !! k = Some v ↔ (k, v) ∈ l.
Proof.
  intros Hnd. rewrite members_map_list_to_map, <- elem_of_list_to_map.
  - by rewrite elem_of_reverse.
  - by rewrite fmap_reverse, reverse_Permutation.
Qed.

Lemma SortStrings_elements_NoDup (X : gset string) : NoDup (SortStrings (elements X)).
Proof. rewrite SortStrings_perm. apply NoDup_elements. Qed.

Lemma elem_of_SortStrings_elements (X : gset string) x : x ∈ SortStrings (elements X) ↔ x ∈ X.
Proof. rewrite SortStrings_perm. apply elem_of_elements. Qed.

Lemma iteration_of_spec {V} (m : gmap string V) l :
  iteration_of m l → NoDup l.*1 ∧ ∀ k v, (k, v) ∈ l ↔ m !! k = Some v.
Proof.
  intros Hl. split.
  - rewrite Hl. apply NoDup_fst_map_to_list.
  - intros k v. rewrite Hl. apply elem_of_map_to_list.
Qed.

(** The member that [RootFSProviders_MarshalJSON] writes for a key decodes to
    the key's provider, a nil one included. *)
Lemma marshalled_member (p : RootFSProviders) k v :
  members_map ((λ k, (k, match p !! k with
                     | Some (Some v) => RootFSProvider_MarshalJSON v
                     | _ => JNull
                     end)) <$> SortStrings (elements (dom p))) !! k = Some v ↔
  k ∈ dom p ∧ v = match p !! k with
                  | Some (Some v) => RootFSProvider_MarshalJSON v
                  | _ => JNull
                  end.
Proof.
  rewrite members_map_lookup_In.
  - rewrite list_elem_of_fmap. split.
    + intros (k' & ? & ?%elem_of_SortStrings_elements). by simplify_eq.
    + intros [Hk ->]. exists k. by rewrite elem_of_SortStrings_elements.
  - rewrite <- list_fmap_compose. rewrite (list_fmap_ext _ id) by done.
    rewrite list_fmap_id. apply SortStrings_elements_NoDup.
Qed.

(** The providers of a cell survive their trip over JSON: decoding what
    [MarshalJSON] wrote gives the same providers, for every order in which the
    decoder may visit the members, despite the malformed tag of [fixed.Set]. *)
Theorem RootFSProviders_roundtrip (order : gmap string json → list (string * json))
    (p : RootFSProviders) :
  (∀ m, iteration_of m (order m)) →
  RootFSProviders_UnmarshalJSON order (RootFSProviders_MarshalJSON p) = Ok p.
Proof.
  intros Horder. unfold RootFSProviders_UnmarshalJSON, RootFSProviders_MarshalJSON.
  set (m := members_map _). destruct (iteration_of_spec _ _ (Horder m)) as [Hnd Hin].
  destruct (unmarshal_members_ok (order m) (λ k, default None (p !! k)) ∅) as (m' & -> & Hm').
  - intros k v [_ ->]%Hin%marshalled_member.
    destruct (p !! k) as [[?|]|]; [apply RootFSProvider_roundtrip|done..].
  - done.
  - f_equal. apply map_eq. intros k. rewrite Hm', lookup_empty.
    destruct (p !! k) as [v|] eqn:Hk; simpl.
    + rewrite decide_True; [done|]. apply list_elem_of_fmap.
      eexists (k, _). split; [done|]. apply Hin, marshalled_member.
      split; [|done]. apply elem_of_dom. by rewrite Hk.
    + rewrite decide_False; [done|]. intros ([k' v] & ? & [Hd _]%Hin%marshalled_member)%list_elem_of_fmap.
      simplify_eq/=. apply elem_of_dom in Hd as [??]. congruence.
Qed.

Lemma RootFSProviders_roundtrip_witness :
  RootFSProviders_UnmarshalJSON map_to_list
    (RootFSProviders_MarshalJSON
       {["docker" := Some ArbitraryRootFSProvider;
         "preloaded" := Some (NewFixedSetRootFSProvider ["cflinuxfs2"; "windows"])]})
  = Ok {["docker" := Some ArbitraryRootFSProvider;
         "preloaded" := Some (NewFixedSetRootFSProvider ["cflinuxfs2"; "windows"])]}.
Proof. apply RootFSProviders_roundtrip. intros m. unfold iteration_of. reflexivity. Defined.

Lemma envelope_type t : rootFSProviderEnvelope (JObject [("type", JString t)]) = Ok t.
Proof. reflexivity. Qed.

(** A document that names a provider type this version does not know decodes
    without an error to a nil provider, and matching a root file system of that
    scheme then calls a method of the nil interface. *)
Theorem RootFSProviders_unknown_type_panics (t scheme : string) (opaque query : string) :
  t ∉ ["arbitrary"; "fixed_set"] →
  ∃ p, RootFSProviders_UnmarshalJSON map_to_list (JObject [(scheme, JObject [("type", JString t)])]) = Ok p ∧
       RootFSProviders_Match p (mkURL scheme opaque query) = None.
Proof.
  intros Ht. exists {[scheme := None]}. split.
  - unfold RootFSProviders_UnmarshalJSON, members_map. simpl.
    rewrite insert_empty, map_to_list_singleton. simpl.
    unfold unmarshalRootFSProvider. rewrite (envelope_type t). simpl.
    rewrite !bool_decide_false by set_solver. done.
  - unfold RootFSProviders_Match. simpl. by rewrite lookup_singleton_eq.
Qed.

Lemma RootFSProviders_unknown_type_panics_witness :
  ∃ p, RootFSProviders_UnmarshalJSON map_to_list
         (JObject [("oci", JObject [("type", JString "layered")])]) = Ok p ∧
       RootFSProviders_Match p (mkURL "oci" "stack" "") = None.
Proof. apply RootFSProviders_unknown_type_panics. vm_compute. set_solver. Defined.
