(* ===== verification/Resources.v ===== *)
(** resources.go and scoring.go: what a cell offers to the auctioneer, what a
    piece of work asks for, and how a cell is matched and scored. *)

From Stdlib Require Import Floats.SpecFloat.
From S2P Require Import Prelude GoInt GoStrings GoUrl GoJson Effects Services RootFS.

#[local] Open Scope Z_scope.

(** ** Data *)

(** [MemoryMB], [DiskMB] and [MaxPids] are [int32], [Containers] is [int]. *)
Record Resources := mkResources { MemoryMB : Z; DiskMB : Z; Containers : Z }.
Record Resource := mkResource { res_MemoryMB : Z; res_DiskMB : Z; res_MaxPids : Z }.
Record PlacementConstraint := mkPlacementConstraint {
  pc_PlacementTags : list string; pc_VolumeDrivers : list string; pc_RootFs : string }.

(** The structs embed the key, the constraint and the resource. *)
Record LRP := mkLRP {
  lrp_Key : ActualLRPKey; lrp_PlacementConstraint : PlacementConstraint; lrp_Resource : Resource }.
Record Task := mkTask {
  task_Guid : string; task_Domain : string;
  task_PlacementConstraint : PlacementConstraint; task_Resource : Resource }.
Record Work := mkWork { work_LRPs : list LRP; work_Tasks : list Task }.

#[global] Instance Resource_eq_dec : EqDecision Resource.
Proof. solve_decision. Defined.
#[global] Instance PlacementConstraint_eq_dec : EqDecision PlacementConstraint.
Proof. solve_decision. Defined.
#[global] Instance LRP_eq_dec : EqDecision LRP.
Proof. solve_decision. Defined.
#[global] Instance Task_eq_dec : EqDecision Task.
Proof. solve_decision. Defined.

Record CellState := mkCellState {
  cs_RootFSProviders : RootFSProviders;
  cs_AvailableResources : Resources;
  cs_TotalResources : Resources;
  cs_LRPs : list LRP;
  cs_Tasks : list Task;
  cs_StartingContainerCount : Z;
  cs_Zone : string;
  cs_Evacuating : bool;
  cs_VolumeDrivers : list string;
  cs_PlacementTags : list string;
  cs_OptionalPlacementTags : list string }.

Definition NewCellState (root : RootFSProviders) (avail total : Resources)
    (lrps : list LRP) (tasks : list Task) (zone : string) (startingContainerCount : Z)
    (isEvac : bool) (volumeDrivers placementTags optionalPlacementTags : list string) : CellState :=
  {| cs_RootFSProviders := root; cs_AvailableResources := avail; cs_TotalResources := total;
     cs_LRPs := lrps; cs_Tasks := tasks; cs_Zone := zone;
     cs_StartingContainerCount := startingContainerCount; cs_Evacuating := isEvac;
     cs_VolumeDrivers := volumeDrivers; cs_PlacementTags := placementTags;
     cs_OptionalPlacementTags := optionalPlacementTags |}.

Definition NewResources (memoryMb diskMb containerCount : Z) : Resources :=
  mkResources memoryMb diskMb containerCount.
Definition NewResource (memoryMb diskMb maxPids : Z) : Resource :=
  mkResource memoryMb diskMb maxPids.
Definition NewPlacementConstraint (rootFs : string) (placementTags volumeDrivers : list string) :=
  mkPlacementConstraint placementTags volumeDrivers rootFs.
Definition NewLRP (key : ActualLRPKey) (r : Resource) (pc : PlacementConstraint) : LRP := mkLRP key pc r.
Definition NewTask (guid domain : string) (r : Resource) (pc : PlacementConstraint) : Task :=
  mkTask guid domain pc r.

Definition Resource_Valid (r : Resource) : bool :=
  bool_decide (0 <= res_DiskMB r) && bool_decide (0 <= res_MemoryMB r).
Definition Resource_Copy (r : Resource) : Resource :=
  NewResource (res_MemoryMB r) (res_DiskMB r) (res_MaxPids r).
Definition PlacementConstraint_Valid (p : PlacementConstraint) : bool :=
  negb (bool_decide (pc_RootFs p = "")).

(** [fmt.Sprintf("%s.%d", lrp.ProcessGuid, lrp.Index)] *)
Definition LRP_Identifier (lrp : LRP) : string :=
  ProcessGuid (lrp_Key lrp) +:+ "." +:+ Itoa (Index (lrp_Key lrp)).
Definition LRP_Copy (lrp : LRP) : LRP :=
  NewLRP (lrp_Key lrp) (lrp_Resource lrp) (lrp_PlacementConstraint lrp).
Definition Task_Identifier (task : Task) : string := task_Guid task.
Definition Task_Copy (task : Task) : Task := task.

(** ** Taking resources *)

Definition Resources_Copy (r : Resources) : Resources := r.

Definition Resources_Subtract (r : Resources) (res : Resource) : Resources :=
  {| MemoryMB := int32 (MemoryMB r - res_MemoryMB res);
     DiskMB := int32 (DiskMB r - res_DiskMB res);
     Containers := int (Containers r - 1) |}.

Definition CellState_AddLRP (c : CellState) (lrp : LRP) : CellState :=
  {| cs_RootFSProviders := cs_RootFSProviders c;
     cs_AvailableResources := Resources_Subtract (cs_AvailableResources c) (lrp_Resource lrp);
     cs_TotalResources := cs_TotalResources c;
     cs_LRPs := cs_LRPs c ++ [lrp];
     cs_Tasks := cs_Tasks c;
     cs_StartingContainerCount := int (cs_StartingContainerCount c + 1);
     cs_Zone := cs_Zone c; cs_Evacuating := cs_Evacuating c;
     cs_VolumeDrivers := cs_VolumeDrivers c; cs_PlacementTags := cs_PlacementTags c;
     cs_OptionalPlacementTags := cs_OptionalPlacementTags c |}.

Definition CellState_AddTask (c : CellState) (task : Task) : CellState :=
  {| cs_RootFSProviders := cs_RootFSProviders c;
     cs_AvailableResources := Resources_Subtract (cs_AvailableResources c) (task_Resource task);
     cs_TotalResources := cs_TotalResources c;
     cs_LRPs := cs_LRPs c;
     cs_Tasks := cs_Tasks c ++ [task];
     cs_StartingContainerCount := int (cs_StartingContainerCount c + 1);
     cs_Zone := cs_Zone c; cs_Evacuating := cs_Evacuating c;
     cs_VolumeDrivers := cs_VolumeDrivers c; cs_PlacementTags := cs_PlacementTags c;
     cs_OptionalPlacementTags := cs_OptionalPlacementTags c |}.

(** ** Matching *)

(** [problems] is a map with empty values: a set of names. *)
Definition CellState_ResourceMatch (c : CellState) (res : Resource) : option error :=
  let problems : gset string := ∅ in
  let problems := if DiskMB (cs_AvailableResources c) <? res_DiskMB res
                  then {["disk"]} ∪ problems else problems in
  let problems := if MemoryMB (cs_AvailableResources c) <? res_MemoryMB res
                  then {["memory"]} ∪ problems else problems in
  let problems := if Containers (cs_AvailableResources c) <? 1
                  then {["containers"]} ∪ problems else problems in
  if bool_decide (size problems = 0%nat) then None
  else Some (InsufficientResourcesError problems).

(** [keys] is the order in which the loop visits the set. *)
Definition InsufficientResourcesError_Error (keys : list string) (Problems : gset string) : string :=
  if bool_decide (size Problems = 0%nat) then "insufficient resources"
  else "insufficient resources: " +:+ Join (SortStrings keys) ", ".

(** [None] is a panic of the provider's method. *)
Definition CellState_MatchRootFS (c : CellState) (rootfs : string) : option bool :=
  match Parse rootfs with
  | Err _ => Some false
  | Ok rootFSURL => RootFSProviders_Match (cs_RootFSProviders c) rootFSURL
  end.

(** The inner loop looks for the requested driver, the outer one gives up at
    the first that is not found. *)
Fixpoint driver_found (requestedDriver : string) (actual : list string) : bool :=
  match actual with
  | [] => false
  | actualDriver :: actual =>
      if bool_decide (requestedDriver = actualDriver) then true
      else driver_found requestedDriver actual
  end.
Fixpoint match_drivers (actual requested : list string) : bool :=
  match requested with
  | [] => true
  | requestedDriver :: requested =>
      if driver_found requestedDriver actual then match_drivers actual requested else false
  end.
Definition CellState_MatchVolumeDrivers (c : CellState) (volumeDrivers : list string) : bool :=
  match_drivers (cs_VolumeDrivers c) volumeDrivers.

(** [placementTagSet] and its operations; a loop over a set visits its elements. *)
Fixpoint toSet (slice : list string) : gset string :=
  match slice with
  | [] => ∅
  | k :: slice => {[k]} ∪ toSet slice
  end.
Definition placementTagSet_union (set other : gset string) : gset string :=
  toSet (elements set ++ elements other).
Definition placementTagSet_isSubset (set other : gset string) : bool :=
  forallb (λ k, bool_decide (k ∈ other)) (elements set).

Definition CellState_MatchPlacementTags (c : CellState) (desiredPlacementTags : list string) : bool :=
  let desiredTags := toSet desiredPlacementTags in
  let optionalTags := toSet (cs_OptionalPlacementTags c) in
  let requiredTags := toSet (cs_PlacementTags c) in
  let allTags := placementTagSet_union requiredTags optionalTags in
  placementTagSet_isSubset requiredTags desiredTags && placementTagSet_isSubset desiredTags allTags.

(** ** Scoring: IEEE 754 double precision, rounding to nearest *)
Definition float64 := spec_float.
Definition float64_of_int (z : Z) : float64 := binary_normalize 53 1024 z 0 false.
Definition fadd : float64 → float64 → float64 := SFadd 53 1024.
Definition fsub : float64 → float64 → float64 := SFsub 53 1024.
Definition fmul : float64 → float64 → float64 := SFmul 53 1024.
Definition fdiv : float64 → float64 → float64 := SFdiv 53 1024.

Definition Resources_ComputeScore (r total : Resources) : float64 :=
  let one := float64_of_int 1 in
  let fractionUsedMemory := fsub one (fdiv (float64_of_int (MemoryMB r)) (float64_of_int (MemoryMB total))) in
  let fractionUsedDisk := fsub one (fdiv (float64_of_int (DiskMB r)) (float64_of_int (DiskMB total))) in
  let fractionUsedContainers := fsub one (fdiv (float64_of_int (Containers r)) (float64_of_int (Containers total))) in
  fdiv (fadd (fadd fractionUsedMemory fractionUsedDisk) fractionUsedContainers) (float64_of_int 3).

Definition CellState_ComputeScore (c : CellState) (res : Resource) (startingContainerWeight : float64) : float64 :=
  let remainingResources := Resources_Subtract (Resources_Copy (cs_AvailableResources c)) res in
  let startingContainerScore := fmul (float64_of_int (cs_StartingContainerCount c)) startingContainerWeight in
  fadd (Resources_ComputeScore remainingResources (cs_TotalResources c)) startingContainerScore.

Definition ScoreFunc := CellState → Resource → float64 → float64.
Record ScoreType := mkScoreType { Compute : ScoreFunc }.

Definition computeScore : ScoreFunc := λ c res startingContainerWeight,
  let remainingResources := Resources_Subtract (Resources_Copy (cs_AvailableResources c)) res in
  let startingContainerScore := fmul (float64_of_int (cs_StartingContainerCount c)) startingContainerWeight in
  fadd (Resources_ComputeScore remainingResources (cs_TotalResources c)) startingContainerScore.

Definition bestFit : ScoreFunc := λ c res startingContainerWeight,
  let total := cs_TotalResources c in
  let remainingResources := Resources_Subtract (Resources_Copy (cs_AvailableResources c)) res in
  let fractionUsedMemory := fdiv (float64_of_int (MemoryMB remainingResources)) (float64_of_int (MemoryMB total)) in
  let fractionUsedDisk := fdiv (float64_of_int (DiskMB remainingResources)) (float64_of_int (DiskMB total)) in
  let fractionUsedContainers :=
    fmul (fdiv (float64_of_int (Containers remainingResources)) (float64_of_int (Containers total)))
         (float64_of_int 3) in
  fdiv (fadd (fadd fractionUsedMemory fractionUsedDisk) fractionUsedContainers) (float64_of_int 5).

Definition NewScoreType (f : ScoreType → ScoreType) (zero : ScoreType) : ScoreType := f zero.
Definition BestFitFashion (st : ScoreType) : ScoreType := mkScoreType bestFit.
Definition WorstFitFashion (st : ScoreType) : ScoreType := mkScoreType computeScore.

(** ** Capacity *)

Definition fits (avail : Resources) (res : Resource) : Prop :=
  res_DiskMB res <= DiskMB avail ∧ res_MemoryMB res <= MemoryMB avail ∧ 1 <= Containers avail.

#[global] Instance fits_dec avail res : Decision (fits avail res).
Proof. unfold fits. apply _. Defined.

(** Which names [ResourceMatch] reports. *)
Definition shortages (avail : Resources) (res : Resource) : gset string :=
  (if bool_decide (DiskMB avail < res_DiskMB res) then {["disk"]} else ∅) ∪
  (if bool_decide (MemoryMB avail < res_MemoryMB res) then {["memory"]} else ∅) ∪
  (if bool_decide (Containers avail < 1) then {["containers"]} else ∅).

Lemma shortages_fits avail res : shortages avail res = ∅ ↔ fits avail res.
Proof.
  unfold shortages, fits. repeat case_bool_decide; (split; [|try lia]);
    intros Hs; (lia || set_solver).
Qed.

Lemma ResourceMatch_shortages c res :
  CellState_ResourceMatch c res =
    if decide (fits (cs_AvailableResources c) res) then None
    else Some (InsufficientResourcesError (shortages (cs_AvailableResources c) res)).
Proof.
  unfold CellState_ResourceMatch. set (a := cs_AvailableResources c).
  set (P := (if Containers a <? 1 then _ else _) : gset string).
  assert (P = shortages a res) as ->.
  { unfold P, shortages.
    destruct (DiskMB a <? res_DiskMB res) eqn:?, (MemoryMB a <? res_MemoryMB res) eqn:?,
      (Containers a <? 1) eqn:?; repeat case_bool_decide; try lia; set_solver. }
  destruct (decide (fits a res)) as [Hf|Hf]; rewrite <- shortages_fits in Hf.
  - rewrite Hf. by rewrite bool_decide_true.
  - rewrite bool_decide_false; [done|]. by rewrite size_empty_iff, leibniz_equiv_iff.
Qed.

(** A cell's resources are inside the widths of their fields and not negative. *)
Definition cell_resources_wf (r : Resources) : Prop :=
  0 <= MemoryMB r ∧ is_int32 (MemoryMB r) ∧ 0 <= DiskMB r ∧ is_int32 (DiskMB r) ∧
  0 <= Containers r ∧ is_int (Containers r).

Definition resource_wf (r : Resource) : Prop :=
  Resource_Valid r = true ∧ is_int32 (res_MemoryMB r) ∧ is_int32 (res_DiskMB r).

#[global] Instance resource_wf_dec r : Decision (resource_wf r).
Proof. unfold resource_wf. apply _. Defined.
#[global] Instance cell_resources_wf_dec r : Decision (cell_resources_wf r).
Proof. unfold cell_resources_wf. apply _. Defined.

Lemma resource_wf_nonneg r : resource_wf r → 0 <= res_MemoryMB r ∧ 0 <= res_DiskMB r.
Proof.
  intros [Hv _]. unfold Resource_Valid in Hv.
  apply andb_true_iff in Hv as [?%bool_decide_eq_true ?%bool_decide_eq_true]. done.
Qed.

(** Subtracting what fits is exact and leaves a well-formed amount. *)
Lemma Resources_Subtract_fits avail res :
  cell_resources_wf avail → resource_wf res → fits avail res →
  Resources_Subtract avail res =
    mkResources (MemoryMB avail - res_MemoryMB res) (DiskMB avail - res_DiskMB res)
      (Containers avail - 1) ∧
  cell_resources_wf (Resources_Subtract avail res).
Proof.
  intros Hwf Hr Hf. pose proof (resource_wf_nonneg _ Hr) as [??].
  unfold cell_resources_wf, resource_wf, fits in *. destruct_and!.
  assert (Resources_Subtract avail res =
    mkResources (MemoryMB avail - res_MemoryMB res) (DiskMB avail - res_DiskMB res)
      (Containers avail - 1)) as Heq.
  { unfold Resources_Subtract. rewrite !int32_sub_nonneg by done.
    rewrite int_small; [done|]. unfold is_int in *. lia. }
  split; [done|]. rewrite Heq. simpl. unfold is_int32, is_int in *. lia.
Qed.

(** ** Sequences of placements

    The auctioneer places work on its copy of a cell's state: [AddLRP] or
    [AddTask], after [ResourceMatch] accepted the resource. *)
Inductive placement := PlaceLRP (lrp : LRP) | PlaceTask (task : Task).

Definition placement_resource (p : placement) : Resource :=
  match p with PlaceLRP lrp => lrp_Resource lrp | PlaceTask task => task_Resource task end.

Definition place (c : CellState) (p : placement) : CellState :=
  match p with
  | PlaceLRP lrp => CellState_AddLRP c lrp
  | PlaceTask task => CellState_AddTask c task
  end.

Inductive placements : CellState → list placement → CellState → Prop :=
| placements_nil c : placements c [] c
| placements_cons c p ps c' :
    CellState_ResourceMatch c (placement_resource p) = None →
    placements (place c p) ps c' → placements c (p :: ps) c'.

Definition sum_Z {A} (f : A → Z) (l : list A) : Z := foldr (λ x n, f x + n) 0 l.

Lemma sum_Z_app {A} (f : A → Z) l1 l2 : sum_Z f (l1 ++ l2) = sum_Z f l1 + sum_Z f l2.
Proof. induction l1 as [|x l1 IH]; simpl; lia. Qed.

#[global] Instance sum_Z_Permutation {A} (f : A → Z) : Proper ((≡ₚ) ==> eq) (sum_Z f).
Proof. induction 1; simpl; lia. Qed.

Lemma sum_Z_fmap {A B} (f : B → Z) (g : A → B) l : sum_Z f (g <$> l) = sum_Z (λ x, f (g x)) l.
Proof. induction l as [|x l IH]; [done|]. rewrite fmap_cons. simpl. by rewrite IH. Qed.

Lemma sum_Z_nonneg {A} (f : A → Z) l : Forall (λ x, 0 <= f x) l → 0 <= sum_Z f l.
Proof. induction 1; simpl; lia. Qed.

Lemma sum_Z_ext {A} (f g : A → Z) l : Forall (λ x, f x = g x) l → sum_Z f l = sum_Z g l.
Proof. induction 1; simpl; lia. Qed.

Lemma sum_Z_one {A} (l : list A) : sum_Z (λ _, 1) l = Z.of_nat (length l).
Proof. induction l as [|x l IH]; simpl in *; lia. Qed.

Definition lrps_of (ps : list placement) : list LRP :=
  omap (λ p, match p with PlaceLRP lrp => Some lrp | _ => None end) ps.
Definition tasks_of (ps : list placement) : list Task :=
  omap (λ p, match p with PlaceTask task => Some task | _ => None end) ps.

(** The placements, summed as LRPs and as tasks. *)
Lemma sum_Z_placements (f : Resource → Z) ps :
  sum_Z (λ p, f (placement_resource p)) ps =
    sum_Z (λ lrp, f (lrp_Resource lrp)) (lrps_of ps) + sum_Z (λ task, f (task_Resource task)) (tasks_of ps).
Proof. unfold lrps_of, tasks_of. induction ps as [|[lrp|task] ps IH]; csimpl in *; lia. Qed.

Lemma place_available c p :
  cs_AvailableResources (place c p) =
  Resources_Subtract (cs_AvailableResources c) (placement_resource p).
Proof. by destruct p. Qed.

Lemma ResourceMatch_None c res :
  CellState_ResourceMatch c res = None ↔ fits (cs_AvailableResources c) res.
Proof. rewrite ResourceMatch_shortages. by case_decide. Qed.

Lemma placements_sum c ps c' :
  placements c ps c' → cell_resources_wf (cs_AvailableResources c) →
  Forall (λ p, resource_wf (placement_resource p)) ps →
  cell_resources_wf (cs_AvailableResources c') ∧
  MemoryMB (cs_AvailableResources c') =
    MemoryMB (cs_AvailableResources c) - sum_Z (λ p, res_MemoryMB (placement_resource p)) ps ∧
  DiskMB (cs_AvailableResources c') =
    DiskMB (cs_AvailableResources c) - sum_Z (λ p, res_DiskMB (placement_resource p)) ps ∧
  Containers (cs_AvailableResources c') =
    Containers (cs_AvailableResources c) - Z.of_nat (length ps) ∧
  cs_LRPs c' = cs_LRPs c ++ lrps_of ps ∧ cs_Tasks c' = cs_Tasks c ++ tasks_of ps.
Proof.
  induction 1 as [c|c p ps c' Hm Hps IH]; intros Hwf Hall; simpl.
  { rewrite !app_nil_r. split_and!; auto; lia. }
  apply Forall_cons in Hall as [Hp Hall]. apply ResourceMatch_None in Hm.
  destruct (Resources_Subtract_fits _ _ Hwf Hp Hm) as [Heq Hwf'].
  rewrite place_available in IH. destruct (IH Hwf' Hall) as (? & Hmem & Hdisk & Hc & HL & HT).
  rewrite Heq in Hmem, Hdisk, Hc. simpl in *.
  split_and!; [done|lia|lia|lia| |].
  - rewrite HL. destruct p; simpl; by rewrite <- ?app_assoc.
  - rewrite HT. destruct p; simpl; by rewrite <- ?app_assoc.
Qed.

(** C1 However many LRPs and tasks the auctioneer places on a cell, checking each
    with [ResourceMatch] first, the cell is never over-committed and the 32-bit
    counters never wrap: what is available at the end is exactly what was
    available minus the sum of what was placed, every amount is still
    non-negative and in range, and the LRPs and tasks are appended in order. *)
Theorem placements_never_overcommit c ps c' :
  placements c ps c' → cell_resources_wf (cs_AvailableResources c) →
  Forall (λ p, resource_wf (placement_resource p)) ps →
  cell_resources_wf (cs_AvailableResources c') ∧
  MemoryMB (cs_AvailableResources c') =
    MemoryMB (cs_AvailableResources c) - sum_Z (λ p, res_MemoryMB (placement_resource p)) ps ∧
  DiskMB (cs_AvailableResources c') =
    DiskMB (cs_AvailableResources c) - sum_Z (λ p, res_DiskMB (placement_resource p)) ps ∧
  Containers (cs_AvailableResources c') =
    Containers (cs_AvailableResources c) - Z.of_nat (length ps) ∧
  cs_LRPs c' = cs_LRPs c ++ lrps_of ps ∧ cs_Tasks c' = cs_Tasks c ++ tasks_of ps.
Proof. apply placements_sum. Qed.

Definition example_resource (mem disk : Z) : Resource := mkResource mem disk 1024.
Definition example_cell : CellState :=
  NewCellState ∅ (mkResources 1000 2000 3) (mkResources 4000 8000 10) [] [] "z1" 0 false
    ["local"; "nfs"] ["gpu"] ["ssd"].
Definition example_lrp : LRP :=
  mkLRP (mkActualLRPKey "process-guid" 1 "domain") (mkPlacementConstraint [] [] "preloaded:linux")
    (example_resource 600 500).
Definition example_task : Task :=
  mkTask "task-guid" "domain" (mkPlacementConstraint [] [] "preloaded:linux") (example_resource 400 1500).

Lemma placements_never_overcommit_witness :
  cell_resources_wf (cs_AvailableResources
    (place (place example_cell (PlaceLRP example_lrp)) (PlaceTask example_task))).
Proof.
  apply (placements_never_overcommit example_cell [PlaceLRP example_lrp; PlaceTask example_task]).
  - repeat (constructor; [vm_compute; reflexivity|]). constructor.
  - apply (bool_decide_unpack _). vm_compute. exact I.
  - repeat constructor; apply (bool_decide_unpack _); vm_compute; exact I.
Defined.

(** C36 [ResourceMatch] accepts exactly what fits, and otherwise its error names
    exactly the dimensions that are short, at least one; the text of the error does
    not depend on the order in which Go visits the map of problems. *)
Theorem ResourceMatch_exact c res :
  let avail := cs_AvailableResources c in
  (CellState_ResourceMatch c res = None ↔ fits avail res) ∧
  (¬ fits avail res →
   ∃ P, CellState_ResourceMatch c res = Some (InsufficientResourcesError P) ∧ P ≠ ∅ ∧
     (∀ name, name ∈ P ↔
        (name = "disk" ∧ DiskMB avail < res_DiskMB res) ∨ (name = "memory" ∧ MemoryMB avail < res_MemoryMB res) ∨
        (name = "containers" ∧ Containers avail < 1)) ∧
     ∀ keys, keys ≡ₚ elements P →
       InsufficientResourcesError_Error keys P = InsufficientResourcesError_Error (elements P) P).
Proof.
  intros avail. split; [apply ResourceMatch_None|]. intros Hf. exists (shortages avail res).
  rewrite ResourceMatch_shortages, decide_False by done. split; [done|].
  split; [by rewrite shortages_fits|]. split.
  - intros name. unfold shortages. repeat case_bool_decide; set_solver.
  - intros keys Hkeys. unfold InsufficientResourcesError_Error. by rewrite (SortStrings_order _ _ Hkeys).
Qed.

Example ResourceMatch_message :
  InsufficientResourcesError_Error ["memory"; "disk"]
    (shortages (mkResources 10 10 1) (mkResource 20 20 0)) = "insufficient resources: disk, memory".
Proof. vm_compute. reflexivity. Qed.

(** ** Placement tags and volume drivers *)

Lemma elem_of_toSet x l : x ∈ toSet l ↔ x ∈ l.
Proof. induction l as [|y l IH]; simpl; set_solver. Qed.

Lemma elem_of_placementTagSet_union x X Y :
  x ∈ placementTagSet_union X Y ↔ x ∈ X ∨ x ∈ Y.
Proof. unfold placementTagSet_union. rewrite elem_of_toSet. set_solver. Qed.

Lemma placementTagSet_isSubset_spec X Y : placementTagSet_isSubset X Y = true ↔ X ⊆ Y.
Proof.
  unfold placementTagSet_isSubset. rewrite forallb_forall. split.
  - intros H x Hx. apply (bool_decide_unpack _), Is_true_true, H.
    apply list_elem_of_In. by apply elem_of_elements.
  - intros H x Hx. apply bool_decide_eq_true, H. apply elem_of_elements. by apply list_elem_of_In.
Qed.

(** A cell takes a workload by tags exactly when the workload asks for every
    required tag of the cell and for nothing but required and optional tags;
    repetitions and the order of the tags do not matter. *)
Theorem MatchPlacementTags_spec c desired :
  CellState_MatchPlacementTags c desired = true ↔
  (∀ t, t ∈ cs_PlacementTags c → t ∈ desired) ∧
  (∀ t, t ∈ desired → t ∈ cs_PlacementTags c ∨ t ∈ cs_OptionalPlacementTags c).
Proof.
  unfold CellState_MatchPlacementTags.
  rewrite andb_true_iff, !placementTagSet_isSubset_spec. unfold subseteq, set_subseteq_instance.
  setoid_rewrite elem_of_placementTagSet_union. by setoid_rewrite elem_of_toSet.
Qed.

Lemma driver_found_spec d l : driver_found d l = true ↔ d ∈ l.
Proof.
  induction l as [|x l IH]; simpl; [set_solver|].
  case_bool_decide; subst; [set_solver|]. rewrite IH. set_solver.
Qed.

(** A cell takes a workload by drivers when it has every driver asked for. *)
Lemma MatchVolumeDrivers_spec c requested :
  CellState_MatchVolumeDrivers c requested = true ↔ ∀ d, d ∈ requested → d ∈ cs_VolumeDrivers c.
Proof.
  unfold CellState_MatchVolumeDrivers. induction requested as [|d l IH]; simpl; [set_solver|].
  destruct (driver_found d (cs_VolumeDrivers c)) eqn:E.
  - apply driver_found_spec in E. rewrite IH. set_solver.
  - split; [done|]. intros H. specialize (H d ltac:(set_solver)).
    apply driver_found_spec in H. congruence.
Qed.

(** ** Scores *)

Lemma fdiv_zero_zero : fdiv (float64_of_int 0) (float64_of_int 0) = S754_nan.
Proof. reflexivity. Qed.
Lemma fsub_nan x : fsub x S754_nan = S754_nan.
Proof. by destruct x. Qed.
Lemma fadd_nan_l x : fadd S754_nan x = S754_nan.
Proof. done. Qed.
Lemma fadd_nan_r x : fadd x S754_nan = S754_nan.
Proof. by destruct x. Qed.
Lemma fdiv_nan_l x : fdiv S754_nan x = S754_nan.
Proof. done. Qed.
#[export] Hint Rewrite fdiv_zero_zero fsub_nan fadd_nan_l fadd_nan_r fdiv_nan_l : fnan.

(** The two scores of the package agree ([CellState.ComputeScore] is what
    [WorstFitFashion] installs), the best-fit score ignores the weight and the
    number of starting containers, and the score of a cell that reports a total
    of zero memory, of which it has zero left, is not a number. *)
Theorem scores_spec c res w zero :
  Compute (NewScoreType WorstFitFashion zero) c res w = CellState_ComputeScore c res w ∧
  (∀ w' n, Compute (NewScoreType BestFitFashion zero) c res w =
     Compute (NewScoreType BestFitFashion zero)
       (mkCellState (cs_RootFSProviders c) (cs_AvailableResources c) (cs_TotalResources c)
          (cs_LRPs c) (cs_Tasks c) n (cs_Zone c) (cs_Evacuating c) (cs_VolumeDrivers c)
          (cs_PlacementTags c) (cs_OptionalPlacementTags c)) res w') ∧
  (MemoryMB (cs_TotalResources c) = 0 → MemoryMB (cs_AvailableResources c) = res_MemoryMB res →
   CellState_ComputeScore c res w = S754_nan).
Proof.
  split_and!; [done|done|]. intros Ht Ha.
  unfold CellState_ComputeScore, Resources_ComputeScore, Resources_Copy, Resources_Subtract.
  cbn [MemoryMB DiskMB Containers]. rewrite Ht, Ha, Z.sub_diag.
  change (int32 0) with 0. by autorewrite with fnan.
Qed.
