(* ===== verification/Conversion.v ===== *)
(** conversion_helpers.go: from containers and their tags to the bulletin
    board's keys, and from the bulletin board's definitions of LRPs and tasks to
    the executor's run requests. *)

From S2P Require Import Prelude GoInt GoStrings GoUrl GoJson Effects Services.

#[local] Open Scope Z_scope.

(** ** Names of tags *)
Definition LifecycleTag := "lifecycle".
Definition ResultFileTag := "result-file".
Definition DomainTag := "domain".
Definition TaskLifecycle := "task".
Definition LRPLifecycle := "lrp".
Definition ProcessGuidTag := "process-guid".
Definition InstanceGuidTag := "instance-guid".
Definition ProcessIndexTag := "process-index".

Definition ErrContainerMissingTags := errors_New "container is missing tags".
Definition ErrInvalidProcessIndex := errors_New "container does not have a valid process index".

(** The key under which the executor holds an LRP's container. *)
Definition LRPContainerGuid (processGuid instanceGuid : string) : string := instanceGuid.

Section conversion.
Context `{Models}.

(** ** Keys *)

Definition ActualLRPKeyFromTags (tags : Tags) : res ActualLRPKey :=
  match tags with
  | None => Err ErrContainerMissingTags
  | Some _ =>
      match Atoi (tag tags ProcessIndexTag) with
      | None => Err ErrInvalidProcessIndex
      | Some processIndex =>
          let actualLRPKey :=
            mkActualLRPKey (tag tags ProcessGuidTag) (int32 processIndex) (tag tags DomainTag) in
          match ActualLRPKey_Validate actualLRPKey with
          | Some err => Err err
          | None => Ok actualLRPKey
          end
      end
  end.

Definition ActualLRPInstanceKeyFromContainer (container : Container) (cellID : string)
    : res ActualLRPInstanceKey :=
  match Container_Tags container with
  | None => Err ErrContainerMissingTags
  | Some _ =>
      let actualLRPInstanceKey :=
        mkActualLRPInstanceKey (tag (Container_Tags container) InstanceGuidTag) cellID in
      match ActualLRPInstanceKey_Validate actualLRPInstanceKey with
      | Some err => Err err
      | None => Ok actualLRPInstanceKey
      end
  end.

Definition ActualLRPNetInfoFromContainer (container : Container) : res ActualLRPNetInfo :=
  let ports := (λ p, mkPortMapping (uint32 (executor.HostPort p)) (uint32 (executor.ContainerPort p)))
                 <$> Container_Ports container in
  let actualLRPNetInfo := mkActualLRPNetInfo (ExternalIP container) (InternalIP container) ports in
  match ActualLRPNetInfo_Validate actualLRPNetInfo with
  | Some err => Err err
  | None => Ok actualLRPNetInfo
  end.

(** ** Run requests *)

Definition ConvertCachedDependency (modelDep : CachedDependency) : CachedDependency :=
  {| dep_Name := dep_Name modelDep; dep_From := dep_From modelDep; dep_To := dep_To modelDep;
     dep_CacheKey := dep_CacheKey modelDep; dep_LogSource := dep_LogSource modelDep;
     dep_ChecksumValue := dep_ChecksumValue modelDep;
     dep_ChecksumAlgorithm := dep_ChecksumAlgorithm modelDep |}.

Definition ConvertCachedDependencies (modelDeps : list CachedDependency) : list CachedDependency :=
  ConvertCachedDependency <$> modelDeps.

(** [json.Unmarshal] into [map[string]interface{}]: an object whose numbers are all
    within the range of a float64, or null for nil. *)
Definition unmarshal_config (s : string) : res (option (gmap string json)) :=
  match parse_json s with
  | Some (JObject fields) =>
      if floats_fit (JObject fields) then Ok (Some (members_map fields)) else Err json_Error
  | Some JNull => Ok None
  | _ => Err json_Error
  end.

Definition convertVolumeMount (volumeMnt : models.VolumeMount) : res executor.VolumeMount :=
  config ← (if (0 <? Z.of_nat (String.length (models.MountConfig (models.Shared volumeMnt))))
            then unmarshal_config (models.MountConfig (models.Shared volumeMnt))
            else Ok None);
  mode ← (if bool_decide (models.Mode volumeMnt = "r") then Ok executor.BindMountModeRO
          else if bool_decide (models.Mode volumeMnt = "rw") then Ok executor.BindMountModeRW
          else Err (errors_New "unrecognized volume mount mode"));
  Ok {| executor.Driver := models.Driver volumeMnt;
        executor.VolumeId := models.VolumeId (models.Shared volumeMnt);
        executor.ContainerPath := models.ContainerDir volumeMnt;
        executor.Mode := mode;
        executor.Config := config |}.

Definition convertVolumeMounts (volumeMounts : list models.VolumeMount) : res (list executor.VolumeMount) :=
  result_mapM convertVolumeMount volumeMounts.

Definition convertNetwork (network : option models.Network) : option executor.Network :=
  match network with
  | None => None
  | Some network => Some (executor.mkNetwork (models.Properties network))
  end.

Definition convertCertificateProperties (props : option models.CertificateProperties)
    : executor.CertificateProperties :=
  match props with
  | None => executor.mkCertificateProperties []
  | Some props => executor.mkCertificateProperties (models.OrganizationalUnit props)
  end.

(** Only the container port is set; it is cut to 16 bits. *)
Definition ConvertPortMappings (containerPorts : list Z) : list executor.PortMapping :=
  (λ port, executor.mkPortMapping 0 (uint16 port)) <$> containerPorts.

Definition diskScopeForRootFS (rootFS : string) : res executor.DiskLimitScope :=
  match Parse rootFS with
  | Err e => Err (url_Error e)
  | Ok url =>
      let preloaded := bool_decide (Scheme url = PreloadedRootFSScheme) in
      if preloaded then Ok executor.ExclusiveDiskLimit else Ok executor.TotalDiskLimit
  end.

Definition NewRunRequestFromDesiredLRP (containerGuid : string) (desiredLRP : DesiredLRP)
    (lrpKey : ActualLRPKey) (lrpInstanceKey : ActualLRPInstanceKey) : res RunRequest :=
  diskScope ← diskScopeForRootFS (d_RootFs desiredLRP);
  mounts ← convertVolumeMounts (d_VolumeMounts desiredLRP);
  let runInfo := {|
    ri_CPUWeight := uint64 (d_CpuWeight desiredLRP);
    ri_DiskScope := diskScope;
    ri_Ports := ConvertPortMappings (d_Ports desiredLRP);
    ri_LogConfig := executor.mkLogConfig (d_LogGuid desiredLRP) (int (Index lrpKey)) (d_LogSource desiredLRP);
    ri_MetricsConfig := executor.mkMetricsConfig (d_MetricsGuid desiredLRP) (int (Index lrpKey));
    ri_StartTimeoutMs := uint64 (d_StartTimeoutMs desiredLRP);
    ri_Privileged := d_Privileged desiredLRP;
    ri_CachedDependencies := ConvertCachedDependencies (d_CachedDependencies desiredLRP);
    ri_Setup := d_Setup desiredLRP;
    ri_Action := d_Action desiredLRP;
    ri_Monitor := d_Monitor desiredLRP;
    ri_CheckDefinition := d_CheckDefinition desiredLRP;
    ri_EgressRules := d_EgressRules desiredLRP;
    ri_Env := [executor.mkEnvironmentVariable "INSTANCE_GUID" (InstanceGuid lrpInstanceKey);
               executor.mkEnvironmentVariable "INSTANCE_INDEX" (Itoa (int (Index lrpKey)));
               executor.mkEnvironmentVariable "CF_INSTANCE_GUID" (InstanceGuid lrpInstanceKey);
               executor.mkEnvironmentVariable "CF_INSTANCE_INDEX" (Itoa (int (Index lrpKey)))]
              ++ EnvironmentVariablesFromModel (d_EnvironmentVariables desiredLRP);
    ri_TrustedSystemCertificatesPath := d_TrustedSystemCertificatesPath desiredLRP;
    ri_VolumeMounts := mounts;
    ri_Network := convertNetwork (d_Network desiredLRP);
    ri_CertificateProperties := convertCertificateProperties (d_CertificateProperties desiredLRP);
    ri_ImageUsername := d_ImageUsername desiredLRP;
    ri_ImagePassword := d_ImagePassword desiredLRP |} in
  let tags : Tags := Some ∅ in
  Ok (mkRunRequest containerGuid runInfo tags).

(** The fields a task does not set keep their zero values. *)
Definition NewRunRequestFromTask (task : models_Task) : res RunRequest :=
  diskScope ← diskScopeForRootFS (t_RootFs task);
  mounts ← convertVolumeMounts (t_VolumeMounts task);
  let tags : Tags := Some {[ResultFileTag := t_ResultFile task]} in
  let runInfo := {|
    ri_DiskScope := diskScope;
    ri_CPUWeight := uint64 (t_CpuWeight task);
    ri_Privileged := t_Privileged task;
    ri_LogConfig := executor.mkLogConfig (t_LogGuid task) 0 (t_LogSource task);
    ri_MetricsConfig := executor.mkMetricsConfig (t_MetricsGuid task) 0;
    ri_CachedDependencies := ConvertCachedDependencies (t_CachedDependencies task);
    ri_Action := t_Action task;
    ri_Env := EnvironmentVariablesFromModel (t_EnvironmentVariables task);
    ri_EgressRules := t_EgressRules task;
    ri_TrustedSystemCertificatesPath := t_TrustedSystemCertificatesPath task;
    ri_VolumeMounts := mounts;
    ri_Network := convertNetwork (t_Network task);
    ri_CertificateProperties := convertCertificateProperties (t_CertificateProperties task);
    ri_ImageUsername := t_ImageUsername task;
    ri_ImagePassword := t_ImagePassword task;
    ri_Ports := []; ri_StartTimeoutMs := 0; ri_Setup := None; ri_Monitor := None;
    ri_CheckDefinition := None |} in
  Ok (mkRunRequest (t_TaskGuid task) runInfo tags).

(** ** Facts the callers use *)

Lemma ActualLRPKeyFromTags_Ok tags key :
  ActualLRPKeyFromTags tags = Ok key →
  ProcessGuid key = tag tags ProcessGuidTag ∧ Domain key = tag tags DomainTag ∧
  is_int32 (Index key) ∧ ActualLRPKey_Validate key = None.
Proof.
  unfold ActualLRPKeyFromTags. intros Hk. repeat case_match; simplify_eq/=.
  eauto with rep.
Qed.

Lemma ActualLRPInstanceKeyFromContainer_Ok container cellID ikey :
  ActualLRPInstanceKeyFromContainer container cellID = Ok ikey →
  ikey = mkActualLRPInstanceKey (tag (Container_Tags container) InstanceGuidTag) cellID.
Proof. unfold ActualLRPInstanceKeyFromContainer. intros Hk. by repeat case_match; simplify_eq/=. Qed.

Lemma NewRunRequestFromDesiredLRP_Guid guid d k i req :
  NewRunRequestFromDesiredLRP guid d k i = Ok req → rr_Guid req = guid.
Proof.
  unfold NewRunRequestFromDesiredLRP.
  destruct (diskScopeForRootFS _); [|done]. simpl.
  destruct (convertVolumeMounts _); [|done]. by intros [= <-].
Qed.

Lemma NewRunRequestFromTask_Guid task req :
  NewRunRequestFromTask task = Ok req → rr_Guid req = t_TaskGuid task.
Proof.
  unfold NewRunRequestFromTask.
  destruct (diskScopeForRootFS _); [|done]. simpl.
  destruct (convertVolumeMounts _); [|done]. by intros [= <-].
Qed.

(** ** When a definition can be run *)

Definition mount_ok (m : models.VolumeMount) : bool :=
  bool_decide (models.Mode m ∈ ["r"; "rw"]) &&
  (bool_decide (models.MountConfig (models.Shared m) = "") ||
   match parse_json (models.MountConfig (models.Shared m)) with
   | Some (JObject fields) => floats_fit (JObject fields)
   | Some JNull => true
   | _ => false
   end).

Lemma convertVolumeMount_ok m : is_ok (convertVolumeMount m) = mount_ok m.
Proof.
  unfold convertVolumeMount, mount_ok, unmarshal_config.
  destruct (models.MountConfig (models.Shared m)) as [|c cfg] eqn:Hc.
  - simpl. repeat case_bool_decide; simpl in *; set_solver.
  - rewrite (bool_decide_false (String c cfg = "")) by done.
    set (p := parse_json _). rewrite (proj2 (Z.ltb_lt 0 _)) by (simpl; lia).
    destruct p as [[]|]; cbn [mbind result_bind orb]; try destruct (floats_fit _);
      simpl; rewrite ?andb_false_r, ?andb_true_r; try done;
      repeat case_bool_decide; simpl in *; set_solver.
Qed.

Lemma result_mapM_is_ok {A B} (f : A → res B) l :
  is_ok (result_mapM f l) = forallb (λ x, is_ok (f x)) l.
Proof.
  induction l as [|x l IH]; simpl; [done|]. rewrite <- IH.
  destruct (f x); [|done]. simpl. by destruct (result_mapM f l).
Qed.

Lemma convertVolumeMounts_ok l : is_ok (convertVolumeMounts l) = forallb mount_ok l.
Proof.
  unfold convertVolumeMounts. rewrite result_mapM_is_ok.
  induction l as [|m l IH]; simpl; [done|]. by rewrite convertVolumeMount_ok, IH.
Qed.

Lemma diskScopeForRootFS_ok rootFS : is_ok (diskScopeForRootFS rootFS) = is_ok (Parse rootFS).
Proof. unfold diskScopeForRootFS. destruct (Parse rootFS); [|done]. by case_bool_decide. Qed.

Lemma is_ok_bind {A B} (r : res A) (f : A → res B) b :
  (∀ a, r = Ok a → is_ok (f a) = b) → is_ok (r ≫= f) = is_ok r && b.
Proof. intros Hf. destruct r; simpl; [by apply Hf|done]. Qed.

(** C37 A run request can be made from an LRP or a task definition exactly when
    its root file system is a URL, every volume mount has mode "r" or "rw" and
    every non-empty mount configuration is null or a JSON object with all its numbers
    in the range of a float64; there is no other way to fail. *)
Theorem run_request_possible (guid : string) (d : DesiredLRP) (t : models_Task) k i :
  is_ok (NewRunRequestFromDesiredLRP guid d k i)
    = is_ok (Parse (d_RootFs d)) && forallb mount_ok (d_VolumeMounts d) ∧
  is_ok (NewRunRequestFromTask t)
    = is_ok (Parse (t_RootFs t)) && forallb mount_ok (t_VolumeMounts t).
Proof.
  split.
  - unfold NewRunRequestFromDesiredLRP. rewrite (is_ok_bind _ _ (forallb mount_ok (d_VolumeMounts d))).
    + by rewrite diskScopeForRootFS_ok.
    + intros ds _. rewrite (is_ok_bind _ _ true) by done.
      by rewrite convertVolumeMounts_ok, andb_true_r.
  - unfold NewRunRequestFromTask. rewrite (is_ok_bind _ _ (forallb mount_ok (t_VolumeMounts t))).
    + by rewrite diskScopeForRootFS_ok.
    + intros ds _. rewrite (is_ok_bind _ _ true) by done.
      by rewrite convertVolumeMounts_ok, andb_true_r.
Qed.

Example mount_config_numbers :
  let config n := "{" +:+ q +:+ "a" +:+ q +:+ ":[" +:+ n +:+ "]}" in
  is_ok (unmarshal_config (config "1e308")) = true ∧ is_ok (unmarshal_config (config "1e400")) = false.
Proof. vm_compute. auto. Qed.

(** What the container of an LRP is told: its guid, its identity twice over in
    the first four environment variables (the index printed so that reading it
    back gives the index), the ports modulo 2^16, an exclusive disk limit exactly
    for a preloaded root file system, and as many mounts as the definition has. *)
Theorem run_request_for_lrp guid d k i req :
  NewRunRequestFromDesiredLRP guid d k i = Ok req → is_int32 (Index k) →
  rr_Guid req = guid ∧ rr_Tags req = Some ∅ ∧
  (∃ idx, take 4 (ri_Env (rr_RunInfo req)) =
     [executor.mkEnvironmentVariable "INSTANCE_GUID" (InstanceGuid i);
      executor.mkEnvironmentVariable "INSTANCE_INDEX" idx;
      executor.mkEnvironmentVariable "CF_INSTANCE_GUID" (InstanceGuid i);
      executor.mkEnvironmentVariable "CF_INSTANCE_INDEX" idx] ∧ Atoi idx = Some (Index k)) ∧
  executor.lc_Index (ri_LogConfig (rr_RunInfo req)) = Index k ∧
  (∀ n p, d_Ports d !! n = Some p →
     ∃ pm, ri_Ports (rr_RunInfo req) !! n = Some pm ∧ executor.ContainerPort pm = p mod 65536) ∧
  (∃ url, Parse (d_RootFs d) = Ok url ∧
     (ri_DiskScope (rr_RunInfo req) = executor.ExclusiveDiskLimit ↔ Scheme url = PreloadedRootFSScheme)) ∧
  length (ri_VolumeMounts (rr_RunInfo req)) = length (d_VolumeMounts d).
Proof.
  intros Hreq Hidx. unfold NewRunRequestFromDesiredLRP in Hreq.
  destruct (diskScopeForRootFS _) as [ds|] eqn:Hds; [|done].
  destruct (convertVolumeMounts _) as [ms|] eqn:Hms; simpl in Hreq; [|done].
  injection Hreq as <-. simpl. rewrite (int_small (Index k)) by auto with rep.
  split_and!; [done..| | | | |].
  - exists (Itoa (Index k)). auto with rep.
  - done.
  - intros n p Hp. exists (executor.mkPortMapping 0 (uint16 p)). split; [|done].
    unfold ConvertPortMappings. by rewrite list_lookup_fmap, Hp.
  - unfold diskScopeForRootFS in Hds. destruct (Parse _) as [url|]; [|done].
    exists url. split; [done|]. case_bool_decide; naive_solver.
  - symmetry. by eapply Forall2_length, result_mapM_ok.
Qed.

End conversion.

Definition example_desired : @DesiredLRP example_models :=
  @mkDesiredLRP example_models "preloaded:cflinuxfs2" 100 [8080; 65544] "log-guid" "CELL" "metrics-guid"
    1000 false [] None (Some "run") None None [] [("FOO", "BAR")] "/etc/certs"
    [models.mkVolumeMount "nfs" "/mnt" "rw" (models.mkSharedDevice "vol" "")] None None "" "".

Lemma run_request_for_lrp_witness :
  ∃ req, @NewRunRequestFromDesiredLRP example_models "container-guid" example_desired
           (mkActualLRPKey "process-guid" 7 "domain") (mkActualLRPInstanceKey "instance-guid" "cell") = Ok req ∧
         rr_Guid req = "container-guid".
Proof.
  eexists. split; [reflexivity|].
  eapply (@run_request_for_lrp example_models "container-guid" example_desired
    (mkActualLRPKey "process-guid" 7 "domain") (mkActualLRPInstanceKey "instance-guid" "cell"));
    [reflexivity | vm_compute; split; discriminate].
Defined.

(** An index that does not fit 32 bits is not refused but wraps around. *)
Example process_index_wraps :
  @ActualLRPKeyFromTags example_models
    (Some {[ProcessIndexTag := "4294967297"; ProcessGuidTag := "process-guid"; DomainTag := "domain"]}) =
    Ok (mkActualLRPKey "process-guid" 1 "domain").
Proof. vm_compute. reflexivity. Qed.
