(* ===== verification/AuctionCellRep.v ===== *)
(** auctioncellrep/auction_cell_rep.go: the cell's side of the auction.

    [State] reports what the cell offers and holds, [Perform] turns auctioned
    work into container allocations and hands back what could not be placed. *)

From S2P Require Import Prelude GoInt GoStrings GoUrl GoJson Effects Services RootFS Resources Conversion.

#[local] Open Scope Z_scope.

Definition ErrPreloadedRootFSNotFound := errors_New "preloaded rootfs path not found".
Definition ErrCellUnhealthy := errors_New "internal cell healthcheck failed".

Notation StackPathMap := (gmap string string).

Section auction_cell_rep.
Context `{Models}.

(** The executor client, the evacuation reporter and the guid generator are
    reached through calls; the rest of the struct is here. *)
Record AuctionCellRep := mkAuctionCellRep {
  acr_cellID : string;
  acr_stackPathMap : StackPathMap;
  acr_rootFSProviders : RootFSProviders;
  acr_zone : string;
  acr_placementTags : list string;
  acr_optionalPlacementTags : list string }.

(** The loop over the preloaded stacks only feeds a set, so its order is immaterial. *)
Definition rootFSProviders (preloaded : StackPathMap) (arbitrary : list string) : RootFSProviders :=
  let providers : RootFSProviders :=
    foldl (λ m scheme, <[scheme := Some ArbitraryRootFSProvider]> m) ∅ arbitrary in
  let stacks := (map_to_list preloaded).*1 in
  <[PreloadedOCIRootFSScheme := Some (NewFixedSetRootFSProvider stacks)]>
  (<[PreloadedRootFSScheme := Some (NewFixedSetRootFSProvider stacks)]> providers).

Definition New (cellID : string) (preloadedStackPathMap : StackPathMap) (arbitraryRootFSes : list string)
    (zone : string) (placementTags optionalPlacementTags : list string) : AuctionCellRep :=
  {| acr_cellID := cellID;
     acr_stackPathMap := preloadedStackPathMap;
     acr_rootFSProviders := rootFSProviders preloadedStackPathMap arbitraryRootFSes;
     acr_zone := zone;
     acr_placementTags := placementTags;
     acr_optionalPlacementTags := optionalPlacementTags |}.

Definition PathForRootFS (rootFS : string) (stackPathMap : StackPathMap) : res string :=
  if bool_decide (rootFS = "") then Ok rootFS
  else match Parse rootFS with
  | Err err => Err (url_Error err)
  | Ok url =>
      if bool_decide (Scheme url = PreloadedRootFSScheme) then
        match stackPathMap !! Opaque url with
        | None => Err ErrPreloadedRootFSNotFound
        | Some path => Ok path
        end
      else if bool_decide (Scheme url = PreloadedOCIRootFSScheme) then
        match stackPathMap !! Opaque url with
        | None => Err ErrPreloadedRootFSNotFound
        | Some path => Ok (Scheme url +:+ ":" +:+ path +:+ "?" +:+ RawQuery url)
        end
      else Ok rootFS
  end.

(** ** State *)

Definition containerIsStarting (container : Container) : bool :=
  bool_decide (Container_State container = StateReserved) ||
  bool_decide (Container_State container = StateInitializing) ||
  bool_decide (Container_State container = StateCreated).

Definition convertResources (resources : executor.ExecutorResources) : Resources :=
  {| MemoryMB := int32 (executor.MemoryMB resources);
     DiskMB := int32 (executor.DiskMB resources);
     Containers := executor.Containers resources |}.

Record tally := mkTally { tally_lrps : list LRP; tally_tasks : list Task; tally_starting : Z }.

(** The body of the loop over the containers. *)
Definition tally_container (t : tally) (container : Container) : tally :=
  let starting := if containerIsStarting container then int (tally_starting t + 1) else tally_starting t in
  match Container_Tags container with
  | None => mkTally (tally_lrps t) (tally_tasks t) starting
  | Some _ =>
      let resource := mkResource (int32 (Container_MemoryMB container)) (int32 (Container_DiskMB container)) 0 in
      let placementConstraint := mkPlacementConstraint [] [] "" in
      let lifecycle := tag (Container_Tags container) LifecycleTag in
      if bool_decide (lifecycle = LRPLifecycle) then
        match ActualLRPKeyFromTags (Container_Tags container) with
        | Err _ => mkTally (tally_lrps t) (tally_tasks t) starting
        | Ok key => mkTally (tally_lrps t ++ [NewLRP key resource placementConstraint]) (tally_tasks t) starting
        end
      else if bool_decide (lifecycle = TaskLifecycle) then
        let domain := tag (Container_Tags container) DomainTag in
        mkTally (tally_lrps t)
          (tally_tasks t ++ [NewTask (Guid container) domain resource placementConstraint]) starting
      else mkTally (tally_lrps t) (tally_tasks t) starting
  end.

(** The state with the health flag, or the first error of the executor. *)
Definition State (a : AuctionCellRep) : rep (res (CellState * bool)) :=
  Do ListContainers (λ containers, match containers with
  | Err err => Ret (Err err)
  | Ok containers =>
  Do TotalResources (λ totalResources, match totalResources with
  | Err err => Ret (Err err)
  | Ok totalResources =>
  Do RemainingResources (λ availableResources, match availableResources with
  | Err err => Ret (Err err)
  | Ok availableResources =>
  Do VolumeDrivers (λ volumeDrivers, match volumeDrivers with
  | Err err => Ret (Err err)
  | Ok volumeDrivers =>
    let t := foldl tally_container (mkTally [] [] 0) containers in
    Do Evacuating (λ evacuating,
    let state := NewCellState (acr_rootFSProviders a) (convertResources availableResources)
      (convertResources totalResources) (tally_lrps t) (tally_tasks t) (acr_zone a)
      (tally_starting t) evacuating volumeDrivers (acr_placementTags a) (acr_optionalPlacementTags a) in
    Do Healthy (λ healthy, Ret (Ok (state, healthy))))
  end) end) end) end).

(** ** Perform *)

Definition lrp_tags (lrp : LRP) (instanceGuid : string) : Tags :=
  Some (<[InstanceGuidTag := instanceGuid]>
       (<[LifecycleTag := LRPLifecycle]>
       (<[ProcessIndexTag := Itoa (int (Index (lrp_Key lrp)))]>
       (<[ProcessGuidTag := ProcessGuid (lrp_Key lrp)]>
       (<[DomainTag := Domain (lrp_Key lrp)]> ∅))))).

Definition executor_NewResource (r : Resource) (rootFSPath : string) : executor.Resource :=
  executor.mkResource (int (res_MemoryMB r)) (int (res_DiskMB r)) (int (res_MaxPids r)) rootFSPath.

Definition lrp_request (lrp : LRP) (instanceGuid rootFSPath : string) : executor.AllocationRequest :=
  executor.mkAllocationRequest
    (LRPContainerGuid (ProcessGuid (lrp_Key lrp)) instanceGuid)
    (executor_NewResource (lrp_Resource lrp) rootFSPath)
    (lrp_tags lrp instanceGuid).

Record translated (A : Type) := mkTranslated {
  requests : list executor.AllocationRequest;
  by_guid : gmap string A;
  untranslated : list A }.
#[global] Arguments mkTranslated {A}.
#[global] Arguments requests {A}.
#[global] Arguments by_guid {A}.
#[global] Arguments untranslated {A}.

Fixpoint lrps_loop (a : AuctionCellRep) (lrps : list LRP) (acc : translated LRP) : rep (translated LRP) :=
  match lrps with
  | [] => Ret acc
  | lrp :: lrps =>
      Do GenerateInstanceGuid (λ instanceGuid, match instanceGuid with
      | Err _ => lrps_loop a lrps (mkTranslated (requests acc) (by_guid acc) (untranslated acc ++ [lrp]))
      | Ok instanceGuid =>
          match PathForRootFS (pc_RootFs (lrp_PlacementConstraint lrp)) (acr_stackPathMap a) with
          | Err _ => lrps_loop a lrps (mkTranslated (requests acc) (by_guid acc) (untranslated acc ++ [lrp]))
          | Ok rootFSPath =>
              let containerGuid := LRPContainerGuid (ProcessGuid (lrp_Key lrp)) instanceGuid in
              lrps_loop a lrps (mkTranslated (requests acc ++ [lrp_request lrp instanceGuid rootFSPath])
                (<[containerGuid := lrp]> (by_guid acc)) (untranslated acc))
          end
      end)
  end.

Definition lrpsToAllocationRequest (a : AuctionCellRep) (lrps : list LRP) : rep (translated LRP) :=
  lrps_loop a lrps (mkTranslated [] ∅ []).

Definition task_tags (task : Task) : Tags :=
  Some (<[DomainTag := task_Domain task]> (<[LifecycleTag := TaskLifecycle]> ∅)).

Definition task_request (task : Task) (rootFSPath : string) : executor.AllocationRequest :=
  executor.mkAllocationRequest (task_Guid task)
    (executor_NewResource (task_Resource task) rootFSPath) (task_tags task).

(** The task is entered in the map before its root file system is looked up. *)
Fixpoint tasks_loop (a : AuctionCellRep) (tasks : list Task) (acc : translated Task) : translated Task :=
  match tasks with
  | [] => acc
  | task :: tasks =>
      let taskMap := <[task_Guid task := task]> (by_guid acc) in
      match PathForRootFS (pc_RootFs (task_PlacementConstraint task)) (acr_stackPathMap a) with
      | Err _ => tasks_loop a tasks (mkTranslated (requests acc) taskMap (untranslated acc ++ [task]))
      | Ok rootFSPath =>
          tasks_loop a tasks (mkTranslated (requests acc ++ [task_request task rootFSPath])
            taskMap (untranslated acc))
      end
  end.

Definition tasksToAllocationRequests (a : AuctionCellRep) (tasks : list Task) : translated Task :=
  tasks_loop a tasks (mkTranslated [] ∅ []).

(** The failures the executor reports, as the work they stand for. *)
Definition failed_items {A} (m : gmap string A) (failures : list executor.AllocationFailure) : list A :=
  omap (λ failure, m !! executor.ar_Guid (executor.af_AllocationRequest failure)) failures.

Definition perform_lrps (a : AuctionCellRep) (lrps : list LRP) : rep (list LRP) :=
  match lrps with
  | [] => Ret []
  | _ =>
      let* t := lrpsToAllocationRequest a lrps in
      Do (AllocateContainers (requests t)) (λ failures, match failures with
      | Err _ => Ret lrps
      | Ok failures => Ret (untranslated t ++ failed_items (by_guid t) failures)
      end)
  end.

Definition perform_tasks (a : AuctionCellRep) (tasks : list Task) : rep (list Task) :=
  match tasks with
  | [] => Ret []
  | _ =>
      let t := tasksToAllocationRequests a tasks in
      Do (AllocateContainers (requests t)) (λ failures, match failures with
      | Err _ => Ret tasks
      | Ok failures => Ret (untranslated t ++ failed_items (by_guid t) failures)
      end)
  end.

(** The error of [Perform] is always nil. *)
Definition Perform (a : AuctionCellRep) (work : Work) : rep Work :=
  Do Evacuating (λ evacuating,
  if evacuating : bool then Ret work
  else
    let* failedLRPs := perform_lrps a (work_LRPs work) in
    let* failedTasks := perform_tasks a (work_Tasks work) in
    Ret (mkWork failedLRPs failedTasks)).

Definition Reset : option error := Some (errors_New "not-a-simulation-rep").

End auction_cell_rep.

(** auctioncellrep/helpers.go: a version-4 UUID cut to 28 characters; [uuid] is
    what the UUID library returned. *)
Definition GenerateGuid (uuid : res string) : res string :=
  match uuid with
  | Err err => Err err
  | Ok guid =>
      if bool_decide (28 < String.length guid)%nat then Ok (String.substring 0 28 guid) else Ok guid
  end.

Section auction_cell_rep_facts.
Context `{Models}.

(** ** Root file systems *)

Lemma arbitrary_providers_Some arbitrary (m : RootFSProviders) :
  (∀ k, m !! k ≠ Some None) →
  ∀ k, foldl (λ m scheme, <[scheme := Some ArbitraryRootFSProvider]> m) m arbitrary !! k ≠ Some None.
Proof.
  revert m. induction arbitrary as [|s l IH]; intros m Hm k; simpl; [done|].
  apply IH. intros k'. destruct (decide (s = k')) as [->|].
  - by rewrite lookup_insert_eq.
  - by rewrite lookup_insert_ne.
Qed.

(** The providers of a cell are never nil. *)
Lemma rootFSProviders_Some preloaded arbitrary k :
  rootFSProviders preloaded arbitrary !! k ≠ Some None.
Proof.
  unfold rootFSProviders. rewrite !lookup_insert.
  repeat case_decide; [done..|]. apply arbitrary_providers_Some.
  intros k'. by rewrite lookup_empty.
Qed.

Lemma rootFSProviders_preloaded preloaded arbitrary k :
  k = PreloadedRootFSScheme ∨ k = PreloadedOCIRootFSScheme →
  rootFSProviders preloaded arbitrary !! k
    = Some (Some (NewFixedSetRootFSProvider (map_to_list preloaded).*1)).
Proof. intros Hk. unfold rootFSProviders. rewrite !lookup_insert. repeat case_decide; naive_solver. Qed.

Lemma elem_of_stacks (m : StackPathMap) k : k ∈ (map_to_list m).*1 ↔ is_Some (m !! k).
Proof.
  rewrite list_elem_of_fmap. split.
  - intros ([k' v] & -> & Hv%elem_of_map_to_list). eauto.
  - intros [v Hv]. exists (k, v). by rewrite elem_of_map_to_list.
Qed.

Lemma match_preloaded preloaded arbitrary url :
  Scheme url = PreloadedRootFSScheme ∨ Scheme url = PreloadedOCIRootFSScheme →
  RootFSProviders_Match (rootFSProviders preloaded arbitrary) url
    = Some (bool_decide (is_Some (preloaded !! Opaque url))).
Proof.
  intros Hs. unfold RootFSProviders_Match. rewrite rootFSProviders_preloaded by done.
  simpl. f_equal.
  destruct (StringSet_Contains _ _) eqn:E; symmetry.
  - apply bool_decide_eq_true. by apply elem_of_stacks, StringSet_Contains_spec.
  - apply bool_decide_eq_false. intros Hx. apply elem_of_stacks, StringSet_Contains_spec in Hx.
    congruence.
Qed.

(** What a cell advertises it can run, it can run: when the state that a cell
    reports matches a root file system, translating that root file system to a
    path on the cell succeeds; for the preloaded schemes the converse holds too,
    and matching never panics. *)
Theorem advertised_rootfs_has_path cellID preloaded arbitrary zone tags opt c rootfs :
  cs_RootFSProviders c = acr_rootFSProviders (New cellID preloaded arbitrary zone tags opt) →
  CellState_MatchRootFS c rootfs ≠ None ∧
  (CellState_MatchRootFS c rootfs = Some true → is_ok (PathForRootFS rootfs preloaded) = true) ∧
  (∀ url, Parse rootfs = Ok url →
     Scheme url = PreloadedRootFSScheme ∨ Scheme url = PreloadedOCIRootFSScheme → rootfs ≠ "" →
     CellState_MatchRootFS c rootfs = Some (is_ok (PathForRootFS rootfs preloaded))).
Proof.
  intros Hc. unfold CellState_MatchRootFS, PathForRootFS. rewrite Hc. simpl.
  assert (∀ url, Scheme url = PreloadedRootFSScheme ∨ Scheme url = PreloadedOCIRootFSScheme →
    RootFSProviders_Match (rootFSProviders preloaded arbitrary) url
      = Some (bool_decide (is_Some (preloaded !! Opaque url)))) as Hpre
    by (intros; by apply match_preloaded).
  split_and!.
  - destruct (Parse rootfs) as [url|]; [|done].
    unfold RootFSProviders_Match. pose proof (rootFSProviders_Some preloaded arbitrary (Scheme url)).
    by destruct (_ !! Scheme url) as [[?|]|].
  - case_bool_decide; [done|]. destruct (Parse rootfs) as [url|]; [|done].
    intros Hm. repeat case_bool_decide; [| |done];
      (rewrite Hpre in Hm by auto); injection Hm as Hm%bool_decide_eq_true;
      destruct Hm as [p ->]; done.
  - intros url -> Hs Hne. rewrite Hpre by done. rewrite (bool_decide_false (rootfs = "")) by done.
    f_equal. destruct (preloaded !! Opaque url) as [p|].
    + rewrite bool_decide_true by eauto. repeat case_bool_decide; done.
    + rewrite bool_decide_false by (by intros [??]). repeat case_bool_decide; naive_solver.
Qed.

(** ** Identity *)

Lemma lrp_tags_lookup lrp guid k :
  tag (lrp_tags lrp guid) k =
    if decide (k = InstanceGuidTag) then guid
    else if decide (k = LifecycleTag) then LRPLifecycle
    else if decide (k = ProcessIndexTag) then Itoa (int (Index (lrp_Key lrp)))
    else if decide (k = ProcessGuidTag) then ProcessGuid (lrp_Key lrp)
    else if decide (k = DomainTag) then Domain (lrp_Key lrp) else "".
Proof.
  unfold tag, lrp_tags, lookup_default. rewrite !lookup_insert.
  repeat case_decide; simplify_eq; try done.
Qed.

(** The identity of an LRP survives its container: the tags that [Perform]
    attaches to an allocation request read back, when the container is processed
    later, as exactly the key of the auctioned LRP and the generated instance
    guid, and the container's guid is the one the instance key names. *)
Theorem container_identity_roundtrip lrp guid path cellID container :
  is_int32 (Index (lrp_Key lrp)) → ActualLRPKey_Validate (lrp_Key lrp) = None →
  ActualLRPInstanceKey_Validate (mkActualLRPInstanceKey guid cellID) = None →
  Container_Tags container = executor.ar_Tags (lrp_request lrp guid path) →
  tag (Container_Tags container) LifecycleTag = LRPLifecycle ∧
  ActualLRPKeyFromTags (Container_Tags container) = Ok (lrp_Key lrp) ∧
  ActualLRPInstanceKeyFromContainer container cellID = Ok (mkActualLRPInstanceKey guid cellID) ∧
  LRPContainerGuid (ProcessGuid (lrp_Key lrp)) guid = executor.ar_Guid (lrp_request lrp guid path).
Proof.
  intros Hidx Hkey Hikey Htags. rewrite Htags. cbn [executor.ar_Tags lrp_request].
  unfold ActualLRPKeyFromTags, ActualLRPInstanceKeyFromContainer. rewrite Htags.
  cbn [executor.ar_Tags lrp_request]. rewrite !lrp_tags_lookup. simpl.
  rewrite (int_small (Index _)), Atoi_Itoa, int32_small by auto with rep.
  destruct (lrp_Key lrp) as [pg idx dom]. simpl in *. rewrite Hkey, Hikey. done.
Qed.

(** ** Work *)

Definition guids {A} (pairs : list (A * executor.AllocationRequest)) : list string :=
  (λ p, executor.ar_Guid p.2) <$> pairs.
Definition failure_guids (failures : list executor.AllocationFailure) : list string :=
  (λ f, executor.ar_Guid (executor.af_AllocationRequest f)) <$> failures.

Lemma failed_items_guids {A} (m : gmap string A) failures :
  failed_items m failures = omap (m !!.) (failure_guids failures).
Proof. unfold failed_items, failure_guids. by rewrite omap_fmap_list. Qed.

Definition refused {A} (failures : list executor.AllocationFailure)
    (pairs : list (A * executor.AllocationRequest)) : list A :=
  (filter (λ p, executor.ar_Guid p.2 ∈ failure_guids failures) pairs).*1.
Definition accepted {A} (failures : list executor.AllocationFailure)
    (pairs : list (A * executor.AllocationRequest)) : list A :=
  (filter (λ p, executor.ar_Guid p.2 ∉ failure_guids failures) pairs).*1.

Lemma refused_accepted {A} failures (pairs : list (A * executor.AllocationRequest)) :
  refused failures pairs ++ accepted failures pairs ≡ₚ pairs.*1.
Proof.
  unfold refused, accepted. rewrite <- fmap_app.
  by rewrite (filter_app_complement (λ p, executor.ar_Guid p.2 ∈ failure_guids failures)).
Qed.

(** When guids are distinct and every failure is about a request, the failures
    stand for exactly the refused items. *)
Lemma failed_items_refused {A} (m : gmap string A) pairs failures :
  (∀ x r, (x, r) ∈ pairs → m !! executor.ar_Guid r = Some x) →
  NoDup (guids pairs) → NoDup (failure_guids failures) →
  failure_guids failures ⊆ guids pairs →
  failed_items m failures ≡ₚ refused failures pairs.
Proof.
  intros Hm Hnd Hndf Hsub. rewrite failed_items_guids. unfold refused.
  set (P := λ p : A * executor.AllocationRequest, executor.ar_Guid p.2 ∈ failure_guids failures).
  assert (failure_guids failures ≡ₚ guids (filter P pairs)) as ->.
  { apply NoDup_Permutation; [done| |].
    - by apply NoDup_fmap_filter.
    - intros g. unfold guids, P. rewrite list_elem_of_fmap. split.
      + intros Hg. pose proof (Hsub g Hg) as Hg'. unfold guids in Hg'.
        apply list_elem_of_fmap in Hg' as (p & -> & Hp).
        exists p. split; [done|]. by apply list_elem_of_filter.
      + intros (p & -> & [??]%list_elem_of_filter). done. }
  assert (∀ x r, (x, r) ∈ filter P pairs → m !! executor.ar_Guid r = Some x) as Hm'.
  { intros x r [_ ?]%list_elem_of_filter. eauto. }
  clear -Hm'. induction (filter P pairs) as [|[x r] l IH]; [done|]. simpl.
  rewrite (Hm' x r) by set_solver. constructor. apply IH. set_solver.
Qed.

(** What [Perform] owes the auctioneer for [items] of which it reports [failed]:
    the items that could not be translated ([untr]) and the translated ones
    ([pairs]) make up the items; if the executor refuses the whole batch, all of
    them are reported; otherwise, when guids are distinct and the executor
    reports each refused request once, an item is reported exactly when it was
    not accepted. *)
Definition accounted {A} (items failed : list A) (pairs : list (A * executor.AllocationRequest))
    (untr : list A) (r : res (list executor.AllocationFailure)) : Prop :=
  items ≡ₚ pairs.*1 ++ untr ∧
  match r with
  | Err _ => failed = items
  | Ok failures =>
      NoDup (guids pairs) → NoDup (failure_guids failures) → failure_guids failures ⊆ guids pairs →
      failed ≡ₚ untr ++ refused failures pairs ∧ items ≡ₚ failed ++ accepted failures pairs
  end.

Lemma accounted_intro {A} items (pairs : list (A * executor.AllocationRequest)) untr m r :
  items ≡ₚ pairs.*1 ++ untr →
  (NoDup (guids pairs) → ∀ x req, (x, req) ∈ pairs → m !! executor.ar_Guid req = Some x) →
  accounted items
    (match r with Err _ => items | Ok failures => untr ++ failed_items m failures end) pairs untr r.
Proof.
  intros Hitems Hm. split; [done|]. destruct r as [failures|]; [|done]. intros Hnd Hndf Hsub.
  rewrite (failed_items_refused m pairs) by auto. split; [done|].
  rewrite <- app_assoc, refused_accepted, Hitems. apply Permutation_app_comm.
Qed.

Definition insert_pairs {A} (m : gmap string A) (pairs : list (A * executor.AllocationRequest)) :=
  foldl (λ m p, <[executor.ar_Guid p.2 := p.1]> m) m pairs.

Lemma insert_pairs_other {A} (m : gmap string A) pairs k :
  k ∉ guids pairs → insert_pairs m pairs !! k = m !! k.
Proof.
  revert m. unfold insert_pairs, guids. induction pairs as [|[y r] pairs IH]; intros m Hk; [done|].
  simpl in *. rewrite IH by set_solver. apply lookup_insert_ne. set_solver.
Qed.

Lemma insert_pairs_lookup {A} (m : gmap string A) pairs :
  NoDup (guids pairs) →
  ∀ x req, (x, req) ∈ pairs → insert_pairs m pairs !! executor.ar_Guid req = Some x.
Proof.
  revert m. induction pairs as [|[y r] pairs IH]; intros m Hnd x req Hin; [set_solver|].
  apply NoDup_cons in Hnd as [Hr Hnd].
  apply elem_of_cons in Hin as [[= -> ->]|Hin]; simpl.
  - unfold insert_pairs. simpl. fold (insert_pairs (<[executor.ar_Guid r := y]> m) pairs).
    rewrite insert_pairs_other by done. by rewrite lookup_insert_eq.
  - by apply IH.
Qed.

(** Everything that the executor was asked to allocate. *)
Definition requested (tr : trace reply) : list executor.AllocationRequest :=
  calls tr ≫= λ c, match c with AllocateContainers requests => requests | _ => [] end.

Lemma requested_app tr1 tr2 : requested (tr1 ++ tr2) = requested tr1 ++ requested tr2.
Proof. unfold requested. by rewrite calls_app, bind_app. Qed.

(** Why an LRP or a task is not translated to a request. *)
Definition lrp_untranslatable (a : AuctionCellRep) (tr : trace reply) (lrp : LRP) : Prop :=
  is_ok (PathForRootFS (pc_RootFs (lrp_PlacementConstraint lrp)) (acr_stackPathMap a)) = false ∨
  ∃ err, ev GenerateInstanceGuid (Err err) ∈ tr.
Definition task_untranslatable (a : AuctionCellRep) (task : Task) : Prop :=
  is_ok (PathForRootFS (pc_RootFs (task_PlacementConstraint task)) (acr_stackPathMap a)) = false.

Lemma lrp_untranslatable_mono a tr tr' lrp :
  tr ⊆ tr' → lrp_untranslatable a tr lrp → lrp_untranslatable a tr' lrp.
Proof. intros Hincl [?|(err & ?)]; [by left|right; exists err; by apply Hincl]. Qed.

Definition lrp_pair_ok (a : AuctionCellRep) (p : LRP * executor.AllocationRequest) : Prop :=
  ∃ guid path,
    PathForRootFS (pc_RootFs (lrp_PlacementConstraint p.1)) (acr_stackPathMap a) = Ok path ∧
    p.2 = lrp_request p.1 guid path.

Lemma lrps_loop_spec a lrps acc tr t :
  exec (lrps_loop a lrps acc) tr t →
  ∃ pairs untr,
    requests t = requests acc ++ pairs.*2 ∧ untranslated t = untranslated acc ++ untr ∧
    by_guid t = insert_pairs (by_guid acc) pairs ∧
    lrps ≡ₚ pairs.*1 ++ untr ∧ Forall (lrp_pair_ok a) pairs ∧
    Forall (lrp_untranslatable a tr) untr ∧ requested tr = [].
Proof.
  revert acc tr. induction lrps as [|lrp lrps IH]; intros acc tr Hex; simpl in Hex.
  { destruct Hex as [-> ->]. exists [], []. rewrite !app_nil_r. done. }
  destruct Hex as (r & tr' & -> & Hex).
  assert (tr' ⊆ ev GenerateInstanceGuid r :: tr') as Hincl by (intros ?; apply list_elem_of_further).
  assert (∀ acc', exec (lrps_loop a lrps acc') tr' t → requests acc' = requests acc →
    by_guid acc' = by_guid acc → untranslated acc' = untranslated acc ++ [lrp] →
    lrp_untranslatable a (ev GenerateInstanceGuid r :: tr') lrp →
    ∃ pairs untr, requests t = requests acc ++ pairs.*2 ∧ untranslated t = untranslated acc ++ untr ∧
      by_guid t = insert_pairs (by_guid acc) pairs ∧
      lrp :: lrps ≡ₚ pairs.*1 ++ untr ∧ Forall (lrp_pair_ok a) pairs ∧
      Forall (lrp_untranslatable a (ev GenerateInstanceGuid r :: tr')) untr ∧
      requested (ev GenerateInstanceGuid r :: tr') = []) as Hskip.
  { intros acc' Hex' Hr Hg Hu Hwhy. destruct (IH _ _ Hex') as (pairs & untr & H1 & H2 & H3 & H4 & H5 & H6 & H7).
    exists pairs, (lrp :: untr). rewrite H1, H2, H3, Hr, Hg, Hu, <- app_assoc.
    split_and!; [done..| |done| |done]. { rewrite H4. apply Permutation_middle. }
    constructor; [done|]. eapply Forall_impl; [exact H6|]. intros x. by apply lrp_untranslatable_mono. }
  destruct r as [guid|err]; [|eapply Hskip; [done..|right; exists err; by left]].
  destruct (PathForRootFS _ _) as [path|] eqn:Hp; [|eapply Hskip; [done..|left; by rewrite Hp]].
  destruct (IH _ _ Hex) as (pairs & untr & H1 & H2 & H3 & H4 & H5 & H6 & H7).
  exists ((lrp, lrp_request lrp guid path) :: pairs), untr. simpl in *.
  rewrite H1, H2, H3, <- app_assoc. split_and!; [done..|by rewrite H4| | |done].
  - constructor; [|done]. by exists guid, path.
  - eapply Forall_impl; [exact H6|]. intros x. by apply lrp_untranslatable_mono.
Qed.

(** The one request for the LRPs of the work. *)
Lemma perform_lrps_exec a lrps tr failed :
  exec (perform_lrps a lrps) tr failed →
  ∃ pairs untr, requested tr = pairs.*2 ∧ lrps ≡ₚ pairs.*1 ++ untr ∧
    Forall (lrp_pair_ok a) pairs ∧ Forall (lrp_untranslatable a tr) untr ∧
    (lrps ≠ [] → ∃ r, ev (AllocateContainers pairs.*2) r ∈ tr ∧ accounted lrps failed pairs untr r).
Proof.
  intros Hex. unfold perform_lrps in Hex. destruct lrps as [|l ls].
  { destruct Hex as [-> ->]. exists [], []. done. }
  apply exec_bind in Hex as (tr1 & t & tr2 & -> & Hloop & Hex).
  destruct (lrps_loop_spec _ _ _ _ _ Hloop) as (pairs & untr & Hreq & Hun & Hg & Hp & Hok & Hwhy & Hno).
  simpl in *. destruct Hex as (r & tr' & -> & Hex). exists pairs, untr.
  assert (tr' = [] ∧ failed = match r with Err _ => l :: ls | Ok failures => untr ++ failed_items (by_guid t) failures end)
    as [-> ->]. { rewrite <- Hun. destruct r; by destruct Hex. }
  rewrite requested_app, Hno. split_and!; [unfold requested; simpl; by rewrite Hreq, app_nil_r|done..| |].
  - eapply Forall_impl; [exact Hwhy|]. intros x. apply lrp_untranslatable_mono. set_solver.
  - intros _. exists r. rewrite <- Hreq. split; [set_solver|].
    apply accounted_intro; [done|]. rewrite Hg. apply insert_pairs_lookup.
Qed.

Lemma perform_lrps_spec a lrps tr failed :
  exec (perform_lrps a lrps) tr failed → lrps ≠ [] →
  ∃ pairs untr r, ev (AllocateContainers pairs.*2) r ∈ tr ∧
    Forall (lrp_pair_ok a) pairs ∧ accounted lrps failed pairs untr r.
Proof.
  intros (pairs & untr & _ & _ & Hok & _ & Hr)%perform_lrps_exec Hne. destruct (Hr Hne) as (r & ? & ?). by exists pairs, untr, r.
Qed.

(** No auctioned LRP is lost: unless the cell is evacuating, [Perform] asks the
    executor once for the LRPs it could translate, and every LRP of the work is
    then either accepted by the executor or handed back, none of them both. *)
Lemma Perform_accounts_for_lrps a work tr failed :
  exec (Perform a work) tr failed → saw_evacuating tr = false → work_LRPs work ≠ [] →
  ∃ pairs untr r, ev (AllocateContainers pairs.*2) r ∈ tr ∧
    Forall (lrp_pair_ok a) pairs ∧ accounted (work_LRPs work) (work_LRPs failed) pairs untr r.
Proof.
  intros (evac & tr' & -> & Hex) Hev Hne. destruct evac; [done|].
  apply exec_bind in Hex as (tr1 & fl & tr2 & -> & Hl & Hex).
  apply exec_bind in Hex as (tr3 & ft & tr4 & -> & Ht & [-> ->]).
  destruct (perform_lrps_spec _ _ _ _ Hl Hne) as (pairs & untr & r & ? & ? & ?).
  exists pairs, untr, r. simpl. split_and!; [set_solver|done..].
Qed.

Definition task_pair_ok (a : AuctionCellRep) (p : Task * executor.AllocationRequest) : Prop :=
  ∃ path,
    PathForRootFS (pc_RootFs (task_PlacementConstraint p.1)) (acr_stackPathMap a) = Ok path ∧
    p.2 = task_request p.1 path.

Definition insert_tasks (m : gmap string Task) (tasks : list Task) : gmap string Task :=
  foldl (λ m task, <[task_Guid task := task]> m) m tasks.

Lemma insert_tasks_other m tasks k :
  k ∉ task_Guid <$> tasks → insert_tasks m tasks !! k = m !! k.
Proof.
  revert m. unfold insert_tasks. induction tasks as [|t tasks IH]; intros m Hk; [done|].
  simpl in *. rewrite IH by set_solver. apply lookup_insert_ne. set_solver.
Qed.

Lemma insert_tasks_lookup m tasks task :
  NoDup (task_Guid <$> tasks) → task ∈ tasks → insert_tasks m tasks !! task_Guid task = Some task.
Proof.
  revert m. induction tasks as [|t tasks IH]; intros m Hnd Hin; [set_solver|].
  apply NoDup_cons in Hnd as [Ht Hnd]. apply elem_of_cons in Hin as [->|Hin].
  - unfold insert_tasks. simpl. fold (insert_tasks (<[task_Guid t := t]> m) tasks).
    rewrite insert_tasks_other by done. by rewrite lookup_insert_eq.
  - by apply IH.
Qed.

Lemma tasks_loop_spec a tasks acc :
  let t := tasks_loop a tasks acc in
  ∃ pairs untr,
    requests t = requests acc ++ pairs.*2 ∧ untranslated t = untranslated acc ++ untr ∧
    by_guid t = insert_tasks (by_guid acc) tasks ∧
    tasks ≡ₚ pairs.*1 ++ untr ∧ Forall (task_pair_ok a) pairs ∧ Forall (task_untranslatable a) untr.
Proof.
  simpl. revert acc. induction tasks as [|task tasks IH]; intros acc; simpl.
  { exists [], []. rewrite !app_nil_r. done. }
  destruct (PathForRootFS _ _) as [path|] eqn:Hp.
  - destruct (IH (mkTranslated (requests acc ++ [task_request task path])
      (<[task_Guid task := task]> (by_guid acc)) (untranslated acc)))
      as (pairs & untr & H1 & H2 & H3 & H4 & H5 & H6). simpl in *.
    exists ((task, task_request task path) :: pairs), untr. rewrite H1, H2, H3, <- app_assoc.
    split_and!; [done..|simpl; by rewrite H4| |done]. constructor; [by exists path|done].
  - destruct (IH (mkTranslated (requests acc)
      (<[task_Guid task := task]> (by_guid acc)) (untranslated acc ++ [task])))
      as (pairs & untr & H1 & H2 & H3 & H4 & H5 & H6). simpl in *.
    exists pairs, (task :: untr). rewrite H1, H2, H3, <- app_assoc.
    split_and!; [done..| |done|constructor; [|done]; by unfold task_untranslatable; rewrite Hp].
    rewrite H4. apply Permutation_middle.
Qed.

Lemma task_pairs_guids a pairs :
  Forall (task_pair_ok a) pairs → guids pairs = task_Guid <$> pairs.*1.
Proof.
  induction 1 as [|[task req] pairs (path & _ & Heq) _ IH]; [done|].
  unfold guids in *. rewrite !fmap_cons. f_equal; [|exact IH]. simpl in *. by rewrite Heq.
Qed.

(** The one request for the tasks of the work. *)
Lemma perform_tasks_exec a tasks tr failed :
  exec (perform_tasks a tasks) tr failed →
  ∃ pairs untr, requested tr = pairs.*2 ∧ tasks ≡ₚ pairs.*1 ++ untr ∧
    Forall (task_pair_ok a) pairs ∧ Forall (task_untranslatable a) untr ∧
    (tasks ≠ [] → NoDup (task_Guid <$> tasks) →
     ∃ r, ev (AllocateContainers pairs.*2) r ∈ tr ∧ NoDup (guids pairs) ∧ accounted tasks failed pairs untr r).
Proof.
  intros Hex. unfold perform_tasks in Hex. destruct tasks as [|l ls] eqn:Hts.
  { destruct Hex as [-> ->]. exists [], []. done. }
  rewrite <- Hts in *. clear l ls Hts.
  destruct (tasks_loop_spec a tasks (mkTranslated [] ∅ []))
    as (pairs & untr & Hreq & Hun & Hg & Hp & Hok & Hwhy). fold (tasksToAllocationRequests a tasks) in *.
  simpl in *. destruct Hex as (r & tr' & -> & Hex). exists pairs, untr.
  assert (tr' = [] ∧ failed = match r with Err _ => tasks | Ok failures =>
    untr ++ failed_items (by_guid (tasksToAllocationRequests a tasks)) failures end) as [-> ->].
  { rewrite <- Hun. destruct r; by destruct Hex. }
  split_and!; [unfold requested; simpl; by rewrite Hreq, app_nil_r|done..|].
  intros _ Hnd. assert (NoDup (guids pairs)) as Hndp.
  { rewrite (task_pairs_guids a) by done. rewrite Hp, fmap_app in Hnd. by apply NoDup_app in Hnd as [? _]. }
  exists r. rewrite <- Hreq. split_and!; [by left|done|].
  apply accounted_intro; [done|]. rewrite Hg. intros _ task req Hin.
  assert (executor.ar_Guid req = task_Guid task) as ->.
  { rewrite Forall_forall in Hok. destruct (Hok _ Hin) as (? & _ & Heq). simpl in Heq. by rewrite Heq. }
  apply insert_tasks_lookup; [done|]. rewrite Hp. apply elem_of_app. left.
  apply list_elem_of_fmap. by exists (task, req).
Qed.

Lemma perform_tasks_spec a tasks tr failed :
  exec (perform_tasks a tasks) tr failed → tasks ≠ [] → NoDup (task_Guid <$> tasks) →
  ∃ pairs untr r, ev (AllocateContainers pairs.*2) r ∈ tr ∧
    Forall (task_pair_ok a) pairs ∧ NoDup (guids pairs) ∧ accounted tasks failed pairs untr r.
Proof.
  intros (pairs & untr & _ & _ & Hok & _ & Hr)%perform_tasks_exec Hne Hnd.
  destruct (Hr Hne Hnd) as (r & ? & ? & ?). by exists pairs, untr, r.
Qed.

(** No auctioned task is lost: unless the cell is evacuating, tasks with
    distinct guids are each either accepted by the executor or handed back, and
    the requests made for them carry their guids. *)
Lemma Perform_accounts_for_tasks a work tr failed :
  exec (Perform a work) tr failed → saw_evacuating tr = false →
  work_Tasks work ≠ [] → NoDup (task_Guid <$> work_Tasks work) →
  ∃ pairs untr r, ev (AllocateContainers pairs.*2) r ∈ tr ∧
    Forall (task_pair_ok a) pairs ∧ NoDup (guids pairs) ∧
    accounted (work_Tasks work) (work_Tasks failed) pairs untr r.
Proof.
  intros (evac & tr' & -> & Hex) Hev Hne Hnd. destruct evac; [done|].
  apply exec_bind in Hex as (tr1 & fl & tr2 & -> & Hl & Hex).
  apply exec_bind in Hex as (tr3 & ft & tr4 & -> & Ht & [-> ->]).
  destruct (perform_tasks_spec _ _ _ _ Ht Hne Hnd) as (pairs & untr & r & ? & ? & ? & ?).
  exists pairs, untr, r. simpl. split_and!; [set_solver|done..].
Qed.

(** An evacuating cell takes no work: it hands everything back and does not
    call the executor at all. *)
Lemma Perform_while_evacuating a work tr failed :
  exec (Perform a work) tr failed → saw_evacuating tr = true →
  failed = work ∧ tr = [ev Evacuating true].
Proof.
  intros (evac & tr' & -> & Hex) Hev. destruct evac.
  { by destruct Hex as [-> ->]. }
  exfalso. revert Hev. cut (saw_evacuating tr' = false); [unfold saw_evacuating; simpl; congruence|].
  assert (wp (let* fl := perform_lrps a (work_LRPs work) in
              let* ft := perform_tasks a (work_Tasks work) in Ret (mkWork fl ft))
    (λ tr _, saw_evacuating tr = false)) as Hwp; [|by eapply wp_exec in Hwp; [|exact Hex]].
  assert (∀ lrps acc, wp (lrps_loop a lrps acc) (λ tr _, saw_evacuating tr = false)) as Hloop.
  { induction lrps as [|l ls IH]; intros acc; simpl; [done|]. intros r.
    repeat case_match; eapply wp_mono; [|apply IH| |apply IH| |apply IH]; done. }
  assert (∀ tr1 tr2, saw_evacuating (tr1 ++ tr2) = saw_evacuating tr1 || saw_evacuating tr2) as Happ
    by apply existsb_app.
  assert (wp (perform_lrps a (work_LRPs work)) (λ tr _, saw_evacuating tr = false)) as Hlrps.
  { unfold perform_lrps. destruct (work_LRPs work) as [|l ls]; [done|].
    apply wp_bind. eapply wp_mono; [|apply Hloop]. intros tr ? Htr. simpl.
    intros [?|?]; simpl; by rewrite Happ, Htr. }
  apply wp_bind. eapply wp_mono; [|apply Hlrps]. intros tr ? Htr.
  apply wp_bind. unfold perform_tasks. destruct (work_Tasks work) as [|t ts]; simpl.
  { by rewrite app_nil_r. }
  intros [?|?]; simpl; by rewrite Happ, Htr.
Qed.

(** All that [Perform] asks the executor to allocate, and what it does not ask for. *)
Lemma Perform_requests a work tr failed :
  exec (Perform a work) tr failed →
  if saw_evacuating tr then requested tr = []
  else ∃ lrps lrps' tasks tasks',
    requested tr = lrps.*2 ++ tasks.*2 ∧
    work_LRPs work ≡ₚ lrps.*1 ++ lrps' ∧ work_Tasks work ≡ₚ tasks.*1 ++ tasks' ∧
    Forall (lrp_pair_ok a) lrps ∧ Forall (task_pair_ok a) tasks ∧
    Forall (lrp_untranslatable a tr) lrps' ∧ Forall (task_untranslatable a) tasks'.
Proof.
  intros Hex. destruct (saw_evacuating tr) eqn:Hev.
  { by destruct (Perform_while_evacuating _ _ _ _ Hex Hev) as [_ ->]. }
  destruct Hex as (evac & tr' & -> & Hex). destruct evac; [done|].
  apply exec_bind in Hex as (tr1 & fl & tr2 & -> & Hl & Hex).
  apply exec_bind in Hex as (tr3 & ft & tr4 & -> & Ht & [-> _]).
  apply perform_lrps_exec in Hl as (lrps & lrps' & Hlr & ? & ? & Hlu & _).
  apply perform_tasks_exec in Ht as (tasks & tasks' & Htr & ? & ? & ? & _).
  exists lrps, lrps', tasks, tasks'. split_and!; [|done..| |done].
  - change (requested (tr1 ++ tr3 ++ []) = lrps.*2 ++ tasks.*2). by rewrite app_nil_r, requested_app, Hlr, Htr.
  - eapply Forall_impl; [exact Hlu|]. intros x. apply lrp_untranslatable_mono. set_solver.
Qed.

(** C10 No auctioned work is lost.  An evacuating cell hands everything back without
    calling the executor; otherwise [Perform] asks the executor once for the LRPs
    and once for the tasks it could translate, and every LRP and every task of the
    work is then either accepted by the executor or handed back, none of them both.
    (Tasks with the same guid would overwrite each other in a map.) *)
Theorem Perform_accounts_for_work a work tr failed :
  exec (Perform a work) tr failed → NoDup (task_Guid <$> work_Tasks work) →
  if saw_evacuating tr then failed = work ∧ tr = [ev Evacuating true]
  else
    (work_LRPs work ≠ [] →
     ∃ pairs untr r, ev (AllocateContainers pairs.*2) r ∈ tr ∧
       Forall (lrp_pair_ok a) pairs ∧ accounted (work_LRPs work) (work_LRPs failed) pairs untr r) ∧
    (work_Tasks work ≠ [] →
     ∃ pairs untr r, ev (AllocateContainers pairs.*2) r ∈ tr ∧
       Forall (task_pair_ok a) pairs ∧ NoDup (guids pairs) ∧
       accounted (work_Tasks work) (work_Tasks failed) pairs untr r).
Proof.
  intros Hex Hnd. destruct (saw_evacuating tr) eqn:Hev.
  - by apply (Perform_while_evacuating a).
  - split; intros; [by apply Perform_accounts_for_lrps | by apply Perform_accounts_for_tasks].
Qed.

(** ** What comes back is part of the work *)
Lemma failed_items_range {A} (m : gmap string A) failures x :
  x ∈ failed_items m failures → ∃ k, m !! k = Some x.
Proof. unfold failed_items. rewrite list_elem_of_omap. intros (f & _ & Hf). eauto. Qed.

Lemma insert_pairs_range {A} (m : gmap string A) pairs k x :
  insert_pairs m pairs !! k = Some x → m !! k = Some x ∨ x ∈ pairs.*1.
Proof.
  revert m. unfold insert_pairs. induction pairs as [|[y r] pairs IH]; intros m; simpl; [by left|].
  intros [Hk|Hk]%IH; [|set_solver]. apply lookup_insert_Some in Hk as [[_ <-]|[_ Hk]]; [|by left].
  right. by left.
Qed.

Lemma insert_tasks_range m tasks k x :
  insert_tasks m tasks !! k = Some x → m !! k = Some x ∨ x ∈ tasks.
Proof.
  revert m. unfold insert_tasks. induction tasks as [|t tasks IH]; intros m; simpl; [by left|].
  intros [Hk|Hk]%IH; [|set_solver]. apply lookup_insert_Some in Hk as [[_ <-]|[_ Hk]]; [|by left].
  right. by left.
Qed.

Lemma perform_lrps_range a lrps tr failed : exec (perform_lrps a lrps) tr failed → failed ⊆ lrps.
Proof.
  unfold perform_lrps. destruct lrps as [|l ls]; [by intros [_ ->]|]. rewrite exec_bind.
  intros (tr1 & t & tr2 & -> & Hloop & r & tr' & -> & Hex).
  destruct (lrps_loop_spec _ _ _ _ _ Hloop) as (pairs & untr & _ & Hun & Hg & Hp & _). simpl in *.
  destruct r as [failures|]; destruct Hex as [-> ->]; [|done].
  intros x. rewrite Hp, Hun, !elem_of_app. intros [?|(k & Hk)%failed_items_range]; [by right|left].
  rewrite Hg in Hk. apply insert_pairs_range in Hk as [Hk|]; [|done]. by rewrite lookup_empty in Hk.
Qed.

Lemma perform_tasks_range a tasks tr failed : exec (perform_tasks a tasks) tr failed → failed ⊆ tasks.
Proof.
  unfold perform_tasks. destruct tasks as [|t ts] eqn:Hts; [by intros [_ ->]|]. rewrite <-Hts. clear t ts Hts.
  intros (r & tr' & -> & Hex).
  destruct (tasks_loop_spec a tasks (mkTranslated [] ∅ [])) as (pairs & untr & _ & Hun & Hg & Hp & _).
  fold (tasksToAllocationRequests a tasks) in *. simpl in *.
  destruct r as [failures|]; destruct Hex as [-> ->]; [|done].
  intros x. rewrite Hun, elem_of_app. intros [?|(k & Hk)%failed_items_range].
  - rewrite Hp, elem_of_app. by right.
  - rewrite Hg in Hk. apply insert_tasks_range in Hk as [Hk|]; [|done]. by rewrite lookup_empty in Hk.
Qed.

Lemma Perform_returns_work a work tr failed :
  exec (Perform a work) tr failed →
  work_LRPs failed ⊆ work_LRPs work ∧ work_Tasks failed ⊆ work_Tasks work.
Proof.
  intros (evac & tr' & -> & Hex). destruct evac; [by destruct Hex as [_ ->]|].
  apply exec_bind in Hex as (tr1 & fl & tr2 & -> & Hl & Hex).
  apply exec_bind in Hex as (tr3 & ft & tr4 & -> & Ht & [_ ->]). simpl.
  eauto using perform_lrps_range, perform_tasks_range.
Qed.

(** ** State *)

Definition container_resource (c : Container) : Resource :=
  mkResource (int32 (Container_MemoryMB c)) (int32 (Container_DiskMB c)) 0.

(** The LRP or task a container stands for, if any. *)
Definition container_lrp (c : Container) : option LRP :=
  if bool_decide (tag (Container_Tags c) LifecycleTag = LRPLifecycle) then
    match ActualLRPKeyFromTags (Container_Tags c) with
    | Ok key => Some (NewLRP key (container_resource c) (mkPlacementConstraint [] [] ""))
    | Err _ => None
    end
  else None.
Definition container_task (c : Container) : option Task :=
  if bool_decide (tag (Container_Tags c) LifecycleTag = TaskLifecycle) then
    Some (NewTask (Guid c) (tag (Container_Tags c) DomainTag) (container_resource c)
            (mkPlacementConstraint [] [] ""))
  else None.

Definition starting_count (cs : list Container) : Z :=
  Z.of_nat (length (filter (λ c, containerIsStarting c = true) cs)).

Lemma tally_container_spec t c :
  tally_container t c =
    mkTally (tally_lrps t ++ option_list (container_lrp c))
      (tally_tasks t ++ option_list (container_task c))
      (if containerIsStarting c then int (tally_starting t + 1) else tally_starting t).
Proof.
  unfold tally_container, container_lrp, container_task.
  destruct (Container_Tags c) as [m|]; simpl; [|by rewrite !app_nil_r].
  unfold LRPLifecycle, TaskLifecycle.
  repeat case_bool_decide; try congruence; repeat case_match; simpl; by rewrite ?app_nil_r.
Qed.

Lemma tally_spec cs t n :
  tally_starting t = int n →
  foldl tally_container t cs =
    mkTally (tally_lrps t ++ omap container_lrp cs) (tally_tasks t ++ omap container_task cs)
      (int (n + starting_count cs)).
Proof.
  revert t n. induction cs as [|c cs IH]; intros t n Hn; cbn [foldl omap list_omap].
  { rewrite !app_nil_r. unfold starting_count. simpl. rewrite Z.add_0_r, <- Hn. by destruct t. }
  rewrite (IH _ (if containerIsStarting c then n + 1 else n)).
  - rewrite tally_container_spec. simpl. rewrite <- !app_assoc.
    unfold starting_count. rewrite filter_cons.
    f_equal; [by destruct (container_lrp c)|by destruct (container_task c)|].
    destruct (containerIsStarting c); case_decide; try done. simpl. f_equal. lia.
  - rewrite tally_container_spec. simpl. rewrite Hn. destruct (containerIsStarting c); [|done].
    apply int_add_l.
Qed.

Lemma State_exec a tr r :
  exec (State a) tr r →
  match r with
  | Ok (s, healthy) => ∃ cs total avail drivers evac,
      tr = [ev ListContainers (Ok cs); ev TotalResources (Ok total); ev RemainingResources (Ok avail);
            ev VolumeDrivers (Ok drivers); ev Evacuating evac; ev Healthy healthy] ∧
      s = mkCellState (acr_rootFSProviders a) (convertResources avail) (convertResources total)
            (omap container_lrp cs) (omap container_task cs) (int (starting_count cs))
            (acr_zone a) evac drivers (acr_placementTags a) (acr_optionalPlacementTags a)
  | Err e =>
      (tr = [ev ListContainers (Err e)]) ∨
      (∃ cs, tr = [ev ListContainers (Ok cs); ev TotalResources (Err e)]) ∨
      (∃ cs total, tr = [ev ListContainers (Ok cs); ev TotalResources (Ok total); ev RemainingResources (Err e)]) ∨
      (∃ cs total avail, tr = [ev ListContainers (Ok cs); ev TotalResources (Ok total);
                               ev RemainingResources (Ok avail); ev VolumeDrivers (Err e)])
  end.
Proof.
  intros Hex. revert tr r Hex. apply wp_exec. unfold State. wp_simpl.
  intros [cs|e]; wp_simpl; [|by left].
  intros [total|e]; wp_simpl; [|right; left; by exists cs].
  intros [avail|e]; wp_simpl; [|right; right; left; by exists cs, total].
  intros [drivers|e]; wp_simpl; [|right; right; right; by exists cs, total, avail].
  intros evac healthy. exists cs, total, avail, drivers, evac. split; [done|].
  rewrite (tally_spec cs _ 0) by done. done.
Qed.

(** C31 What a cell tells the auctioneer: with one reading of each quantity, the
    reported LRPs and tasks are exactly the ones its containers stand for (an
    untagged or unreadable container contributes nothing), the starting count is
    the number of containers that are reserved, initializing or created, tagged or
    not, and the amounts are the executor's cut to 32 bits; an error of the
    executor is returned as it is, and nothing is asked after it. *)
Theorem State_reports_the_cell a tr r :
  exec (State a) tr r →
  match r with
  | Ok (s, healthy) => ∃ cs total avail drivers evac,
      tr = [ev ListContainers (Ok cs); ev TotalResources (Ok total); ev RemainingResources (Ok avail);
            ev VolumeDrivers (Ok drivers); ev Evacuating evac; ev Healthy healthy] ∧
      s = mkCellState (acr_rootFSProviders a) (convertResources avail) (convertResources total)
            (omap container_lrp cs) (omap container_task cs) (int (starting_count cs))
            (acr_zone a) evac drivers (acr_placementTags a) (acr_optionalPlacementTags a)
  | Err e =>
      (tr = [ev ListContainers (Err e)]) ∨
      (∃ cs, tr = [ev ListContainers (Ok cs); ev TotalResources (Err e)]) ∨
      (∃ cs total, tr = [ev ListContainers (Ok cs); ev TotalResources (Ok total); ev RemainingResources (Err e)]) ∨
      (∃ cs total avail, tr = [ev ListContainers (Ok cs); ev TotalResources (Ok total);
                               ev RemainingResources (Ok avail); ev VolumeDrivers (Err e)])
  end.
Proof. apply State_exec. Qed.
End auction_cell_rep_facts.

(** ** Concrete runs *)
#[local] Existing Instance example_models.

Definition example_rep : AuctionCellRep :=
  New "cell" {["linux" := "/data/rootfs/linux"]} ["docker"] "z1" [] [].
Definition example_lrp2 : LRP :=
  mkLRP (mkActualLRPKey "process-guid-2" 3 "domain") (mkPlacementConstraint [] [] "preloaded:windows")
    (mkResource 10 10 0).
Definition example_lrp3 : LRP :=
  mkLRP (mkActualLRPKey "process-guid-3" 0 "domain") (mkPlacementConstraint [] [] "docker:///img")
    (mkResource 10 10 0).
Definition example_work : Work := mkWork [example_lrp; example_lrp2; example_lrp3] [example_task].

(** Guids "guid-0", "guid-1", ...; the executor refuses the request for "guid-2". *)
Definition example_env (c : call) (n : Z) : reply c * Z :=
  match c return reply c * Z with
  | GenerateInstanceGuid => (Ok ("guid-" +:+ Itoa n), n + 1)
  | AllocateContainers reqs =>
      (Ok ((λ r, executor.mkAllocationFailure r "no") <$>
             filter (λ r, executor.ar_Guid r = "guid-2") reqs), n)
  | c => (quiet c, n)
  end.
Definition evacuating_env (c : call) (n : Z) : reply c * Z :=
  match c return reply c * Z with
  | Evacuating => (true, n)
  | c => (quiet c, n)
  end.

Lemma Perform_accounts_for_work_witness :
  work_LRPs (run example_env (Perform example_rep example_work) 0).1.2 = [example_lrp2; example_lrp3] ∧
  (∃ pairs untr r, ev (AllocateContainers pairs.*2) r ∈ (run example_env (Perform example_rep example_work) 0).1.1 ∧
    Forall (lrp_pair_ok example_rep) pairs ∧
    accounted (work_LRPs example_work)
      (work_LRPs (run example_env (Perform example_rep example_work) 0).1.2) pairs untr r) ∧
  (run evacuating_env (Perform example_rep example_work) 0).1.2 = example_work.
Proof.
  split; [vm_compute; reflexivity|]. split.
  - destruct (Perform_accounts_for_work example_rep example_work _ _
      (run_exec example_env (Perform example_rep example_work) 0)) as [Hl _].
    + repeat constructor. set_solver.
    + apply Hl. discriminate.
  - destruct (Perform_accounts_for_work example_rep example_work _ _
      (run_exec evacuating_env (Perform example_rep example_work) 0)) as [Hw _]; [|exact Hw].
    repeat constructor. set_solver.
Defined.

Definition example_containers : list Container :=
  [mkContainer "c1" StateReserved 64 128 (lrp_tags example_lrp "c1") [] "1.2.3.4" "10.0.0.2"
     (executor.mkContainerRunResult false "" false);
   mkContainer "c2" StateCreated 64 128 None [] "" "" (executor.mkContainerRunResult false "" false);
   mkContainer "t1" StateRunning 64 128 (task_tags example_task) [] "" ""
     (executor.mkContainerRunResult false "" false)].
Definition state_env (c : call) (n : Z) : reply c * Z :=
  match c return reply c * Z with
  | ListContainers => (Ok example_containers, n)
  | c => (quiet c, n)
  end.

Lemma State_reports_the_cell_witness :
  match (run state_env (State example_rep) 0).1.2 with
  | Ok (s, healthy) => cs_StartingContainerCount s = 2 ∧ healthy = true ∧
      ∃ cs total avail drivers evac,
      (run state_env (State example_rep) 0).1.1 =
        [ev ListContainers (Ok cs); ev TotalResources (Ok total); ev RemainingResources (Ok avail);
         ev VolumeDrivers (Ok drivers); ev Evacuating evac; ev Healthy healthy] ∧
      s = mkCellState (acr_rootFSProviders example_rep) (convertResources avail) (convertResources total)
            (omap container_lrp cs) (omap container_task cs) (int (starting_count cs))
            "z1" evac drivers [] []
  | Err e => False
  end.
Proof.
  pose proof (State_reports_the_cell example_rep _ _ (run_exec state_env (State example_rep) 0)) as Hs.
  split; [vm_compute; reflexivity|]. split; [vm_compute; reflexivity|]. exact Hs.
Defined.

Lemma advertised_rootfs_has_path_witness :
  is_ok (PathForRootFS "preloaded:linux" (acr_stackPathMap example_rep)) = true.
Proof.
  eapply (advertised_rootfs_has_path "cell" _ ["docker"] "z1" [] []
    (NewCellState (acr_rootFSProviders example_rep) (mkResources 1 1 1) (mkResources 1 1 1) [] [] "z1" 0 false [] [] []));
    vm_compute; reflexivity.
Defined.

Lemma container_identity_roundtrip_witness :
  ActualLRPKeyFromTags (lrp_tags example_lrp "guid-0") = Ok (lrp_Key example_lrp).
Proof.
  apply (container_identity_roundtrip example_lrp "guid-0" "/path" "cell"
    (mkContainer "guid-0" StateReserved 64 128 (lrp_tags example_lrp "guid-0") [] "" ""
       (executor.mkContainerRunResult false "" false)));
    (vm_compute; first [reflexivity | split; discriminate]).
Defined.

(** Generated guids fit the 28 characters the bulletin board allows for. *)
Lemma GenerateGuid_length uuid guid :
  GenerateGuid uuid = Ok guid → (String.length guid ≤ 28)%nat.
Proof.
  unfold GenerateGuid. destruct uuid as [g|]; [|done]. case_bool_decide; intros [= <-]; [|lia].
  clear. assert (∀ n s, String.length (String.substring 0 n s) ≤ n)%nat as Hsub.
  { induction n as [|n IH]; intros [|c s]; simpl; [lia..|]. specialize (IH s). lia. }
  apply Hsub.
Qed.
