(* ===== verification/ContainerDelegate.v ===== *)
(** generator/internal/container_delegate.go: the executor client with errors
    folded into flags.  Logging is left out here and everywhere. *)

From S2P Require Import Prelude GoInt GoStrings GoUrl GoJson Effects Services.

Definition MAX_RESULT_SIZE : nat := 1024 * 10.

Definition ErrResultFileTooLarge := errors_New "result file is too large (over 10240 bytes)".

Section container_delegate.
Context `{Models}.

(** The container, or [None] for the flag [false]. *)
Definition delegate_GetContainer (guid : string) : rep (option Container) :=
  Do (GetContainer guid) (λ r, match r with
  | Err _ => Ret None
  | Ok container => Ret (Some container)
  end).

Definition delegate_DeleteContainer (guid : string) : rep bool :=
  Do (DeleteContainer guid) (λ err, match err with
  | Some _ => Ret false
  | None => Ret true
  end).

Definition delegate_StopContainer (guid : string) : rep bool :=
  Do (StopContainer guid) (λ err, match err with
  | Some _ => Ret false
  | None => Ret true
  end).

Definition delegate_RunContainer (req : RunRequest) : rep bool :=
  Do (RunContainer req) (λ err, match err with
  | Some _ => let* _ := delegate_DeleteContainer (rr_Guid req) in Ret false
  | None => Ret true
  end).

(** One [Read] into a buffer of [len] bytes: at most [len] bytes, at most what
    the stream has at hand. *)
Definition tar_Read (stream : TarStream) (len : nat) : string :=
  String.substring 0 (len `min` tar_available stream) (tar_content stream).

(** The stream is closed on every path after it was opened; the error of the
    single [Read] is only logged. *)
Definition FetchContainerResultFile (guid filename : string) : rep (res string) :=
  Do (GetFiles guid filename) (λ stream, match stream with
  | Err err => Ret (Err err)
  | Ok stream =>
      match tar_next stream with
      | Some err => Do CloseStream (λ _, Ret (Err err))
      | None =>
          let buf := tar_Read stream (MAX_RESULT_SIZE + 1) in
          let n := String.length buf in
          if bool_decide (MAX_RESULT_SIZE < n)
          then Do CloseStream (λ _, Ret (Err ErrResultFileTooLarge))
          else Do CloseStream (λ _, Ret (Ok buf))
      end
  end).

(** ** Facts *)

Lemma substring_length n s : String.length (String.substring 0 n s) = n `min` String.length s.
Proof.
  revert s. induction n as [|n IH]; intros [|c s]; simpl; [done..|]. by rewrite IH.
Qed.

Lemma substring_all n s : String.length s ≤ n → String.substring 0 n s = s.
Proof.
  revert s. induction n as [|n IH]; intros [|c s] Hn; simpl in *; [done|lia|done|].
  rewrite IH; [done|lia].
Qed.

Lemma tar_Read_length stream len :
  String.length (tar_Read stream len) ≤ len.
Proof. unfold tar_Read. rewrite substring_length. lia. Qed.

(** C38 Fetching a task's result: whatever the stream holds, the result has at most
    10240 bytes; when the stream can deliver the file in one read, a file within
    the limit is returned whole and a larger one is an error; and once the stream
    was opened it is closed, exactly once, on every path. *)
Theorem FetchContainerResultFile_spec guid filename tr r :
  exec (FetchContainerResultFile guid filename) tr r →
  (∀ s, r = Ok s → String.length s ≤ MAX_RESULT_SIZE) ∧
  ((∃ err, tr = [ev (GetFiles guid filename) (Err err)] ∧ r = Err err) ∨
   (∃ stream, tr = [ev (GetFiles guid filename) (Ok stream); ev CloseStream tt] ∧
      (tar_next stream = None → MAX_RESULT_SIZE < tar_available stream →
       r = if bool_decide (String.length (tar_content stream) ≤ MAX_RESULT_SIZE)
           then Ok (tar_content stream) else Err ErrResultFileTooLarge))).
Proof.
  intros Hex. revert tr r Hex. apply wp_exec. unfold FetchContainerResultFile. wp_simpl.
  intros [stream|err]; wp_simpl; [|split; [done|left; eauto]].
  destruct (tar_next stream) as [err|] eqn:Hnext; wp_simpl.
  { intros []. split; [done|]. right. exists stream. split; [done|]. by rewrite Hnext. }
  case_bool_decide as Hn; wp_simpl; intros []; (split; [intros s Hs|right; exists stream; split; [done|]]).
  - done.
  - intros _ Ha. rewrite bool_decide_false; [done|].
    unfold tar_Read in Hn. rewrite substring_length in Hn. lia.
  - assert (s = tar_Read stream (MAX_RESULT_SIZE + 1)) as -> by congruence. lia.
  - intros _ Ha. unfold tar_Read in *. rewrite substring_length in Hn.
    rewrite bool_decide_true by lia. by rewrite substring_all by lia.
Qed.

(** A read that fails half way is not noticed: the bytes that did arrive are
    returned as the complete result. *)
Theorem truncated_result_is_accepted guid filename content n err :
  n ≤ MAX_RESULT_SIZE →
  exec (FetchContainerResultFile guid filename)
    [ev (GetFiles guid filename) (Ok (mkTarStream None content n (Some err))); ev CloseStream tt]
    (Ok (String.substring 0 n content)).
Proof.
  intros Hn. unfold FetchContainerResultFile. cbn [exec].
  eexists _, _. split; [reflexivity|]. unfold tar_Read. cbn [tar_next tar_available tar_content].
  replace ((MAX_RESULT_SIZE + 1) `min` n) with n by lia.
  rewrite bool_decide_false by (rewrite substring_length; lia).
  eexists tt, _. done.
Qed.

End container_delegate.

#[global] Opaque MAX_RESULT_SIZE.

(** ** Witnesses *)
#[local] Existing Instance example_models.

Lemma FetchContainerResultFile_spec_witness :
  let r := run (λ c u, (match c return reply c with
                        | GetFiles _ _ => Ok (mkTarStream None "42" (1024 * 20) None) | c => quiet c end, u))
             (FetchContainerResultFile "guid" "/result") tt in
  r.1.2 = Ok "42" ∧ (∀ s, r.1.2 = Ok s → String.length s ≤ MAX_RESULT_SIZE).
Proof.
  intros r. split; [vm_compute; reflexivity|].
  apply (FetchContainerResultFile_spec "guid" "/result" r.1.1). apply run_exec.
Defined.

Lemma truncated_result_is_accepted_witness :
  exec (FetchContainerResultFile "guid" "/result")
    [ev (GetFiles "guid" "/result") (Ok (mkTarStream None "forty-two" 5 (Some (errors_New "connection reset"))));
     ev CloseStream tt] (Ok "forty").
Proof.
  apply (truncated_result_is_accepted "guid" "/result" "forty-two" 5 (errors_New "connection reset")).
  apply Nat.leb_le. vm_compute. reflexivity.
Defined.
