(* ===== verification/OrdinaryLRPProcessor.v ===== *)
(** generator/internal/ordinary_lrp_processor.go: what the rep does with the
    container of an LRP while the cell is not evacuating. *)

From S2P Require Import Prelude GoInt GoStrings GoUrl GoJson Effects Services Conversion ContainerDelegate.

(** generator/internal/lrp_processor.go: a container with its keys. *)
Record lrpContainer := newLRPContainer {
  lc_key : ActualLRPKey;
  lc_instanceKey : ActualLRPInstanceKey;
  lc_container : Container }.

Section ordinary.
Context `{Models}.

Definition claimLRPContainer (lc : lrpContainer) : rep bool :=
  Do (ClaimActualLRP (ProcessGuid (lc_key lc)) (int (Index (lc_key lc))) (lc_instanceKey lc)) (λ err,
  match err with
  | Some err =>
      if bool_decide (ConvertError_Type err = Error_ActualLRPCannotBeClaimed)
      then let* _ := delegate_DeleteContainer (Guid (lc_container lc)) in Ret false
      else Ret false
  | None => Ret true
  end).

Definition processReservedContainer (lc : lrpContainer) : rep unit :=
  let* ok := claimLRPContainer lc in
  if negb ok then Ret tt
  else
  Do (DesiredLRPByProcessGuid (ProcessGuid (lc_key lc))) (λ desired, match desired with
  | Err _ => Ret tt
  | Ok desired =>
      match NewRunRequestFromDesiredLRP (Guid (lc_container lc)) desired (lc_key lc) (lc_instanceKey lc) with
      | Err _ => Ret tt
      | Ok runReq =>
          let* ok := delegate_RunContainer runReq in
          if negb ok
          then Do (RemoveActualLRP (ProcessGuid (lc_key lc)) (int (Index (lc_key lc))) (lc_instanceKey lc))
                 (λ _, Ret tt)
          else Ret tt
      end
  end).

Definition processInitializingContainer (lc : lrpContainer) : rep unit :=
  let* _ := claimLRPContainer lc in Ret tt.

Definition processCreatedContainer (lc : lrpContainer) : rep unit :=
  let* _ := claimLRPContainer lc in Ret tt.

Definition processRunningContainer (lc : lrpContainer) : rep unit :=
  match ActualLRPNetInfoFromContainer (lc_container lc) with
  | Err _ => Ret tt
  | Ok netInfo =>
      Do (StartActualLRP (lc_key lc) (lc_instanceKey lc) netInfo) (λ err, match err with
      | Some err =>
          if bool_decide (ConvertError_Type err = Error_ActualLRPCannotBeStarted)
          then let* _ := delegate_StopContainer (Guid (lc_container lc)) in Ret tt
          else Ret tt
      | None => Ret tt
      end)
  end.

Definition processCompletedContainer (lc : lrpContainer) : rep unit :=
  let result := RunResult (lc_container lc) in
  let* _ :=
    (if executor.Stopped result
     then Do (RemoveActualLRP (ProcessGuid (lc_key lc)) (int (Index (lc_key lc))) (lc_instanceKey lc))
            (λ _, Ret tt)
     else Do (CrashActualLRP (lc_key lc) (lc_instanceKey lc) (executor.FailureReason result))
            (λ _, Ret tt)) in
  let* _ := delegate_DeleteContainer (Guid (lc_container lc)) in
  Ret tt.

(** Only logs. *)
Definition processInvalidContainer (lc : lrpContainer) : rep unit := Ret tt.

Definition Process (cellID : string) (container : Container) : rep unit :=
  match ActualLRPKeyFromTags (Container_Tags container) with
  | Err _ => Ret tt
  | Ok lrpKey =>
      match ActualLRPInstanceKeyFromContainer container cellID with
      | Err _ => Ret tt
      | Ok instanceKey =>
          let lc := newLRPContainer lrpKey instanceKey container in
          match Container_State container with
          | StateReserved => processReservedContainer lc
          | StateInitializing => processInitializingContainer lc
          | StateCreated => processCreatedContainer lc
          | StateRunning => processRunningContainer lc
          | StateCompleted => processCompletedContainer lc
          | StateOther _ => processInvalidContainer lc
          end
      end
  end.

(** ** What the environment may see *)

(** A claim that succeeded, and a claim that was refused for good. *)
Definition claimed (e : event reply) : bool :=
  match e with existT c r =>
    match c return reply c → bool with
    | ClaimActualLRP _ _ _ => λ err, bool_decide (err = None)
    | _ => λ _, false
    end r
  end.
Definition claim_refused (e : event reply) : bool :=
  match e with existT c r =>
    match c return reply c → bool with
    | ClaimActualLRP _ _ _ => λ err,
        match err with
        | Some err => bool_decide (ConvertError_Type err = Error_ActualLRPCannotBeClaimed)
        | None => false
        end
    | _ => λ _, false
    end r
  end.
Definition run_failed (e : event reply) : bool :=
  match e with existT c r =>
    match c return reply c → bool with
    | RunContainer _ => λ err, bool_decide (err ≠ None)
    | _ => λ _, false
    end r
  end.
Definition is_run (e : event reply) : bool :=
  match projT1 e with RunContainer _ => true | _ => false end.
Definition is_delete (e : event reply) : bool :=
  match projT1 e with DeleteContainer _ => true | _ => false end.
(** The end of an instance, told to the bulletin board. *)
Definition end_reported (e : event reply) : bool :=
  match projT1 e with
  | RemoveActualLRP _ _ _ | CrashActualLRP _ _ _ | EvacuateClaimedActualLRP _ _
  | EvacuateRunningActualLRP _ _ _ _ | EvacuateStoppedActualLRP _ _ | EvacuateCrashedActualLRP _ _ _ => true
  | _ => false
  end.

(** Executor calls of [tr] change no other container than [guid]. *)
Definition only_touches (guid : string) (tr : trace reply) : Prop :=
  Forall (λ e, ∀ g, mutates (projT1 e) = Some g → g = guid) tr.

End ordinary.

(** Unfolds a processor down to its calls. *)
Ltac unfold_processor :=
  unfold Process, processReservedContainer, processInitializingContainer, processCreatedContainer,
    processRunningContainer, processCompletedContainer, processInvalidContainer, claimLRPContainer,
    delegate_RunContainer, delegate_DeleteContainer, delegate_StopContainer, delegate_GetContainer,
    only_touches in *.

Section ordinary_facts.
Context `{Models}.

(** C2 An LRP's process is started only after its instance was claimed: in every
    conversation of the ordinary processor, each [RunContainer] comes after a
    successful [ClaimActualLRP], and at most one container is run. *)
Theorem run_only_after_claim cellID container tr :
  exec (Process cellID container) tr tt →
  guarded claimed is_run tr = true ∧ (length (filter (λ e, is_run e = true) tr) ≤ 1)%nat.
Proof.
  intros Hex. to_wp Hex. unfold_processor. wp_go; simpl; auto.
Qed.

(** A container is deleted for a reason: in every conversation each
    [DeleteContainer] comes after the claim was refused for good, after running it
    failed, or, for a completed container, after its end was reported; a running
    container is never deleted. *)
Theorem delete_is_justified cellID container tr :
  exec (Process cellID container) tr tt →
  guarded (λ e, claim_refused e || run_failed e ||
                (bool_decide (Container_State container = StateCompleted) && end_reported e))
    is_delete tr = true ∧
  (Container_State container = StateRunning → Forall (λ e, is_delete e = false) tr).
Proof.
  intros Hex. to_wp Hex. unfold_processor.
  wp_go; simpl; (split; [|intros; try done; by repeat constructor]); repeat case_bool_decide; done.
Qed.

(** C3 The end of an LRP's container: whatever the bulletin board and the executor
    answer, a completed container's end is reported exactly once, as removal when
    it was stopped and as a crash with its failure reason otherwise, and then the
    container is deleted; nothing else is called. *)
Theorem completed_container_is_reported_then_deleted cellID container key ikey tr :
  exec (Process cellID container) tr tt → Container_State container = StateCompleted →
  ActualLRPKeyFromTags (Container_Tags container) = Ok key →
  ActualLRPInstanceKeyFromContainer container cellID = Ok ikey →
  calls tr =
    [if executor.Stopped (RunResult container)
     then RemoveActualLRP (ProcessGuid key) (Index key) ikey
     else CrashActualLRP key ikey (executor.FailureReason (RunResult container));
     DeleteContainer (Guid container)].
Proof.
  intros Hex Hst Hkey Hikey.
  destruct (ActualLRPKeyFromTags_Ok _ _ Hkey) as (_ & _ & Hidx & _).
  to_wp Hex. unfold Process. rewrite Hkey, Hikey, Hst. unfold_processor.
  cbn [lc_container lc_key lc_instanceKey].
  rewrite (int_small (Index key)) by auto with rep. wp_go; done.
Qed.

(** Writes to the bulletin board about this instance and no other. *)
Definition about_instance (key : ActualLRPKey) (ikey : ActualLRPInstanceKey) (c : call) : Prop :=
  match c with
  | ClaimActualLRP pg i k | RemoveActualLRP pg i k => pg = ProcessGuid key ∧ i = Index key ∧ k = ikey
  | StartActualLRP k i _ | CrashActualLRP k i _ | EvacuateClaimedActualLRP k i
  | EvacuateRunningActualLRP k i _ _ | EvacuateStoppedActualLRP k i | EvacuateCrashedActualLRP k i _
  | RemoveEvacuatingActualLRP k i => k = key ∧ i = ikey
  | StartTask _ _ | CompleteTask _ _ _ _ _ | FailTask _ _ => False
  | _ => True
  end.

Lemma ordinary_touches cellID container tr :
  exec (Process cellID container) tr tt → only_touches (Guid container) tr.
Proof.
  intros Hex. to_wp Hex. unfold_processor. cbn [lc_container].
  wp_go; repeat constructor; intros ? Hm; simplify_eq/=; try done;
    by eapply NewRunRequestFromDesiredLRP_Guid.
Qed.

(** Processing a container concerns only that container: the executor is asked
    to change no other container, the bulletin board to change no other record
    than the one its tags name, with this cell's id, and a container whose tags
    cannot be read causes no call at all. *)
Theorem process_is_local cellID container tr :
  exec (Process cellID container) tr tt →
  only_touches (Guid container) tr ∧
  (tr ≠ [] → ∃ key,
     ActualLRPKeyFromTags (Container_Tags container) = Ok key ∧
     Forall (about_instance key
       (mkActualLRPInstanceKey (tag (Container_Tags container) InstanceGuidTag) cellID)) (calls tr)).
Proof.
  intros Hex. split; [by eapply ordinary_touches|]. to_wp Hex. unfold Process.
  destruct (ActualLRPKeyFromTags (Container_Tags container)) as [key|] eqn:Hkey; [|by wp_go].
  destruct (ActualLRPKeyFromTags_Ok _ _ Hkey) as (_ & _ & Hidx & _).
  destruct (ActualLRPInstanceKeyFromContainer container cellID) as [ikey|] eqn:Hikey; [|by wp_go].
  apply ActualLRPInstanceKeyFromContainer_Ok in Hikey as <-.
  unfold_processor. cbn [lc_container lc_key lc_instanceKey].
  rewrite (int_small (Index key)) by auto with rep.
  wp_go; exists key; (split; [done|]); simpl; repeat constructor.
Qed.

(** C18 A reserved container, on every branch: the claim; if it is refused for
    good, the container's deletion; if it fails otherwise, nothing more, so that
    the next pass can try again; if it succeeds, the definition is fetched and run,
    and when running fails the container is deleted and the claim given back. *)
Theorem reserved_container_outcomes cellID container key ikey tr :
  exec (Process cellID container) tr tt → Container_State container = StateReserved →
  ActualLRPKeyFromTags (Container_Tags container) = Ok key →
  ActualLRPInstanceKeyFromContainer container cellID = Ok ikey →
  let claim := ClaimActualLRP (ProcessGuid key) (Index key) ikey in
  (∃ err, ConvertError_Type err = Error_ActualLRPCannotBeClaimed ∧ ∃ d,
     tr = [ev claim (Some err); ev (DeleteContainer (Guid container)) d]) ∨
  (∃ err, ConvertError_Type err ≠ Error_ActualLRPCannotBeClaimed ∧ tr = [ev claim (Some err)]) ∨
  (∃ err, tr = [ev claim None; ev (DesiredLRPByProcessGuid (ProcessGuid key)) (Err err)]) ∨
  (∃ desired, let fetch := ev (DesiredLRPByProcessGuid (ProcessGuid key)) (Ok desired) in
     match NewRunRequestFromDesiredLRP (Guid container) desired key ikey with
     | Err _ => tr = [ev claim None; fetch]
     | Ok req =>
         tr = [ev claim None; fetch; ev (RunContainer req) None] ∨
         ∃ err d r, tr = [ev claim None; fetch; ev (RunContainer req) (Some err);
           ev (DeleteContainer (Guid container)) d;
           ev (RemoveActualLRP (ProcessGuid key) (Index key) ikey) r]
     end).
Proof.
  intros Hex Hst Hkey Hikey claim.
  destruct (ActualLRPKeyFromTags_Ok _ _ Hkey) as (_ & _ & Hidx & _).
  to_wp Hex. unfold Process. rewrite Hkey, Hikey, Hst. unfold_processor.
  cbn [lc_container lc_key lc_instanceKey].
  rewrite (int_small (Index key)) by auto with rep. fold claim.
  wp_simpl. intros [err|]; wp_simpl.
  { case_bool_decide; [|right; left; eauto]. intros [d|]; left; eauto 10. }
  intros [desired|err]; [|right; right; left; eauto]. wp_simpl.
  destruct (NewRunRequestFromDesiredLRP _ _ _ _) as [req|] eqn:Hreq; wp_simpl;
    [|do 3 right; exists desired; by rewrite Hreq].
  pose proof (NewRunRequestFromDesiredLRP_Guid _ _ _ _ _ Hreq) as Hg. rewrite Hg.
  intros [err|]; wp_simpl.
  - intros [d|] r; wp_simpl; do 3 right; exists desired; rewrite Hreq; right; eauto 10.
  - do 3 right. exists desired. rewrite Hreq. by left.
Qed.

End ordinary_facts.

(** ** A concrete container *)
#[local] Existing Instance example_models.

Definition example_container (st : State) : Container :=
  mkContainer "instance-guid" st 64 128
    (Some {[LifecycleTag := LRPLifecycle; DomainTag := "domain"; ProcessGuidTag := "process-guid";
            ProcessIndexTag := "7"; InstanceGuidTag := "instance-guid"]})
    [] "1.2.3.4" "10.0.0.2" (executor.mkContainerRunResult true "oops" false).

(** The executor fails to run the container. *)
Definition failing_run_env (c : call) (u : unit) : reply c * unit :=
  match c return reply c * unit with
  | RunContainer _ => (Some (errors_New "boom"), u)
  | c => (quiet c, u)
  end.

Lemma run_unit_tt {S} (h : ∀ c, S → reply c * S) (p : rep unit) s :
  exec p (run h p s).1.1 tt.
Proof. pose proof (run_exec h p s) as Hr. by destruct (run h p s).1.2. Qed.

Lemma run_only_after_claim_witness :
  guarded claimed is_run (run failing_run_env (Process "cell" (example_container StateReserved)) tt).1.1 = true ∧
  (length (filter (λ e, is_run e = true)
     (run failing_run_env (Process "cell" (example_container StateReserved)) tt).1.1) ≤ 1)%nat.
Proof. apply (run_only_after_claim "cell" (example_container StateReserved)). apply run_unit_tt. Defined.

Lemma delete_is_justified_witness :
  Forall (λ e, is_delete e = false)
    (run failing_run_env (Process "cell" (example_container StateRunning)) tt).1.1.
Proof.
  apply (delete_is_justified "cell" (example_container StateRunning)); [apply run_unit_tt | reflexivity].
Defined.

Lemma completed_container_is_reported_then_deleted_witness :
  calls (run failing_run_env (Process "cell" (example_container StateCompleted)) tt).1.1 =
    [CrashActualLRP (mkActualLRPKey "process-guid" 7 "domain")
       (mkActualLRPInstanceKey "instance-guid" "cell") "oops"; DeleteContainer "instance-guid"].
Proof.
  apply (completed_container_is_reported_then_deleted "cell" (example_container StateCompleted));
    [apply run_unit_tt | vm_compute; reflexivity..].
Defined.

Lemma process_is_local_witness :
  only_touches "instance-guid" (run failing_run_env (Process "cell" (example_container StateReserved)) tt).1.1.
Proof. apply (process_is_local "cell" (example_container StateReserved)). apply run_unit_tt. Defined.

Definition refusing_claim_env (c : call) (u : unit) : reply c * unit :=
  (match c return reply c with
   | ClaimActualLRP _ _ _ => Some (models_Error Error_ActualLRPCannotBeClaimed "taken")
   | c => quiet c
   end, u).

Lemma reserved_container_outcomes_witness :
  let tr := (run refusing_claim_env (Process "cell" (example_container StateReserved)) tt).1.1 in
  calls tr = [ClaimActualLRP "process-guid" 7 (mkActualLRPInstanceKey "instance-guid" "cell");
              DeleteContainer "instance-guid"] ∧ tr ≠ [].
Proof.
  intros tr. split; [vm_compute; reflexivity|]. intros Htr.
  pose proof (reserved_container_outcomes "cell" (example_container StateReserved)
    (mkActualLRPKey "process-guid" 7 "domain") (mkActualLRPInstanceKey "instance-guid" "cell") tr
    (run_unit_tt refusing_claim_env _ tt) eq_refl ltac:(vm_compute; reflexivity) ltac:(vm_compute; reflexivity)) as Hr.
  rewrite Htr in Hr. cbv zeta in Hr.
  destruct Hr as [(? & ? & ? & Hr)|[(? & ? & Hr)|[(? & Hr)|(d & Hr)]]]; [discriminate Hr..|].
  destruct (NewRunRequestFromDesiredLRP _ d _ _); [destruct Hr as [Hr|(? & ? & ? & Hr)]|]; discriminate Hr.
Defined.
