(* ===== verification/EvacuationLRPProcessor.v ===== *)
(** generator/internal/evacuation_lrp_processor.go: what the rep does with the
    container of an LRP while the cell is being evacuated. *)

From S2P Require Import Prelude GoInt GoStrings GoUrl GoJson Effects Services Conversion ContainerDelegate OrdinaryLRPProcessor.

Section evacuation.
Context `{Models}.

Record evacuationLRPProcessor := newEvacuationLRPProcessor {
  cellID : string; evacuationTTLInSeconds : Z }.

Definition evacuateClaimedLRPContainer (lc : lrpContainer) : rep unit :=
  Do (EvacuateClaimedActualLRP (lc_key lc) (lc_instanceKey lc)) (λ _,
  let* _ := delegate_DeleteContainer (Guid (lc_container lc)) in Ret tt).

Definition processReservedContainer (lc : lrpContainer) : rep unit := evacuateClaimedLRPContainer lc.
Definition processInitializingContainer (lc : lrpContainer) : rep unit := evacuateClaimedLRPContainer lc.
Definition processCreatedContainer (lc : lrpContainer) : rep unit := evacuateClaimedLRPContainer lc.

(** The container is deleted when the bulletin board does not want it kept,
    whether or not there was an error. *)
Definition processRunningContainer (p : evacuationLRPProcessor) (lc : lrpContainer) : rep unit :=
  match ActualLRPNetInfoFromContainer (lc_container lc) with
  | Err _ => Ret tt
  | Ok netInfo =>
      Do (EvacuateRunningActualLRP (lc_key lc) (lc_instanceKey lc) netInfo (evacuationTTLInSeconds p))
        (λ '(keepContainer, err),
         if negb keepContainer
         then let* _ := delegate_DeleteContainer (Guid (lc_container lc)) in Ret tt
         else Ret tt)
  end.

Definition processCompletedContainer (lc : lrpContainer) : rep unit :=
  let result := RunResult (lc_container lc) in
  let* _ :=
    (if executor.Stopped result
     then Do (EvacuateStoppedActualLRP (lc_key lc) (lc_instanceKey lc)) (λ _, Ret tt)
     else Do (EvacuateCrashedActualLRP (lc_key lc) (lc_instanceKey lc) (executor.FailureReason result))
            (λ _, Ret tt)) in
  let* _ := delegate_DeleteContainer (Guid (lc_container lc)) in
  Ret tt.

(** Only logs. *)
Definition processInvalidContainer (lc : lrpContainer) : rep unit := Ret tt.

Definition Process (p : evacuationLRPProcessor) (container : Container) : rep unit :=
  match ActualLRPKeyFromTags (Container_Tags container) with
  | Err _ => Ret tt
  | Ok lrpKey =>
      match ActualLRPInstanceKeyFromContainer container (cellID p) with
      | Err _ => Ret tt
      | Ok instanceKey =>
          let lc := newLRPContainer lrpKey instanceKey container in
          match Container_State container with
          | StateReserved => processReservedContainer lc
          | StateInitializing => processInitializingContainer lc
          | StateCreated => processCreatedContainer lc
          | StateRunning => processRunningContainer p lc
          | StateCompleted => processCompletedContainer lc
          | StateOther _ => processInvalidContainer lc
          end
      end
  end.

(** The bulletin board answered that a running container need not be kept. *)
Definition not_kept (e : event reply) : bool :=
  match e with existT c r =>
    match c return reply c → bool with
    | EvacuateRunningActualLRP _ _ _ _ => λ r, negb r.1
    | _ => λ _, false
    end r
  end.

(** An evacuation call, or a call that only reads or removes the container. *)
Definition evacuation_call (c : call) : bool :=
  match c with
  | EvacuateClaimedActualLRP _ _ | EvacuateRunningActualLRP _ _ _ _
  | EvacuateStoppedActualLRP _ _ | EvacuateCrashedActualLRP _ _ _ | DeleteContainer _ => true
  | _ => false
  end.

End evacuation.

Ltac unfold_evacuation :=
  unfold Process, processReservedContainer, processInitializingContainer, processCreatedContainer,
    processRunningContainer, processCompletedContainer, processInvalidContainer,
    evacuateClaimedLRPContainer, delegate_DeleteContainer, only_touches in *.

Section evacuation_facts.
Context `{Models}.

Lemma evacuation_touches p container tr :
  exec (Process p container) tr tt → only_touches (Guid container) tr.
Proof.
  intros Hex. to_wp Hex. unfold_evacuation. cbn [lc_container].
  wp_go; repeat constructor; intros ? Hm; by simplify_eq/=.
Qed.

Lemma evacuation_calls_only p container tr :
  exec (Process p container) tr tt → Forall (λ c, evacuation_call c = true) (calls tr).
Proof. intros Hex. to_wp Hex. unfold_evacuation. wp_go; simpl; by repeat constructor. Qed.

(** Only the instance that the tags name is concerned, with this cell's id, and the
    bulletin board is told before the container is deleted. *)
Lemma evacuation_is_local p container tr :
  exec (Process p container) tr tt →
  guarded end_reported is_delete tr = true ∧
  (tr ≠ [] → ∃ key,
     ActualLRPKeyFromTags (Container_Tags container) = Ok key ∧
     Forall (about_instance key
       (mkActualLRPInstanceKey (tag (Container_Tags container) InstanceGuidTag) (cellID p))) (calls tr)).
Proof.
  intros Hex. to_wp Hex. unfold Process.
  destruct (ActualLRPKeyFromTags (Container_Tags container)) as [key|] eqn:Hkey; [|by wp_go].
  destruct (ActualLRPInstanceKeyFromContainer container (cellID p)) as [ikey|] eqn:Hikey; [|by wp_go].
  apply ActualLRPInstanceKeyFromContainer_Ok in Hikey as <-.
  unfold_evacuation. cbn [lc_container lc_key lc_instanceKey].
  wp_go; (split; [simpl; by repeat case_match|]);
    intros _; exists key; (split; [done|]); simpl; repeat constructor.
Qed.

(** C17 An evacuating cell starts nothing and forgets nothing: the processor makes
    evacuation calls and deletions only, a container is deleted only after the
    bulletin board was told about the instance, and only this container and this
    instance are concerned. *)
Theorem evacuation_tells_before_deleting p container tr :
  exec (Process p container) tr tt →
  Forall (λ c, evacuation_call c = true) (calls tr) ∧
  guarded end_reported is_delete tr = true ∧
  only_touches (Guid container) tr ∧
  (tr ≠ [] → ∃ key,
     ActualLRPKeyFromTags (Container_Tags container) = Ok key ∧
     Forall (about_instance key
       (mkActualLRPInstanceKey (tag (Container_Tags container) InstanceGuidTag) (cellID p))) (calls tr)).
Proof.
  intros Hex. destruct (evacuation_is_local _ _ _ Hex) as [Hdel Habout].
  split_and!; [by eapply evacuation_calls_only|done|by eapply evacuation_touches|done].
Qed.

Lemma evacuation_deletes p container key ikey tr :
  exec (Process p container) tr tt →
  ActualLRPKeyFromTags (Container_Tags container) = Ok key →
  ActualLRPInstanceKeyFromContainer container (cellID p) = Ok ikey →
  existsb is_delete tr =
    match Container_State container with
    | StateReserved | StateInitializing | StateCreated | StateCompleted => true
    | StateRunning => existsb not_kept tr
    | StateOther _ => false
    end.
Proof.
  intros Hex Hkey Hikey. to_wp Hex. unfold Process. rewrite Hkey, Hikey.
  unfold_evacuation. wp_go; simpl; rewrite ?orb_false_r; congruence.
Qed.

(** A running container stays when its network information is invalid or the
    bulletin board answered that it should be kept. *)
Lemma evacuation_keeps p container key ikey tr :
  exec (Process p container) tr tt → Container_State container = StateRunning → existsb is_delete tr = false →
  ActualLRPKeyFromTags (Container_Tags container) = Ok key →
  ActualLRPInstanceKeyFromContainer container (cellID p) = Ok ikey →
  (∃ err, ActualLRPNetInfoFromContainer container = Err err) ∨
  ∃ netInfo err, ActualLRPNetInfoFromContainer container = Ok netInfo ∧
    ev (EvacuateRunningActualLRP key ikey netInfo (evacuationTTLInSeconds p)) (true, err) ∈ tr.
Proof.
  intros Hex Hs Hd Hkey Hikey. revert Hd. to_wp Hex. unfold Process. rewrite Hkey, Hikey.
  rewrite Hs. unfold processRunningContainer, delegate_DeleteContainer. cbn [lc_container].
  destruct (ActualLRPNetInfoFromContainer container) as [ni|err]; simpl; [|by eauto].
  wp_go; simpl; try done. right. do 2 eexists. split; [done|by left].
Qed.

(** What evacuation leaves behind: for a container whose tags can be read, the
    processor deletes it exactly unless it is running and the bulletin board wants
    it kept (or its network information is invalid), or its state is unknown. *)
Theorem evacuation_deletes_unless_kept p container key ikey tr :
  exec (Process p container) tr tt →
  ActualLRPKeyFromTags (Container_Tags container) = Ok key →
  ActualLRPInstanceKeyFromContainer container (cellID p) = Ok ikey →
  existsb is_delete tr =
    match Container_State container with
    | StateReserved | StateInitializing | StateCreated | StateCompleted => true
    | StateRunning => existsb not_kept tr
    | StateOther _ => false
    end.
Proof. apply evacuation_deletes. Qed.

End evacuation_facts.

#[local] Existing Instance example_models.

Lemma evacuation_tells_before_deleting_witness :
  guarded end_reported is_delete
    (run (λ c (u : unit), (quiet c, u))
       (Process (newEvacuationLRPProcessor "cell" 600) (example_container StateCompleted)) tt).1.1 = true.
Proof.
  apply (evacuation_tells_before_deleting (newEvacuationLRPProcessor "cell" 600) (example_container StateCompleted)).
  apply run_unit_tt.
Defined.

Lemma evacuation_deletes_unless_kept_witness :
  existsb is_delete
    (run (λ c (u : unit), (quiet c, u))
       (Process (newEvacuationLRPProcessor "cell" 600) (example_container StateCreated)) tt).1.1 = true.
Proof.
  apply (evacuation_deletes_unless_kept (newEvacuationLRPProcessor "cell" 600) (example_container StateCreated)
    (mkActualLRPKey "process-guid" 7 "domain") (mkActualLRPInstanceKey "instance-guid" "cell"));
    [apply run_unit_tt | vm_compute; reflexivity..].
Defined.
