(* ===== verification/TaskProcessor.v ===== *)
(** generator/internal/task_processor.go: what the rep does with the container
    of a task, evacuating or not. *)

From S2P Require Import Prelude GoInt GoStrings GoUrl GoJson Effects Services Conversion ContainerDelegate OrdinaryLRPProcessor.

Definition TaskCompletionReasonMissingContainer : string := "task container does not exist".
Definition TaskCompletionReasonFailedToRunContainer : string := "failed to run container".
Definition TaskCompletionReasonInvalidTransition : string := "invalid state transition".
Definition TaskCompletionReasonFailedToFetchResult : string := "failed to fetch result".

Section task_processor.
Context `{Models}.

Definition failTask (guid reason : string) : rep unit :=
  Do (FailTask guid reason) (λ _, Ret tt).

Definition startTask (cellID guid : string) : rep bool :=
  Do (StartTask guid cellID) (λ '(changed, err),
  match err with
  | Some err =>
      match ConvertError_Type err with
      | Error_InvalidStateTransition => let* _ := delegate_DeleteContainer guid in Ret false
      | Error_ResourceNotFound => let* _ := delegate_DeleteContainer guid in Ret false
      | _ => Ret false
      end
  | None => Ret changed
  end).

Definition completeTask (cellID : string) (container : Container) : rep unit :=
  let resultFile := tag (Container_Tags container) ResultFileTag in
  let* result :=
    (if negb (executor.Failed (RunResult container)) && negb (bool_decide (resultFile = ""))
     then FetchContainerResultFile (Guid container) resultFile
     else Ret (Ok "")) in
  match result with
  | Err _ => failTask (Guid container) TaskCompletionReasonFailedToFetchResult
  | Ok result =>
      Do (CompleteTask (Guid container) cellID (executor.Failed (RunResult container))
            (executor.FailureReason (RunResult container)) result) (λ err,
      match err with
      | Some err =>
          if bool_decide (ConvertError_Type err = Error_InvalidStateTransition)
          then failTask (Guid container) TaskCompletionReasonInvalidTransition
          else Ret tt
      | None => Ret tt
      end)
  end.

Definition processActiveContainer (cellID : string) (container : Container) : rep unit :=
  let* ok := startTask cellID (Guid container) in
  if negb ok then Ret tt
  else
  Do (TaskByGuid (Guid container)) (λ task, match task with
  | Err _ => Ret tt
  | Ok task =>
      match NewRunRequestFromTask task with
      | Err _ => Ret tt
      | Ok runReq =>
          let* ok := delegate_RunContainer runReq in
          if negb ok then failTask (Guid container) TaskCompletionReasonFailedToRunContainer
          else Ret tt
      end
  end).

Definition processCompletedContainer (cellID : string) (container : Container) : rep unit :=
  let* _ := completeTask cellID container in
  let* _ := delegate_DeleteContainer (Guid container) in
  Ret tt.

Definition Process (cellID : string) (container : Container) : rep unit :=
  match Container_State container with
  | StateReserved => processActiveContainer cellID container
  | StateInitializing => processActiveContainer cellID container
  | StateCreated => processActiveContainer cellID container
  | StateRunning => processActiveContainer cellID container
  | StateCompleted => processCompletedContainer cellID container
  | StateOther _ => Ret tt
  end.

(** ** What the environment may see *)

(** The bulletin board moved the task to running, now. *)
Definition started (e : event reply) : bool :=
  match e with existT c r =>
    match c return reply c → bool with
    | StartTask _ _ => λ r, r.1 && bool_decide (r.2 = None)
    | _ => λ _, false
    end r
  end.

(** The bulletin board refuses to start the task: it is over, or unknown. *)
Definition start_refused (e : event reply) : bool :=
  match e with existT c r =>
    match c return reply c → bool with
    | StartTask _ _ => λ r,
        match r.2 with
        | Some err => bool_decide (ConvertError_Type err ∈ [Error_InvalidStateTransition; Error_ResourceNotFound])
        | None => false
        end
    | _ => λ _, false
    end r
  end.

(** Its end was reported: completed, or failed. *)
Definition task_end_reported (e : event reply) : bool :=
  match projT1 e with CompleteTask _ _ _ _ _ | FailTask _ _ => true | _ => false end.

(** The bulletin board returns the task it was asked for. *)
Definition task_as_asked (e : event reply) : Prop :=
  match e with existT c r =>
    match c return reply c → Prop with
    | TaskByGuid guid => λ r, ∀ t, r = Ok t → t_TaskGuid t = guid
    | _ => λ _, True
    end r
  end.

(** Writes to the bulletin board about this task, on behalf of this cell. *)
Definition about_task (guid cellID : string) (c : call) : Prop :=
  match c with
  | StartTask g cell => g = guid ∧ cell = cellID
  | CompleteTask g cell _ _ _ => g = guid ∧ cell = cellID
  | FailTask g _ => g = guid
  | _ => bbs_write c = false
  end.

End task_processor.

Ltac unfold_task :=
  unfold Process, processActiveContainer, processCompletedContainer, startTask, completeTask, failTask,
    FetchContainerResultFile, delegate_RunContainer, delegate_DeleteContainer, only_touches in *.

Section task_processor_facts.
Context `{Models}.

(** A task's process is started only for the one that moved the task to running:
    in every conversation [RunContainer] comes after a [StartTask] that changed
    the task's state, and happens at most once. *)
Theorem task_runs_only_when_started cellID container tr :
  exec (Process cellID container) tr tt →
  guarded started is_run tr = true ∧ (length (filter (λ e, is_run e = true) tr) ≤ 1)%nat.
Proof.
  intros Hex. to_wp Hex. unfold_task. wp_go; simplify_eq/=; simpl; repeat case_match; simpl; auto with lia.
Qed.

(** C20 The end of a task: a completed container's task is reported first and then
    the container is deleted, whatever the services answer.  The result file is
    read exactly when the task succeeded and names one; if reading fails the task
    is failed; otherwise it is completed with the outcome of the run, and failed
    exactly when the bulletin board answers that this is an invalid transition. *)
Theorem completed_task_is_reported_then_deleted cellID container tr :
  exec (Process cellID container) tr tt → Container_State container = StateCompleted →
  let result := RunResult container in
  let file := tag (Container_Tags container) ResultFileTag in
  let complete := CompleteTask (Guid container) cellID (executor.Failed result) (executor.FailureReason result) in
  ∃ fetch fetched report,
    calls tr = calls fetch ++ calls report ++ [DeleteContainer (Guid container)] ∧
    (if negb (executor.Failed result) && bool_decide (file ≠ "")
     then exec (FetchContainerResultFile (Guid container) file) fetch fetched
     else fetch = [] ∧ fetched = Ok "") ∧
    match fetched with
    | Err _ => ∃ r, report = [ev (FailTask (Guid container) TaskCompletionReasonFailedToFetchResult) r]
    | Ok s => ∃ completed failed, report = ev (complete s) completed :: failed ∧
        match completed with
        | Some err =>
            if bool_decide (ConvertError_Type err = Error_InvalidStateTransition)
            then ∃ r, failed = [ev (FailTask (Guid container) TaskCompletionReasonInvalidTransition) r]
            else failed = []
        | None => failed = []
        end
    end.
Proof.
  intros Hex Hst. unfold Process in Hex. rewrite Hst in Hex. unfold processCompletedContainer, completeTask in Hex.
  rewrite exec_bind in Hex. destruct Hex as (tr1 & [] & tr2 & -> & Hex & Hdel).
  rewrite exec_bind in Hex. destruct Hex as (fetch & fetched & report & -> & Hfetch & Hrep).
  exists fetch, fetched, report. split_and!.
  - assert (calls tr2 = [DeleteContainer (Guid container)]) as Hd
      by (to_wp Hdel; unfold delegate_DeleteContainer; wp_go; done).
    by rewrite !calls_app, Hd, <-app_assoc.
  - rewrite bool_decide_not. destruct (_ && _); [done|]. by destruct Hfetch as [-> ->].
  - to_wp Hrep. unfold failTask. destruct fetched as [s|]; [|by wp_simpl; eauto]. wp_simpl.
    intros [err|]; [|wp_simpl; eexists None, []; split; reflexivity]. cbv beta iota.
    destruct (bool_decide (ConvertError_Type err = Error_InvalidStateTransition)) eqn:Hinv; wp_simpl; [intros r|];
      eexists (Some err), _; (split; [reflexivity|]); cbv beta iota; rewrite Hinv; eauto.
Qed.

(** A task's container is deleted for a reason: after the bulletin board refused
    to start the task, after running it failed, or, when it completed, after its
    end was reported. *)
Theorem task_delete_is_justified cellID container tr :
  exec (Process cellID container) tr tt →
  guarded (λ e, start_refused e || run_failed e ||
                (bool_decide (Container_State container = StateCompleted) && task_end_reported e))
    is_delete tr = true.
Proof.
  intros Hex. to_wp Hex. unfold_task.
  wp_go; simplify_eq/=; simpl; repeat case_match; simplify_eq/=; repeat case_bool_decide; try done; set_solver.
Qed.

Lemma task_touches cellID container tr :
  exec (Process cellID container) tr tt → Forall task_as_asked tr → only_touches (Guid container) tr.
Proof.
  intros Hex. to_wp Hex. unfold_task.
  wp_go; decompose_Forall; intros; simplify_eq/=; try done;
    erewrite NewRunRequestFromTask_Guid by done; eauto.
Qed.

Lemma task_writes cellID container tr :
  exec (Process cellID container) tr tt → Forall (about_task (Guid container) cellID) (calls tr).
Proof. intros Hex. to_wp Hex. unfold_task. wp_go; simpl; by repeat constructor. Qed.

(** Processing a task's container concerns only that container and that task:
    when the bulletin board returns the task it was asked for, no other container
    is touched, and no record of another task, of an LRP or of another cell is
    written. *)
Theorem task_process_is_local cellID container tr :
  exec (Process cellID container) tr tt → Forall task_as_asked tr →
  only_touches (Guid container) tr ∧ Forall (about_task (Guid container) cellID) (calls tr).
Proof.
  intros Hex Hasked. split; [by eapply task_touches|by apply task_writes].
Qed.

(** C21 An active task container, on every branch: the task is started; when the
    bulletin board refuses for good the container is deleted; on another error, or
    when the task was running already, nothing more happens; otherwise the task is
    fetched and run, and when running fails the container is deleted and the task
    failed. *)
Theorem active_task_outcomes cellID container tr :
  exec (Process cellID container) tr tt →
  Container_State container ∈ [StateReserved; StateInitializing; StateCreated; StateRunning] →
  let start := ev (StartTask (Guid container) cellID) in
  (∃ changed err d, ConvertError_Type err ∈ [Error_InvalidStateTransition; Error_ResourceNotFound] ∧
     tr = [start (changed, Some err); ev (DeleteContainer (Guid container)) d]) ∨
  (∃ changed err, ConvertError_Type err ∉ [Error_InvalidStateTransition; Error_ResourceNotFound] ∧
     tr = [start (changed, Some err)]) ∨
  tr = [start (false, None)] ∨
  (∃ err, tr = [start (true, None); ev (TaskByGuid (Guid container)) (Err err)]) ∨
  (∃ task, let fetch := ev (TaskByGuid (Guid container)) (Ok task) in
     match NewRunRequestFromTask task with
     | Err _ => tr = [start (true, None); fetch]
     | Ok req =>
         tr = [start (true, None); fetch; ev (RunContainer req) None] ∨
         ∃ err d r, tr = [start (true, None); fetch; ev (RunContainer req) (Some err);
           ev (DeleteContainer (t_TaskGuid task)) d;
           ev (FailTask (Guid container) TaskCompletionReasonFailedToRunContainer) r]
     end).
Proof.
  intros Hex Hst start.
  assert (Process cellID container = processActiveContainer cellID container) as Hp
    by (unfold Process; destruct (Container_State container); set_solver).
  rewrite Hp in Hex. to_wp Hex. unfold_task. wp_simpl.
  intros [changed [err|]]; wp_simpl.
  { destruct (ConvertError_Type err) eqn:Ht; wp_simpl;
      first [right; left; exists changed, err; rewrite Ht; split; [set_solver|done] |
             intros [d|]; wp_simpl; left; eexists changed, err, _; rewrite Ht; (split; [set_solver|done])]. }
  destruct changed; wp_simpl; [|auto].
  intros [task|err]; wp_simpl; [|eauto 10].
  destruct (NewRunRequestFromTask task) as [req|] eqn:Hreq; wp_simpl;
    [|do 4 right; exists task; by rewrite Hreq].
  pose proof (NewRunRequestFromTask_Guid _ _ Hreq) as Hg. rewrite Hg.
  intros [err|]; wp_simpl; [intros [d|]; wp_simpl; intros r|]; do 4 right; exists task; rewrite Hreq; eauto 10.
Qed.

End task_processor_facts.

(** ** Witnesses *)
#[local] Existing Instance example_models.

Definition example_task_container (st : State) : Container :=
  mkContainer "task-guid" st 64 128
    (Some {[LifecycleTag := TaskLifecycle; DomainTag := "domain"; ResultFileTag := "/result"]})
    [] "" "" (executor.mkContainerRunResult false "" false).

Lemma task_runs_only_when_started_witness :
  guarded started is_run (run failing_run_env (Process "cell" (example_task_container StateReserved)) tt).1.1 = true.
Proof. apply (task_runs_only_when_started "cell" (example_task_container StateReserved)). apply run_unit_tt. Defined.

Lemma completed_task_is_reported_then_deleted_witness :
  let tr := (run failing_run_env (Process "cell" (example_task_container StateCompleted)) tt).1.1 in
  (∃ fetch fetched (report : trace reply), calls tr = calls fetch ++ calls report ++ [DeleteContainer "task-guid"] ∧
     exec (FetchContainerResultFile "task-guid" "/result") fetch fetched) ∧
  calls tr = [GetFiles "task-guid" "/result"; CloseStream; CompleteTask "task-guid" "cell" false "" "";
              DeleteContainer "task-guid"].
Proof.
  split; [|vm_compute; reflexivity].
  destruct (completed_task_is_reported_then_deleted "cell" (example_task_container StateCompleted)
    _ (run_unit_tt failing_run_env _ tt) eq_refl) as (fetch & fetched & report & H1 & H2 & _).
  exists fetch, fetched, report. split; [exact H1 | exact H2].
Defined.

Lemma task_delete_is_justified_witness :
  let tr := (run failing_run_env (Process "cell" (example_task_container StateReserved)) tt).1.1 in
  existsb is_delete tr = true ∧
  guarded (λ e, start_refused e || run_failed e ||
                (bool_decide (StateReserved = StateCompleted) && task_end_reported e)) is_delete tr = true.
Proof.
  split; [vm_compute; reflexivity|].
  apply (task_delete_is_justified "cell" (example_task_container StateReserved)). apply run_unit_tt.
Defined.

Lemma task_process_is_local_witness :
  only_touches "task-guid" (run failing_run_env (Process "cell" (example_task_container StateReserved)) tt).1.1.
Proof.
  apply (task_process_is_local "cell" (example_task_container StateReserved)); [apply run_unit_tt|].
  apply run_Forall. intros [] u; try exact I. intros t Ht. injection Ht as <-. reflexivity.
Defined.

Definition already_running_env (c : call) (u : unit) : reply c * unit :=
  (match c return reply c with StartTask _ _ => (false, None) | c => quiet c end, u).

Lemma active_task_outcomes_witness :
  let tr := (run already_running_env (Process "cell" (example_task_container StateRunning)) tt).1.1 in
  calls tr = [StartTask "task-guid" "cell"] ∧ tr ≠ [].
Proof.
  intros tr. split; [vm_compute; reflexivity|]. intros Htr.
  pose proof (active_task_outcomes "cell" (example_task_container StateRunning) tr
    (run_unit_tt already_running_env _ tt) ltac:(set_solver)) as Hr.
  rewrite Htr in Hr. cbv zeta in Hr.
  destruct Hr as [(? & ? & ? & ? & Hr)|[(? & ? & ? & Hr)|[Hr|[(? & Hr)|(t & Hr)]]]]; [discriminate Hr..|].
  destruct (NewRunRequestFromTask t); [destruct Hr as [Hr|(? & ? & ? & Hr)]|]; discriminate Hr.
Defined.
