(* ===== verification/LRPProcessor.v ===== *)
(** generator/internal/lrp_processor.go: the LRP processor asks whether the cell
    is evacuating and hands the container to one of two processors.

    The interfaces [LRPProcessor] and [TaskProcessor] of the Go code have one
    method; here they are the class [Processor], and what its clients rely on is
    the class [SafeProcessor], which the three processors implement. *)

From S2P Require Import Prelude GoInt GoStrings GoUrl GoJson Effects Services Conversion ContainerDelegate.
From S2P Require Import OrdinaryLRPProcessor EvacuationLRPProcessor TaskProcessor.

(** ** The interface *)
Class Processor `{Models} (P : Type) := process : P → Container → rep unit.

(** The bulletin board granted the run: a claim or a start that took effect. *)
Definition granted `{Models} (e : event reply) : bool := claimed e || started e.

(** A reason to delete a container: the bulletin board refused it, it could not be
    run, or its end was reported. *)
Definition delete_reason `{Models} (e : event reply) : bool :=
  claim_refused e || start_refused e || run_failed e || end_reported e || task_end_reported e.

Class SafeProcessor `{Models} (P : Type) `{!Processor P} := {
  process_touches p container tr :
    exec (process p container) tr tt → Forall task_as_asked tr → only_touches (Guid container) tr;
  process_runs_when_granted p container tr :
    exec (process p container) tr tt → guarded granted is_run tr = true;
  process_deletes_with_reason p container tr :
    exec (process p container) tr tt → guarded delete_reason is_delete tr = true }.

(** ** The implementations *)
Section implementations.
Context `{Models}.

Record ordinaryLRPProcessor := newOrdinaryLRPProcessor { ordinary_cellID : string }.
Record taskProcessor := NewTaskProcessor { task_cellID : string }.

Record lrpProcessor := mk_lrpProcessor {
  ordinaryProcessor : ordinaryLRPProcessor;
  evacuationProcessor : evacuationLRPProcessor }.

#[global] Instance ordinary_processor : Processor ordinaryLRPProcessor :=
  λ p, OrdinaryLRPProcessor.Process (ordinary_cellID p).
#[global] Instance evacuation_processor : Processor evacuationLRPProcessor :=
  EvacuationLRPProcessor.Process.
#[global] Instance task_processor : Processor taskProcessor :=
  λ p, TaskProcessor.Process (task_cellID p).

(** The reporter is read once, before anything else. *)
Definition lrpProcessor_Process (p : lrpProcessor) (container : Container) : rep unit :=
  Do Evacuating (λ evacuating,
    if (evacuating : bool)
    then process (evacuationProcessor p) container
    else process (ordinaryProcessor p) container).
#[global] Instance lrp_processor : Processor lrpProcessor := lrpProcessor_Process.

Definition NewLRPProcessor (cellID : string) (evacuationTTLInSeconds : Z) : lrpProcessor :=
  mk_lrpProcessor (newOrdinaryLRPProcessor cellID)
    (newEvacuationLRPProcessor cellID evacuationTTLInSeconds).

(** ** They are safe *)
#[global] Instance ordinary_safe : SafeProcessor ordinaryLRPProcessor.
Proof.
  split; intros p container tr Hex.
  - intros _. by eapply ordinary_touches.
  - to_wp Hex. unfold process, ordinary_processor. unfold_processor. wp_go; done.
  - to_wp Hex. unfold process, ordinary_processor. unfold_processor.
    wp_go; simpl; unfold delete_reason; simpl; repeat case_bool_decide; done.
Qed.

#[global] Instance evacuation_safe : SafeProcessor evacuationLRPProcessor.
Proof.
  split; intros p container tr Hex.
  - intros _. by eapply evacuation_touches.
  - to_wp Hex. unfold process, evacuation_processor. unfold_evacuation. wp_go; done.
  - to_wp Hex. unfold process, evacuation_processor. unfold_evacuation. wp_go; done.
Qed.

#[global] Instance task_safe : SafeProcessor taskProcessor.
Proof.
  split; intros p container tr Hex.
  - by eapply task_touches.
  - to_wp Hex. unfold process, task_processor. unfold_task. unfold granted. wp_go; simpl; by repeat case_match.
  - to_wp Hex. unfold process, task_processor. unfold_task.
    wp_go; simpl; unfold delete_reason; simpl; repeat case_match; repeat case_bool_decide; try done; set_solver.
Qed.

#[global] Instance lrp_safe : SafeProcessor lrpProcessor.
Proof.
  split; intros p container tr ([|] & tr' & -> & Hex);
    lazymatch goal with
    | |- Forall _ _ → _ => intros [_ Hasked]%Forall_cons; apply Forall_cons; split; [done|];
                           exact (process_touches _ _ _ Hex Hasked)
    | |- guarded granted _ _ = _ => exact (process_runs_when_granted _ _ _ Hex)
    | |- _ => exact (process_deletes_with_reason _ _ _ Hex)
    end.
Qed.

End implementations.

Section lrp_processor_facts.
Context `{Models}.

(** The calls of the bulletin board's evacuation API. *)
Definition evacuates (c : call) : bool :=
  match c with
  | EvacuateClaimedActualLRP _ _ | EvacuateRunningActualLRP _ _ _ _
  | EvacuateStoppedActualLRP _ _ | EvacuateCrashedActualLRP _ _ _ => true
  | _ => false
  end.

(** Claiming, starting, crashing or removing an instance, and running or stopping
    a container: the business of a cell that is not evacuating. *)
Definition ordinary_business (c : call) : bool :=
  match c with
  | ClaimActualLRP _ _ _ | StartActualLRP _ _ _ | CrashActualLRP _ _ _ | RemoveActualLRP _ _ _
  | RunContainer _ | StopContainer _ => true
  | _ => false
  end.

Lemma ordinary_never_evacuates cellID container tr :
  exec (OrdinaryLRPProcessor.Process cellID container) tr tt →
  Forall (λ c, evacuates c = false) (calls tr).
Proof. intros Hex. to_wp Hex. unfold_processor. wp_go; simpl; by repeat constructor. Qed.

(** Evacuation decides the protocol: the evacuation flag is read once and first;
    if it is set, the container is neither claimed, started, crashed, removed, run
    nor stopped, only evacuated or deleted; if not, no evacuation call is made. *)
Theorem evacuation_flag_decides p container tr :
  exec (lrpProcessor_Process p container) tr tt →
  ∃ evacuating rest, tr = ev Evacuating evacuating :: rest ∧
    Forall (λ c, c ≠ Evacuating ∧
      if (evacuating : bool) then ordinary_business c = false else evacuates c = false) (calls rest).
Proof.
  intros (evacuating & rest & -> & Hex). exists evacuating, rest. split; [done|]. destruct evacuating.
  - eapply Forall_impl; [by eapply evacuation_calls_only|]. by intros [].
  - apply Forall_and. split; [|by eapply ordinary_never_evacuates].
    unfold process, ordinary_processor in Hex. to_wp Hex. unfold_processor. wp_go; simpl; by repeat constructor.
Qed.

(** What the processor does with a container, whichever of the two processors it
    chooses, concerns the instance that the tags name. *)
Lemma lrpProcessor_is_local cellID ttl container tr :
  exec (lrpProcessor_Process (NewLRPProcessor cellID ttl) container) tr tt →
  ∃ evacuating rest, tr = ev Evacuating evacuating :: rest ∧
    (rest ≠ [] → ∃ key, ActualLRPKeyFromTags (Container_Tags container) = Ok key ∧
       Forall (about_instance key (mkActualLRPInstanceKey (tag (Container_Tags container) InstanceGuidTag) cellID)) (calls rest)).
Proof.
  intros (evac & rest & -> & Hex). exists evac, rest. split; [done|]. destruct evac.
  - exact (proj2 (evacuation_is_local _ _ _ Hex)).
  - exact (proj2 (process_is_local _ _ _ Hex)).
Qed.

End lrp_processor_facts.

#[local] Existing Instance example_models.

Lemma evacuation_flag_decides_witness :
  let env := λ c (u : unit), (match c return reply c with Evacuating => true | c => quiet c end, u) in
  let tr := (run env (lrpProcessor_Process (NewLRPProcessor "cell" 600) (example_container StateReserved)) tt).1.1 in
  (∃ evacuating rest, tr = ev Evacuating evacuating :: rest) ∧
  existsb evacuates (calls tr) = true.
Proof.
  intros env tr. split; [|vm_compute; reflexivity].
  destruct (evacuation_flag_decides (NewLRPProcessor "cell" 600) (example_container StateReserved) tr)
    as (b & rest & Htr & _); [apply run_unit_tt|]. exists b, rest. exact Htr.
Defined.
