(* ===== verification/Operation.v ===== *)
(** generator/operation.go: the operations the rep queues, one per container,
    actual LRP or task.  The queue runs operations with the same key one after
    the other and others concurrently. *)

From S2P Require Import Prelude GoInt GoStrings GoUrl GoJson Effects Services Conversion ContainerDelegate.
From S2P Require Import OrdinaryLRPProcessor EvacuationLRPProcessor TaskProcessor LRPProcessor.

(** The types that implement [operationq.Operation]; the processors and clients
    they carry are arguments of [Execute]. *)
Inductive Operation :=
| ResidualInstanceLRPOperation (key : ActualLRPKey) (ikey : ActualLRPInstanceKey)
| ResidualEvacuatingLRPOperation (key : ActualLRPKey) (ikey : ActualLRPInstanceKey)
| ResidualJointLRPOperation (key : ActualLRPKey) (ikey : ActualLRPInstanceKey)
| ResidualTaskOperation (TaskGuid : string)
| ContainerOperation (guid : string).

#[global] Instance Operation_eq_dec : EqDecision Operation.
Proof. solve_decision. Defined.

Definition NewResidualInstanceLRPOperation (lrpKey : ActualLRPKey) (instanceKey : ActualLRPInstanceKey) :
    Operation := ResidualInstanceLRPOperation lrpKey instanceKey.
Definition NewResidualEvacuatingLRPOperation (lrpKey : ActualLRPKey) (instanceKey : ActualLRPInstanceKey) :
    Operation := ResidualEvacuatingLRPOperation lrpKey instanceKey.
Definition NewResidualJointLRPOperation (lrpKey : ActualLRPKey) (instanceKey : ActualLRPInstanceKey) :
    Operation := ResidualJointLRPOperation lrpKey instanceKey.
Definition NewResidualTaskOperation (taskGuid : string) : Operation := ResidualTaskOperation taskGuid.
Definition NewContainerOperation (guid : string) : Operation := ContainerOperation guid.

Definition Key (o : Operation) : string :=
  match o with
  | ResidualInstanceLRPOperation _ ikey => InstanceGuid ikey
  | ResidualEvacuatingLRPOperation _ ikey => InstanceGuid ikey
  | ResidualJointLRPOperation _ ikey => InstanceGuid ikey
  | ResidualTaskOperation guid => guid
  | ContainerOperation guid => guid
  end.

Section operations.
Context `{Models}.

Definition ResidualInstanceLRP_Execute (key : ActualLRPKey) (ikey : ActualLRPInstanceKey) : rep unit :=
  let* container := delegate_GetContainer (LRPContainerGuid (ProcessGuid key) (InstanceGuid ikey)) in
  match container with
  | Some _ => Ret tt
  | None =>
      Do (RemoveActualLRP (ProcessGuid key) (int (Index key))
            (mkActualLRPInstanceKey (InstanceGuid ikey) (CellId ikey))) (λ _, Ret tt)
  end.

Definition ResidualEvacuatingLRP_Execute (key : ActualLRPKey) (ikey : ActualLRPInstanceKey) : rep unit :=
  let* container := delegate_GetContainer (LRPContainerGuid (ProcessGuid key) (InstanceGuid ikey)) in
  match container with
  | Some _ => Ret tt
  | None => Do (RemoveEvacuatingActualLRP key ikey) (λ _, Ret tt)
  end.

Definition ResidualJointLRP_Execute (key : ActualLRPKey) (ikey : ActualLRPInstanceKey) : rep unit :=
  let* container := delegate_GetContainer (LRPContainerGuid (ProcessGuid key) (InstanceGuid ikey)) in
  match container with
  | Some _ => Ret tt
  | None =>
      let actualLRPKey := mkActualLRPKey (ProcessGuid key) (int32 (Index key)) (Domain key) in
      let actualLRPInstanceKey := mkActualLRPInstanceKey (InstanceGuid ikey) (CellId ikey) in
      Do (RemoveActualLRP (ProcessGuid key) (int (Index key)) ikey) (λ _,
      Do (RemoveEvacuatingActualLRP actualLRPKey actualLRPInstanceKey) (λ _, Ret tt))
  end.

Definition ResidualTask_Execute (taskGuid : string) : rep unit :=
  let* container := delegate_GetContainer taskGuid in
  match container with
  | Some _ => Ret tt
  | None => Do (FailTask taskGuid TaskCompletionReasonMissingContainer) (λ _, Ret tt)
  end.

(** The operations against any processors of the interface. *)
Section execute.
Context {L T : Type} `{!Processor L, !Processor T} (lrpProcessor : L) (taskProcessor : T).

Definition Container_Execute (guid : string) : rep unit :=
  let* container := delegate_GetContainer guid in
  match container with
  | None => Ret tt
  | Some container =>
      let lifecycle := tag (Container_Tags container) LifecycleTag in
      if bool_decide (lifecycle = LRPLifecycle) then process lrpProcessor container
      else if bool_decide (lifecycle = TaskLifecycle) then process taskProcessor container
      else Ret tt
  end.

Definition Execute (o : Operation) : rep unit :=
  match o with
  | ResidualInstanceLRPOperation key ikey => ResidualInstanceLRP_Execute key ikey
  | ResidualEvacuatingLRPOperation key ikey => ResidualEvacuatingLRP_Execute key ikey
  | ResidualJointLRPOperation key ikey => ResidualJointLRP_Execute key ikey
  | ResidualTaskOperation guid => ResidualTask_Execute guid
  | ContainerOperation guid => Container_Execute guid
  end.

(** What a residual operation asks the bulletin board to remove or fail. *)
Definition cleanup_calls (o : Operation) : list call :=
  match o with
  | ResidualInstanceLRPOperation key ikey => [RemoveActualLRP (ProcessGuid key) (Index key) ikey]
  | ResidualEvacuatingLRPOperation key ikey => [RemoveEvacuatingActualLRP key ikey]
  | ResidualJointLRPOperation key ikey =>
      [RemoveActualLRP (ProcessGuid key) (Index key) ikey; RemoveEvacuatingActualLRP key ikey]
  | ResidualTaskOperation guid => [FailTask guid TaskCompletionReasonMissingContainer]
  | ContainerOperation _ => []
  end.

Definition residual (o : Operation) : bool :=
  match o with ContainerOperation _ => false | _ => true end.

(** Instance indices are 32-bit. *)
Definition index_in_range (o : Operation) : Prop :=
  match o with
  | ResidualInstanceLRPOperation key _ | ResidualEvacuatingLRPOperation key _
  | ResidualJointLRPOperation key _ => is_int32 (Index key)
  | _ => True
  end.

(** The executor and the bulletin board return the records they were asked for. *)
Definition as_asked (e : event reply) : Prop :=
  task_as_asked e ∧
  match e with existT c r =>
    match c return reply c → Prop with
    | GetContainer guid => λ r, ∀ container, r = Ok container → Guid container = guid
    | _ => λ _, True
    end r
  end.

Lemma residual_exec o tr :
  residual o = true → index_in_range o → exec (Execute o) tr tt →
  ∃ found rest, tr = ev (GetContainer (Key o)) found :: rest ∧
    calls rest = if is_ok found then [] else cleanup_calls o.
Proof.
  intros Hres Hidx Hex. to_wp Hex.
  destruct o as [[] []|[] []|[] []|guid|guid]; simpl in *; [..|done];
    unfold delegate_GetContainer; simpl; intros [container|err]; simpl; intros;
    rewrite ?int_small, ?int32_small by auto with rep; eexists _, _; (split; [reflexivity|done]).
Qed.

(** C14 What a residual operation does depends on one lookup of the container under its
    key, made first.  If the executor returns the container, nothing else happens.  If
    the lookup fails, exactly the stale records are removed (or the task failed), in
    order and whatever the replies, and no container is touched.  Every failure counts
    as absence: also when the executor could not answer, the records are removed. *)
Theorem residual_operation_cleans_up o tr :
  residual o = true → index_in_range o → exec (Execute o) tr tt →
  ∃ found rest, tr = ev (GetContainer (Key o)) found :: rest ∧
    match found with
    | Ok _ => rest = []
    | Err _ => calls rest = cleanup_calls o
    end.
Proof.
  intros Hres Hidx Hex. destruct (residual_exec o tr Hres Hidx Hex) as (found & rest & -> & Hrest).
  exists found, rest. split; [done|]. destruct found as [c|err]; simpl in Hrest; [by apply fmap_nil_inv in Hrest|done].
Qed.

(** ** Operations are safe, whatever safe processors they use *)
Context `{!SafeProcessor L, !SafeProcessor T}.

Lemma residual_touches_nothing o tr guid :
  residual o = true → exec (Execute o) tr tt → only_touches guid tr ∧ Forall (λ e, is_run e = false ∧ is_delete e = false) tr.
Proof.
  intros Hres Hex. to_wp Hex. destruct o as [[] []|[] []|[] []|?|?]; [..|done];
    unfold Execute, ResidualInstanceLRP_Execute, ResidualEvacuatingLRP_Execute, ResidualJointLRP_Execute,
      ResidualTask_Execute, delegate_GetContainer, only_touches; wp_go; by repeat constructor.
Qed.

(** A container operation looks its container up and does nothing, or continues
    as one of the processors on the container found. *)
Lemma Container_Execute_inv guid tr :
  exec (Container_Execute guid) tr tt →
  ∃ found rest, tr = ev (GetContainer guid) found :: rest ∧
    match found with
    | Err _ => rest = []
    | Ok container =>
        let lifecycle := tag (Container_Tags container) LifecycleTag in
        (lifecycle = LRPLifecycle ∧ exec (process lrpProcessor container) rest tt) ∨
        (lifecycle = TaskLifecycle ∧ exec (process taskProcessor container) rest tt) ∨
        (lifecycle ≠ LRPLifecycle ∧ lifecycle ≠ TaskLifecycle ∧ rest = [])
    end.
Proof.
  unfold Container_Execute, delegate_GetContainer. simpl. intros ([container|err] & rest & -> & Hex); simpl in Hex;
    eexists _, rest; (split; [reflexivity|]); [|by destruct Hex].
  repeat case_bool_decide; naive_solver.
Qed.

(** An operation asks the executor to change no other container than the one its
    key names (when the services return the records they were asked for); it runs a
    container only after the bulletin board granted it and deletes one only with a
    reason.  This holds for any processors that keep the promises of their interface. *)
Lemma Execute_safe o tr :
  exec (Execute o) tr tt → Forall as_asked tr →
  only_touches (Key o) tr ∧
  guarded granted is_run tr = true ∧
  guarded delete_reason is_delete tr = true.
Proof.
  intros Hex Hasked. destruct (residual o) eqn:Hres.
  { destruct (residual_touches_nothing o tr (Key o) Hres Hex) as [Ht Hno].
    split_and!; [done|..]; apply guarded_never; eapply Forall_impl; [exact Hno|naive_solver..|exact Hno|naive_solver]. }
  destruct o as [| | | |guid]; try done.
  apply Container_Execute_inv in Hex as ([container|] & rest & -> & Hrest); [|subst; by repeat constructor].
  apply Forall_cons in Hasked as [[_ Hguid] Hasked]. simpl in Hguid. rewrite <-(Hguid _ eq_refl).
  apply (Forall_impl _ task_as_asked) in Hasked; [|by intros ? []].
  destruct Hrest as [[_ Hex]|[[_ Hex]|(_ & _ & ->)]]; [| |by repeat constructor];
    (split_and!; [apply Forall_cons; split; [done|exact (process_touches _ _ _ Hex Hasked)] |
                  exact (process_runs_when_granted _ _ _ Hex) | exact (process_deletes_with_reason _ _ _ Hex)]).
Qed.

(** Every operation starts by looking its container up, and changes nothing when
    the lookup fails. *)
Lemma Execute_looks_first o tr :
  exec (Execute o) tr tt →
  ∃ found rest, tr = ev (GetContainer (Key o)) found :: rest ∧
    (is_ok found = false → Forall (λ e, mutates (projT1 e) = None) rest).
Proof.
  intros Hex. destruct o as [[] []|[] []|[] []|guid|guid].
  5: { apply Container_Execute_inv in Hex as ([c|err] & rest & -> & Hrest); eexists _, rest; (split; [reflexivity|]);
       simpl; [done|by subst]. }
  all: to_wp Hex; unfold Execute, ResidualInstanceLRP_Execute, ResidualEvacuatingLRP_Execute, ResidualJointLRP_Execute,
      ResidualTask_Execute, delegate_GetContainer; wp_go; eexists _, _; (split; [reflexivity|]); intros; by repeat constructor.
Qed.

End execute.
End operations.

(** ** Witnesses *)
#[local] Existing Instance example_models.

Definition example_Execute : Operation → rep unit :=
  Execute (NewLRPProcessor "cell" 600) (NewTaskProcessor "cell").

(** An executor that has one container. *)
Definition one_container_env (container : Container) (c : call) (u : unit) : reply c * unit :=
  (match c return reply c with
   | GetContainer guid =>
       if bool_decide (guid = Guid container) then Ok container else Err executor_ErrContainerNotFound
   | c => quiet c
   end, u).

Lemma residual_operation_cleans_up_witness :
  let o := ResidualJointLRPOperation (mkActualLRPKey "process-guid" 7 "domain")
             (mkActualLRPInstanceKey "instance-guid" "cell") in
  let env (c : call) (u : unit) := (quiet c, u) in
  ∃ found rest, (run env (example_Execute o) tt).1.1 = ev (GetContainer "instance-guid") found :: rest ∧
    match found with Ok _ => rest = [] | Err _ => calls rest = cleanup_calls o end.
Proof.
  intros o env. apply (residual_operation_cleans_up (NewLRPProcessor "cell" 600) (NewTaskProcessor "cell") o);
    [reflexivity | vm_compute; split; discriminate | apply run_unit_tt].
Defined.

Lemma one_container_as_asked container c u : as_asked (existT c (one_container_env container c u).1).
Proof.
  destruct c; split; try done; simpl.
  - by case_bool_decide; intros ? [= <-].
  - by intros t [= <-].
Qed.
