(* ===== verification/Queue.v ===== *)
(** The operations of the rep at the same time.

    The queue (code.cloudfoundry.org/operationq) executes operations with the same
    key one after the other and any others concurrently; the bulker and the event
    consumer both push to it, and the handlers and the rest of the rep run beside
    it.  A history shared by all of them is a list of events, each with the number
    of the thread that made the call: thread [i] executes the [i]-th operation, and
    numbers beyond the operations belong to the rest of the program. *)

From S2P Require Import Prelude GoInt GoStrings GoUrl GoJson Effects Concurrency Services Conversion.
From S2P Require Import ContainerDelegate OrdinaryLRPProcessor EvacuationLRPProcessor TaskProcessor LRPProcessor Operation.

Section queue.
Context `{Models}.
Context {L T : Type} `{!Processor L, !Processor T} (lrpProcessor : L) (taskProcessor : T).

(** Every operation of the list was executed, by some thread of the history. *)
Definition executed (ops : list Operation) (tr : shared reply) : Prop :=
  ∀ o, o ∈ ops → ∃ i, exec (Execute lrpProcessor taskProcessor o) (of_thread i tr) tt.

Lemma schedule_executed {St} (h : ∀ c, St → reply c * St) (ops : list Operation) turns s :
  let '(tr, rest, s') := schedule h turns (Execute lrpProcessor taskProcessor <$> ops) s in
  finished rest = true → history h s tr.*2 s' ∧ executed ops tr.
Proof.
  pose proof (schedule_executes h (Execute lrpProcessor taskProcessor) ops turns s) as Hex.
  pose proof (schedule_history h turns (Execute lrpProcessor taskProcessor <$> ops) s) as Hh.
  destruct (schedule h turns _ s) as [[tr rest] s']. simpl in *. intros Hf. split; [done|].
  intros o Ho. destruct (Hex Hf o Ho) as (i & [] & Hi). by exists i.
Qed.

(** What the queue promises: operations with the same key take turns. *)
Definition one_at_a_time (ops : list Operation) (tr : shared reply) : Prop :=
  ∀ i j o o', ops !! i = Some o → ops !! j = Some o' → i ≠ j → Key o = Key o' → interrupts j i tr = false.

(** An operation in progress: what its thread did can be completed. *)
Definition in_progress (o : Operation) (tr : trace reply) : Prop :=
  ∃ rest, exec (Execute lrpProcessor taskProcessor o) (tr ++ rest) tt ∧ Forall as_asked rest.

(** However services that return what they were asked for and the scheduler
    interleave operations, each of them is in progress. *)
Lemma schedule_in_progress {St} (h : ∀ c, St → reply c * St) (ops : list Operation) turns s :
  (∀ c s, as_asked (existT c (h c s).1)) →
  let '(tr, _, _) := schedule h turns (Execute lrpProcessor taskProcessor <$> ops) s in
  (∀ i o, ops !! i = Some o → in_progress o (of_thread i tr)) ∧ Forall as_asked tr.*2.
Proof.
  intros Hh. pose proof (schedule_history h turns (Execute lrpProcessor taskProcessor <$> ops) s) as Hhist.
  pose proof (schedule_threads h turns (Execute lrpProcessor taskProcessor <$> ops) s) as Ht.
  destruct (schedule h turns _ s) as [[tr rest] s']. split; [|by eapply history_Forall].
  intros i o Ho. destruct (Ht i (Execute lrpProcessor taskProcessor o)) as (p & _ & Hp); [by rewrite list_lookup_fmap, Ho|].
  exists (run h p s').1.1. split; [|by apply (run_Forall h as_asked)]. apply Hp. generalize (run_exec h p s'). by destruct (run h p s').1.2.
Qed.

Lemma in_progress_at o i e pre post :
  in_progress o (of_thread i (pre ++ (i, e) :: post)) → in_progress o (of_thread i pre ++ e :: of_thread i post).
Proof. by rewrite of_thread_app, of_thread_cons, decide_True. Qed.

Lemma asked_at i e pre post :
  Forall as_asked (pre ++ (i, e) :: post).*2 → Forall as_asked (of_thread i pre ++ e :: of_thread i post).
Proof.
  rewrite !Forall_forall. intros Ha x Hx. apply Ha, (of_thread_subseteq i).
  by rewrite of_thread_app, of_thread_cons, decide_True.
Qed.

(** The thread of an operation that has got to [e] began with the lookup of its
    container, and has since then made calls of its own. *)
Lemma lookup_before o pre e post :
  in_progress o (pre ++ e :: post) → is_Some (mutates (projT1 e)) →
  ∃ c pre', pre = ev (GetContainer (Key o)) (Ok c) :: pre'.
Proof.
  intros (rest & Hex & _) [guid Hm].
  destruct (Execute_looks_first _ _ _ _ Hex) as (found & tr & Htr & Hno).
  destruct pre as [|x pre]; simpl in Htr; injection Htr as Hx Htr; [by subst e|]. subst x.
  destruct found as [c|err]; [by exists c, pre|]. specialize (Hno eq_refl). rewrite <-Htr in Hno.
  rewrite !Forall_app, Forall_cons in Hno. destruct Hno as [[_ [He _]] _]. congruence.
Qed.

Context `{!SafeProcessor L, !SafeProcessor T}.

(** Before [e], its thread was granted the run or had a reason to delete. *)
Lemma justified_before o pre e post :
  in_progress o (pre ++ e :: post) → Forall as_asked (pre ++ e :: post) →
  (∀ guid, mutates (projT1 e) = Some guid → guid = Key o) ∧
  (is_run e = true → ∃ g, g ∈ pre ∧ granted g = true) ∧
  (is_delete e = true → ∃ g, g ∈ pre ∧ delete_reason g = true).
Proof.
  intros (rest & Hex & Hrest) Hasked.
  destruct (Execute_safe _ _ _ _ Hex) as (Htouch & Hrun & Hdel); [by apply Forall_app|].
  rewrite guarded_spec in Hrun, Hdel. unfold only_touches in Htouch.
  rewrite <-app_assoc in *. split_and!.
  - rewrite !Forall_app, Forall_cons in Htouch. by destruct Htouch as [_ [[He _] _]].
  - intros Hr. eapply Hrun; [done..|]. destruct e as [[] ?]; done.
  - intros Hd. eapply Hdel; [done..|]. destruct e as [[] ?]; done.
Qed.

(** So an event of an operation on some container is on the container of its key. *)
Lemma mutates_own (ops : list Operation) tr j e o guid :
  (∀ j o', ops !! j = Some o' → in_progress o' (of_thread j tr)) → Forall as_asked tr.*2 →
  (j, e) ∈ tr → ops !! j = Some o → mutates (projT1 e) = Some guid → guid = Key o.
Proof.
  intros Hprog Hasked (pre & post & ->)%list_elem_of_split Ho Hm.
  pose proof (in_progress_at _ _ _ _ _ (Hprog _ _ Ho)) as Hp.
  by eapply (justified_before _ _ _ _ Hp), Hm; apply asked_at.
Qed.

(** C11 Operations are isolated, whatever else happens at the same time.  Take any
    history of the rep in which operations, finished or still in progress, run
    concurrently with each other and with everything else, operations with the same
    key taking turns as the queue promises.  When an operation changes a container
    (runs, stops or deletes it), it is the container of its key; the operation had
    looked it up and found it, and since that lookup no other operation has changed
    it; a container is run only if the bulletin board granted that since, and
    deleted only if since then a reason for it came up. *)
Theorem operations_are_isolated (ops : list Operation) tr pre i e post o :
  (∀ j o', ops !! j = Some o' → in_progress o' (of_thread j tr)) →
  one_at_a_time ops tr → Forall as_asked tr.*2 →
  tr = pre ++ (i, e) :: post → ops !! i = Some o → is_Some (mutates (projT1 e)) →
  mutates (projT1 e) = Some (Key o) ∧
  ∃ pre1 c mid, pre = pre1 ++ (i, ev (GetContainer (Key o)) (Ok c)) :: mid ∧
    (∀ j e' o', (j, e') ∈ mid → ops !! j = Some o' → mutates (projT1 e') = Some (Key o) → j = i) ∧
    (is_run e = true → ∃ g, (i, g) ∈ mid ∧ granted g = true) ∧
    (is_delete e = true → ∃ g, (i, g) ∈ mid ∧ delete_reason g = true).
Proof.
  intros Hprog Hserial Hasked -> Hi Hm. pose proof (in_progress_at _ _ _ _ _ (Hprog _ _ Hi)) as Hp.
  destruct (justified_before _ _ _ _ Hp (asked_at _ _ _ _ Hasked)) as (Hkey & Hrun & Hdel).
  destruct (lookup_before _ _ _ _ Hp Hm) as (c & mine & Hmine). rewrite Hmine in Hrun, Hdel.
  apply of_thread_head in Hmine as (pre1 & mid & -> & _ & <-).
  split; [by destruct Hm as [guid Hm]; rewrite Hm, (Hkey _ Hm)|].
  exists pre1, c, mid. split; [done|]. split_and!.
  - intros j e' o' Hin Ho' He'. destruct (decide (j = i)) as [|Hne]; [done|]. exfalso.
    pose proof (mutates_own ops _ j e' o' (Key o) Hprog Hasked ltac:(set_solver) Ho' He') as Hown.
    apply list_elem_of_split in Hin as (m1 & m2 & ->).
    pose proof (Hserial i j o o' Hi Ho' (not_eq_sym Hne) Hown) as Hint.
    rewrite <-app_assoc in Hint. simpl in Hint. rewrite <-app_assoc in Hint. simpl in Hint.
    by rewrite interrupts_spec in Hint.
  - intros (g & [->|Hg]%elem_of_cons & Hgr)%Hrun; [done|]. exists g. by rewrite <-elem_of_thread.
  - intros (g & [->|Hg]%elem_of_cons & Hgr)%Hdel; [done|]. exists g. by rewrite <-elem_of_thread.
Qed.

End queue.

(** ** Operations finish *)
Section finish.
Context `{Models}.

Lemma Execute_calls (cellID : string) (ttl : Z) o :
  calls_at_most 7 (Execute (NewLRPProcessor cellID ttl) (NewTaskProcessor cellID) o).
Proof.
  unfold calls_at_most.
  destruct o as [[] []|[] []|[] []|guid|guid]; unfold Execute, ResidualInstanceLRP_Execute, ResidualEvacuatingLRP_Execute,
    ResidualJointLRP_Execute, ResidualTask_Execute, Container_Execute, delegate_GetContainer;
    [wp_go; simpl; lia..|].
  unfold process, lrp_processor, task_processor, lrpProcessor_Process, process, evacuation_processor, ordinary_processor.
  unfold_task. unfold_processor. unfold_evacuation. wp_go; simpl; lia.
Qed.

(** C13 The operations of a batch finish, and soon.  Run any operations concurrently,
    against any service, in any order of turns that gives each of them seven: then
    all of them have returned, each of them was executed, and together they made at
    most seven calls each.  No operation waits for another, and none retries. *)
Theorem operations_finish {St} (h : ∀ c, St → reply c * St) cellID ttl ops turns s :
  (∀ i, i < length ops → 7 ≤ turns_of i turns) →
  let lrps := NewLRPProcessor cellID ttl in let tasks := NewTaskProcessor cellID in
  let '(tr, rest, s') := schedule h turns (Execute lrps tasks <$> ops) s in
  finished rest = true ∧ history h s tr.*2 s' ∧ executed lrps tasks ops tr ∧ length tr ≤ 7 * length ops.
Proof.
  intros Hturns lrps tasks. pose proof (schedule_executed lrps tasks h ops turns s) as Hex.
  assert (Forall (calls_at_most 7) (Execute lrps tasks <$> ops)) as Hcalls
    by (apply Forall_fmap, Forall_true; intros o; apply Execute_calls).
  pose proof (schedule_all_return h 7 turns _ s Hcalls) as Hfin.
  pose proof (schedule_calls_each h 7 turns _ s Hcalls) as Hlen. rewrite length_fmap in Hfin, Hlen.
  specialize (Hfin Hturns). destruct (schedule h turns _ s) as [[tr rest] s']. simpl in *. naive_solver.
Qed.

End finish.

#[local] Existing Instance example_models.

(** The claim and the run of one container, a task whose container is gone, and a
    second operation on the container, on an executor with one container. *)
Definition example_queue : shared reply * list (rep unit) * unit :=
  schedule (one_container_env (example_container StateReserved)) [0; 1; 0; 1; 0; 0; 0; 0; 0; 2; 2; 2; 2; 2; 2]
    (example_Execute <$> [ContainerOperation "instance-guid"; ResidualTaskOperation "task-guid";
                          ContainerOperation "instance-guid"]) tt.

Lemma operations_are_isolated_witness :
  let ops := [ContainerOperation "instance-guid"; ResidualTaskOperation "task-guid"; ContainerOperation "instance-guid"] in
  let tr := example_queue.1.1 in
  tr.*1 = [0; 1; 0; 1; 0; 0; 0; 2; 2; 2; 2; 2] ∧
  ∃ e pre1 c mid post, is_run e = true ∧
    tr = (pre1 ++ (0, ev (GetContainer "instance-guid") (Ok c)) :: mid) ++ (0, e) :: post ∧
    ∃ g, (0, g) ∈ mid ∧ granted g = true.
Proof.
  intros ops tr. split; [vm_compute; reflexivity|].
  assert (existsb (λ x, Nat.eqb x.1 0 && is_run x.2) tr = true) as Hrun by (vm_compute; reflexivity).
  apply existsb_exists in Hrun as ([i e] & Hin & Hrun). simpl in Hrun.
  apply andb_true_iff in Hrun as [Hi Hrun]. apply Nat.eqb_eq in Hi as ->.
  apply list_elem_of_In, list_elem_of_split in Hin as (pre & post & Htr).
  pose proof (schedule_in_progress (NewLRPProcessor "cell" 600) (NewTaskProcessor "cell")
    (one_container_env (example_container StateReserved)) ops
    [0; 1; 0; 1; 0; 0; 0; 0; 0; 2; 2; 2; 2; 2; 2] tt (one_container_as_asked _)) as Hsched.
  change (schedule _ _ _ _) with example_queue in Hsched. unfold tr in *.
  destruct (operations_are_isolated (NewLRPProcessor "cell" 600) (NewTaskProcessor "cell") ops tr pre 0 e post
    (ContainerOperation "instance-guid")) as (_ & pre1 & c & mid & Hpre & _ & Hgrant & _).
  - unfold tr. destruct example_queue as [[t l] u]. exact (proj1 Hsched).
  - intros [|[|[|i]]] [|[|[|j]]] o o' [= <-] [= <-] Hne Hkey; try discriminate Hkey; try (by contradict Hne);
      vm_compute; reflexivity.
  - unfold tr. destruct example_queue as [[t l] u]. exact (proj2 Hsched).
  - exact Htr.
  - reflexivity.
  - destruct e as [[] ?]; try discriminate Hrun. by eexists.
  - exists e, pre1, c, mid, post. split; [exact Hrun|]. split; [rewrite Htr, Hpre; reflexivity|]. exact (Hgrant Hrun).
Defined.

Lemma operations_finish_witness :
  let ops := [ContainerOperation "instance-guid"; ResidualTaskOperation "task-guid"] in
  let '(tr, rest, _) := schedule (one_container_env (example_container StateReserved)) (concat (replicate 7 [0; 1]))
                          (example_Execute <$> ops) tt in
  length tr = 7 ∧ finished rest = true ∧ length tr ≤ 14.
Proof.
  intros ops.
  assert (length (schedule (one_container_env (example_container StateReserved)) (concat (replicate 7 [0; 1]))
                    (example_Execute <$> ops) tt).1.1 = 7) as Hlen by (vm_compute; reflexivity).
  pose proof (operations_finish (one_container_env (example_container StateReserved)) "cell" 600 ops
    (concat (replicate 7 [0; 1])) tt) as Hfin.
  cbv zeta in Hfin. change (Execute (NewLRPProcessor "cell" 600) (NewTaskProcessor "cell")) with example_Execute in Hfin.
  destruct (schedule _ _ _ _) as [[tr rest] u]. split; [exact Hlen|].
  destruct Hfin as (Hf & _ & _ & Hl); [|split; [exact Hf|exact Hl]].
  intros [|[|i]] Hi; [vm_compute; lia..|exfalso; simpl in Hi; lia].
Defined.
