(* ===== verification/TaskOnce.v ===== *)
(** A task is run at most once, however many operations for its container there are.

    The bulker, the event consumer and a restarted rep may all queue operations for
    the container of one task.  The bulletin board lets only one [StartTask] of a
    task change its state; the processor runs the container only after that one. *)

From S2P Require Import Prelude GoInt GoStrings GoUrl GoJson Effects Concurrency Services Conversion.
From S2P Require Import ContainerDelegate OrdinaryLRPProcessor EvacuationLRPProcessor TaskProcessor LRPProcessor.
From S2P Require Import Operation Queue.

Section once.
Context `{Models}.

(** [StartTask] of this task took effect. *)
Definition starts_task (guid : string) (e : event reply) : bool :=
  started e && match projT1 e with StartTask g _ => bool_decide (g = guid) | _ => false end.

(** The container of this guid is run. *)
Definition runs (guid : string) (e : event reply) : bool :=
  match projT1 e with RunContainer req => bool_decide (rr_Guid req = guid) | _ => false end.

(** What the executor returned for this guid is a task's container. *)
Definition is_task_container (guid : string) (tr : trace reply) : Prop :=
  ∀ c, ev (GetContainer guid) (Ok c) ∈ tr → tag (Container_Tags c) LifecycleTag = TaskLifecycle.

Lemma runs_is_run guid e : runs guid e = true → is_run e = true.
Proof. by destruct e as [[] ?]. Qed.

Lemma task_runs_after_its_start cellID container tr :
  exec (TaskProcessor.Process cellID container) tr tt →
  guarded (starts_task (Guid container)) is_run tr = true ∧ length (filter (λ e, is_run e = true) tr) ≤ 1.
Proof.
  intros Hex. split; [|by eapply task_runs_only_when_started].
  to_wp Hex. unfold_task. wp_go; simplify_eq/=; simpl; repeat case_match; simpl; try done;
    unfold starts_task in *; simpl in *; by rewrite ?bool_decide_true in * by done.
Qed.

Context (lrps : lrpProcessor) (cellID : string).

Lemma task_operation_runs o tr :
  exec (Execute lrps (NewTaskProcessor cellID) o) tr tt → Forall as_asked tr →
  (∀ c rest, tr = ev (GetContainer (Key o)) (Ok c) :: rest → tag (Container_Tags c) LifecycleTag = TaskLifecycle) →
  guarded (starts_task (Key o)) is_run tr = true ∧ length (filter (λ e, is_run e = true) tr) ≤ 1.
Proof.
  intros Hex Hasked Htask. destruct (residual o) eqn:Hres.
  { destruct (residual_touches_nothing _ _ o tr (Key o) Hres Hex) as [_ Hno]. split.
    - apply guarded_never. eapply Forall_impl; [exact Hno|by intros ? []].
    - assert (filter (λ e, is_run e = true) tr = []) as ->; [|simpl; lia].
      apply filter_none. eapply Forall_impl; [exact Hno|]. by intros ? [-> _]. }
  destruct o as [| | | |guid]; try done. apply Container_Execute_inv in Hex as ([c|err] & rest & -> & Hex);
    [|subst; split; [done|simpl; lia]].
  specialize (Htask c rest eq_refl).
  apply Forall_cons in Hasked as [[_ Hguid] _]. specialize (Hguid _ eq_refl). simpl in Hguid.
  destruct Hex as [[Hl _]|[[_ Hex]|(_ & Hl & _)]]; [by rewrite Htask in Hl| |done].
  apply task_runs_after_its_start in Hex as [Hg Hn]. simpl. by rewrite <-Hguid.
Qed.

(** One thread: the run follows a start in the same thread, and there is only one. *)
Lemma task_thread_runs (ops : list Operation) i o (tr : shared reply) :
  in_progress lrps (NewTaskProcessor cellID) o (of_thread i tr) →
  is_task_container (Key o) tr.*2 → Forall as_asked tr.*2 →
  (∀ e, (i, e) ∈ tr → is_run e = true → ∃ g, (i, g) ∈ tr ∧ starts_task (Key o) g = true) ∧
  length (filter (λ e, is_run e = true) (of_thread i tr)) ≤ 1.
Proof.
  intros (rest & Hex & Hrest) Htask Hasked.
  destruct (of_thread i tr) as [|e0 mine] eqn:Hmine.
  { split; [|simpl; lia]. intros e He. apply elem_of_thread in He. rewrite Hmine in He. by apply elem_of_nil in He. }
  destruct (task_operation_runs o ((e0 :: mine) ++ rest)) as [Hg Hn]; [done| | |].
  - apply Forall_app. split; [|done]. rewrite <-Hmine. rewrite Forall_forall in Hasked |- *.
    intros x Hx. by apply Hasked, (of_thread_subseteq i).
  - intros c more Heq. apply cons_eq_inj in Heq as [He0 _]. apply Htask, (of_thread_subseteq i).
    rewrite Hmine, <-He0. by left.
  - split; [|etrans; [apply filter_prefix|exact Hn]].
    intros e He Hr. apply elem_of_thread in He. rewrite Hmine in He.
    apply list_elem_of_split in He as (pre & post & Hsplit). rewrite Hsplit, <-app_assoc in Hg.
    rewrite guarded_spec in Hg. destruct (Hg pre e (post ++ rest)) as (g & Hin & Hs); [done..| |].
    { destruct e as [[] ?]; done. }
    exists g. split; [|done]. apply elem_of_thread. rewrite Hmine, Hsplit. set_solver.
Qed.

(** C19 A task runs at most once.  Take any history in which any number of operations
    run concurrently with each other and with everything else, finished or not, and
    in which the bulletin board let at most one [StartTask] of a task take effect.
    Then the operations ask the executor to run the task's container at most once,
    however many of them are for it. *)
Theorem task_runs_at_most_once (ops : list Operation) (tr : shared reply) guid :
  (∀ i o, ops !! i = Some o → in_progress lrps (NewTaskProcessor cellID) o (of_thread i tr)) →
  is_task_container guid tr.*2 → Forall as_asked tr.*2 →
  length (filter (λ x, starts_task guid x.2 = true) tr) ≤ 1 →
  length (filter (λ x, x.1 < length ops ∧ runs guid x.2 = true) tr) ≤ 1.
Proof.
  intros Hprog Htask Hasked Hone.
  assert (∀ i e, (i, e) ∈ filter (λ x, x.1 < length ops ∧ runs guid x.2 = true) tr →
    ∃ o, ops !! i = Some o ∧ Key o = guid ∧ (i, e) ∈ tr ∧ is_run e = true) as Hrun.
  { intros i e [[Hi Hr] Hin]%list_elem_of_filter. simpl in *. destruct (lookup_lt_is_Some_2 _ _ Hi) as [o Ho].
    exists o. split_and!; [done| |done|by eapply runs_is_run]. symmetry.
    eapply (mutates_own lrps (NewTaskProcessor cellID) ops tr i e o guid); [done..|].
    unfold runs in Hr. destruct e as [[] ?]; try done. simpl in *. by rewrite (bool_decide_eq_true_1 _ Hr). }
  destruct (filter (λ x, x.1 < length ops ∧ runs guid x.2 = true) tr) as [|[i1 e1] [|[i2 e2] l]] eqn:Hf; simpl; [lia..|]. exfalso.
  destruct (Hrun i1 e1) as (o1 & Ho1 & Hk1 & Hin1 & Hr1); [by left|].
  destruct (Hrun i2 e2) as (o2 & Ho2 & Hk2 & Hin2 & Hr2); [by right; left|].
  destruct (task_thread_runs ops i1 o1 tr) as [Hs1 Hn1]; [auto|by rewrite Hk1|done|].
  destruct (decide (i1 = i2)) as [->|Hne].
  - assert (2 ≤ length (filter (λ x, x.1 = i2 ∧ is_run x.2 = true) tr)) as Htwo.
    { etrans; [|apply (filter_twice (λ x, x.1 < length ops ∧ runs guid x.2 = true))].
      rewrite Hf, !filter_cons, !decide_True by done. simpl. lia. }
    pose proof (of_thread_filter (λ e, is_run e = true) i2 tr). lia.
  - destruct (task_thread_runs ops i2 o2 tr) as [Hs2 _]; [auto|by rewrite Hk2|done|].
    destruct (Hs1 _ Hin1 Hr1) as (g1 & Hg1 & Hst1), (Hs2 _ Hin2 Hr2) as (g2 & Hg2 & Hst2).
    rewrite Hk1 in Hst1. rewrite Hk2 in Hst2.
    pose proof (filter_two (λ x, starts_task guid x.2 = true) tr (i1, g1) (i2, g2) Hg1 Hg2) as Htwo.
    assert (2 ≤ 1); [|lia]. etrans; [apply Htwo; [congruence|done..]|done].
Qed.

End once.

#[local] Existing Instance example_models.

(** A bulletin board that lets the first [StartTask] take effect, and an executor
    with one container; the state says whether the task was started. *)
Definition start_once_env (container : Container) (c : call) (begun : bool) : reply c * bool :=
  match c return reply c * bool with
  | StartTask _ _ => ((negb begun, None), true)
  | c => ((one_container_env container c tt).1, begun)
  end.

Lemma start_once_as_asked container c s : as_asked (existT c (start_once_env container c s).1).
Proof. destruct c; try apply (one_container_as_asked container); done. Qed.

(** Two operations on the same task's container, call by call in turns. *)
Definition example_two_operations : shared reply * list (rep unit) * bool :=
  schedule (start_once_env (example_task_container StateReserved)) (concat (replicate 7 [0; 1]))
    (example_Execute <$> [ContainerOperation "task-guid"; ContainerOperation "task-guid"]) false.

Lemma task_runs_at_most_once_witness :
  let tr := example_two_operations.1.1 in
  finished example_two_operations.1.2 = true ∧
  (λ x, (x.1, projT1 x.2)) <$> filter (λ x, is_run x.2 = false) tr =
    [(0, GetContainer "task-guid"); (1, GetContainer "task-guid"); (0, StartTask "task-guid" "cell");
     (1, StartTask "task-guid" "cell"); (0, TaskByGuid "task-guid")] ∧
  existsb (λ x, runs "task-guid" x.2) tr = true ∧
  length (filter (λ x, x.1 < 2 ∧ runs "task-guid" x.2 = true) tr) ≤ 1.
Proof.
  intros tr. do 3 (split; [vm_compute; reflexivity|]).
  pose proof (schedule_in_progress (NewLRPProcessor "cell" 600) (NewTaskProcessor "cell")
    (start_once_env (example_task_container StateReserved)) [ContainerOperation "task-guid"; ContainerOperation "task-guid"]
    (concat (replicate 7 [0; 1])) false (start_once_as_asked _)) as Hsched.
  change (schedule _ _ _ _) with example_two_operations in Hsched.
  assert (existsb (λ c, bool_decide (tag (Container_Tags c) LifecycleTag ≠ TaskLifecycle))
    (omap (λ e : event reply, match e with existT c r => match c return reply c → option Container with
       | GetContainer _ => λ r, match r with Ok c => Some c | Err _ => None end | _ => λ _, None end r end) tr.*2) = false)
    as Htags by (vm_compute; reflexivity).
  apply (task_runs_at_most_once (NewLRPProcessor "cell" 600) "cell"
    [ContainerOperation "task-guid"; ContainerOperation "task-guid"] tr "task-guid").
  - unfold tr. destruct example_two_operations as [[t l] u]. exact (proj1 Hsched).
  - intros c Hc. destruct (decide (tag (Container_Tags c) LifecycleTag = TaskLifecycle)) as [|Hne]; [done|].
    exfalso. eapply eq_true_false_abs, Htags. apply existsb_exists. exists c.
    split; [|by apply bool_decide_eq_true]. by apply list_elem_of_In, list_elem_of_omap; eexists; split; [exact Hc|].
  - unfold tr. destruct example_two_operations as [[t l] u]. exact (proj2 Hsched).
  - vm_compute. lia.
Defined.
