(* ===== verification/Generator.v ===== *)
(** generator/generator.go: the operations for everything on the cell and on the
    bulletin board, and the stream of operations for container events.

    [BatchOperations] starts three goroutines; each makes one call, fills its own
    maps and sends its error.  The model is parameterised by the order in which
    the calls are made and the order in which the errors arrive, and by the order
    in which each map is ranged over. *)

From S2P Require Import Prelude GoInt GoStrings GoUrl GoJson Effects Services Conversion ContainerDelegate.
From S2P Require Import OrdinaryLRPProcessor EvacuationLRPProcessor TaskProcessor LRPProcessor Operation.

Notation batch := (gmap string Operation).

Section generator.
Context `{Models}.

(** ** The three goroutines *)
Inductive goroutine := ListingContainers | ListingLRPs | ListingTasks.

#[global] Instance goroutine_eq_dec : EqDecision goroutine.
Proof. solve_decision. Defined.

Definition goroutines : list goroutine := [ListingContainers; ListingLRPs; ListingTasks].

(** The variables the goroutines write; [errs] is what each one sends on [errChan]. *)
Record fetched := mk_fetched {
  containers : gmap string Container;
  instanceLRPs : gmap string ActualLRP;
  evacuatingLRPs : gmap string ActualLRP;
  tasks : gmap string models_Task;
  errs : goroutine → option error }.

Definition nothing_fetched : fetched := mk_fetched ∅ ∅ ∅ ∅ (λ _, None).

Definition send (g : goroutine) (e : error) (errs : goroutine → option error) : goroutine → option error :=
  λ g', if bool_decide (g' = g) then Some e else errs g'.

Definition lrp_guid (lrp : ActualLRP) : string :=
  LRPContainerGuid (ProcessGuid (lrp_key lrp)) (InstanceGuid (lrp_instance_key lrp)).

(** [for _, x := range l { m[key(x)] = x }] *)
Definition index_by {A} (key : A → string) (l : list A) (m : gmap string A) : gmap string A :=
  foldl (λ m x, <[key x := x]> m) m l.

Definition add_group (maps : gmap string ActualLRP * gmap string ActualLRP) (group : ActualLRPGroup) :
    gmap string ActualLRP * gmap string ActualLRP :=
  let '(instances, evacuating) := maps in
  (match Instance_ group with Some lrp => <[lrp_guid lrp := lrp]> instances | None => instances end,
   match Evacuating_ group with Some lrp => <[lrp_guid lrp := lrp]> evacuating | None => evacuating end).

Definition fetch (cellID : string) (g : goroutine) (f : fetched) : rep fetched :=
  match g with
  | ListingContainers =>
      Do ListContainers (λ found, match found with
      | Err err => Ret (mk_fetched (containers f) (instanceLRPs f) (evacuatingLRPs f) (tasks f)
                          (send g (fmt_Errorf "failed to list containers: " err) (errs f)))
      | Ok found => Ret (mk_fetched (index_by Guid found (containers f))
                           (instanceLRPs f) (evacuatingLRPs f) (tasks f) (errs f))
      end)
  | ListingLRPs =>
      Do (ActualLRPGroups cellID) (λ groups, match groups with
      | Err err => Ret (mk_fetched (containers f) (instanceLRPs f) (evacuatingLRPs f) (tasks f)
                          (send g (fmt_Errorf "failed to retrieve lrps: " err) (errs f)))
      | Ok groups =>
          let '(instances, evacuating) := foldl add_group (instanceLRPs f, evacuatingLRPs f) groups in
          Ret (mk_fetched (containers f) instances evacuating (tasks f) (errs f))
      end)
  | ListingTasks =>
      Do (TasksByCellID cellID) (λ found, match found with
      | Err err => Ret (mk_fetched (containers f) (instanceLRPs f) (evacuatingLRPs f) (tasks f)
                          (send g (fmt_Errorf "failed to retrieve tasks: " err) (errs f)))
      | Ok found => Ret (mk_fetched (containers f) (instanceLRPs f) (evacuatingLRPs f)
                           (index_by t_TaskGuid found (tasks f)) (errs f))
      end)
  end.

Fixpoint fetch_all (cellID : string) (order : list goroutine) (f : fetched) : rep fetched :=
  match order with
  | [] => Ret f
  | g :: order => let* f := fetch cellID g f in fetch_all cellID order f
  end.

(** [for i := 0; i < 3; i++ { e := <-errChan; if err == nil && e != nil { err = e } }] *)
Definition receive_errors (arrival : list goroutine) (errs : goroutine → option error) : option error :=
  foldl (λ err g, match err, errs g with None, Some e => Some e | _, _ => err end) None arrival.

(** ** The batch *)
Definition operationFromContainer (guid : string) : Operation := NewContainerOperation guid.

Definition add_container (b : batch) (entry : string * Container) : batch :=
  <[entry.1 := operationFromContainer entry.1]> b.

Definition add_instance (evacuating : gmap string ActualLRP) (b : batch) (entry : string * ActualLRP) : batch :=
  let '(guid, lrp) := entry in
  match b !! guid with
  | Some _ => b
  | None =>
      match evacuating !! guid with
      | Some _ => <[guid := NewResidualJointLRPOperation (lrp_key lrp) (lrp_instance_key lrp)]> b
      | None => <[guid := NewResidualInstanceLRPOperation (lrp_key lrp) (lrp_instance_key lrp)]> b
      end
  end.

Definition add_evacuating (b : batch) (entry : string * ActualLRP) : batch :=
  let '(guid, lrp) := entry in
  match b !! guid with
  | Some _ => b
  | None => <[guid := NewResidualEvacuatingLRPOperation (lrp_key lrp) (lrp_instance_key lrp)]> b
  end.

Definition add_task (b : batch) (entry : string * models_Task) : batch :=
  match b !! entry.1 with
  | Some _ => b
  | None => <[entry.1 := NewResidualTaskOperation entry.1]> b
  end.

(** The order in which each of the four loops sees its map. *)
Record iteration := mk_iteration {
  it_containers : gmap string Container → list (string * Container);
  it_instances : gmap string ActualLRP → list (string * ActualLRP);
  it_evacuating : gmap string ActualLRP → list (string * ActualLRP);
  it_tasks : gmap string models_Task → list (string * models_Task) }.

Definition fair (it : iteration) : Prop :=
  (∀ m, iteration_of m (it_containers it m)) ∧ (∀ m, iteration_of m (it_instances it m)) ∧
  (∀ m, iteration_of m (it_evacuating it m)) ∧ (∀ m, iteration_of m (it_tasks it m)).

Definition make_batch (it : iteration) (f : fetched) : batch :=
  let b := foldl add_container ∅ (it_containers it (containers f)) in
  let b := foldl (add_instance (evacuatingLRPs f)) b (it_instances it (instanceLRPs f)) in
  let b := foldl add_evacuating b (it_evacuating it (evacuatingLRPs f)) in
  foldl add_task b (it_tasks it (tasks f)).

Definition BatchOperations (cellID : string) (order arrival : list goroutine) (it : iteration) : rep (res batch) :=
  let* f := fetch_all cellID order nothing_fetched in
  match receive_errors arrival (errs f) with
  | Some err => Ret (Err err)
  | None => Ret (Ok (make_batch it f))
  end.

(** ** The stream *)
Inductive executor_event := LifecycleEvent (container : Container) | OtherEvent.

(** What the goroutine of [OperationStream] does with the channel and the source. *)
Inductive stream_action := SendOp (o : Operation) | CloseOpChan | CloseEvents.

(** [events] are the events [Next] returns before its error. *)
Fixpoint stream_loop (events : list executor_event) : list stream_action :=
  match events with
  | [] => [CloseOpChan; CloseEvents]
  | LifecycleEvent container :: events => SendOp (operationFromContainer (Guid container)) :: stream_loop events
  | OtherEvent :: events => stream_loop events
  end.

Definition OperationStream (subscription : res (list executor_event)) : res (list stream_action) :=
  match subscription with
  | Err err => Err err
  | Ok events => Ok (stream_loop events)
  end.

End generator.

Section generator_facts.
Context `{Models}.

(** ** What the batch should hold *)

(** The last element of [l] with the given key. *)
Definition find_last {A} (key : A → string) (l : list A) (guid : string) : option A :=
  last (filter (λ x, key x = guid) l).

(** A container gets its operation; without one, an actual LRP recorded here gets
    the residual operation for the records it has; without either, a task. *)
Definition operation_for (cs : list Container) (gs : list ActualLRPGroup) (ts : list models_Task)
    (guid : string) : option Operation :=
  match find_last Guid cs guid with
  | Some _ => Some (ContainerOperation guid)
  | None =>
      match find_last lrp_guid (omap Instance_ gs) guid, find_last lrp_guid (omap Evacuating_ gs) guid with
      | Some lrp, Some _ => Some (ResidualJointLRPOperation (lrp_key lrp) (lrp_instance_key lrp))
      | Some lrp, None => Some (ResidualInstanceLRPOperation (lrp_key lrp) (lrp_instance_key lrp))
      | None, Some lrp => Some (ResidualEvacuatingLRPOperation (lrp_key lrp) (lrp_instance_key lrp))
      | None, None =>
          match find_last t_TaskGuid ts guid with
          | Some _ => Some (ResidualTaskOperation guid)
          | None => None
          end
      end
  end.

(** The errors the three calls can contribute. *)
Definition failures (cs : res (list Container)) (gs : res (list ActualLRPGroup)) (ts : res (list models_Task)) :
    list error :=
  match cs with Err e => [fmt_Errorf "failed to list containers: " e] | Ok _ => [] end ++
  match gs with Err e => [fmt_Errorf "failed to retrieve lrps: " e] | Ok _ => [] end ++
  match ts with Err e => [fmt_Errorf "failed to retrieve tasks: " e] | Ok _ => [] end.

(** ** The maps *)
Lemma find_last_cons {A} (key : A → string) x l guid :
  find_last key (x :: l) guid =
    match find_last key l guid with
    | Some y => Some y
    | None => if bool_decide (key x = guid) then Some x else None
    end.
Proof.
  unfold find_last. rewrite filter_cons. case_bool_decide; [rewrite decide_True by done|rewrite decide_False by done].
  - rewrite last_cons. by destruct (last _).
  - by destruct (last _).
Qed.

Lemma find_last_Some {A} (key : A → string) l guid x :
  find_last key l guid = Some x → x ∈ l ∧ key x = guid.
Proof.
  unfold find_last. intros Hx. apply last_Some_elem_of in Hx. by apply list_elem_of_filter in Hx as [? ?].
Qed.

Lemma find_last_None {A} (key : A → string) l guid :
  find_last key l guid = None ↔ ∀ x, x ∈ l → key x ≠ guid.
Proof.
  unfold find_last. rewrite last_None. split.
  - intros Hf x Hx Hk. assert (x ∈ filter (λ x, key x = guid) l) as Hin by by apply list_elem_of_filter.
    rewrite Hf in Hin. by apply elem_of_nil in Hin.
  - intros Hno. destruct (filter _ l) as [|x l'] eqn:Hf; [done|].
    assert (x ∈ filter (λ x, key x = guid) l) as [Hk Hx]%list_elem_of_filter by (rewrite Hf; set_solver).
    by apply Hno in Hx.
Qed.

Lemma index_by_lookup {A} (key : A → string) l m guid :
  index_by key l m !! guid = match find_last key l guid with Some x => Some x | None => m !! guid end.
Proof.
  revert m. induction l as [|x l IH]; intros m; simpl; [done|].
  unfold index_by in *. simpl. rewrite IH, find_last_cons.
  destruct (find_last key l guid); [done|]. case_bool_decide; simplify_map_eq; done.
Qed.

Lemma add_groups_index gs i e :
  foldl add_group (i, e) gs =
    (index_by lrp_guid (omap Instance_ gs) i, index_by lrp_guid (omap Evacuating_ gs) e).
Proof.
  revert i e. induction gs as [|g gs IH]; intros i e; [done|]. cbn [foldl add_group].
  rewrite IH. cbn. by destruct (Instance_ g), (Evacuating_ g).
Qed.

(** ** The loops over the maps, in any order *)
Lemma iteration_map {V} (m : gmap string V) l : iteration_of m l → list_to_map l = m.
Proof.
  intros Hl. rewrite <-(list_to_map_to_list m). symmetry. apply list_to_map_proper; [|by symmetry].
  apply NoDup_fst_map_to_list.
Qed.

Lemma add_missing_lookup {V} (step : batch → string * V → batch) (f : string → V → Operation) :
  (∀ b k v, step b (k, v) = match b !! k with Some _ => b | None => <[k := f k v]> b end) →
  ∀ m l b guid, iteration_of m l →
    foldl step b l !! guid = match b !! guid with Some o => Some o | None => f guid <$> m !! guid end.
Proof.
  intros Hstep m l b guid <-%iteration_map. revert b.
  induction l as [|[k v] l IH]; intros b; simpl; [by destruct (b !! guid)|].
  rewrite IH, Hstep. destruct (b !! k) as [o|] eqn:Hk.
  - destruct (b !! guid) eqn:Hg; [done|]. assert (k ≠ guid) by congruence. by rewrite lookup_insert_ne.
  - destruct (decide (k = guid)) as [->|Hne].
    + by rewrite Hk, !lookup_insert_eq.
    + by rewrite !lookup_insert_ne.
Qed.

Lemma add_containers_lookup m l guid :
  iteration_of m l → foldl add_container ∅ l !! guid = (λ _, ContainerOperation guid) <$> m !! guid.
Proof.
  intros <-%iteration_map.
  enough (∀ b : batch, foldl add_container b l !! guid =
    match (list_to_map l : gmap string Container) !! guid with
    | Some _ => Some (ContainerOperation guid) | None => b !! guid end) as -> by by destruct (list_to_map l !! guid).
  induction l as [|[k c] l IH]; intros b; simpl; [done|]. rewrite IH. unfold add_container. simpl.
  destruct (decide (k = guid)) as [->|Hne]; [|by rewrite !lookup_insert_ne].
  rewrite !lookup_insert_eq. by destruct (list_to_map l !! guid).
Qed.

(** The three maps of a successful round decide the batch. *)
Lemma make_batch_lookup it f guid :
  fair it →
  make_batch it f !! guid =
    match containers f !! guid with
    | Some _ => Some (ContainerOperation guid)
    | None =>
        match instanceLRPs f !! guid, evacuatingLRPs f !! guid with
        | Some lrp, Some _ => Some (ResidualJointLRPOperation (lrp_key lrp) (lrp_instance_key lrp))
        | Some lrp, None => Some (ResidualInstanceLRPOperation (lrp_key lrp) (lrp_instance_key lrp))
        | None, Some lrp => Some (ResidualEvacuatingLRPOperation (lrp_key lrp) (lrp_instance_key lrp))
        | None, None => (λ _, ResidualTaskOperation guid) <$> tasks f !! guid
        end
    end.
Proof.
  intros (Hc & Hi & He & Ht). unfold make_batch.
  erewrite (add_missing_lookup _ (λ k _, ResidualTaskOperation k)); [|done|apply Ht].
  erewrite (add_missing_lookup _ (λ _ lrp, ResidualEvacuatingLRPOperation (lrp_key lrp) (lrp_instance_key lrp)));
    [|done|apply He].
  erewrite (add_missing_lookup _ (λ k lrp, match evacuatingLRPs f !! k with
      | Some _ => ResidualJointLRPOperation (lrp_key lrp) (lrp_instance_key lrp)
      | None => ResidualInstanceLRPOperation (lrp_key lrp) (lrp_instance_key lrp) end)); [| |apply Hi].
  2: { intros b k v. simpl. by destruct (b !! k), (evacuatingLRPs f !! k). }
  erewrite add_containers_lookup by apply Hc.
  by destruct (containers f !! guid), (instanceLRPs f !! guid), (evacuatingLRPs f !! guid).
Qed.

(** ** The goroutines, in any order *)
Definition all_fetched (cs : res (list Container)) (gs : res (list ActualLRPGroup)) (ts : res (list models_Task))
    (f : fetched) : Prop :=
  containers f = match cs with Ok l => index_by Guid l ∅ | Err _ => ∅ end ∧
  (instanceLRPs f, evacuatingLRPs f) = match gs with Ok l => foldl add_group (∅, ∅) l | Err _ => (∅, ∅) end ∧
  tasks f = match ts with Ok l => index_by t_TaskGuid l ∅ | Err _ => ∅ end ∧
  omap (errs f) goroutines = failures cs gs ts.

Lemma fetch_all_exec cellID order tr f :
  order ≡ₚ goroutines → exec (fetch_all cellID order nothing_fetched) tr f →
  ∃ cs gs ts,
    tr ≡ₚ [ev ListContainers cs; ev (ActualLRPGroups cellID) gs; ev (TasksByCellID cellID) ts] ∧
    all_fetched cs gs ts f.
Proof.
  intros Ho Hex. symmetry in Ho. apply permutations_Permutation in Ho.
  revert tr f Hex. apply wp_exec. unfold nothing_fetched.
  repeat (apply elem_of_cons in Ho as [->|Ho]; [|]); [..|by apply elem_of_nil in Ho];
    cbn [fetch_all fetch wp prog_bind]; intros r1; destruct r1; wp_simpl;
    repeat match goal with |- context [foldl add_group ?p ?l] => destruct (foldl add_group p l) eqn:? end;
    wp_simpl; intros r2; destruct r2; wp_simpl;
    repeat match goal with |- context [foldl add_group ?p ?l] => destruct (foldl add_group p l) eqn:? end;
    wp_simpl; intros r3; destruct r3; wp_simpl;
    repeat match goal with |- context [foldl add_group ?p ?l] => destruct (foldl add_group p l) eqn:? end;
    wp_simpl.
  all: eexists _, _, _; (split; [solve_Permutation|]).
  all: unfold all_fetched; simpl; split_and!; try done.
Qed.

Lemma receive_errors_spec arrival errs :
  arrival ≡ₚ goroutines →
  match receive_errors arrival errs with
  | Some e => e ∈ omap errs goroutines
  | None => omap errs goroutines = []
  end.
Proof.
  intros Hp. enough (receive_errors arrival errs = head (omap errs arrival)) as ->.
  - assert (omap errs arrival ≡ₚ omap errs goroutines) as Ho by by rewrite Hp.
    destruct (omap errs arrival) as [|e l]; simpl; [by apply Permutation_nil_l in Ho|].
    rewrite <-Ho. set_solver.
  - unfold receive_errors. clear Hp.
    assert (∀ e, foldl (λ err g, match err, errs g with None, Some e => Some e | _, _ => err end) (Some e) arrival
                 = Some e) as Hs by (induction arrival; [done|]; intros e; simpl; done).
    induction arrival as [|g arrival IH]; [done|]. cbn.
    destruct (errs g) as [e|] eqn:Hg; [apply Hs|].
    apply IH. intros e. specialize (Hs e). simpl in Hs. done.
Qed.

(** ** What [operation_for] prescribes *)
Lemma operation_for_key cs gs ts guid o :
  operation_for cs gs ts guid = Some o →
  Key o = guid ∧ (residual o = true → ∀ c, c ∈ cs → Guid c ≠ guid).
Proof.
  unfold operation_for.
  destruct (find_last Guid cs guid) eqn:Hc; [by intros [= <-]|]. rewrite find_last_None in Hc.
  destruct (find_last lrp_guid (omap Instance_ gs) guid) as [i|] eqn:Hi,
    (find_last lrp_guid (omap Evacuating_ gs) guid) as [e|] eqn:He;
    repeat match goal with H : find_last _ _ _ = Some _ |- _ => apply find_last_Some in H as [_ H] end;
    [by intros [= <-]..|]. destruct (find_last t_TaskGuid ts guid); [|done]. by intros [= <-].
Qed.

Lemma find_last_is_Some {A} (key : A → string) l guid :
  is_Some (find_last key l guid) ↔ ∃ x, x ∈ l ∧ key x = guid.
Proof.
  destruct (find_last key l guid) as [x|] eqn:Hx.
  - apply find_last_Some in Hx. split; eauto.
  - rewrite find_last_None in Hx. split; [by intros [? ?]|]. intros (y & Hy & Hk). by apply Hx in Hy.
Qed.

Lemma operation_for_is_Some cs gs ts guid :
  is_Some (operation_for cs gs ts guid) ↔
    (∃ c, c ∈ cs ∧ Guid c = guid) ∨
    (∃ g lrp, g ∈ gs ∧ (Instance_ g = Some lrp ∨ Evacuating_ g = Some lrp) ∧
       InstanceGuid (lrp_instance_key lrp) = guid) ∨
    (∃ t, t ∈ ts ∧ t_TaskGuid t = guid).
Proof.
  assert (is_Some (operation_for cs gs ts guid) ↔
    is_Some (find_last Guid cs guid) ∨
    (is_Some (find_last lrp_guid (omap Instance_ gs) guid) ∨
     is_Some (find_last lrp_guid (omap Evacuating_ gs) guid)) ∨
    is_Some (find_last t_TaskGuid ts guid)) as ->.
  { unfold operation_for. rewrite !is_Some_alt. repeat case_match; naive_solver. }
  rewrite !find_last_is_Some. setoid_rewrite list_elem_of_omap. unfold lrp_guid, LRPContainerGuid.
  naive_solver.
Qed.

Lemma BatchOperations_exec cellID order arrival it tr r :
  order ≡ₚ goroutines → arrival ≡ₚ goroutines → fair it →
  exec (BatchOperations cellID order arrival it) tr r →
  ∃ cs gs ts,
    tr ≡ₚ [ev ListContainers cs; ev (ActualLRPGroups cellID) gs; ev (TasksByCellID cellID) ts] ∧
    match cs, gs, ts with
    | Ok cs, Ok gs, Ok ts => ∃ b, r = Ok b ∧ ∀ guid, b !! guid = operation_for cs gs ts guid
    | _, _, _ => ∃ err, r = Err err ∧ err ∈ failures cs gs ts
    end.
Proof.
  intros Ho Ha Hit Hex. unfold BatchOperations in Hex. rewrite exec_bind in Hex.
  destruct Hex as (tr1 & f & tr2 & -> & Hf & Hr).
  destruct (fetch_all_exec _ _ _ _ Ho Hf) as (cs & gs & ts & Htr & Hc & Hg & Ht & He).
  exists cs, gs, ts. pose proof (receive_errors_spec arrival (errs f) Ha) as Herr. rewrite He in Herr.
  destruct (receive_errors arrival (errs f)) as [err|]; destruct Hr as [-> ->]; rewrite app_nil_r.
  - split; [done|]. destruct cs, gs, ts; eauto; simpl in Herr; by apply elem_of_nil in Herr.
  - split; [done|]. destruct cs as [cs|], gs as [gs|], ts as [ts|]; try done. eexists. split; [done|]. intros guid.
    rewrite make_batch_lookup, Hc, Ht by done. rewrite add_groups_index in Hg. injection Hg as -> ->.
    rewrite !index_by_lookup, !lookup_empty. unfold operation_for.
    destruct (find_last Guid cs guid), (find_last lrp_guid (omap Instance_ gs) guid),
      (find_last lrp_guid (omap Evacuating_ gs) guid), (find_last t_TaskGuid ts guid); done.
Qed.

(** C4 The batch is right whatever the schedule: for every order of the three
    concurrent calls, of the arrival of their errors and of the iterations over
    the maps, the generator makes exactly the three calls; if all succeed, the
    batch holds for every guid the operation prescribed by [operation_for]
    (containers before actual LRPs before tasks, both records of an instance
    together); if any fails, no batch is made and the error is one of theirs. *)
Theorem BatchOperations_spec cellID order arrival it tr r :
  order ≡ₚ goroutines → arrival ≡ₚ goroutines → fair it →
  exec (BatchOperations cellID order arrival it) tr r →
  ∃ cs gs ts,
    tr ≡ₚ [ev ListContainers cs; ev (ActualLRPGroups cellID) gs; ev (TasksByCellID cellID) ts] ∧
    match cs, gs, ts with
    | Ok cs, Ok gs, Ok ts => ∃ b, r = Ok b ∧ ∀ guid, b !! guid = operation_for cs gs ts guid
    | _, _, _ => ∃ err, r = Err err ∧ err ∈ failures cs gs ts
    end.
Proof. apply BatchOperations_exec. Qed.

(** Nothing is forgotten and nothing is queued under a wrong name: an operation
    of the batch has the key it is stored under, so the queue serialises it with
    the others about that container; a guid has an operation exactly when a
    container, an actual LRP of this cell or a task of this cell has it; and it has
    a residual operation only if the executor listed no container under it. *)
Theorem batch_covers_the_cell cellID order arrival it tr b :
  order ≡ₚ goroutines → arrival ≡ₚ goroutines → fair it →
  exec (BatchOperations cellID order arrival it) tr (Ok b) →
  ∃ cs gs ts,
    ev ListContainers (Ok cs) ∈ tr ∧ ev (ActualLRPGroups cellID) (Ok gs) ∈ tr ∧ ev (TasksByCellID cellID) (Ok ts) ∈ tr ∧
    (∀ guid o, b !! guid = Some o → Key o = guid ∧ (residual o = true → ∀ c, c ∈ cs → Guid c ≠ guid)) ∧
    (∀ guid, is_Some (b !! guid) ↔
       (∃ c, c ∈ cs ∧ Guid c = guid) ∨
       (∃ g lrp, g ∈ gs ∧ (Instance_ g = Some lrp ∨ Evacuating_ g = Some lrp) ∧
          InstanceGuid (lrp_instance_key lrp) = guid) ∨
       (∃ t, t ∈ ts ∧ t_TaskGuid t = guid)).
Proof.
  intros Ho Ha Hit Hex. apply BatchOperations_exec in Hex as (cs & gs & ts & Htr & Hr); [|done..].
  destruct cs as [cs|], gs as [gs|], ts as [ts|]; try (destruct Hr as (? & ? & _); done).
  destruct Hr as (b' & [= <-] & Hb). exists cs, gs, ts. rewrite !Htr. split_and!; [set_solver..| |].
  - intros guid o. rewrite Hb. apply operation_for_key.
  - intros guid. rewrite Hb. apply operation_for_is_Some.
Qed.

End generator_facts.

(** The stream forwards every lifecycle event, in order, and closes its channel
    and then the event source when the source ends. *)
Lemma OperationStream_spec `{Models} events :
  OperationStream (Ok events) =
    Ok ((SendOp <$> (ContainerOperation <$>
           omap (λ e, match e with LifecycleEvent c => Some (Guid c) | OtherEvent => None end) events))
        ++ [CloseOpChan; CloseEvents]).
Proof.
  unfold OperationStream. f_equal. induction events as [|[c|] events IH]; cbn; [done| |exact IH].
  by rewrite IH.
Qed.

(** ** Witnesses *)
#[local] Existing Instance example_models.

Definition map_order : iteration := mk_iteration map_to_list map_to_list map_to_list map_to_list.

Lemma map_order_fair : fair map_order.
Proof. split_and!; intros m; unfold iteration_of; reflexivity. Qed.

(** A container, an instance that lost its container and is recorded as evacuating
    too, and a task without a container. *)
Definition cell_env (c : call) (u : unit) : reply c * unit :=
  (match c return reply c with
   | ListContainers => Ok [example_container StateRunning]
   | ActualLRPGroups _ =>
       let lrp := mkActualLRP (mkActualLRPKey "process-guid" 3 "domain") (mkActualLRPInstanceKey "lost" "cell") in
       Ok [mkActualLRPGroup (Some lrp) (Some lrp)]
   | TasksByCellID _ =>
       Ok [mk_models_Task "task-guid" "" "" 0 false "" "" "" [] None [] [] "" [] None None "" ""]
   | c => quiet c
   end, u).

Lemma BatchOperations_spec_witness :
  let order := [ListingTasks; ListingContainers; ListingLRPs] in
  let p := BatchOperations "cell" order goroutines map_order in
  (∃ b, (run cell_env p tt).1.2 = Ok b ∧
     b !! "lost" = Some (ResidualJointLRPOperation (mkActualLRPKey "process-guid" 3 "domain")
                           (mkActualLRPInstanceKey "lost" "cell"))) ∧
  ∃ cs gs ts, (run cell_env p tt).1.1 ≡ₚ
    [ev ListContainers cs; ev (ActualLRPGroups "cell") gs; ev (TasksByCellID "cell") ts].
Proof.
  intros order p. split.
  { assert (match (run cell_env p tt).1.2 with
            | Ok b => b !! "lost" = Some (ResidualJointLRPOperation (mkActualLRPKey "process-guid" 3 "domain")
                                            (mkActualLRPInstanceKey "lost" "cell"))
            | Err _ => False end) as Hb by (vm_compute; reflexivity).
    destruct ((run cell_env p tt).1.2) as [b|]; [exists b; split; [reflexivity|exact Hb] | destruct Hb]. }
  destruct (BatchOperations_spec "cell" order goroutines map_order _ _ ltac:(unfold goroutines; solve_Permutation)
    (Permutation_refl _) map_order_fair (run_exec cell_env p tt)) as (cs & gs & ts & Htr & _).
  exists cs, gs, ts. exact Htr.
Defined.

Lemma batch_covers_the_cell_witness :
  ∃ b tr, exec (BatchOperations "cell" goroutines goroutines map_order) tr (Ok b) ∧
    is_Some (b !! "task-guid") ∧ ∀ guid o, b !! guid = Some o → Key o = guid.
Proof.
  eexists _, _. split; [exact (run_exec cell_env (BatchOperations "cell" goroutines goroutines map_order) tt)|].
  split; [eexists; vm_compute; reflexivity|].
  destruct (batch_covers_the_cell "cell" goroutines goroutines map_order _ _ (Permutation_refl _) (Permutation_refl _)
    map_order_fair (run_exec cell_env (BatchOperations "cell" goroutines goroutines map_order) tt))
    as (cs & gs & ts & _ & _ & _ & Hkey & _).
  intros guid o Ho. exact (proj1 (Hkey guid o Ho)).
Defined.
