(* ===== verification/EvacuationContext.v ===== *)
(** evacuation/evacuation_context/evacuation_context.go: the evacuation flag.

    The flag is a channel that is closed once; any number of goroutines call
    [Evacuate], [Evacuating] and [EvacuateNotify] concurrently.  Closing a closed
    channel panics, so [Evacuate] tests and closes under a mutex.  The model is a
    transition system whose steps are the atomic actions of the goroutines. *)

From S2P Require Import Prelude.

(** Where a goroutine is in its call of [Evacuate]. *)
Inductive point := AtLock | AtSelect | AtClose | AtUnlock | Returned | Panicked.

#[global] Instance point_eq_dec : EqDecision point.
Proof. solve_decision. Defined.

(** [evacuated]: whether the channel is closed; [mu]: who holds the mutex; one
    entry of [threads] per call of [Evacuate] so far. *)
Record evacuationContext := mk_evacuationContext {
  evacuated : bool;
  mu : option nat;
  threads : list point }.

Definition New : evacuationContext := mk_evacuationContext false None [].

(** The reporter and the channel handed to the notified: both read the channel. *)
Definition Evacuating (e : evacuationContext) : bool := evacuated e.
Definition EvacuateNotify (e : evacuationContext) : bool := evacuated e.

(** A goroutine calls [Evacuate]. *)
Definition call_Evacuate (e : evacuationContext) : evacuationContext :=
  mk_evacuationContext (evacuated e) (mu e) (threads e ++ [AtLock]).

(** The next atomic action of call [i] of [Evacuate], if it can act: lock, test
    the channel, close it, run the deferred unlock. *)
Definition Evacuate (i : nat) (e : evacuationContext) : option evacuationContext :=
  let goto closed owner p := Some (mk_evacuationContext closed owner (<[i := p]> (threads e))) in
  match threads e !! i with
  | Some AtLock =>
      match mu e with
      | None => goto (evacuated e) (Some i) AtSelect
      | Some _ => None
      end
  | Some AtSelect => if evacuated e then goto (evacuated e) (mu e) AtUnlock
                     else goto (evacuated e) (mu e) AtClose
  | Some AtClose => if evacuated e then goto (evacuated e) (mu e) Panicked
                    else goto true (mu e) AtUnlock
  | Some AtUnlock => goto (evacuated e) None Returned
  | Some Returned | Some Panicked | None => None
  end.

Inductive step : evacuationContext → evacuationContext → Prop :=
| step_call e : step e (call_Evacuate e)
| step_thread e i e' : Evacuate i e = Some e' → step e e'.

(** The invariant: only the owner is between lock and unlock, it closes only an
    open channel, and whoever left the critical section left the channel closed. *)
Definition thread_ok (e : evacuationContext) (i : nat) (p : point) : Prop :=
  match p with
  | AtLock => True
  | AtSelect => mu e = Some i
  | AtClose => mu e = Some i ∧ evacuated e = false
  | AtUnlock => mu e = Some i ∧ evacuated e = true
  | Returned => evacuated e = true
  | Panicked => False
  end.

Definition in_section (p : point) : bool :=
  match p with AtSelect | AtClose | AtUnlock => true | _ => false end.

Definition context_ok (e : evacuationContext) : Prop :=
  (∀ i p, threads e !! i = Some p → thread_ok e i p) ∧
  (∀ i, mu e = Some i → ∃ p, threads e !! i = Some p ∧ in_section p = true).

Lemma New_ok : context_ok New.
Proof. split; [by intros [|i] p|done]. Qed.

Lemma call_ok e : context_ok e → context_ok (call_Evacuate e).
Proof.
  intros [Ht Hm]. split; simpl.
  - intros i p [Hi|[_ ?%list_lookup_singleton_Some]]%lookup_app_Some; [by apply Ht in Hi; destruct p|].
    by naive_solver.
  - intros i Hi. destruct (Hm i Hi) as (p & Hp & ?). exists p. split; [|done].
    by apply lookup_app_l_Some.
Qed.

Lemma Evacuate_ok i e e' : Evacuate i e = Some e' → context_ok e → context_ok e'.
Proof.
  unfold Evacuate. intros Hstep [Ht Hm]. destruct (threads e !! i) as [p|] eqn:Hi; [|done].
  pose proof (Ht i p Hi) as Hp. pose proof (lookup_lt_Some _ _ _ Hi) as Hlt.
  destruct p; simpl in Hp; try done; destruct_and?; repeat case_match; simplify_eq/=; (split; simpl;
  [ intros j q [(-> & <- & _)|[Hne Hj]]%list_lookup_insert_Some; simpl; [naive_solver|];
          pose proof (Ht j q Hj); destruct q; simpl in *; naive_solver congruence
        | intros j Hj; first [done | assert (j = i) as -> by congruence;
          eexists; split; [by apply list_lookup_insert_eq | done]] ]).
Qed.

(** The pending work of a call, in atomic actions. *)
Definition remaining (p : point) : nat :=
  match p with AtLock => 4 | AtSelect => 3 | AtClose => 2 | AtUnlock => 1 | Returned | Panicked => 0 end.

Definition pending (e : evacuationContext) : nat := sum_list (remaining <$> threads e).

Lemma pending_bound e : (pending e ≤ 4 * length (threads e))%nat.
Proof.
  unfold pending. induction (threads e) as [|p l IH]; [done|]. cbn. destruct p; cbn in *; lia.
Qed.

Lemma Evacuate_decreases i e e' : Evacuate i e = Some e' → (pending e' < pending e)%nat.
Proof.
  unfold Evacuate, pending. intros Hs.
  destruct (threads e !! i) as [p|] eqn:Hi; [|done].
  assert (∀ q, remaining q < remaining p →
    sum_list (remaining <$> <[i := q]> (threads e)) < sum_list (remaining <$> threads e)) as Hlt.
  { intros q Hq. rewrite <-(take_drop_middle _ _ _ Hi) at 2.
    rewrite insert_take_drop by by eapply lookup_lt_Some.
    rewrite !fmap_app, !sum_list_with_app. cbn. lia. }
  destruct p; repeat case_match; simplify_eq/=; apply Hlt; simpl; lia.
Qed.

Lemma step_ok e e' : step e e' → context_ok e → context_ok e'.
Proof. destruct 1; eauto using call_ok, Evacuate_ok. Qed.

Lemma reachable_ok e : rtc step New e → context_ok e.
Proof.
  intros Hr. assert (context_ok New) as Hn by apply New_ok. revert Hn.
  induction Hr; eauto using step_ok.
Qed.

Lemma step_monotone e e' : step e e' → Evacuating e = true → Evacuating e' = true.
Proof.
  unfold Evacuating. destruct 1 as [|e i e' Hs]; [done|]. unfold Evacuate in Hs. intros He.
  rewrite He in Hs. repeat case_match; simplify_eq/=; done.
Qed.

(** C15 Evacuating is safe to request concurrently: however the calls of [Evacuate]
    interleave, none panics on the closed channel, a call that returned has set the
    flag, and the flag is never reset. *)
Theorem Evacuate_is_safe e :
  rtc step New e →
  Panicked ∉ threads e ∧
  (Returned ∈ threads e → Evacuating e = true) ∧
  (∀ e', rtc step e e' → Evacuating e = true → Evacuating e' = true).
Proof.
  intros Hr. destruct (reachable_ok e Hr) as [Ht _]. split_and!.
  - intros [i Hi]%list_elem_of_lookup. by apply Ht in Hi.
  - intros [i Hi]%list_elem_of_lookup. by apply Ht in Hi.
  - intros e' Hs. clear -Hs. induction Hs; eauto using step_monotone.
Qed.

(** The calls of [Evacuate] made so far run on, without new ones. *)
Definition run_on (e e' : evacuationContext) : Prop := ∃ i, Evacuate i e = Some e'.

(** C16 Every call of [Evacuate] returns: the mutex never deadlocks.  As long as some
    call has not returned, one of them can act, and each action is one of at most
    four of its call, so every maximal run ends with all calls returned. *)
Theorem Evacuate_always_returns e :
  rtc step New e →
  (Forall (λ p, p = Returned) (threads e) ∨ ∃ e', run_on e e') ∧
  (∀ n e', nsteps run_on n e e' → (n + pending e' ≤ pending e ≤ 4 * length (threads e))%nat).
Proof.
  intros Hr. destruct (reachable_ok e Hr) as [Ht Hm]. split.
  - destruct (decide (Forall (λ p, p = Returned) (threads e))) as [|Hn]; [by left|right].
    apply not_Forall_Exists in Hn; [|apply _]. apply Exists_exists in Hn as (p & [i Hi]%list_elem_of_lookup & Hp).
    enough (∃ j, is_Some (Evacuate j e)) as (j & e' & Hj) by (exists e', j; done).
    unfold Evacuate. destruct (mu e) as [j|] eqn:Hmu.
    + destruct (Hm j eq_refl) as (q & Hq & Hin). exists j. rewrite Hq. by destruct q, (evacuated e).
    + exists i. rewrite Hi. pose proof (Ht i p Hi) as Hok.
      destruct p; simpl in Hok; rewrite ?Hmu in *; naive_solver.
  - assert (∀ n e', nsteps run_on n e e' → (n + pending e' ≤ pending e)%nat) as Hn.
    { clear. induction 1 as [|n x y z [i Hs] _ IH]; [lia|]. apply Evacuate_decreases in Hs. lia. }
    intros n e' Hs. split; [by apply Hn | apply pending_bound].
Qed.

(** ** Witnesses: two concurrent calls, the first one finished *)
Definition two_calls : evacuationContext := mk_evacuationContext true None [Returned; AtLock].

Lemma two_calls_reachable : rtc step New two_calls.
Proof.
  do 2 (eapply rtc_l; [apply step_call|]).
  do 4 (eapply rtc_l; [apply (step_thread _ 0); reflexivity|]). apply rtc_refl.
Qed.

Lemma Evacuate_is_safe_witness : Panicked ∉ threads two_calls ∧ Evacuating two_calls = true.
Proof.
  destruct (Evacuate_is_safe two_calls two_calls_reachable) as (Hp & Hr & _).
  split; [exact Hp|]. apply Hr. by left.
Defined.

Lemma Evacuate_always_returns_witness : ∃ e', run_on two_calls e'.
Proof.
  destruct (Evacuate_always_returns two_calls two_calls_reachable) as [[Hall|Hrun] _]; [|exact Hrun].
  inversion Hall as [|? ? _ Hl]. inversion Hl as [|? ? Hx _]. discriminate Hx.
Defined.
