(* ===== verification/Cleanup.v ===== *)
(** evacuation/cleanup.go: what the rep does when it is told to stop after an
    evacuation: it removes the evacuating records that nobody took over, stops
    the remaining containers and waits for them, for at most [ExitTimeout].

    After the signal, [Run] is sequential up to the two goroutines; these run one
    after the other (the second waits for the first) and race with the exit timer,
    which cuts them off after a number of calls that the environment decides. *)

From S2P Require Import Prelude GoInt GoStrings GoUrl GoJson Effects Services.

Section cleanup.
Context `{Models}.

Definition second : Z := 1000000000.
Definition ExitTimeout : Z := 15 * second.
Definition strandedEvacuatingActualLRPs : string := "StrandedEvacuatingActualLRPs".
Definition ErrCleanupTimeout : error := errors_New "failed-to-cleanup-all-containers".

(** The loop over the groups, counting the stranded ones. *)
Fixpoint remove_stranded (groups : list ActualLRPGroup) (strandedEvacuationCount : Z) : rep Z :=
  match groups with
  | [] => Ret strandedEvacuationCount
  | group :: groups =>
      match Evacuating_ group with
      | None => remove_stranded groups strandedEvacuationCount
      | Some actualLRP =>
          Do (RemoveEvacuatingActualLRP (lrp_key actualLRP) (lrp_instance_key actualLRP)) (λ _,
          remove_stranded groups (int (strandedEvacuationCount + 1)%Z))
      end
  end.

Definition signalRunningContainers : rep unit :=
  Do ListContainers (λ containers, match containers with
  | Err _ => Ret tt
  | Ok containers => for_each containers (λ container, Do (StopContainer (Guid container)) (λ _, Ret tt))
  end).

(** A listing that fails counts as one without running containers. *)
Definition running_in (containers : res (list Container)) : bool :=
  match containers with
  | Err _ => false
  | Ok containers => existsb (λ c, bool_decide (Container_State c = StateRunning)) containers
  end.

Definition hasRunningContainers : rep bool :=
  Do ListContainers (λ containers, Ret (running_in containers)).

(** [true] when the loop ended and closed [containersStopped], [false] when the
    fuel ran out before. *)
Fixpoint checkRunningContainers (fuel : nat) : rep bool :=
  match fuel with
  | 0 => Ret false
  | S fuel =>
      let* running := hasRunningContainers in
      if (running : bool) then Do (WaitTimer second) (λ _, checkRunningContainers fuel)
      else Ret true
  end.

(** [Run] from the signal on; [n] is the number of calls the goroutines get to make
    before the exit timer fires, and [timer_taken] says which case the [select] takes
    when both are ready.  Every round of the checking loop makes a call, so fuel [S n]
    is never used up. *)
Definition EvacuationCleanup_Run (cellID : string) (n : nat) (timer_taken : bool) : rep (option error) :=
  Do (ActualLRPGroups cellID) (λ actualLRPGroups, match actualLRPGroups with
  | Err err => Ret (Some err)
  | Ok groups =>
      let* strandedEvacuationCount := remove_stranded groups 0 in
      Do (SendMetric strandedEvacuatingActualLRPs strandedEvacuationCount) (λ _,
      let* containersStopped :=
        within n (let* _ := signalRunningContainers in checkRunningContainers (S n)) in
      match containersStopped with
      | Some _ => Ret (if timer_taken then Some ErrCleanupTimeout else None)
      | None => Ret (Some ErrCleanupTimeout)
      end)
  end).

(** ** Its parts *)
Lemma remove_stranded_exec groups count tr total :
  is_int count → is_int (count + Z.of_nat (length groups)) →
  exec (remove_stranded groups count) tr total →
  calls tr = (λ lrp, RemoveEvacuatingActualLRP (lrp_key lrp) (lrp_instance_key lrp)) <$> omap Evacuating_ groups ∧
  total = (count + Z.of_nat (length (omap Evacuating_ groups)))%Z.
Proof.
  induction groups as [|g groups IH] in count, tr |- *; simpl; intros Hc Hl.
  { intros [-> ->]. split; [done|lia]. }
  destruct (Evacuating_ g) as [lrp|]; simpl.
  - intros (r & tr' & -> & Hex). assert (is_int (count + 1)%Z) as Hc1 by (unfold is_int in *; lia).
    rewrite int_small in Hex by done. apply IH in Hex as [Htr ->]; [|done|unfold is_int in *; lia].
    split; [cbn; f_equal; exact Htr | unfold omap; lia].
  - apply IH; [done|unfold is_int in *; lia].
Qed.

Lemma signalRunningContainers_exec tr :
  exec signalRunningContainers tr tt →
  ∃ listed rest, tr = ev ListContainers listed :: rest ∧
    calls rest = match listed with Ok cs => (λ c, StopContainer (Guid c)) <$> cs | Err _ => [] end.
Proof.
  intros ([cs|err] & rest & -> & Hex); eexists _, rest; (split; [reflexivity|]).
  - by apply exec_for_each_calls in Hex.
  - by destruct Hex as [-> _].
Qed.

(** The rounds of the checking loop that found a container running. *)
Definition waits (listings : list (list Container)) : trace reply :=
  concat ((λ cs, [ev ListContainers (Ok cs); ev (WaitTimer second) tt]) <$> listings).

Definition none_running (listing : res (list Container)) : Prop :=
  match listing with Ok cs => Forall (λ c, Container_State c ≠ StateRunning) cs | Err _ => True end.

Lemma running_in_false listing : running_in listing = false → none_running listing.
Proof.
  destruct listing as [cs|]; [|done]. simpl. intros Hr. apply Forall_forall. intros c Hc Hs.
  assert (existsb (λ c, bool_decide (Container_State c = StateRunning)) cs = true) as Ht; [|congruence].
  apply existsb_exists. exists c. split; [by apply list_elem_of_In|by apply bool_decide_eq_true].
Qed.

Lemma running_in_true cs : running_in (Ok cs) = true → Exists (λ c, Container_State c = StateRunning) cs.
Proof.
  simpl. rewrite existsb_exists. intros (c & Hc & Hs). apply Exists_exists. exists c.
  split; [by apply list_elem_of_In|by apply bool_decide_eq_true in Hs].
Qed.

Lemma checkRunningContainers_exec fuel tr b :
  exec (checkRunningContainers fuel) tr b →
  if b then ∃ listings last, tr = waits listings ++ [ev ListContainers last] ∧
         Forall (Exists (λ c, Container_State c = StateRunning)) listings ∧ none_running last
  else fuel ≤ length tr.
Proof.
  induction fuel as [|fuel IH] in tr |- *; [by intros [-> ->]|].
  intros (listed & tr' & -> & Hex). cbn in Hex. destruct (running_in listed) eqn:Hr.
  - destruct listed as [cs|]; [|done]. destruct Hex as ([] & tr'' & -> & Hex). apply IH in Hex. destruct b; [|simpl; lia].
    destruct Hex as (ls & last & -> & Hls & Hl). exists (cs :: ls), last. split; [done|].
    split; [|done]. constructor; [by apply running_in_true|done].
  - destruct Hex as [-> ->]. exists [], listed. split; [done|]. split; [constructor|by apply running_in_false].
Qed.

(** C24 Cleaning up after an evacuation: the evacuating records of the cell are
    removed, each once and in order, whatever the replies, and their number is
    reported, before any container is touched; when the records cannot be fetched that
    error is returned and nothing is done.  Then the containers are listed and each is
    told to stop (none, if the listing fails), and they are listed again, a second
    apart, as long as one is running.  [Run] returns nil only after a listing in which
    none was running or which failed - so it can return nil having stopped nothing -
    and otherwise, when the exit timer fires, the timeout's error. *)
Theorem cleanup_outcomes cellID n timer_taken tr r :
  exec (EvacuationCleanup_Run cellID n timer_taken) tr r →
  (∃ err, tr = [ev (ActualLRPGroups cellID) (Err err)] ∧ r = Some err) ∨
  (∃ groups goroutines,
     (is_int (Z.of_nat (length groups)) →
      let stranded := omap Evacuating_ groups in
      calls tr = ActualLRPGroups cellID ::
        ((λ lrp, RemoveEvacuatingActualLRP (lrp_key lrp) (lrp_instance_key lrp)) <$> stranded) ++
        SendMetric strandedEvacuatingActualLRPs (Z.of_nat (length stranded)) :: calls goroutines) ∧
     (length goroutines ≤ n)%nat ∧
     let stopped := ∃ listed stops listings last,
       goroutines = ev ListContainers listed :: stops ++ waits listings ++ [ev ListContainers last] ∧
       match listed with Ok cs => calls stops = (λ c, StopContainer (Guid c)) <$> cs | Err _ => stops = [] end ∧
       Forall (Exists (λ c, Container_State c = StateRunning)) listings ∧ none_running last in
     match r with
     | Some err => err = ErrCleanupTimeout ∧ (length goroutines = n ∨ (timer_taken = true ∧ stopped))
     | None => stopped
     end).
Proof.
  unfold EvacuationCleanup_Run. intros ([groups|err] & tr' & -> & Hex); [right|left; destruct Hex as [-> ->]; eauto].
  rewrite exec_bind in Hex. destruct Hex as (tr1 & count & tr2 & -> & Hrm & sent & tr3 & -> & Hex).
  rewrite exec_bind in Hex. destruct Hex as (goroutines & stopped & tr4 & -> & Hgo & Hr).
  exists groups, goroutines. split.
  { intros Hlen. apply remove_stranded_exec in Hrm as [Htr ->]; [|by vm_compute|done].
    assert (tr4 = []) as -> by by destruct stopped, Hr. rewrite app_nil_r.
    by rewrite calls_cons, calls_app, calls_cons, Htr. }
  destruct stopped as [b|]; destruct Hr as [-> ->].
  - apply within_Some in Hgo as [Hgo Hlen]. split; [done|].
    rewrite exec_bind in Hgo. destruct Hgo as (tr1' & [] & tr2' & -> & Hsig & Hchk).
    apply signalRunningContainers_exec in Hsig as (listed & rest & -> & Hrest).
    apply checkRunningContainers_exec in Hchk. destruct b; [|simpl in Hlen; rewrite length_app in Hlen; lia].
    destruct Hchk as (ls & last & -> & Hls & Hlast).
    destruct timer_taken; [split; [done|right; split; [done|]]|];
      (exists listed, rest, ls, last; split_and!; [done| |done..]; destruct listed; [done|]; by apply fmap_nil_inv in Hrest).
  - apply within_None in Hgo. split_and!; [lia|done|by left; lia].
Qed.

End cleanup.

(** ** Witness: one stranded record, one container that stops at once *)
#[local] Existing Instance example_models.

Definition cleanup_env (c : call) (stopped : bool) : reply c * bool :=
  match c return reply c * bool with
  | ActualLRPGroups _ =>
      (Ok [mkActualLRPGroup None (Some (mkActualLRP (mkActualLRPKey "process-guid" 0 "domain")
                                          (mkActualLRPInstanceKey "instance-guid" "cell")))], stopped)
  | ListContainers =>
      (Ok [mkContainer "instance-guid" (if stopped then StateCompleted else StateRunning) 0 0 None [] "" ""
             (executor.mkContainerRunResult false "" stopped)], stopped)
  | StopContainer _ => (None, true)
  | c => (quiet c, stopped)
  end.

Lemma cleanup_outcomes_witness :
  let p := EvacuationCleanup_Run "cell" 10 false in
  (run cleanup_env p false).1.2 = None ∧
  calls (run cleanup_env p false).1.1 =
    [ActualLRPGroups "cell";
     RemoveEvacuatingActualLRP (mkActualLRPKey "process-guid" 0 "domain") (mkActualLRPInstanceKey "instance-guid" "cell");
     SendMetric "StrandedEvacuatingActualLRPs" 1; ListContainers; StopContainer "instance-guid"; ListContainers] ∧
  ∃ goroutines : trace reply, (length goroutines ≤ 10)%nat ∧
    ∃ listed stops listings last,
      goroutines = ev ListContainers listed :: stops ++ waits listings ++ [ev ListContainers last] ∧
      none_running last.
Proof.
  intros p. split_and!; [vm_compute; reflexivity..|].
  destruct (cleanup_outcomes "cell" 10 false _ _ (run_exec cleanup_env p false))
    as [(err & _ & Hr)|(groups & gs & _ & Hn & listed & stops & listings & last & Hgs & _ & _ & Hlast)].
  - discriminate Hr.
  - exists gs. split; [exact Hn|]. exists listed, stops, listings, last. split; [exact Hgs | exact Hlast].
Defined.

(** When no listing can be made, [Run] returns nil at once and has stopped nothing. *)
Example cleanup_without_listings :
  let env (c : call) (u : unit) : reply c * unit :=
    (match c return reply c with ListContainers => Err json_Error | ActualLRPGroups _ => Ok [] | c => quiet c end, u) in
  let '(tr, r, _) := run env (EvacuationCleanup_Run "cell" 10 false) tt in
  r = None ∧ calls tr = [ActualLRPGroups "cell"; SendMetric "StrandedEvacuatingActualLRPs" 0; ListContainers; ListContainers].
Proof. vm_compute. split; reflexivity. Qed.
