(* ===== verification/Evacuator.v ===== *)
(** evacuation/evacuation.go: the evacuator waits to be notified, then polls the
    executor until no container is left, until a timeout, or until it is told to
    stop.

    [Run] and the goroutine [evacuate] share a channel and a clock; the model is a
    state machine with an explicit time (in nanoseconds), whose inputs are what the
    [select] statements receive, the replies of the executor, and time passing. *)

From S2P Require Import Prelude GoInt GoStrings GoUrl GoJson Effects Services.
Open Scope Z_scope.

Record Evacuator := NewEvacuator { evacuationTimeout : Z; pollingInterval : Z }.

(** A Go timer: when it will fire, if it is armed, and whether a tick is waiting in
    its channel, which holds one.  [Reset] arms it anew but leaves such a tick. *)
Record timer := mk_timer { armed : option Z; ticked : bool }.

Definition NewTimer (now d : Z) : timer := mk_timer (Some (now + d)) false.
Definition fire (now : Z) (tm : timer) : timer :=
  match armed tm with
  | Some until => if bool_decide (until <= now) then mk_timer None true else tm
  | None => tm
  end.
Definition Reset (now d : Z) (tm : timer) : timer := mk_timer (Some (now + d)) (ticked (fire now tm)).
(** Receiving from the channel blocks while there is no tick. *)
Definition receive (now : Z) (tm : timer) : option timer :=
  let tm := fire now tm in if ticked tm then Some (mk_timer (armed tm) false) else None.

(** Which case of the last [select] ended [Run]; it returns nil in every one. *)
Inductive exit_reason := Signaled | EvacuationComplete | TimedOut.

(** The goroutine [evacuate]: not yet running, listing the containers, waiting on its
    timer, or finished with [doneCh] closed. *)
Inductive poller := Spawned | Listing (tm : timer) | Waiting (tm : timer) | Done.

Inductive phase :=
| AwaitingNotify
| Evacuating_ (started deadline : Z) (goroutine : poller)
| Exited (reason : exit_reason).

Record evacuator_state := mk_evacuator_state { now : Z; Run_phase : phase }.

Inductive evacuator_input :=
| Tick (duration : Z)                       (* time passes *)
| Signal                                    (* <-signals *)
| Notified                                  (* <-evacuationNotify *)
| Started                                   (* the goroutine runs, and makes its timer *)
| Listed (containers : res (list Container)) (* ListContainers returns in the goroutine *)
| PollTimer                                 (* <-timer.C() in the goroutine *)
| DoneCh                                    (* <-doneCh *)
| TimeoutTimer.                             (* <-timer.C() in Run *)

Definition allContainersEvacuated (containers : res (list Container)) : bool :=
  match containers with
  | Err _ => false
  | Ok containers => bool_decide (length containers = 0%nat)
  end.

(** The goroutine's next state when the listing returns. *)
Definition evacuate (e : Evacuator) (now : Z) (tm : timer) (containers : res (list Container)) : poller :=
  if negb (allContainersEvacuated containers) then Waiting (Reset now (pollingInterval e) tm) else Done.

(** One input; [None] when it cannot happen in this state. *)
Definition Run (e : Evacuator) (s : evacuator_state) (i : evacuator_input) : option evacuator_state :=
  let goto p := Some (mk_evacuator_state (now s) p) in
  match i, Run_phase s with
  | Tick d, p => if bool_decide (0 <= d) then Some (mk_evacuator_state (now s + d) p) else None
  | Signal, (AwaitingNotify | Evacuating_ _ _ _) => goto (Exited Signaled)
  | Notified, AwaitingNotify => goto (Evacuating_ (now s) (now s + evacuationTimeout e) Spawned)
  | Started, Evacuating_ t d Spawned => goto (Evacuating_ t d (Listing (NewTimer (now s) (pollingInterval e))))
  | Listed containers, Evacuating_ t d (Listing tm) => goto (Evacuating_ t d (evacuate e (now s) tm containers))
  | PollTimer, Evacuating_ t d (Waiting tm) =>
      match receive (now s) tm with
      | Some tm => goto (Evacuating_ t d (Listing tm))
      | None => None
      end
  | DoneCh, Evacuating_ _ _ Done => goto (Exited EvacuationComplete)
  | TimeoutTimer, Evacuating_ _ d _ =>
      if bool_decide (d <= now s) then goto (Exited TimedOut) else None
  | _, _ => None
  end.

Fixpoint Run_all (e : Evacuator) (s : evacuator_state) (inputs : list evacuator_input) : option evacuator_state :=
  match inputs with
  | [] => Some s
  | i :: inputs => match Run e s i with Some s => Run_all e s inputs | None => None end
  end.

Definition evacuator_start (t : Z) : evacuator_state := mk_evacuator_state t AwaitingNotify.

(** ** Facts *)
Definition elapsed (inputs : list evacuator_input) : Z :=
  foldr Z.add 0 ((λ i, match i with Tick d => d | _ => 0 end) <$> inputs).

(** Listings that showed the cell empty, and all listings. *)
Definition shows_empty (i : evacuator_input) : bool :=
  match i with Listed containers => allContainersEvacuated containers | _ => false end.
Definition is_listing (i : evacuator_input) : bool :=
  match i with Listed _ => true | _ => false end.
Definition count_listings (inputs : list evacuator_input) : Z :=
  Z.of_nat (length (filter (λ i, is_listing i = true) inputs)).

Lemma elapsed_app l1 l2 : elapsed (l1 ++ l2) = elapsed l1 + elapsed l2.
Proof.
  unfold elapsed. rewrite fmap_app. induction (_ <$> l1) as [|x l IH]; cbn; [done|]. cbn in IH. lia.
Qed.

Lemma count_listings_app l1 l2 : count_listings (l1 ++ l2) = count_listings l1 + count_listings l2.
Proof. unfold count_listings. rewrite filter_app, length_app. lia. Qed.

Lemma existsb_snoc {A} (f : A → bool) l x : existsb f (l ++ [x]) = existsb f l || f x.
Proof. rewrite existsb_app. simpl. by rewrite orb_false_r. Qed.

(** No tick is received before [floor]. *)
Definition timer_ok (floor now : Z) (tm : timer) : Prop :=
  (ticked tm = true → floor <= now) ∧ (∀ until, armed tm = Some until → floor <= until).

(** What the goroutine has done in the inputs [after] the notification at [t]; a tick
    that was left by [Reset] is followed by a whole interval. *)
Definition poller_ok (e : Evacuator) (t now : Z) (after : list evacuator_input) (g : poller) : Prop :=
  let nth k := t + k * pollingInterval e in
  let n := count_listings after in
  match g with
  | Spawned => n = 0 ∧ t <= now ∧ existsb shows_empty after = false
  | Listing tm => nth n <= now ∧ timer_ok (nth (n + 1)) now tm ∧ existsb shows_empty after = false
  | Waiting tm =>
      nth n <= now + pollingInterval e ∧ timer_ok (nth n) now tm ∧ (ticked tm = true → timer_ok (nth (n + 1)) now (mk_timer (armed tm) false)) ∧
      existsb shows_empty after = false
  | Done => nth (n - 1) <= now ∧ existsb shows_empty after = true
  end.

(** What a history that led to a state looked like. *)
Definition history_ok (e : Evacuator) (inputs : list evacuator_input) (s : evacuator_state) : Prop :=
  match Run_phase s with
  | AwaitingNotify => True
  | Evacuating_ t d g =>
      ∃ before after, inputs = before ++ Notified :: after ∧
        t = now s - elapsed after ∧ d = t + evacuationTimeout e ∧ poller_ok e t (now s) after g
  | Exited Signaled => Signal ∈ inputs
  | Exited EvacuationComplete =>
      ∃ before after, inputs = before ++ Notified :: after ∧ existsb shows_empty after = true
  | Exited TimedOut =>
      ∃ before after, inputs = before ++ Notified :: after ∧ evacuationTimeout e <= elapsed after
  end.

Lemma timer_ok_later floor n d tm : 0 <= d → timer_ok floor n tm → timer_ok floor (n + d) tm.
Proof. intros Hd [Ht Ha]. split; [|done]. intros Htick. specialize (Ht Htick). lia. Qed.

Lemma fire_ok floor now tm : timer_ok floor now tm → timer_ok floor now (fire now tm).
Proof.
  intros [Ht Ha]. unfold fire. destruct (armed tm) as [until|] eqn:Harm; [|split; [done|intros ?; congruence]].
  case_bool_decide; split; simpl; try done; [intros _; specialize (Ha _ eq_refl); lia|intros ?; rewrite Harm; apply Ha].
Qed.

Lemma poller_tick e t n d after g :
  0 <= d → poller_ok e t n after g → poller_ok e t (n + d) (after ++ [Tick d]) g.
Proof.
  intros Hd. unfold poller_ok. rewrite count_listings_app, existsb_snoc, orb_false_r.
  change (count_listings [Tick d]) with 0. rewrite Z.add_0_r.
  destruct g; intros; destruct_and?; split_and!; auto using timer_ok_later; lia.
Qed.

Lemma poller_started e t n after :
  poller_ok e t n after Spawned → poller_ok e t n (after ++ [Started]) (Listing (NewTimer n (pollingInterval e))).
Proof.
  unfold poller_ok. rewrite count_listings_app, existsb_snoc, orb_false_r.
  change (count_listings [Started]) with 0. intros (-> & Ht & ?). split_and!; [lia| |done].
  split; [done|]. intros u [= <-]. lia.
Qed.

Lemma poller_listed e t n tm cs after :
  poller_ok e t n after (Listing tm) → poller_ok e t n (after ++ [Listed cs]) (evacuate e n tm cs).
Proof.
  unfold poller_ok, evacuate. rewrite count_listings_app, existsb_snoc. cbn [shows_empty].
  change (count_listings [Listed cs]) with 1. intros (Hc & [Ht _]%fire_ok & ->).
  destruct (allContainersEvacuated cs); cbn; [split; [lia|done]|]. unfold timer_ok. cbn.
  split_and!; try done; try lia; try (intros u [= <-]; lia).
  intros Htick. specialize (Ht Htick). split; [done|]. intros u [= <-]. lia.
Qed.

Lemma poller_wakes e t n tm tm' after :
  receive n tm = Some tm' → poller_ok e t n after (Waiting tm) → poller_ok e t n (after ++ [PollTimer]) (Listing tm').
Proof.
  unfold poller_ok, receive. rewrite count_listings_app, existsb_snoc, orb_false_r.
  change (count_listings [PollTimer]) with 0. rewrite Z.add_0_r. intros Hr (_ & Hok & Hstale & ?).
  destruct (fire_ok _ _ _ Hok) as [Hf _]. destruct (ticked (fire n tm)) eqn:Htick; [|done]. injection Hr as <-.
  split_and!; [by apply Hf| |done]. unfold fire in *. destruct (armed tm) as [until|] eqn:Harm.
  - case_bool_decide; simpl in *; [by split|]. rewrite Harm in *. by apply Hstale.
  - rewrite Harm. by split.
Qed.

Lemma elapsed_snoc l i : elapsed (l ++ [i]) = elapsed l + match i with Tick d => d | _ => 0 end.
Proof. rewrite elapsed_app. unfold elapsed at 2. cbn. lia. Qed.

Lemma Run_history e inputs s i s' :
  Run e s i = Some s' → history_ok e inputs s → history_ok e (inputs ++ [i]) s'.
Proof.
  destruct s as [n p]. unfold Run, history_ok. cbn [now Run_phase].
  destruct i as [d| | | |cs| | |], p as [|t dl g|r]; try done; intros Hs Hh.
  all: repeat case_match; simplify_eq/=; try done; try set_solver.
  all: repeat match goal with H : bool_decide _ = true |- _ => apply bool_decide_eq_true_1 in H end.
  all: try (destruct Hh as (before & after & -> & Hh); exists before; eexists;
            split; [by rewrite <-app_assoc; simpl|]; rewrite ?elapsed_snoc, ?existsb_snoc).
  - destruct Hh as (Ht & Hd & Hg). split_and!; [lia|done|by apply poller_tick].
  - by rewrite Hh.
  - lia.
  - exists inputs, []. change (elapsed []) with 0. change (count_listings []) with 0. split_and!; done || lia.
  - destruct Hh as (Ht & Hd & Hg). split; [lia|]. split; [done|]. rewrite <-existsb_snoc. by apply (poller_started e _ n after).
  - destruct Hh as (Ht & Hd & Hg). split_and!; [lia|done|by apply poller_listed].
  - destruct Hh as (Ht & Hd & Hg). split; [lia|]. split; [done|]. rewrite <-existsb_snoc. by eapply poller_wakes.
  - by destruct Hh as (_ & _ & _ & ->).
  - destruct Hh as (-> & -> & _). lia.
Qed.

Lemma Run_all_history e s inputs s' pre :
  Run_all e s inputs = Some s' → history_ok e pre s → history_ok e (pre ++ inputs) s'.
Proof.
  induction inputs as [|i inputs IH] in s, pre |- *; simpl; [by intros [= ->]; rewrite app_nil_r|].
  destruct (Run e s i) as [s1|] eqn:Hi; [|done]. intros Hr Hh.
  rewrite cons_middle, app_assoc. eapply IH; [done|]. by eapply Run_history.
Qed.

(** C25 The cell does not leave early: the evacuator ends only because it was told to
    stop, because after the notification a listing showed no container left, or
    because the whole evacuation timeout passed since the notification; and while
    it runs it lists the containers at most once per polling interval. *)
Theorem evacuator_exits_for_a_reason e t0 inputs s :
  0 < pollingInterval e → Run_all e (evacuator_start t0) inputs = Some s →
  match Run_phase s with
  | AwaitingNotify => True
  | Evacuating_ _ _ _ =>
      ∃ before after, inputs = before ++ Notified :: after ∧
        (count_listings after - 1) * pollingInterval e <= elapsed after
  | Exited Signaled => Signal ∈ inputs
  | Exited EvacuationComplete =>
      ∃ before cs after, inputs = before ++ Notified :: after ∧ Listed cs ∈ after ∧ cs = Ok []
  | Exited TimedOut =>
      ∃ before after, inputs = before ++ Notified :: after ∧ evacuationTimeout e <= elapsed after
  end.
Proof.
  intros Hp Hr. pose proof (Run_all_history e _ inputs s [] Hr I) as Hh. unfold history_ok in Hh. simpl in Hh.
  destruct (Run_phase s) as [|t d g|[]]; try done.
  - destruct Hh as (before & after & -> & Ht & _ & Hg). exists before, after. split; [done|].
    destruct g; simpl in Hg; destruct_and?; lia.
  - destruct Hh as (before & after & -> & (i & Hi & He)%existsb_exists). exists before.
    destruct i as [| | | |[[|c cs]|err]| | |]; try done. exists (Ok []), after.
    split_and!; [done|by apply list_elem_of_In|done].
Qed.

(** C26 The cell does leave: once notified, [Run] can end at once when the goroutine
    is done, at the latest when the timeout has passed since the notification, and
    whenever it is told to stop; it can never be stuck. *)
Theorem evacuator_can_exit e t0 inputs s :
  0 <= evacuationTimeout e → Run_all e (evacuator_start t0) inputs = Some s →
  match Run_phase s with
  | Exited _ => True
  | AwaitingNotify => Run e s Signal = Some (mk_evacuator_state (now s) (Exited Signaled))
  | Evacuating_ started _ g =>
      Run e s Signal = Some (mk_evacuator_state (now s) (Exited Signaled)) ∧
      (g = Done → Run e s DoneCh = Some (mk_evacuator_state (now s) (Exited EvacuationComplete))) ∧
      let wait := Z.max 0 (started + evacuationTimeout e - now s) in
      Run_all e s [Tick wait; TimeoutTimer] = Some (mk_evacuator_state (now s + wait) (Exited TimedOut))
  end.
Proof.
  intros He Hr. pose proof (Run_all_history e _ inputs s [] Hr I) as Hh. unfold history_ok in Hh. simpl in Hh.
  destruct s as [n [|t d g|]]; try done. simpl in Hh. destruct Hh as (before & after & -> & Ht & -> & _).
  split_and!; [done|by intros ->|]. cbn. rewrite bool_decide_true by lia. cbn. by rewrite bool_decide_true by lia.
Qed.

(** ** Witnesses *)
Definition example_evacuator : Evacuator := NewEvacuator 600 10.
Definition example_evacuation : list evacuator_input :=
  [Tick 5; Notified; Started; Listed (Err executor_ErrContainerNotFound); Tick 10; PollTimer; Listed (Ok []); DoneCh].

Lemma evacuator_exits_for_a_reason_witness :
  ∃ s, Run_all example_evacuator (evacuator_start 0) example_evacuation = Some s ∧
    ∃ before cs after, example_evacuation = before ++ Notified :: after ∧ Listed cs ∈ after ∧ cs = Ok [].
Proof.
  eexists. split; [vm_compute; reflexivity|].
  exact (evacuator_exits_for_a_reason example_evacuator 0 example_evacuation
    (mk_evacuator_state 15 (Exited EvacuationComplete)) ltac:(reflexivity) ltac:(vm_compute; reflexivity)).
Defined.

Lemma evacuator_can_exit_witness :
  ∃ s, Run_all example_evacuator (evacuator_start 0) [Tick 5; Notified; Started; Tick 2] = Some s ∧
    Run_all example_evacuator s [Tick 598; TimeoutTimer] = Some (mk_evacuator_state 605 (Exited TimedOut)).
Proof.
  exists (mk_evacuator_state 7 (Evacuating_ 5 605 (Listing (mk_timer (Some 15) false)))). split; [vm_compute; reflexivity|].
  exact (proj2 (proj2 (evacuator_can_exit example_evacuator 0 [Tick 5; Notified; Started; Tick 2]
    (mk_evacuator_state 7 (Evacuating_ 5 605 (Listing (mk_timer (Some 15) false)))) ltac:(vm_compute; discriminate) ltac:(vm_compute; reflexivity)))).
Defined.
