(* ===== verification/Harmonizer.v ===== *)
(** harmonizer/bulker.go and harmonizer/event_consumer.go: the two sources of the
    operation queue.  The bulker pushes a whole batch at regular intervals, the
    event consumer an operation per container event. *)

From S2P Require Import Prelude GoInt GoStrings GoUrl GoJson Effects Services Conversion ContainerDelegate.
From S2P Require Import OrdinaryLRPProcessor EvacuationLRPProcessor TaskProcessor LRPProcessor Operation Generator.

(** ** The interface of the generator *)
Class GeneratorInterface `{Models} (G : Type) := {
  generate_batch : G → rep (res batch);
  operation_stream : G → res (list executor_event) → res (list stream_action) }.

(** What its clients rely on: an operation is stored under its key. *)
Class KeyedGenerator `{Models} (G : Type) `{!GeneratorInterface G} :=
  generated_key g tr b guid o :
    exec (generate_batch g) tr (Ok b) → b !! guid = Some o → Key o = guid.

(** The generator of the rep, on one schedule of its goroutines and loops. *)
Record generator `{Models} := mk_generator {
  gen_cellID : string;
  gen_order : list goroutine;
  gen_arrival : list goroutine;
  gen_iteration : iteration;
  gen_order_ok : gen_order ≡ₚ goroutines;
  gen_arrival_ok : gen_arrival ≡ₚ goroutines;
  gen_iteration_ok : fair gen_iteration }.

#[global] Instance generator_interface `{Models} : GeneratorInterface generator := {|
  generate_batch g := BatchOperations (gen_cellID g) (gen_order g) (gen_arrival g) (gen_iteration g);
  operation_stream g := OperationStream |}.

#[global] Instance generator_keyed `{Models} : KeyedGenerator generator.
Proof.
  intros g tr b guid o Hex Hb.
  apply BatchOperations_exec in Hex as (cs & gs & ts & _ & Hr); [|apply gen_order_ok|apply gen_arrival_ok|apply gen_iteration_ok].
  destruct cs, gs, ts; try (destruct Hr as (? & ? & _); done).
  destruct Hr as (b' & [= <-] & Hop). rewrite Hop in Hb. by apply operation_for_key in Hb as [? _].
Qed.

(** ** The bulker *)
Section bulker.
Context `{Models} {G : Type} `{!GeneratorInterface G}.

Definition repBulkSyncDuration : string := "RepBulkSyncDuration".

Record Bulker := NewBulker { pollInterval : Z; evacuationPollInterval : Z; bulker_generator : G }.

(** [sync] with the operations it pushes, in the order in which the loop ranges over
    the batch. *)
Definition sync (b : Bulker) (order : batch → list (string * Operation)) : rep (list Operation) :=
  Do ClockNow (λ startTime,
  let* ops := generate_batch (bulker_generator b) in
  Do ClockNow (λ endTime,
  Do (SendDuration repBulkSyncDuration (endTime - startTime)%Z) (λ _,
  match ops with
  | Err _ => Ret []
  | Ok ops => Ret (order ops).*2
  end))).

(** The loop of [Run]: the local variables, and what the [select] received. *)
Record bulker_state := mk_bulker_state { interval : Z; evacuateNotify : bool; returned : bool }.

Inductive bulker_input := TimerFired | EvacuateNotified | SignalReceived.
#[global] Instance bulker_input_eq_dec : EqDecision bulker_input.
Proof. solve_decision. Defined.

Inductive bulker_action := Sync | StopTimer | ResetTimer (duration : Z).

(** [Run] up to the loop arms the timer with the interval. *)
Definition bulker_start (b : Bulker) : bulker_state * list bulker_action :=
  (mk_bulker_state (pollInterval b) true false, [ResetTimer (pollInterval b)]).

(** One round of the loop; [None] when the case cannot be selected: a nil channel is
    never ready, and the loop has ended after a signal. *)
Definition bulker_round (b : Bulker) (s : bulker_state) (i : bulker_input) :
    option (bulker_state * list bulker_action) :=
  if returned s then None
  else match i with
  | TimerFired => Some (s, [Sync; ResetTimer (interval s)])
  | EvacuateNotified =>
      if evacuateNotify s
      then Some (mk_bulker_state (evacuationPollInterval b) false false,
                 [StopTimer; Sync; ResetTimer (evacuationPollInterval b)])
      else None
  | SignalReceived => Some (mk_bulker_state (interval s) (evacuateNotify s) true, [StopTimer])
  end.

Fixpoint bulker_loop (b : Bulker) (s : bulker_state) (inputs : list bulker_input) :
    option (bulker_state * list bulker_action) :=
  match inputs with
  | [] => Some (s, [])
  | i :: inputs =>
      match bulker_round b s i with
      | None => None
      | Some (s, actions) =>
          match bulker_loop b s inputs with
          | None => None
          | Some (s, more) => Some (s, actions ++ more)
          end
      end
  end.

Definition Bulker_Run (b : Bulker) (inputs : list bulker_input) : option (bulker_state * list bulker_action) :=
  let '(s, actions) := bulker_start b in
  match bulker_loop b s inputs with
  | None => None
  | Some (s, more) => Some (s, actions ++ more)
  end.

(** ** The event consumer *)
Inductive consumer_input := StreamOp (o : Operation) | StreamClosed | ConsumerSignal.

(** The loop: what it pushes, and whether it returned. *)
Fixpoint consumer_loop (inputs : list consumer_input) : list Operation * bool :=
  match inputs with
  | [] => ([], false)
  | StreamOp op :: inputs => let '(pushed, returned) := consumer_loop inputs in (op :: pushed, returned)
  | StreamClosed :: _ => ([], true)
  | ConsumerSignal :: _ => ([], true)
  end.

(** What the stream's goroutine sends, as the consumer receives it. *)
Definition received (actions : list stream_action) : list consumer_input :=
  omap (λ a, match a with SendOp o => Some (StreamOp o) | CloseOpChan => Some StreamClosed | CloseEvents => None end)
    actions.

(** [Run]: subscribes, then consumes; [before_signal] is how many of the stream's
    messages are received before a signal, if one arrives. *)
Definition EventConsumer_Run (g : G) (subscription : res (list executor_event)) (before_signal : option nat) :
    res (list Operation * bool) :=
  match operation_stream g subscription with
  | Err err => Err err
  | Ok actions =>
      let inputs := received actions in
      Ok (consumer_loop (match before_signal with
                         | Some n => take n inputs ++ [ConsumerSignal]
                         | None => inputs
                         end))
  end.

Lemma sync_exec `{!KeyedGenerator G} b order tr pushed :
  (∀ m, iteration_of m (order m)) → exec (sync b order) tr pushed →
  ∃ t0 t1 gen ops sent,
    tr = ev ClockNow t0 :: gen ++ [ev ClockNow t1; ev (SendDuration repBulkSyncDuration (t1 - t0)%Z) sent] ∧
    exec (generate_batch (bulker_generator b)) gen ops ∧
    match ops with
    | Err _ => pushed = []
    | Ok m => NoDup (Key <$> pushed) ∧ ∀ o, o ∈ pushed ↔ m !! Key o = Some o
    end.
Proof.
  intros Hord. unfold sync. intros (t0 & tr1 & -> & Hex). rewrite exec_bind in Hex.
  destruct Hex as (gen & ops & tr2 & -> & Hgen & t1 & tr3 & -> & sent & tr4 & -> & Hr).
  exists t0, t1, gen, ops, sent. destruct ops as [m|err]; destruct Hr as [-> ->]; split_and!; try done.
  - assert (∀ k o, (k, o) ∈ order m → Key o = k) as Hkey.
    { intros k o Hin. rewrite (Hord m), elem_of_map_to_list in Hin. by eapply generated_key. }
    assert (Key <$> (order m).*2 = (order m).*1) as ->.
    { rewrite <-list_fmap_compose. apply list_fmap_ext. intros i [k o] Hi. simpl.
      eapply Hkey, list_elem_of_lookup_2, Hi. }
    rewrite (Hord m). apply NoDup_fst_map_to_list.
  - intros o. split.
    + intros ([k o'] & -> & Hin)%list_elem_of_fmap. rewrite (Hord m), elem_of_map_to_list in Hin. simpl.
      by rewrite (generated_key _ _ _ _ _ Hgen Hin).
    + intros Ho. apply list_elem_of_fmap. exists (Key o, o). split; [done|].
      by rewrite (Hord m), elem_of_map_to_list.
Qed.

(** A bulk sync queues the whole batch: it generates one batch, reports the
    duration, and pushes each operation of the batch exactly once, under pairwise
    different keys; if the batch could not be generated nothing is pushed. *)
Theorem sync_pushes_the_batch `{!KeyedGenerator G} b order tr pushed :
  (∀ m, iteration_of m (order m)) → exec (sync b order) tr pushed →
  ∃ t0 t1 gen ops sent,
    tr = ev ClockNow t0 :: gen ++ [ev ClockNow t1; ev (SendDuration repBulkSyncDuration (t1 - t0)%Z) sent] ∧
    exec (generate_batch (bulker_generator b)) gen ops ∧
    match ops with
    | Err _ => pushed = []
    | Ok m => NoDup (Key <$> pushed) ∧ ∀ o, o ∈ pushed ↔ m !! Key o = Some o
    end.
Proof. apply sync_exec. Qed.

(** What the bulker does on [n] timers with one interval: it syncs and arms the timer
    again, each time. *)
Definition rhythm (interval : Z) (n : nat) : list bulker_action :=
  concat (replicate n [Sync; ResetTimer interval]).

Definition timers (inputs : list bulker_input) : nat := length (filter (.= TimerFired) inputs).

(** The deferred [timer.Stop]. *)
Definition ending (s : bulker_state) : list bulker_action := if returned s then [StopTimer] else [].

(** One loop run after the other. *)
Lemma bulker_loop_app b s l1 l2 s' actions :
  bulker_loop b s (l1 ++ l2) = Some (s', actions) →
  ∃ s1 a1 a2, bulker_loop b s l1 = Some (s1, a1) ∧ bulker_loop b s1 l2 = Some (s', a2) ∧ actions = a1 ++ a2.
Proof.
  induction l1 as [|i l1 IH] in s, actions |- *; simpl; [intros Hr; by exists s, [], actions|].
  destruct (bulker_round b s i) as [[s1 a1]|]; [|done].
  destruct (bulker_loop b s1 (l1 ++ l2)) as [[s2 a2]|] eqn:Hl; [|done]. intros [= -> <-].
  apply IH in Hl as (s3 & a3 & a4 & -> & H2 & ->). exists s3, (a1 ++ a3), a4. by rewrite app_assoc.
Qed.

(** Without a notification the interval does not change, and all that happens is
    the rhythm of the timer up to a signal. *)
Lemma bulker_loop_quiet b s inputs s' actions :
  bulker_loop b s inputs = Some (s', actions) → EvacuateNotified ∉ inputs → returned s = false →
  interval s' = interval s ∧ evacuateNotify s' = evacuateNotify s ∧
  actions = rhythm (interval s) (timers inputs) ++ ending s' ∧
  (returned s' = true ↔ last inputs = Some SignalReceived).
Proof.
  induction inputs as [|i inputs IH] in s, actions |- *; simpl.
  { intros [= -> <-] _ Hs. unfold ending. rewrite Hs. naive_solver. }
  destruct (bulker_round b s i) as [[s1 a1]|] eqn:Hround; [|done].
  destruct (bulker_loop b s1 inputs) as [[s2 a2]|] eqn:Hl; [|done]. intros [= -> <-] Hn Hs.
  apply not_elem_of_cons in Hn as [Hi Hn]. unfold bulker_round in Hround. rewrite Hs in Hround.
  destruct i; simplify_eq/=.
  - destruct (IH _ _ Hl Hn Hs) as (-> & -> & -> & ->). split_and!; [done..|].
    rewrite last_cons. destruct (last inputs); naive_solver.
  - destruct inputs as [|i inputs]; simpl in Hl; [injection Hl as <- <-; done|].
    unfold bulker_round in Hl. by destruct i.
Qed.

Lemma bulker_loop_notified b s inputs s' actions :
  bulker_loop b s inputs = Some (s', actions) → evacuateNotify s = false → EvacuateNotified ∉ inputs.
Proof.
  induction inputs as [|i inputs IH] in s, actions |- *; simpl; [set_solver|].
  destruct (bulker_round b s i) as [[s1 a1]|] eqn:Hround; [|done].
  destruct (bulker_loop b s1 inputs) as [[s2 a2]|] eqn:Hl; [|done]. intros [= -> <-] Hs. unfold bulker_round in Hround.
  destruct (returned s), i; rewrite ?Hs in Hround; simplify_eq/=; apply not_elem_of_cons; eauto.
Qed.

(** Before it has returned, the bulker was woken by the timer or the notification. *)
Lemma timers_all b s inputs s' actions :
  bulker_loop b s inputs = Some (s', actions) → returned s' = false → EvacuateNotified ∉ inputs →
  timers inputs = length inputs.
Proof.
  unfold timers. induction inputs as [|i inputs IH] in s, actions |- *; [done|]. simpl.
  destruct (bulker_round b s i) as [[s1 a1]|] eqn:Hround; [|done].
  destruct (bulker_loop b s1 inputs) as [[s2 a2]|] eqn:Hl; [|done]. intros [= -> <-] Hs [Hi Hn]%not_elem_of_cons.
  specialize (IH _ _ Hl Hs Hn). rewrite filter_cons. unfold bulker_round in Hround. destruct (returned s); [done|].
  destruct i; simplify_eq/=; [by rewrite IH|]. exfalso.
  destruct inputs as [|i inputs]; simpl in Hl; [by injection Hl as <- _|]. by destruct i.
Qed.

Lemma last_rhythm d l n : last l = Some (ResetTimer d) → last (l ++ rhythm d n) = Some (ResetTimer d).
Proof.
  induction n as [|n IH] in l |- *; intros Hl; [by rewrite app_nil_r|].
  change (l ++ rhythm d (S n)) with (l ++ [Sync; ResetTimer d] ++ rhythm d n). rewrite app_assoc. apply IH.
  by rewrite last_app_cons.
Qed.

Lemma split_once {A} (x : A) pre post pre' post' :
  pre ++ x :: post = pre' ++ x :: post' → x ∉ pre → x ∉ post → pre = pre' ∧ post = post'.
Proof.
  intros Heq Hpre Hpost. revert pre' Heq. induction pre as [|y pre IH]; intros [|y' pre'] Heq; simpl in Heq.
  - by injection Heq.
  - injection Heq as -> ->. set_solver.
  - injection Heq as <- <-. set_solver.
  - injection Heq as <- Heq. destruct (IH ltac:(set_solver) pre' Heq) as [-> ->]. done.
Qed.

(** With a notification: before it, after it. *)
Lemma bulker_loop_once b s inputs s' actions :
  bulker_loop b s inputs = Some (s', actions) → returned s = false → EvacuateNotified ∈ inputs →
  ∃ pre post, inputs = pre ++ EvacuateNotified :: post ∧ EvacuateNotified ∉ pre ∧ EvacuateNotified ∉ post ∧
    actions = rhythm (interval s) (length pre) ++ [StopTimer; Sync; ResetTimer (evacuationPollInterval b)] ++
              rhythm (evacuationPollInterval b) (timers post) ++ ending s' ∧
    (returned s' = true ↔ last inputs = Some SignalReceived).
Proof.
  intros Hl Hs (pre & post & -> & Hpre)%list_elem_of_split_l. exists pre, post.
  apply bulker_loop_app in Hl as (s1 & a1 & a2 & H1 & H2 & ->). simpl in H2.
  destruct (bulker_loop_quiet _ _ _ _ _ H1 Hpre Hs) as (Hi & _ & -> & Hr1).
  unfold bulker_round in H2. destruct (returned s1) eqn:Hs1; [done|]. destruct (evacuateNotify s1); [|done].
  destruct (bulker_loop b _ post) as [[s2 a2']|] eqn:H3; [|done]. injection H2 as -> <-.
  pose proof (bulker_loop_notified _ _ _ _ _ H3 eq_refl) as Hpost.
  destruct (bulker_loop_quiet _ _ _ _ _ H3 Hpost eq_refl) as (_ & _ & -> & Hr). split_and!; [done..| |].
  - unfold ending. rewrite Hs1, app_nil_r. by rewrite (timers_all _ _ _ _ _ H1 Hs1 Hpre).
  - rewrite Hr, last_app_cons, last_cons. destruct (last post); naive_solver.
Qed.

(** C33 The bulker's rhythm, completely: it arms the timer with the poll interval, and
    each time the timer fires it syncs once and arms the timer again; notified of
    evacuation, at most once, it stops the timer, syncs at once and goes on in the same
    way with the evacuation poll interval; a signal, and nothing else, ends it, stopping
    the timer.  As long as it runs, the last thing it did was to arm the timer. *)
Theorem bulker_rhythm b inputs s actions :
  Bulker_Run b inputs = Some (s, actions) →
  (returned s = true ↔ last inputs = Some SignalReceived) ∧
  (EvacuateNotified ∉ inputs →
     actions = ResetTimer (pollInterval b) :: rhythm (pollInterval b) (timers inputs) ++ ending s) ∧
  (∀ pre post, inputs = pre ++ EvacuateNotified :: post →
     EvacuateNotified ∉ pre ++ post ∧
     actions = ResetTimer (pollInterval b) :: rhythm (pollInterval b) (length pre) ++
       [StopTimer; Sync; ResetTimer (evacuationPollInterval b)] ++
       rhythm (evacuationPollInterval b) (timers post) ++ ending s) ∧
  (returned s = false → ∃ interval, last actions = Some (ResetTimer interval)).
Proof.
  unfold Bulker_Run, bulker_start. set (s0 := mk_bulker_state _ _ _).
  destruct (bulker_loop b s0 inputs) as [[s1 a]|] eqn:Hl; [|done]. intros [= -> <-].
  destruct (decide (EvacuateNotified ∈ inputs)) as [Hin|Hn].
  - destruct (bulker_loop_once b s0 inputs s a Hl eq_refl Hin) as (pre & post & -> & Hpre & Hpost & -> & Hret).
    split_and!; [done|set_solver| |].
    + intros pre' post' Heq. apply split_once in Heq as [<- <-]; [|done..]. split; [set_solver|done].
    + intros Hs. exists (evacuationPollInterval b). rewrite !app_assoc, app_comm_cons. unfold ending. rewrite Hs, app_nil_r.
      apply (last_rhythm _ (_ :: _ ++ _)). by rewrite app_comm_cons, last_app_cons.
  - destruct (bulker_loop_quiet _ _ _ _ _ Hl Hn eq_refl) as (_ & _ & -> & Hret). split_and!; [done..| |].
    + intros pre post ->. set_solver.
    + intros Hs. exists (pollInterval b). unfold ending. rewrite Hs, app_nil_r. by apply (last_rhythm _ [_]).
Qed.

End bulker.

Section event_consumer.
Context `{Models}.

(** The containers of the lifecycle events of a stream. *)
Definition lifecycle_guids (events : list executor_event) : list string :=
  omap (λ e, match e with LifecycleEvent c => Some (Guid c) | OtherEvent => None end) events.

Lemma consumer_loop_ops ops rest :
  consumer_loop ((StreamOp <$> ops) ++ rest) = (ops ++ (consumer_loop rest).1, (consumer_loop rest).2).
Proof.
  induction ops as [|o ops IH]; cbn; [by destruct (consumer_loop rest)|]. cbn in IH. by rewrite IH.
Qed.

(** C34 The event consumer forwards the executor's lifecycle events: an operation for
    each event's container is pushed, in the order of the events and nothing else;
    it returns when the stream ends or on a signal, after which nothing more is
    pushed; if the subscription fails its error is returned and nothing pushed. *)
Theorem event_consumer_forwards (g : generator) subscription before_signal :
  EventConsumer_Run g subscription before_signal =
    match subscription with
    | Err err => Err err
    | Ok events =>
        let ops := ContainerOperation <$> lifecycle_guids events in
        Ok (match before_signal with Some n => take n ops | None => ops end, true)
    end.
Proof.
  unfold EventConsumer_Run. destruct subscription as [events|err]; [|done]. simpl. f_equal.
  assert (received (stream_loop events) = (StreamOp <$> (ContainerOperation <$> lifecycle_guids events)) ++ [StreamClosed])
    as ->.
  { induction events as [|[c|] events IH]; [done| |done]. cbn. f_equal. exact IH. }
  set (ops := ContainerOperation <$> _). destruct before_signal as [n|].
  - destruct (decide (n ≤ length ops)) as [Hn|Hn].
    + rewrite take_app_le by by rewrite length_fmap. rewrite <-fmap_take, consumer_loop_ops. simpl.
      by rewrite app_nil_r.
    + rewrite take_ge by (rewrite length_app, length_fmap; simpl; lia).
      rewrite <-app_assoc, consumer_loop_ops. simpl. rewrite app_nil_r, take_ge by lia. done.
  - rewrite consumer_loop_ops. simpl. by rewrite app_nil_r.
Qed.

End event_consumer.

(** ** Witnesses *)
#[local] Existing Instance example_models.

Definition example_generator : generator :=
  mk_generator _ "cell" goroutines goroutines map_order (Permutation_refl _) (Permutation_refl _) map_order_fair.

Definition example_bulker : Bulker := NewBulker 30 10 example_generator.

Lemma sync_pushes_the_batch_witness :
  let pushed := (run cell_env (sync example_bulker map_to_list) tt).1.2 in
  length pushed = 3%nat ∧ NoDup (Key <$> pushed).
Proof.
  intros pushed. split; [vm_compute; reflexivity|].
  destruct (sync_pushes_the_batch example_bulker map_to_list _ pushed (λ m, Permutation_refl _)
    (run_exec cell_env (sync example_bulker map_to_list) tt)) as (t0 & t1 & gen & ops & sent & _ & _ & Hops).
  destruct ops as [m|err]; [exact (proj1 Hops)|]. rewrite Hops. apply NoDup_nil_2.
Defined.

Lemma bulker_rhythm_witness :
  ∃ s actions, Bulker_Run example_bulker [TimerFired; EvacuateNotified; TimerFired; SignalReceived] = Some (s, actions) ∧
    actions = [ResetTimer 30; Sync; ResetTimer 30; StopTimer; Sync; ResetTimer 10; Sync; ResetTimer 10; StopTimer].
Proof.
  eexists _, _. split; [reflexivity|].
  destruct (bulker_rhythm example_bulker [TimerFired; EvacuateNotified; TimerFired; SignalReceived] _ _ eq_refl)
    as (_ & _ & Hr & _).
  exact (proj2 (Hr [TimerFired] [TimerFired; SignalReceived] eq_refl)).
Defined.
