(* ===== verification/Maintain.v ===== *)
(** maintain/maintain.go: the cell's presence is kept up as long as the executor
    answers pings.

    [Run] alternates between waiting for the executor and heartbeating; both are
    loops around [select].  The model is a state machine whose states are the
    points where [Run] waits for something, and whose inputs are what it waits
    for: replies of the executor, timers, signals, and the heartbeat process. *)

From S2P Require Import Prelude GoInt GoStrings GoUrl GoJson Effects Services.

Record Config := mkConfig {
  CellID : string; RepAddress : string; RepUrl : string; Zone : string;
  RetryInterval : Z;
  cfg_RootFSProviders : list string; PreloadedRootFSes : list string;
  PlacementTags : list string; OptionalPlacementTags : list string }.

(** The arguments of [models.NewCellPresence], whose result goes to the presence
    service; the capacity has 32-bit fields. *)
Record CellCapacity := NewCellCapacity { cap_MemoryMB : Z; cap_DiskMB : Z; cap_Containers : Z }.
Record CellPresence := NewCellPresence {
  pres_CellId : string; pres_RepAddress : string; pres_RepUrl : string; pres_Zone : string;
  pres_Capacity : CellCapacity; pres_RootFSProviders : list string;
  pres_PreloadedRootFSes : list string; pres_PlacementTags : list string;
  pres_OptionalPlacementTags : list string }.

Definition ErrSignaledWhileWaiting : error := errors_New "signaled while waiting for executor".

(** The presence that the heartbeater maintains, or the executor's error. *)
Definition createHeartbeater (m : Config) (resources : res executor.ExecutorResources) : res CellPresence :=
  match resources with
  | Err err => Err err
  | Ok resources =>
      let cellCapacity := NewCellCapacity (int32 (executor.MemoryMB resources))
        (int32 (executor.DiskMB resources)) (int32 (executor.Containers resources)) in
      Ok (NewCellPresence (CellID m) (RepAddress m) (RepUrl m) (Zone m) cellCapacity
            (cfg_RootFSProviders m) (PreloadedRootFSes m) (PlacementTags m) (OptionalPlacementTags m))
  end.

(** What [Run] is waiting for. *)
Inductive phase :=
| WaitingPing                        (* waitForExecutor: the reply of Ping *)
| WaitingSleep                       (* waitForExecutor: a signal or the sleeper *)
| WaitingResources                   (* createHeartbeater: the reply of TotalResources *)
| Starting (presence : CellPresence) (* heartbeat: readiness, exit or a signal *)
| Heartbeating (presence : CellPresence)         (* heartbeat: exit, a signal or the ticker *)
| HeartbeatPing (presence : CellPresence)        (* heartbeat: the reply of Ping *)
| Stopping (err : error)             (* heartbeat killed after a failed ping: its exit or a signal *)
| Killed                             (* heartbeat killed after a signal: its exit *)
| Returned (result : option error).

(** [ready]: whether the variable still holds the channel; [ready_closed]: how often
    the channel was closed; [heartbeatProcess]: the presence process that runs, with
    whether it was sent the signal to stop. *)
Record maintainer := mk_maintainer {
  Run_phase : phase; ready : bool; ready_closed : nat; heartbeatProcess : option (CellPresence * bool) }.

Inductive input :=
| PingReply (err : option error)
| SignalArrived
| SleeperFired
| ResourcesReply (resources : res executor.ExecutorResources)
| HeartbeatReady
| HeartbeatExited (err : option error)
| TickerFired.

(** The effects on the process: [ifrit.Background], [Signal(os.Kill)], and its exit. *)
Definition ifrit_Background (presence : CellPresence) (s : maintainer) : maintainer :=
  mk_maintainer (Run_phase s) (ready s) (ready_closed s) (Some (presence, false)).
Definition Signal_Kill (s : maintainer) : maintainer :=
  mk_maintainer (Run_phase s) (ready s) (ready_closed s) ((λ p, (p.1, true)) <$> heartbeatProcess s).
Definition process_exits (s : maintainer) : maintainer :=
  mk_maintainer (Run_phase s) (ready s) (ready_closed s) None.

Definition goto (p : phase) (s : maintainer) : maintainer :=
  mk_maintainer p (ready s) (ready_closed s) (heartbeatProcess s).

(** [heartbeat] returned [err] to the loop of [Run]: the loop forgets [ready], and
    returns nil or waits for the executor again. *)
Definition heartbeat_returned (s : maintainer) (err : option error) : maintainer :=
  match err with
  | None => mk_maintainer (Returned None) false (ready_closed s) (heartbeatProcess s)
  | Some _ => mk_maintainer WaitingPing false (ready_closed s) (heartbeatProcess s)
  end.

(** [waitForExecutor]: [Ping] until it succeeds, then create the heartbeater, with
    which [heartbeat] begins. *)
Definition waitForExecutor (m : Config) (s : maintainer) (i : input) : option maintainer :=
  match Run_phase s, i with
  | WaitingPing, PingReply None => Some (goto WaitingResources s)
  | WaitingPing, PingReply (Some _) => Some (goto WaitingSleep s)
  | WaitingSleep, SignalArrived => Some (goto (Returned (Some ErrSignaledWhileWaiting)) s)
  | WaitingSleep, SleeperFired => Some (goto WaitingPing s)
  | WaitingResources, ResourcesReply resources =>
      match createHeartbeater m resources with
      | Err err => Some (goto (Returned (Some err)) s)
      | Ok presence => Some (goto (Starting presence) (ifrit_Background presence s))
      end
  | _, _ => None
  end.

(** [heartbeat]: run the presence until it exits, a signal or a failed ping. *)
Definition heartbeat (s : maintainer) (i : input) : option maintainer :=
  match Run_phase s, i with
  | Starting presence, HeartbeatReady =>
      if ready s then Some (mk_maintainer (Heartbeating presence) true (S (ready_closed s)) (heartbeatProcess s))
      else Some (goto (Heartbeating presence) s)
  | Starting _, HeartbeatExited err => Some (heartbeat_returned (process_exits s) err)
  | Starting _, SignalArrived => Some (goto Killed (Signal_Kill s))
  | Heartbeating _, HeartbeatExited err => Some (heartbeat_returned (process_exits s) err)
  | Heartbeating _, SignalArrived => Some (goto Killed (Signal_Kill s))
  | Heartbeating presence, TickerFired => Some (goto (HeartbeatPing presence) s)
  | HeartbeatPing presence, PingReply None => Some (goto (Heartbeating presence) s)
  | HeartbeatPing _, PingReply (Some err) => Some (goto (Stopping err) (Signal_Kill s))
  | Stopping err, HeartbeatExited _ => Some (heartbeat_returned (process_exits s) (Some err))
  | Stopping _, SignalArrived => Some (heartbeat_returned s None)
  | Killed, HeartbeatExited _ => Some (heartbeat_returned (process_exits s) None)
  | _, _ => None
  end.

Definition Run (m : Config) (s : maintainer) (i : input) : option maintainer :=
  match Run_phase s with
  | WaitingPing | WaitingSleep | WaitingResources => waitForExecutor m s i
  | Returned _ => None
  | _ => heartbeat s i
  end.

Fixpoint Run_all (m : Config) (s : maintainer) (inputs : list input) : option maintainer :=
  match inputs with
  | [] => Some s
  | i :: inputs => match Run m s i with Some s => Run_all m s inputs | None => None end
  end.

Definition maintainer_start : maintainer := mk_maintainer WaitingPing true 0 None.

(** Whether the presence process is running and has not been told to stop. *)
Definition maintaining (s : maintainer) : bool :=
  match heartbeatProcess s with Some (_, killed) => negb killed | None => false end.

Lemma Run_all_app m s l1 l2 s' :
  Run_all m s (l1 ++ l2) = Some s' ↔ ∃ s1, Run_all m s l1 = Some s1 ∧ Run_all m s1 l2 = Some s'.
Proof.
  induction l1 as [|i l1 IH] in s |- *; simpl; [naive_solver|].
  destruct (Run m s i); [apply IH|naive_solver].
Qed.

(** ** Invariants *)
Definition closed_while_running (s : maintainer) : Prop :=
  (ready s = false → ready_closed s ≤ 1) ∧
  (ready s = true → match Run_phase s with
     | WaitingPing | WaitingSleep | WaitingResources | Starting _ => ready_closed s = 0
     | Heartbeating _ | HeartbeatPing _ | Stopping _ => ready_closed s = 1
     | Killed | Returned _ => ready_closed s ≤ 1
     end).

Lemma Run_closed m s i s' : Run m s i = Some s' → closed_while_running s → closed_while_running s'.
Proof.
  destruct s as [p r n h]. unfold Run, waitForExecutor, heartbeat, heartbeat_returned, closed_while_running. simpl.
  intros Hs [Hf Ht].
  destruct p, r, i as [[]| | | | |[]|]; simpl in *; try done; repeat case_match; simplify_eq/=;
    split; intros; try done; naive_solver lia.
Qed.

(** Whatever holds at the start and is kept by every step holds throughout. *)
Lemma Run_all_invariant m (P : maintainer → Prop) s inputs s' :
  (∀ s i s', Run m s i = Some s' → P s → P s') → Run_all m s inputs = Some s' → P s → P s'.
Proof.
  intros Hstep. induction inputs as [|i inputs IH] in s |- *; simpl; [by intros [= ->]|].
  destruct (Run m s i) as [s1|] eqn:Hi; [|done]. eauto.
Qed.

(** The state after some inputs, with the last ones spelled out. *)
Definition after (inputs : list input) (s : maintainer) : Prop :=
  match Run_phase s with
  | WaitingResources => ∃ pre, inputs = pre ++ [PingReply None]
  | Starting _ => ∃ pre r, inputs = pre ++ [PingReply None; ResourcesReply (Ok r)]
  | _ => True
  end ∧
  (ready_closed s = 0 ∨
   ∃ pre r post, inputs = pre ++ [PingReply None; ResourcesReply (Ok r); HeartbeatReady] ++ post).

Lemma Run_after m inputs s i s' : Run m s i = Some s' → after inputs s → after (inputs ++ [i]) s'.
Proof.
  destruct s as [p r n h]. unfold after. simpl. intros Hs [Hp Hn].
  assert (n = 0 ∨ ∃ pre r post, inputs ++ [i] = pre ++ [PingReply None; ResourcesReply (Ok r); HeartbeatReady] ++ post) as Hn'.
  { destruct Hn as [|(pre & q & post & ->)]; [by left|right]. exists pre, q, (post ++ [i]). by rewrite <-!app_assoc. }
  unfold Run, waitForExecutor, heartbeat, heartbeat_returned in Hs. simpl in Hs.
  destruct p, i as [[]| |  |[]| |[]|]; simpl in *; try done; repeat case_match; simplify_eq/=; (split; [eauto|]); eauto.
  all: try (destruct Hp as (pre & ->); exists pre; eexists; by rewrite <-app_assoc).
  right. destruct Hp as (pre & q & ->). exists pre, q, []. by rewrite <-app_assoc.
Qed.

Lemma Run_all_after m inputs s : Run_all m maintainer_start inputs = Some s → after inputs s.
Proof.
  induction inputs as [|i inputs IH] in s |- * using rev_ind.
  { intros [= <-]. split; [done|by left]. }
  intros (s1 & H1 & H2)%Run_all_app. simpl in H2. destruct (Run m s1 i) as [s2|] eqn:Hi; [|done].
  injection H2 as ->. eapply Run_after; eauto.
Qed.

(** C22 Readiness is honest: [ready] is closed at most once (a second close would
    panic), and only after the executor answered a ping, told its resources, and
    the presence process was then ready. *)
Theorem maintainer_ready m inputs s :
  Run_all m maintainer_start inputs = Some s →
  ready_closed s ≤ 1 ∧
  (ready_closed s = 1 → ∃ pre r post,
     inputs = pre ++ [PingReply None; ResourcesReply (Ok r); HeartbeatReady] ++ post).
Proof.
  intros Hr. split.
  - assert (closed_while_running s) as [Hf Ht].
    { eapply Run_all_invariant; [apply Run_closed|exact Hr|by split]. }
    destruct (ready s); [|auto]. specialize (Ht eq_refl). destruct (Run_phase s); lia.
  - intros H1. apply Run_all_after in Hr as [_ [H0|H0]]; [congruence|done].
Qed.

(** The process that each phase has. *)
Definition process_of_phase (s : maintainer) : Prop :=
  match Run_phase s with
  | WaitingPing | WaitingSleep | WaitingResources => heartbeatProcess s = None
  | Starting presence | Heartbeating presence | HeartbeatPing presence => heartbeatProcess s = Some (presence, false)
  | Stopping _ | Killed => ∃ presence, heartbeatProcess s = Some (presence, true)
  | Returned _ => maintaining s = false
  end.

Lemma Run_process m s i s' : Run m s i = Some s' → process_of_phase s → process_of_phase s'.
Proof.
  destruct s as [p r n h]. unfold Run, waitForExecutor, heartbeat, heartbeat_returned, process_of_phase. simpl.
  intros Hs Hp. destruct p, i as [[]| |  |[]| |[]|]; simpl in *; try done; repeat case_match; simplify_eq/=; try done;
    try (destruct Hp as [presence ->]); by eexists || done.
Qed.

Lemma Run_all_process m inputs s : Run_all m maintainer_start inputs = Some s → process_of_phase s.
Proof. intros Hr. eapply Run_all_invariant; [apply Run_process|exact Hr|done]. Qed.

(** C23 The presence is kept up only for a live executor.  A presence process is started
    only when none runs, for the capacity that the executor reported right after
    answering a ping.  One that runs is sent the signal to stop at once when a ping
    fails or a signal arrives, and for no other reason; it is gone only when it has
    exited.  [Run] never returns while a process runs that was not told to stop, and
    after a signal it waits for nothing but the exit of the process. *)
Theorem presence_follows_executor m inputs s i s' :
  Run_all m maintainer_start inputs = Some s → Run m s i = Some s' →
  (heartbeatProcess s = None → heartbeatProcess s' ≠ None →
     ∃ pre r presence, inputs = pre ++ [PingReply None] ∧ i = ResourcesReply (Ok r) ∧
       createHeartbeater m (Ok r) = Ok presence ∧ heartbeatProcess s' = Some (presence, false)) ∧
  (∀ presence, heartbeatProcess s = Some (presence, false) →
     match i with
     | PingReply (Some _) | SignalArrived => heartbeatProcess s' = Some (presence, true)
     | HeartbeatExited _ => heartbeatProcess s' = None
     | _ => heartbeatProcess s' = Some (presence, false)
     end) ∧
  (∀ presence, heartbeatProcess s = Some (presence, true) →
     heartbeatProcess s' = match i with HeartbeatExited _ => None | _ => Some (presence, true) end) ∧
  (∀ result, Run_phase s' = Returned result → maintaining s' = false) ∧
  (i = SignalArrived →
     (∃ result, Run_phase s' = Returned result) ∨
     (Run_phase s' = Killed ∧ ∀ j s'', Run m s' j = Some s'' → (∃ err, j = HeartbeatExited err) ∧ Run_phase s'' = Returned None)).
Proof.
  intros Hr Hs. pose proof (Run_all_process _ _ _ Hr) as Hproc. pose proof (Run_process _ _ _ _ Hs Hproc) as Hproc'.
  apply Run_all_after in Hr as [Hp _].
  assert (∀ result, Run_phase s' = Returned result → maintaining s' = false) as Hret
    by (intros result Hphase; unfold process_of_phase in Hproc'; by rewrite Hphase in Hproc').
  destruct s as [p r n h]. clear Hproc'.
  unfold Run, waitForExecutor, heartbeat, heartbeat_returned, process_of_phase in *. simpl in *.
  split_and!; [| | |exact Hret|].
  - intros -> Hh. destruct p, i as [[]| |  |[]| |[]|]; simpl in *; try done; repeat case_match; simplify_eq/=; try done;
      try (by destruct Hproc). destruct Hp as (pre & ->). eauto 10.
  - intros presence ->. destruct p; try done; try (by destruct Hproc); destruct i as [[]| |  |[]| |[]|]; simpl in *; try done;
      repeat case_match; simplify_eq/=; done.
  - intros presence ->. destruct p; try done; destruct i as [[]| |  |[]| |[]|]; simpl in *; simplify_eq/=; done.
  - intros ->. destruct p; simpl in *; try done; simplify_eq/=; eauto; right; (split; [done|]);
      intros [] s'' ?; simplify_eq/=; eauto.
Qed.

(** A presence process that fails before it was ready costs the readiness of
    [Run]: the loop forgets [ready] after the first attempt, so no later attempt
    closes it, however successful. *)
Theorem ready_is_lost_after_failed_start m inputs s err rest s' :
  Run_all m maintainer_start inputs = Some s →
  (∃ presence, Run_phase s = Starting presence) → ready_closed s = 0 →
  Run_all m s (HeartbeatExited (Some err) :: rest) = Some s' →
  ready_closed s' = 0.
Proof.
  intros _ [presence Hp] H0 Hr. destruct s as [p r n h]. simpl in *. subst.
  unfold Run, heartbeat, heartbeat_returned in Hr. simpl in Hr.
  assert (∀ s i s', Run m s i = Some s' → ready s = false ∧ ready_closed s = 0 → ready s' = false ∧ ready_closed s' = 0)
    as Hstep.
  { clear. intros [p r n h] i s'. unfold Run, waitForExecutor, heartbeat, heartbeat_returned. simpl. intros Hs [-> ->].
    destruct p, i as [[]| | | | |[]|]; simpl in *; try done; repeat case_match; by simplify_eq/=. }
  by apply (Run_all_invariant m _ _ _ _ Hstep Hr).
Qed.

(** ** Witnesses *)
Definition example_config : Config := mkConfig "cell" "http://10.0.0.2:1800" "" "z1" 5 ["docker"] ["cflinuxfs2"] [] [].
Definition example_capacity : executor.ExecutorResources := executor.mkExecutorResources 1024 2048 256.
Definition example_presence : CellPresence :=
  NewCellPresence "cell" "http://10.0.0.2:1800" "" "z1" (NewCellCapacity 1024 2048 256) ["docker"] ["cflinuxfs2"] [] [].

Definition start_up : list input := [PingReply None; ResourcesReply (Ok example_capacity); HeartbeatReady].

Lemma maintainer_ready_witness :
  ∃ s, Run_all example_config maintainer_start start_up = Some s ∧ ready_closed s = 1 ∧ ready_closed s ≤ 1.
Proof.
  exists (mk_maintainer (Heartbeating example_presence) true 1 (Some (example_presence, false))).
  split; [vm_compute; reflexivity|]. split; [reflexivity|].
  apply (maintainer_ready example_config start_up). vm_compute. reflexivity.
Defined.

Lemma presence_follows_executor_witness :
  let s := mk_maintainer (HeartbeatPing example_presence) true 1 (Some (example_presence, false)) in
  ∃ s', Run example_config s (PingReply (Some json_Error)) = Some s' ∧
    heartbeatProcess s' = Some (example_presence, true).
Proof.
  eexists. split; [reflexivity|].
  destruct (presence_follows_executor example_config (start_up ++ [TickerFired])
    (mk_maintainer (HeartbeatPing example_presence) true 1 (Some (example_presence, false))) (PingReply (Some json_Error)) _
    ltac:(vm_compute; reflexivity) eq_refl) as (_ & Hkill & _).
  exact (Hkill example_presence eq_refl).
Defined.

Lemma ready_is_lost_after_failed_start_witness :
  ready_closed (mk_maintainer (Heartbeating example_presence) false 0 (Some (example_presence, false))) = 0.
Proof.
  apply (ready_is_lost_after_failed_start example_config [PingReply None; ResourcesReply (Ok example_capacity)]
    (mk_maintainer (Starting example_presence) true 0 (Some (example_presence, false))) (errors_New "lock lost") start_up);
    [vm_compute; reflexivity | eexists; reflexivity | reflexivity | vm_compute; reflexivity].
Defined.
