(* ===== verification/Wire.v ===== *)
(** The wire format of the rep's API: how [encoding/json] writes and reads the
    structs of resources.go (no tags, so fields go by their Go names; embedded
    structs are flattened into the enclosing one).

    The JSON names of [models.ActualLRPKey]'s fields are declared in another
    repository and are parameters.  A nil slice is written as null where the model
    writes an empty array; both are read back as the empty slice. *)

From S2P Require Import Prelude GoInt GoStrings GoUrl GoJson GoJsonText Effects Services RootFS Resources.

Class KeyFields := {
  process_guid_field : string;
  index_field : string;
  domain_field : string }.

Notation utf8_text s := (valid_utf8 s = true).

(** The names are UTF-8 and do not clash with the other fields of [LRP], whatever
    their case. *)
Class KeyFieldsLaws `{KeyFields} := {
  key_fields_distinct : NoDup (ToLower <$>
    [process_guid_field; index_field; domain_field; "PlacementTags"; "VolumeDrivers"; "RootFs";
     "MemoryMB"; "DiskMB"; "MaxPids"]);
  key_fields_text : utf8_text process_guid_field ∧ utf8_text index_field ∧ utf8_text domain_field }.

(** ** Values *)
Definition encode_int (n : Z) : json := JNumber (Itoa n).
Definition encode_strings (l : list string) : json := JArray (JString <$> l).

Definition decode_string (v : json) : res string :=
  match v with JString s => Ok s | JNull => Ok "" | _ => Err json_Error end.
Definition decode_bool (v : json) : res bool :=
  match v with JBool b => Ok b | JNull => Ok false | _ => Err json_Error end.
Definition decode_int (v : json) : res Z :=
  match v with
  | JNumber lit => match Atoi lit with Some n => Ok n | None => Err json_Error end
  | JNull => Ok 0%Z
  | _ => Err json_Error
  end.
Definition decode_int32 (v : json) : res Z :=
  n ← decode_int v; if bool_decide (is_int32 n) then Ok n else Err json_Error.
Definition decode_list {A} (dec : json → res A) (v : json) : res (list A) :=
  match v with JArray l => result_mapM dec l | JNull => Ok [] | _ => Err json_Error end.

(** A struct is read from an object; null leaves it zero.  A field is set from the
    member with its name, and keeps its zero value without one. *)
Definition decode_object (v : json) : res (list (string * json)) :=
  match v with JObject fields => Ok fields | JNull => Ok [] | _ => Err json_Error end.
Definition decode_field {A} (zero : A) (dec : json → res A) (name : string) (fields : list (string * json)) : res A :=
  match struct_field name fields with None => Ok zero | Some v => dec v end.

(** [json.Unmarshal] reads a whole text, a [json.Decoder] the first value of one. *)
Definition read_json {A} (dec : json → res A) (v : option json) : res A :=
  match v with Some v => dec v | None => Err json_Error end.
Definition Unmarshal {A} (dec : json → res A) (data : string) : res A := read_json dec (parse_json data).
Definition Decode {A} (dec : json → res A) (stream : string) : res A := read_json dec (first_value stream).

(** ** The structs *)
Definition encode_Resources (r : Resources) : json :=
  JObject [("MemoryMB", encode_int (MemoryMB r)); ("DiskMB", encode_int (DiskMB r));
           ("Containers", encode_int (Containers r))].
Definition decode_Resources (v : json) : res Resources :=
  fields ← decode_object v;
  memory ← decode_field 0%Z decode_int32 "MemoryMB" fields;
  disk ← decode_field 0%Z decode_int32 "DiskMB" fields;
  containers ← decode_field 0%Z decode_int "Containers" fields;
  Ok (mkResources memory disk containers).

Definition constraint_fields (pc : PlacementConstraint) : list (string * json) :=
  [("PlacementTags", encode_strings (pc_PlacementTags pc));
   ("VolumeDrivers", encode_strings (pc_VolumeDrivers pc));
   ("RootFs", JString (pc_RootFs pc))].
Definition decode_constraint (fields : list (string * json)) : res PlacementConstraint :=
  tags ← decode_field [] (decode_list decode_string) "PlacementTags" fields;
  drivers ← decode_field [] (decode_list decode_string) "VolumeDrivers" fields;
  rootFs ← decode_field "" decode_string "RootFs" fields;
  Ok (mkPlacementConstraint tags drivers rootFs).

Definition resource_fields (r : Resource) : list (string * json) :=
  [("MemoryMB", encode_int (res_MemoryMB r)); ("DiskMB", encode_int (res_DiskMB r));
   ("MaxPids", encode_int (res_MaxPids r))].
Definition decode_resource (fields : list (string * json)) : res Resource :=
  memory ← decode_field 0%Z decode_int32 "MemoryMB" fields;
  disk ← decode_field 0%Z decode_int32 "DiskMB" fields;
  pids ← decode_field 0%Z decode_int32 "MaxPids" fields;
  Ok (mkResource memory disk pids).

Definition encode_Task (t : Task) : json :=
  JObject ([("TaskGuid", JString (task_Guid t)); ("Domain", JString (task_Domain t))]
           ++ constraint_fields (task_PlacementConstraint t) ++ resource_fields (task_Resource t)).
Definition decode_Task (v : json) : res Task :=
  fields ← decode_object v;
  guid ← decode_field "" decode_string "TaskGuid" fields;
  domain ← decode_field "" decode_string "Domain" fields;
  pc ← decode_constraint fields;
  r ← decode_resource fields;
  Ok (mkTask guid domain pc r).

Section wire.
Context `{KeyFields}.

Definition key_fields (k : ActualLRPKey) : list (string * json) :=
  [(process_guid_field, JString (ProcessGuid k)); (index_field, encode_int (Index k));
   (domain_field, JString (Domain k))].
Definition decode_key (fields : list (string * json)) : res ActualLRPKey :=
  guid ← decode_field "" decode_string process_guid_field fields;
  index ← decode_field 0%Z decode_int32 index_field fields;
  domain ← decode_field "" decode_string domain_field fields;
  Ok (mkActualLRPKey guid index domain).

Definition encode_LRP (l : LRP) : json :=
  JObject (key_fields (lrp_Key l) ++ constraint_fields (lrp_PlacementConstraint l) ++ resource_fields (lrp_Resource l)).
Definition decode_LRP (v : json) : res LRP :=
  fields ← decode_object v;
  key ← decode_key fields;
  pc ← decode_constraint fields;
  r ← decode_resource fields;
  Ok (mkLRP key pc r).

Definition encode_Work (w : Work) : json :=
  JObject [("LRPs", JArray (encode_LRP <$> work_LRPs w)); ("Tasks", JArray (encode_Task <$> work_Tasks w))].
Definition decode_Work (v : json) : res Work :=
  fields ← decode_object v;
  lrps ← decode_field [] (decode_list decode_LRP) "LRPs" fields;
  tasks ← decode_field [] (decode_list decode_Task) "Tasks" fields;
  Ok (mkWork lrps tasks).

Definition encode_CellState (c : CellState) : json :=
  JObject [("RootFSProviders", RootFSProviders_MarshalJSON (cs_RootFSProviders c));
           ("AvailableResources", encode_Resources (cs_AvailableResources c));
           ("TotalResources", encode_Resources (cs_TotalResources c));
           ("LRPs", JArray (encode_LRP <$> cs_LRPs c));
           ("Tasks", JArray (encode_Task <$> cs_Tasks c));
           ("StartingContainerCount", encode_int (cs_StartingContainerCount c));
           ("Zone", JString (cs_Zone c));
           ("Evacuating", JBool (cs_Evacuating c));
           ("VolumeDrivers", encode_strings (cs_VolumeDrivers c));
           ("PlacementTags", encode_strings (cs_PlacementTags c));
           ("OptionalPlacementTags", encode_strings (cs_OptionalPlacementTags c))].
Definition decode_CellState (order : gmap string json → list (string * json)) (v : json) : res CellState :=
  fields ← decode_object v;
  root ← decode_field ∅ (RootFSProviders_UnmarshalJSON order) "RootFSProviders" fields;
  avail ← decode_field (mkResources 0 0 0) decode_Resources "AvailableResources" fields;
  total ← decode_field (mkResources 0 0 0) decode_Resources "TotalResources" fields;
  lrps ← decode_field [] (decode_list decode_LRP) "LRPs" fields;
  tasks ← decode_field [] (decode_list decode_Task) "Tasks" fields;
  starting ← decode_field 0%Z decode_int "StartingContainerCount" fields;
  zone ← decode_field "" decode_string "Zone" fields;
  evacuating ← decode_field false decode_bool "Evacuating" fields;
  drivers ← decode_field [] (decode_list decode_string) "VolumeDrivers" fields;
  tags ← decode_field [] (decode_list decode_string) "PlacementTags" fields;
  optional ← decode_field [] (decode_list decode_string) "OptionalPlacementTags" fields;
  Ok (mkCellState root avail total lrps tasks starting zone evacuating drivers tags optional).
End wire.

(** A map of strings from a JSON object.  A member that is not a string still gets
    an entry, with the zero value, and the first such member makes the error that is
    returned along with the map; null gives a nil map. *)
Definition member_string (v : json) : string := match v with JString s => s | _ => "" end.
Definition is_string_member (v : json) : bool := match v with JString _ | JNull => true | _ => false end.

Definition UnmarshalStackPathMap (payload : string) : gmap string string * option error :=
  match parse_json payload with
  | None => (∅, Some json_Error)
  | Some (JObject fields) =>
      (members_map (prod_map id member_string <$> fields),
       if forallb (λ kv, is_string_member kv.2) fields then None else Some json_Error)
  | Some JNull => (∅, None)
  | Some _ => (∅, Some json_Error)
  end.

(** ** What fits the fields' Go types *)
Definition resources_fit (r : Resources) : Prop :=
  is_int32 (MemoryMB r) ∧ is_int32 (DiskMB r) ∧ is_int (Containers r).
Definition resource_fits (r : Resource) : Prop :=
  is_int32 (res_MemoryMB r) ∧ is_int32 (res_DiskMB r) ∧ is_int32 (res_MaxPids r).
Definition lrp_fits (l : LRP) : Prop := is_int32 (Index (lrp_Key l)) ∧ resource_fits (lrp_Resource l).
Definition task_fits (t : Task) : Prop := resource_fits (task_Resource t).
Definition work_fits (w : Work) : Prop := Forall lrp_fits (work_LRPs w) ∧ Forall task_fits (work_Tasks w).
Definition state_fits (c : CellState) : Prop :=
  resources_fit (cs_AvailableResources c) ∧ resources_fit (cs_TotalResources c) ∧
  Forall lrp_fits (cs_LRPs c) ∧ Forall task_fits (cs_Tasks c) ∧ is_int (cs_StartingContainerCount c).

(** ** What arrives

    Go strings are bytes; [encoding/json] writes U+FFFD for what is not UTF-8, so
    only UTF-8 strings arrive as they were sent. *)
Definition constraint_to_utf8 (pc : PlacementConstraint) : PlacementConstraint :=
  mkPlacementConstraint (to_utf8 <$> pc_PlacementTags pc) (to_utf8 <$> pc_VolumeDrivers pc) (to_utf8 (pc_RootFs pc)).
Definition lrp_to_utf8 (l : LRP) : LRP :=
  let k := lrp_Key l in
  mkLRP (mkActualLRPKey (to_utf8 (ProcessGuid k)) (Index k) (to_utf8 (Domain k)))
    (constraint_to_utf8 (lrp_PlacementConstraint l)) (lrp_Resource l).
Definition task_to_utf8 (t : Task) : Task :=
  mkTask (to_utf8 (task_Guid t)) (to_utf8 (task_Domain t))
    (constraint_to_utf8 (task_PlacementConstraint t)) (task_Resource t).
Definition work_to_utf8 (w : Work) : Work := mkWork (lrp_to_utf8 <$> work_LRPs w) (task_to_utf8 <$> work_Tasks w).

(** Two schemes that are not UTF-8 can arrive as the same one, and then the decoder
    keeps the provider that it reads last: the providers are given separately. *)
Definition state_to_utf8 (root : RootFSProviders) (c : CellState) : CellState :=
  mkCellState root (cs_AvailableResources c) (cs_TotalResources c) (lrp_to_utf8 <$> cs_LRPs c)
    (task_to_utf8 <$> cs_Tasks c) (cs_StartingContainerCount c) (to_utf8 (cs_Zone c)) (cs_Evacuating c)
    (to_utf8 <$> cs_VolumeDrivers c) (to_utf8 <$> cs_PlacementTags c) (to_utf8 <$> cs_OptionalPlacementTags c).

Definition constraint_text (pc : PlacementConstraint) : Prop :=
  Forall (λ s, utf8_text s) (pc_PlacementTags pc) ∧ Forall (λ s, utf8_text s) (pc_VolumeDrivers pc) ∧
  utf8_text (pc_RootFs pc).
Definition lrp_text (l : LRP) : Prop :=
  utf8_text (ProcessGuid (lrp_Key l)) ∧ utf8_text (Domain (lrp_Key l)) ∧ constraint_text (lrp_PlacementConstraint l).
Definition task_text (t : Task) : Prop :=
  utf8_text (task_Guid t) ∧ utf8_text (task_Domain t) ∧ constraint_text (task_PlacementConstraint t).
Definition work_text (w : Work) : Prop := Forall lrp_text (work_LRPs w) ∧ Forall task_text (work_Tasks w).
Definition provider_text (p : option RootFSProvider) : Prop :=
  match p with Some (FixedSetRootFSProvider set) => set_Forall (λ s, utf8_text s) set | _ => True end.
Definition providers_text (p : RootFSProviders) : Prop := map_Forall (λ k v, utf8_text k ∧ provider_text v) p.
Definition state_text (c : CellState) : Prop :=
  providers_text (cs_RootFSProviders c) ∧ Forall lrp_text (cs_LRPs c) ∧ Forall task_text (cs_Tasks c) ∧
  utf8_text (cs_Zone c) ∧ Forall (λ s, utf8_text s) (cs_VolumeDrivers c) ∧
  Forall (λ s, utf8_text s) (cs_PlacementTags c) ∧ Forall (λ s, utf8_text s) (cs_OptionalPlacementTags c).

(** UTF-8 strings arrive as they are. *)
Lemma strings_unchanged l : Forall (λ s, utf8_text s) l → to_utf8 <$> l = l.
Proof. induction 1 as [|x l Hx _ IH]; [done|]. by rewrite fmap_cons, IH, to_utf8_valid. Qed.

Lemma constraint_unchanged pc : constraint_text pc → constraint_to_utf8 pc = pc.
Proof.
  destruct pc. intros (? & ? & ?). unfold constraint_to_utf8. simpl in *.
  by rewrite !strings_unchanged, to_utf8_valid.
Qed.
Lemma lrp_unchanged l : lrp_text l → lrp_to_utf8 l = l.
Proof.
  destruct l as [[] ? ?]. intros (? & ? & ?). unfold lrp_to_utf8. simpl in *.
  by rewrite !to_utf8_valid, constraint_unchanged.
Qed.
Lemma task_unchanged t : task_text t → task_to_utf8 t = t.
Proof.
  destruct t. intros (? & ? & ?). unfold task_to_utf8. simpl in *. by rewrite !to_utf8_valid, constraint_unchanged.
Qed.
Lemma items_unchanged {A} (P : A → Prop) f l : (∀ x, P x → f x = x) → Forall P l → f <$> l = l.
Proof. intros Hf. induction 1 as [|x l Hx _ IH]; [done|]. by rewrite fmap_cons, IH, Hf. Qed.
Lemma work_unchanged w : work_text w → work_to_utf8 w = w.
Proof.
  destruct w. intros [? ?]. unfold work_to_utf8. simpl in *. f_equal; eapply items_unchanged; eauto using lrp_unchanged, task_unchanged.
Qed.
Lemma state_unchanged c : state_text c → state_to_utf8 (cs_RootFSProviders c) c = c.
Proof.
  destruct c. intros (? & ? & ? & ? & ? & ? & ?). unfold state_to_utf8. simpl in *.
  rewrite !strings_unchanged, to_utf8_valid by done.
  f_equal; eapply items_unchanged; eauto using lrp_unchanged, task_unchanged.
Qed.

(** What arrived is UTF-8, and arrives unchanged when it is sent on. *)
Lemma strings_arrived (l : list string) : to_utf8 <$> (to_utf8 <$> l) = to_utf8 <$> l.
Proof. rewrite <-list_fmap_compose. apply list_fmap_ext. intros i x _. apply to_utf8_idem. Qed.
Lemma lrp_arrived l : lrp_to_utf8 (lrp_to_utf8 l) = lrp_to_utf8 l.
Proof. unfold lrp_to_utf8, constraint_to_utf8. simpl. by rewrite !strings_arrived, !to_utf8_idem. Qed.
Lemma task_arrived t : task_to_utf8 (task_to_utf8 t) = task_to_utf8 t.
Proof. unfold task_to_utf8, constraint_to_utf8. simpl. by rewrite !strings_arrived, !to_utf8_idem. Qed.

(** ** The documents as they arrive *)
Definition member_to_utf8 (kv : string * json) : string * json := (to_utf8 kv.1, json_to_utf8 kv.2).

Lemma array_to_utf8 {A} (enc : A → json) f l :
  (∀ x, json_to_utf8 (enc x) = enc (f x)) → json_to_utf8 (JArray (enc <$> l)) = JArray (enc <$> (f <$> l)).
Proof.
  intros Hf. cbn [json_to_utf8]. f_equal. induction l as [|x l IH]; [done|]. rewrite !fmap_cons. cbn [map]. rewrite Hf. f_equal. exact IH.
Qed.

Lemma strings_to_utf8 l : json_to_utf8 (encode_strings l) = encode_strings (to_utf8 <$> l).
Proof. by apply (array_to_utf8 JString). Qed.

Lemma constraint_fields_to_utf8 pc :
  map member_to_utf8 (constraint_fields pc) = constraint_fields (constraint_to_utf8 pc).
Proof. unfold constraint_fields, member_to_utf8. cbn [map fst snd]. rewrite !strings_to_utf8. reflexivity. Qed.

Lemma Task_to_utf8 t : json_to_utf8 (encode_Task t) = encode_Task (task_to_utf8 t).
Proof.
  unfold encode_Task. cbn [json_to_utf8]. f_equal. fold member_to_utf8. rewrite !map_app, constraint_fields_to_utf8. reflexivity.
Qed.

(** ** Their numbers are JSON *)
Lemma numbers_ok_array {A} (enc : A → json) l :
  Forall (λ x, numbers_ok (enc x) = true) l → numbers_ok (JArray (enc <$> l)) = true.
Proof.
  intros Hl. apply forallb_forall. intros v (x & -> & Hx)%list_elem_of_In%list_elem_of_fmap.
  by eapply Forall_forall in Hl.
Qed.

Definition member_ok (kv : string * json) : Prop := numbers_ok kv.2 = true.

Lemma numbers_ok_object fields : Forall member_ok fields → numbers_ok (JObject fields) = true.
Proof. intros Hl. apply forallb_forall. intros kv Hkv%list_elem_of_In. by eapply Forall_forall in Hl. Qed.

Lemma number_int n : is_int n → numbers_ok (encode_int n) = true.
Proof. apply number_ok_Itoa. Qed.
Lemma is_int32_int n : is_int32 n → is_int n.
Proof. unfold is_int32, is_int. lia. Qed.
Lemma number_int32 n : is_int32 n → numbers_ok (encode_int n) = true.
Proof. intros Hn. by apply number_int, is_int32_int. Qed.
Lemma numbers_strings l : numbers_ok (encode_strings l) = true.
Proof. apply (numbers_ok_array JString). by apply Forall_forall. Qed.

Create HintDb wire.
#[local] Hint Resolve number_int number_int32 numbers_strings numbers_ok_array : wire.

(** One member after the other. *)
Ltac members_ok :=
  repeat (rewrite ?Forall_app; first [apply Forall_nil_2 | apply Forall_cons_2 | split];
          try (unfold member_ok; cbn [snd]; (reflexivity || eauto with wire))).

Lemma constraint_ok pc : Forall member_ok (constraint_fields pc).
Proof. unfold constraint_fields. members_ok. Qed.
Lemma resource_ok r : resource_fits r → Forall member_ok (resource_fields r).
Proof. intros (? & ? & ?). unfold resource_fields. members_ok. Qed.
Lemma Resources_ok r : resources_fit r → numbers_ok (encode_Resources r) = true.
Proof. intros (? & ? & ?). apply numbers_ok_object. members_ok. Qed.
Lemma Task_ok t : task_fits t → numbers_ok (encode_Task t) = true.
Proof.
  intros ?. apply numbers_ok_object. rewrite !Forall_app. split_and!; [members_ok|apply constraint_ok|by apply resource_ok].
Qed.

Lemma RootFSProvider_ok p : numbers_ok (RootFSProvider_MarshalJSON p) = true.
Proof.
  destruct p as [|set]; [done|]. apply numbers_ok_object. members_ok.
  apply numbers_ok_object, Forall_forall. by intros kv (k & -> & _)%list_elem_of_fmap.
Qed.
Lemma RootFSProviders_ok p : numbers_ok (RootFSProviders_MarshalJSON p) = true.
Proof.
  apply numbers_ok_object, Forall_forall. intros kv (k & -> & _)%list_elem_of_fmap. unfold member_ok. cbn [snd].
  destruct (p !! k) as [[v|]|]; [apply RootFSProvider_ok|done..].
Qed.

(** ** The providers as they arrive *)
Lemma StringSet_arrives s :
  StringSet_UnmarshalJSON (json_to_utf8 (StringSet_MarshalJSON s)) =
    Ok (NewStringSet (to_utf8 <$> SortStrings (elements s))).
Proof.
  unfold StringSet_MarshalJSON. generalize (SortStrings (elements s)). intros l. cbn [json_to_utf8].
  unfold StringSet_UnmarshalJSON. rewrite (proj2 (forallb_forall _ _)).
  - do 2 f_equal. induction l as [|x l IH]; [done|]. rewrite !fmap_cons. simpl. f_equal. exact IH.
  - intros kv (kv' & <- & (k & -> & _)%list_elem_of_In%list_elem_of_fmap)%in_map_iff. reflexivity.
Qed.

Lemma RootFSProvider_arrives p :
  ∃ p', unmarshalRootFSProvider (json_to_utf8 (RootFSProvider_MarshalJSON p)) = Ok p'.
Proof.
  destruct p as [|set]; [by eexists|]. unfold RootFSProvider_MarshalJSON.
  set (t := JString _). assert (json_to_utf8 (JObject [("set", StringSet_MarshalJSON set); ("type", t)]) =
    JObject [("set", json_to_utf8 (StringSet_MarshalJSON set)); ("type", t)]) as -> by reflexivity.
  unfold unmarshalRootFSProvider, rootFSProviderEnvelope. rewrite struct_field_type. cbn [mbind result_bind].
  unfold FixedSetRootFSProvider_UnmarshalJSON. rewrite struct_field_set, StringSet_arrives. by eexists.
Qed.

Lemma members_unchanged fields :
  Forall (λ kv, utf8_text kv.1 ∧ json_to_utf8 kv.2 = kv.2) fields → json_to_utf8 (JObject fields) = JObject fields.
Proof.
  intros Hl. cbn [json_to_utf8]. f_equal. induction Hl as [|[k v] l [Hk Hv] _ IH]; [done|].
  simpl in *. by rewrite IH, Hv, to_utf8_valid.
Qed.

Lemma providers_unchanged p : providers_text p → json_to_utf8 (RootFSProviders_MarshalJSON p) = RootFSProviders_MarshalJSON p.
Proof.
  intros Hp. apply members_unchanged, Forall_forall. intros kv (k & -> & Hk)%list_elem_of_fmap.
  apply elem_of_SortStrings_elements, elem_of_dom in Hk as [v Hv]. destruct (Hp _ _ Hv) as [Hk Hvt].
  split; [done|]. cbn [snd]. rewrite Hv. destruct v as [[|set]|]; [reflexivity| |reflexivity].
  apply members_unchanged. apply Forall_cons_2; [|apply Forall_singleton; done]. split; [done|]. cbn [snd].
  apply members_unchanged, Forall_forall. intros kv (x & -> & Hx)%list_elem_of_fmap.
  apply elem_of_SortStrings_elements in Hx. split; [by apply Hvt|done].
Qed.

(** The decoder accepts the providers that a cell writes, whatever their names. *)
Lemma RootFSProviders_arrive order p :
  (∀ m, iteration_of m (order m)) →
  ∃ root, RootFSProviders_UnmarshalJSON order (json_to_utf8 (RootFSProviders_MarshalJSON p)) = Ok root ∧
    (providers_text p → root = p).
Proof.
  intros Horder. assert (∃ root, RootFSProviders_UnmarshalJSON order (json_to_utf8 (RootFSProviders_MarshalJSON p)) = Ok root)
    as [root Hroot].
  { unfold RootFSProviders_MarshalJSON. cbn [json_to_utf8]. unfold RootFSProviders_UnmarshalJSON.
    set (fields := map _ _). set (m := members_map fields). destruct (iteration_of_spec _ _ (Horder m)) as [Hnd Hin].
    assert (∀ k v, m !! k = Some v → ∃ x, unmarshalRootFSProvider v = Ok x) as Hm.
    { intros k v Hv. unfold m in Hv. rewrite members_map_list_to_map in Hv. apply elem_of_list_to_map_2 in Hv.
      rewrite elem_of_reverse in Hv. unfold fields in Hv.
      apply list_elem_of_In, in_map_iff in Hv as (kv & [= _ <-] & (k' & -> & _)%list_elem_of_In%list_elem_of_fmap).
      cbn [snd]. destruct (p !! k') as [[x|]|]; [apply RootFSProvider_arrives|by eexists..]. }
    destruct (unmarshal_members_ok (order m)
      (λ k, match m !! k with Some v => match unmarshalRootFSProvider v with Ok x => x | Err _ => None end | None => None end) ∅)
      as (root & Hroot & _); [|done|by exists root].
    intros k v Hv%Hin. rewrite Hv. by destruct (Hm k v Hv) as [x ->]. }
  exists root. split; [done|]. intros Ht. assert (json_to_utf8 (RootFSProviders_MarshalJSON p) = RootFSProviders_MarshalJSON p) as Heq;
    [|rewrite Heq, RootFSProviders_roundtrip in Hroot by done; by injection Hroot].
  apply providers_unchanged, Ht.
Qed.

(** ** Round trips of the parts *)

(** With distinct names (whatever their case) every member reaches its field. *)
Lemma struct_field_lookup name v l :
  NoDup (ToLower <$> l.*1) → (name, v) ∈ l → struct_field name l = Some v.
Proof.
  unfold struct_field. generalize (@None json). induction l as [|[k w] l IH]; intros acc; [by intros _ ?%elem_of_nil|].
  rewrite !fmap_cons, NoDup_cons. cbn [foldl fst snd]. intros [Hk Hnd] [[= -> ->]|Hin]%elem_of_cons; [|by apply IH].
  rewrite bool_decide_true by done. clear IH Hnd. induction l as [|[k' w'] l IH]; [done|].
  cbn [foldl fst snd]. rewrite !fmap_cons, not_elem_of_cons in Hk. destruct Hk as [Hne Hk].
  simpl in Hne. rewrite bool_decide_false by congruence. by apply IH.
Qed.

Lemma decode_field_member {A} (zero : A) dec name v l :
  NoDup (ToLower <$> l.*1) → (name, v) ∈ l → decode_field zero dec name l = dec v.
Proof. intros Hnd Hin. unfold decode_field. by rewrite (struct_field_lookup _ v). Qed.

Lemma decode_int_encode n : is_int n → decode_int (encode_int n) = Ok n.
Proof. intros Hn. unfold decode_int, encode_int. by rewrite Atoi_Itoa. Qed.

Lemma decode_int32_encode n : is_int32 n → decode_int32 (encode_int n) = Ok n.
Proof.
  intros Hn. unfold decode_int32. rewrite decode_int_encode by by apply is_int32_int.
  simpl. by rewrite bool_decide_true.
Qed.

Lemma decode_list_encode {A} (enc : A → json) dec l :
  (∀ x, x ∈ l → dec (enc x) = Ok x) → decode_list dec (JArray (enc <$> l)) = Ok l.
Proof.
  intros Hx. apply result_mapM_ok. apply Forall2_fmap_l, Forall_Forall2_diag, Forall_forall. exact Hx.
Qed.

Lemma decode_strings_encode l : decode_list decode_string (encode_strings l) = Ok l.
Proof. by apply decode_list_encode. Qed.

(** Finds each field of a struct in turn. *)
Ltac find_fields Hnd :=
  repeat (rewrite (decode_field_member _ _ _ _ _ Hnd) by (repeat first [apply list_elem_of_here | apply list_elem_of_further]);
          rewrite ?decode_strings_encode, ?decode_int32_encode, ?decode_int_encode by done; cbn [mbind result_bind decode_string decode_bool]).

Lemma Resources_roundtrip r : resources_fit r → decode_Resources (encode_Resources r) = Ok r.
Proof.
  destruct r as [m d c]. intros (? & ? & ?). unfold decode_Resources, encode_Resources.
  cbn [mbind result_bind decode_object]. set (l := [_; _; _]).
  assert (NoDup (ToLower <$> l.*1)) as Hnd by (apply (bool_decide_unpack _); vm_compute; exact I).
  unfold l. find_fields Hnd. done.
Qed.

(** An embedded struct is read from the fields it was flattened into. *)
Section embedded.
Context (l : list (string * json)) (Hnd : NoDup (ToLower <$> l.*1)).

Lemma decode_member {A} (zero : A) dec name v part :
  part ⊆ l → (name, v) ∈ part → decode_field zero dec name l = dec v.
Proof. intros Hsub Hin. apply decode_field_member; [done|]. by apply Hsub. Qed.

Ltac find_part Hsub :=
  repeat (erewrite decode_member by first [exact Hsub | repeat first [apply list_elem_of_here | apply list_elem_of_further]];
          rewrite ?decode_strings_encode, ?decode_int32_encode, ?decode_int_encode by done;
          cbn [mbind result_bind decode_string decode_bool]).

Lemma constraint_roundtrip pc : constraint_fields pc ⊆ l → decode_constraint l = Ok pc.
Proof. intros Hsub. unfold decode_constraint. destruct pc. find_part Hsub. done. Qed.

Lemma resource_roundtrip r : resource_fits r → resource_fields r ⊆ l → decode_resource l = Ok r.
Proof. intros (? & ? & ?) Hsub. unfold decode_resource. destruct r. find_part Hsub. done. Qed.

Lemma key_roundtrip `{KeyFields} k : is_int32 (Index k) → key_fields k ⊆ l → decode_key l = Ok k.
Proof. intros ? Hsub. unfold decode_key. destruct k. find_part Hsub. done. Qed.

End embedded.

(** Members and parts of a list of fields. *)
Ltac member_of := repeat first [apply list_elem_of_here | apply list_elem_of_further].
Ltac part_of :=
  intros ? ?; match goal with |- _ ∈ ?l => unfold l end; rewrite ?elem_of_app; auto.

Lemma Task_roundtrip t : task_fits t → decode_Task (encode_Task t) = Ok t.
Proof.
  intros Hr. unfold decode_Task, encode_Task. cbn [mbind result_bind decode_object].
  set (l := _ ++ _).
  assert (NoDup (ToLower <$> l.*1)) as Hnd by (apply (bool_decide_unpack _); vm_compute; exact I).
  rewrite (decode_field_member _ _ "TaskGuid" (JString (task_Guid t)) l Hnd) by member_of.
  rewrite (decode_field_member _ _ "Domain" (JString (task_Domain t)) l Hnd) by member_of.
  cbn [mbind result_bind decode_string].
  rewrite (constraint_roundtrip l Hnd (task_PlacementConstraint t)) by part_of.
  rewrite (resource_roundtrip l Hnd (task_Resource t)) by first [done | part_of]. by destruct t.
Qed.

Section wire_facts.
Context `{KeyFieldsLaws}.

Lemma LRP_roundtrip l : lrp_fits l → decode_LRP (encode_LRP l) = Ok l.
Proof.
  intros [Hk Hr]. unfold decode_LRP, encode_LRP. cbn [mbind result_bind decode_object].
  set (fs := _ ++ _). assert (NoDup (ToLower <$> fs.*1)) as Hnd by exact key_fields_distinct.
  rewrite (key_roundtrip fs Hnd (lrp_Key l)) by first [done | part_of]. cbn [mbind result_bind].
  rewrite (constraint_roundtrip fs Hnd (lrp_PlacementConstraint l)) by part_of. cbn [mbind result_bind].
  rewrite (resource_roundtrip fs Hnd (lrp_Resource l)) by first [done | part_of]. by destruct l.
Qed.

Lemma LRPs_roundtrip l : Forall lrp_fits l → decode_list decode_LRP (JArray (encode_LRP <$> l)) = Ok l.
Proof. intros Hl. apply decode_list_encode. rewrite Forall_forall in Hl. auto using LRP_roundtrip. Qed.

Lemma Tasks_roundtrip l : Forall task_fits l → decode_list decode_Task (JArray (encode_Task <$> l)) = Ok l.
Proof. intros Hl. apply decode_list_encode. rewrite Forall_forall in Hl. auto using Task_roundtrip. Qed.

Lemma Work_roundtrip w : work_fits w → decode_Work (encode_Work w) = Ok w.
Proof.
  intros [Hl Ht]. unfold decode_Work, encode_Work. cbn [mbind result_bind decode_object].
  set (l := [_; _]). assert (NoDup (ToLower <$> l.*1)) as Hnd by (apply (bool_decide_unpack _); vm_compute; exact I).
  unfold l. find_fields Hnd. rewrite LRPs_roundtrip by done. find_fields Hnd.
  rewrite Tasks_roundtrip by done. by destruct w.
Qed.

(** The document of a state whose providers are given as JSON. *)
Definition state_document (providers : json) (c : CellState) : json :=
  match encode_CellState c with JObject (_ :: fields) => JObject (("RootFSProviders", providers) :: fields) | v => v end.

Lemma state_document_read order providers c :
  RootFSProviders_UnmarshalJSON order providers = Ok (cs_RootFSProviders c) → state_fits c →
  decode_CellState order (state_document providers c) = Ok c.
Proof.
  intros Hroot (Ha & Ht & Hl & Hk & Hs). unfold state_document, decode_CellState, encode_CellState.
  cbn [mbind result_bind decode_object]. set (l := _ :: _).
  assert (NoDup (ToLower <$> l.*1)) as Hnd by (apply (bool_decide_unpack _); vm_compute; exact I).
  unfold l. find_fields Hnd. rewrite Hroot.
  find_fields Hnd. rewrite Resources_roundtrip by done.
  find_fields Hnd. rewrite Resources_roundtrip by done.
  find_fields Hnd. rewrite LRPs_roundtrip by done.
  find_fields Hnd. rewrite Tasks_roundtrip by done.
  find_fields Hnd. by destruct c.
Qed.

Lemma LRP_ok l : lrp_fits l → numbers_ok (encode_LRP l) = true.
Proof.
  intros [? ?]. apply numbers_ok_object. rewrite !Forall_app.
  split_and!; [unfold key_fields; members_ok|apply constraint_ok|by apply resource_ok].
Qed.

Lemma LRPs_ok l : Forall lrp_fits l → numbers_ok (JArray (encode_LRP <$> l)) = true.
Proof. intros Hl. apply numbers_ok_array. eapply Forall_impl; [exact Hl|]. apply LRP_ok. Qed.
Lemma Tasks_ok l : Forall task_fits l → numbers_ok (JArray (encode_Task <$> l)) = true.
Proof. intros Hl. apply numbers_ok_array. eapply Forall_impl; [exact Hl|]. apply Task_ok. Qed.

Lemma Work_ok w : work_fits w → numbers_ok (encode_Work w) = true.
Proof. intros [? ?]. apply numbers_ok_object. members_ok; auto using LRPs_ok, Tasks_ok. Qed.

Lemma CellState_ok c : state_fits c → numbers_ok (encode_CellState c) = true.
Proof.
  intros (? & ? & ? & ? & ?). apply numbers_ok_object.
  members_ok; auto using LRPs_ok, Tasks_ok, Resources_ok, RootFSProviders_ok.
Qed.

Lemma LRP_to_utf8 l : json_to_utf8 (encode_LRP l) = encode_LRP (lrp_to_utf8 l).
Proof.
  destruct key_fields_text as (Hp & Hi & Hd). unfold encode_LRP. cbn [json_to_utf8]. f_equal. fold member_to_utf8.
  rewrite !map_app, constraint_fields_to_utf8. f_equal.
  unfold key_fields, member_to_utf8. cbn [map fst snd]. by rewrite !(to_utf8_valid _ Hp), !(to_utf8_valid _ Hi), !(to_utf8_valid _ Hd).
Qed.

Lemma Work_to_utf8 w : json_to_utf8 (encode_Work w) = encode_Work (work_to_utf8 w).
Proof.
  unfold encode_Work, work_to_utf8. cbn [work_LRPs work_Tasks].
  rewrite <-(array_to_utf8 encode_LRP lrp_to_utf8 _ LRP_to_utf8), <-(array_to_utf8 encode_Task task_to_utf8 _ Task_to_utf8).
  reflexivity.
Qed.

Lemma work_to_utf8_fits w : work_fits w → work_fits (work_to_utf8 w).
Proof. intros [Hl Ht]. split; apply Forall_fmap; [exact Hl|exact Ht]. Qed.

(** ** Through the connection *)
Lemma Work_arrives w :
  work_fits w →
  Decode decode_Work (Marshal (encode_Work w)) = Ok (work_to_utf8 w) ∧
  Decode decode_Work (Encode (encode_Work w)) = Ok (work_to_utf8 w).
Proof.
  intros Hw. pose proof (Work_ok w Hw) as Hok. unfold Decode, Encode.
  assert (first_value (Marshal (encode_Work w)) = Some (json_to_utf8 (encode_Work w))) as ->
    by (rewrite <-(string_app_nil_r (Marshal _)); by apply first_value_Marshal).
  rewrite first_value_Marshal by first [done | simpl; set_solver].
  cbn [read_json]. rewrite Work_to_utf8. split; by apply Work_roundtrip, work_to_utf8_fits.
Qed.

(** The state as it arrives: [root] is what became of the providers. *)
Lemma CellState_arrives order c :
  (∀ m, iteration_of m (order m)) → state_fits c →
  ∃ root, Unmarshal (decode_CellState order) (Encode (encode_CellState c)) = Ok (state_to_utf8 root c) ∧
    (providers_text (cs_RootFSProviders c) → root = cs_RootFSProviders c).
Proof.
  intros Ho Hc. destruct (RootFSProviders_arrive order (cs_RootFSProviders c) Ho) as (root & Hroot & Htext).
  exists root. split; [|exact Htext]. unfold Unmarshal. rewrite parse_Encode by by apply CellState_ok. cbn [read_json].
  assert (json_to_utf8 (encode_CellState c) =
    state_document (json_to_utf8 (RootFSProviders_MarshalJSON (cs_RootFSProviders c))) (state_to_utf8 root c)) as ->.
  { unfold state_document, encode_CellState, state_to_utf8.
    cbn [cs_LRPs cs_Tasks cs_VolumeDrivers cs_PlacementTags cs_OptionalPlacementTags].
    rewrite <-(array_to_utf8 encode_LRP lrp_to_utf8 _ LRP_to_utf8), <-(array_to_utf8 encode_Task task_to_utf8 _ Task_to_utf8),
      <-!strings_to_utf8. reflexivity. }
  apply state_document_read; [exact Hroot|]. destruct Hc as (? & ? & ? & ? & ?). split_and!; try done; by apply Forall_fmap.
Qed.

(** C29 What the cell and the auctioneer tell each other arrives, down to the bytes of
    the messages: a state or a piece of work within the range of its Go types, with
    strings that are UTF-8, is read back unchanged from the text that is written for
    it - the state that a cell encodes, the work that the auctioneer sends and the
    failed work that a cell encodes in return - for every order in which the decoder
    may visit a map, and provided the key's field names do not clash with the others. *)
Theorem wire_roundtrip order c w :
  (∀ m, iteration_of m (order m)) → state_fits c → state_text c → work_fits w → work_text w →
  Unmarshal (decode_CellState order) (Encode (encode_CellState c)) = Ok c ∧
  Decode decode_Work (Marshal (encode_Work w)) = Ok w ∧
  Decode decode_Work (Encode (encode_Work w)) = Ok w.
Proof.
  intros Horder Hc Hct Hw Hwt. destruct (Work_arrives w Hw) as [-> ->].
  destruct (CellState_arrives order c Horder Hc) as (root & -> & Hroot). rewrite work_unchanged, Hroot by first [done | apply Hct].
  by rewrite state_unchanged.
Qed.

End wire_facts.

(** Without an error, the map has exactly the entries of the object, the last one
    for a repeated name. *)
Lemma UnmarshalStackPathMap_ok payload m :
  UnmarshalStackPathMap payload = (m, None) →
  (parse_json payload = Some JNull ∧ m = ∅) ∨
  ∃ fields, parse_json payload = Some (JObject fields) ∧
    Forall (λ kv, is_string_member kv.2 = true) fields ∧
    ∀ k, m !! k = member_string <$> (members_map fields !! k).
Proof.
  unfold UnmarshalStackPathMap. destruct (parse_json payload) as [[| | | | |fields]|]; try done.
  { intros [= <-]. by left. }
  destruct (forallb _ fields) eqn:Hall; [|done]. intros [= <-]. right. exists fields. split; [done|]. split.
  { apply Forall_forall. intros kv Hkv. rewrite forallb_forall in Hall. by apply Hall, list_elem_of_In. }
  intros k. clear Hall. unfold members_map.
  assert (∀ a : gmap string string, ∀ b : gmap string json, a !! k = member_string <$> b !! k →
    foldl (λ m kv, <[kv.1:=kv.2]> m) a (prod_map id member_string <$> fields) !! k =
    member_string <$> foldl (λ m kv, <[kv.1:=kv.2]> m) b fields !! k) as Hfold.
  { induction fields as [|[k' v] fields IH]; intros a b Hab; simpl; [done|]. apply IH.
    destruct (decide (k' = k)) as [->|Hne]; [by rewrite !lookup_insert_eq|by rewrite !lookup_insert_ne]. }
  by apply Hfold.
Qed.

Example UnmarshalStackPathMap_example :
  UnmarshalStackPathMap (ReplaceAll "{'linux': '/rootfs', 'windows': 7}" "'"%char (byte 34)) =
    ({["linux" := "/rootfs"; "windows" := ""]}, Some json_Error).
Proof. vm_compute. reflexivity. Qed.

(** ** Witness *)
#[local] Instance example_key_fields : KeyFields := {|
  process_guid_field := "process_guid"; index_field := "index"; domain_field := "domain" |}.
#[local] Instance example_key_fields_laws : KeyFieldsLaws.
Proof. split; [apply (bool_decide_unpack _); vm_compute; exact I|auto]. Qed.

(** A cell with both kinds of provider that runs an LRP and a task. *)
Definition example_report : CellState :=
  mkCellState {["docker" := Some ArbitraryRootFSProvider; "preloaded" := Some (NewFixedSetRootFSProvider ["linux"; "windows"])]}
    (mkResources 1000 2000 3) (mkResources 4000 8000 10) [example_lrp] [example_task] 1 "z1" false
    ["local"; "nfs"] ["gpu"] ["ssd"].

Lemma wire_roundtrip_witness :
  let w := mkWork [example_lrp] [example_task] in
  Unmarshal (decode_CellState map_to_list) (Encode (encode_CellState example_report)) = Ok example_report ∧
  Decode decode_Work (Marshal (encode_Work w)) = Ok w ∧
  Decode decode_Work (Encode (encode_Work w)) = Ok w.
Proof.
  assert (constraint_text (mkPlacementConstraint [] [] "preloaded:linux")) as Hpc
    by (split_and!; [apply Forall_nil_2..|reflexivity]).
  assert (lrp_fits example_lrp ∧ task_fits example_task) as [Hlf Htf]
    by (unfold lrp_fits, task_fits, resource_fits, is_int32; simpl; lia).
  assert (lrp_text example_lrp ∧ task_text example_task) as [Hlt Htt] by (split; split_and!; auto).
  apply wire_roundtrip.
  - intros m. unfold iteration_of. reflexivity.
  - unfold state_fits, resources_fit, is_int32, is_int. simpl. rewrite !Forall_singleton. split_and!; auto; lia.
  - split_and!; rewrite ?Forall_singleton; try done; [|apply (bool_decide_unpack _); vm_compute; exact I..].
    unfold providers_text. apply map_Forall_insert_2; [done|]. apply map_Forall_singleton. split; [reflexivity|].
    intros x Hx%elem_of_elements. revert x Hx. apply Forall_forall, (bool_decide_unpack _). vm_compute. exact I.
  - split; by apply Forall_singleton.
  - split; by apply Forall_singleton.
Defined.
