(* ===== verification/Routes.v ===== *)
(** routes.go: the routes of the rep's servers. *)

From S2P Require Import Prelude.

Definition StateRoute : string := "STATE".
Definition PerformRoute : string := "PERFORM".
Definition StopLRPInstanceRoute : string := "StopLRPInstance".
Definition CancelTaskRoute : string := "CancelTask".
Definition Sim_ResetRoute : string := "RESET".
Definition PingRoute : string := "Ping".
Definition EvacuateRoute : string := "Evacuate".

(** [rata.Route]. *)
Record Route := mkRoute { Path : string; Method : string; route_Name : string }.

#[global] Instance Route_eq_dec : EqDecision Route.
Proof. solve_decision. Defined.

Definition NewRoutes (secure : bool) : list Route :=
  let routes := [] in
  let routes :=
    if secure then routes ++
      [mkRoute "/state" "GET" StateRoute;
       mkRoute "/work" "POST" PerformRoute;
       mkRoute "/v1/lrps/:process_guid/instances/:instance_guid/stop" "POST" StopLRPInstanceRoute;
       mkRoute "/v1/tasks/:task_guid/cancel" "POST" CancelTaskRoute;
       mkRoute "/sim/reset" "POST" Sim_ResetRoute]
    else routes in
  if negb secure then routes ++
    [mkRoute "/ping" "GET" PingRoute; mkRoute "/evacuate" "POST" EvacuateRoute]
  else routes.

Definition RoutesInsecure : list Route := NewRoutes false.
Definition RoutesSecure : list Route := NewRoutes true.
Definition Routes : list Route := RoutesInsecure ++ RoutesSecure.

(** cmd/rep/main.go, [getRoutes]. *)
Definition getRoutes (enableLegacyAPIServer isSecureServer : bool) : list Route :=
  if enableLegacyAPIServer && negb isSecureServer then Routes else NewRoutes isSecureServer.
