(* ===== verification/Handlers.v ===== *)
(** handlers/: the HTTP handlers of the rep, over the interface of the auction cell
    ([AuctionCellClient]) and the calls of the services.

    A request comes with its form values (the router puts the parameters of the
    path there) and the text of its body; the response writer keeps the first status
    and the text written. *)

From S2P Require Import Prelude GoInt GoStrings GoUrl GoJson GoJsonText Effects Services RootFS Resources Conversion.
From S2P Require Import AuctionCellRep Wire Routes.

(** ** The interface of the cell *)
Class AuctionCellClient `{Models} (C : Type) := {
  cell_State : C → rep (res (CellState * bool));
  cell_Perform : C → Work → rep (res Work);
  cell_Reset : C → rep (option error) }.

(** The executor's amounts are 64-bit integers. *)
Definition amounts_typed `{Models} (e : event reply) : Prop :=
  match e with existT c r =>
    match c return reply c → Prop with
    | TotalResources | RemainingResources => λ r, ∀ amounts, r = Ok amounts → is_int (executor.Containers amounts)
    | _ => λ _, True
    end r
  end.

(** What its callers rely on: the work handed back is part of the work handed in,
    and every number of a reported state fits its field. *)
Class HonestCell `{Models} (C : Type) `{!AuctionCellClient C} := {
  perform_returns_work c work tr failed :
    exec (cell_Perform c work) tr (Ok failed) →
    work_LRPs failed ⊆ work_LRPs work ∧ work_Tasks failed ⊆ work_Tasks work;
  state_is_typed c tr state healthy :
    exec (cell_State c) tr (Ok (state, healthy)) → Forall amounts_typed tr → state_fits state }.

#[global] Instance auction_cell_client `{Models} : AuctionCellClient AuctionCellRep := {|
  cell_State a := AuctionCellRep.State a;
  cell_Perform a work := let* failedWork := Perform a work in Ret (Ok failedWork);
  cell_Reset _ := Ret Reset |}.

Section well_typed.
Context `{Models}.

Lemma container_resource_fits c : resource_fits (container_resource c).
Proof. unfold resource_fits, container_resource. simpl. split_and!; auto with rep. unfold is_int32. lia. Qed.

Lemma container_items_fit cs :
  Forall lrp_fits (omap container_lrp cs) ∧ Forall task_fits (omap container_task cs).
Proof.
  split; apply Forall_forall; intros x (c & _ & Hx)%list_elem_of_omap.
  - unfold container_lrp in Hx. case_bool_decide; [|done].
    destruct (ActualLRPKeyFromTags _) as [key|] eqn:Hk; simplify_eq.
    apply ActualLRPKeyFromTags_Ok in Hk as (_ & _ & Hi & _). split; [done|apply container_resource_fits].
  - unfold container_task in Hx. case_bool_decide; simplify_eq. apply container_resource_fits.
Qed.

Lemma State_fits a tr state healthy :
  exec (AuctionCellRep.State a) tr (Ok (state, healthy)) → Forall amounts_typed tr → state_fits state.
Proof.
  intros (cs & total & avail & drivers & evac & -> & ->)%State_exec Htyped.
  rewrite !Forall_cons in Htyped. destruct Htyped as (_ & Ht & Ha & _).
  specialize (Ht _ eq_refl). specialize (Ha _ eq_refl). destruct (container_items_fit cs) as [Hl Hk].
  unfold state_fits, resources_fit. simpl. auto 10 with rep.
Qed.

Lemma AddLRP_fits c lrp : state_fits c → lrp_fits lrp → state_fits (CellState_AddLRP c lrp).
Proof.
  intros (_ & Ht & Hl & Hk & _) Hf. unfold state_fits, resources_fit. simpl.
  rewrite Forall_app, Forall_singleton. auto 10 with rep.
Qed.
Lemma AddTask_fits c task : state_fits c → task_fits task → state_fits (CellState_AddTask c task).
Proof.
  intros (_ & Ht & Hl & Hk & _) Hf. unfold state_fits, resources_fit. simpl.
  rewrite Forall_app, Forall_singleton. auto 10 with rep.
Qed.

(** Subtractions and additions one after the other wrap as one. *)
Lemma place_amounts c ps :
  let placed := foldl place c ps in
  is_int32 (MemoryMB (cs_AvailableResources c)) → is_int32 (DiskMB (cs_AvailableResources c)) →
  is_int (Containers (cs_AvailableResources c)) → is_int (cs_StartingContainerCount c) →
  MemoryMB (cs_AvailableResources placed) =
    int32 (MemoryMB (cs_AvailableResources c) - sum_Z (λ p, res_MemoryMB (placement_resource p)) ps) ∧
  DiskMB (cs_AvailableResources placed) =
    int32 (DiskMB (cs_AvailableResources c) - sum_Z (λ p, res_DiskMB (placement_resource p)) ps) ∧
  Containers (cs_AvailableResources placed) = int (Containers (cs_AvailableResources c) - Z.of_nat (length ps)) ∧
  cs_StartingContainerCount placed = int (cs_StartingContainerCount c + Z.of_nat (length ps)).
Proof.
  intros placed Hm Hd Hn Hs. subst placed. induction ps as [|p ps IH] using rev_ind.
  { simpl. rewrite !Z.sub_0_r, Z.add_0_r, !int32_small, !int_small by done. done. }
  destruct IH as (IHm & IHd & IHn & IHs). rewrite foldl_app, !sum_Z_app, length_app. cbn [foldl sum_Z foldr length].
  rewrite place_available. unfold Resources_Subtract. cbn [MemoryMB DiskMB Containers].
  rewrite IHm, IHd, IHn, int32_sub_l, int32_sub_l, int_sub_l. split_and!; try (f_equal; lia).
  transitivity (int (cs_StartingContainerCount (foldl place c ps) + 1)); [by destruct p|].
  rewrite IHs, int_add_l. f_equal. lia.
Qed.

Lemma place_keeps c ps :
  let placed := foldl place c ps in
  cs_TotalResources placed = cs_TotalResources c ∧
  cs_LRPs placed = cs_LRPs c ++ lrps_of ps ∧ cs_Tasks placed = cs_Tasks c ++ tasks_of ps.
Proof.
  revert c. induction ps as [|p ps IH]; intros c; simpl; [by rewrite !app_nil_r|].
  destruct (IH (place c p)) as (-> & -> & ->). by destruct p; simpl; rewrite <-?app_assoc.
Qed.

Lemma placed_fits ps state :
  Forall (λ p, match p with PlaceLRP lrp => lrp_fits lrp | PlaceTask task => task_fits task end) ps →
  state_fits state → state_fits (foldl place state ps).
Proof.
  intros Hp. revert state. induction Hp as [|[lrp|task] ps Hf _ IH]; intros state Hs; simpl; [done|..]; apply IH.
  - by apply AddLRP_fits.
  - by apply AddTask_fits.
Qed.

(** C30 The auctioneer's bookkeeping is exact, from the executor's amounts on: after
    any sequence of placements on a reported state, in any order and even beyond the
    cell's capacity, the memory and the disk that are left are what the executor had
    reported minus the sum of all that was placed, cut to 32 bits once (so exact
    whenever that fits, whatever wrapped in between), one container less and one
    starting container more is counted per placement, the total does not change, and
    the LRPs and tasks are those of the executor's containers, in order, followed by
    the placed ones; and every number fits its field. *)
Theorem placed_amounts_are_exact a tr state healthy ps :
  exec (AuctionCellRep.State a) tr (Ok (state, healthy)) → Forall amounts_typed tr →
  Forall (λ p, match p with PlaceLRP lrp => lrp_fits lrp | PlaceTask task => task_fits task end) ps →
  ∃ cs total avail,
    [ev ListContainers (Ok cs); ev TotalResources (Ok total); ev RemainingResources (Ok avail)] ⊆ tr ∧
    let placed := foldl place state ps in
    MemoryMB (cs_AvailableResources placed) =
      int32 (executor.MemoryMB avail - sum_Z (λ p, res_MemoryMB (placement_resource p)) ps) ∧
    DiskMB (cs_AvailableResources placed) =
      int32 (executor.DiskMB avail - sum_Z (λ p, res_DiskMB (placement_resource p)) ps) ∧
    Containers (cs_AvailableResources placed) = int (executor.Containers avail - Z.of_nat (length ps)) ∧
    cs_StartingContainerCount placed = int (starting_count cs + Z.of_nat (length ps)) ∧
    cs_TotalResources placed =
      mkResources (int32 (executor.MemoryMB total)) (int32 (executor.DiskMB total)) (executor.Containers total) ∧
    cs_LRPs placed = omap container_lrp cs ++ lrps_of ps ∧ cs_Tasks placed = omap container_task cs ++ tasks_of ps ∧
    state_fits placed.
Proof.
  intros Hex Htyped Hps. pose proof (placed_fits ps state Hps (State_fits _ _ _ _ Hex Htyped)) as Hfits.
  pose proof (State_fits _ _ _ _ Hex Htyped) as ((Hm & Hd & Hn) & _ & _ & _ & Hs).
  apply State_exec in Hex as (cs & total & avail & drivers & evac & -> & Hstate).
  exists cs, total, avail. split; [set_solver|].
  destruct (place_amounts state ps Hm Hd Hn Hs) as (H1 & H2 & H3 & H4).
  destruct (place_keeps state ps) as (H5 & H6 & H7).
  cbv zeta. rewrite H1, H2, H3, H4, H5, H6, H7. subst state. cbn [cs_AvailableResources cs_StartingContainerCount
    cs_TotalResources cs_LRPs cs_Tasks convertResources MemoryMB DiskMB Containers].
  by rewrite !int32_sub_l, int_add_l.
Qed.

End well_typed.

#[global] Instance auction_cell_honest `{Models} : HonestCell AuctionCellRep.
Proof.
  split.
  - intros a work tr failed (tr1 & w & tr2 & -> & Hex & [_ [= ->]])%exec_bind.
    by eapply Perform_returns_work.
  - apply State_fits.
Qed.

(** ** net/http *)
Definition StatusOK : Z := 200.
Definition StatusAccepted : Z := 202.
Definition StatusBadRequest : Z := 400.
Definition StatusInternalServerError : Z := 500.
Definition StatusServiceUnavailable : Z := 503.

(** [req_body]: the text of the body, or the error of reading it. *)
Record Request := mkRequest { req_form : gmap string string; req_body : res string }.
Definition FormValue (r : Request) (key : string) : string := lookup_default "" (req_form r) key.

Record ResponseWriter := mkResponseWriter { status : option Z; written : string }.
Definition NewResponseWriter : ResponseWriter := mkResponseWriter None "".

(** Only the first status counts; writing sets it to 200 if none was set. *)
Definition WriteHeader (w : ResponseWriter) (statusCode : Z) : ResponseWriter :=
  match status w with None => mkResponseWriter (Some statusCode) (written w) | Some _ => w end.
Definition Write (w : ResponseWriter) (text : string) : ResponseWriter :=
  let w := WriteHeader w StatusOK in mkResponseWriter (status w) (written w +:+ text).

(** What the client of the connection receives when the handler has returned. *)
Record Response := mkResponse { StatusCode : Z; Body : res string }.
Definition finish (w : ResponseWriter) : Response :=
  mkResponse (default StatusOK (status w)) (Ok (written w)).

(** ** The handlers *)
Section handlers.
Context `{Models, KeyFields} {C : Type} `{!AuctionCellClient C}.

Definition state_ServeHTTP (cell : C) (w : ResponseWriter) (r : Request) : rep ResponseWriter :=
  let* state := cell_State cell in
  match state with
  | Err _ => Ret (WriteHeader w StatusInternalServerError)
  | Ok (state, healthy) =>
      let w := if negb healthy then WriteHeader w StatusServiceUnavailable else w in
      Ret (Write w (Encode (encode_CellState state)))
  end.

Definition perform_ServeHTTP (cell : C) (w : ResponseWriter) (r : Request) : rep ResponseWriter :=
  match (body ← req_body r; Decode decode_Work body) with
  | Err _ => Ret (WriteHeader w StatusBadRequest)
  | Ok work =>
      let* failedWork := cell_Perform cell work in
      match failedWork with
      | Err _ => Ret (WriteHeader w StatusInternalServerError)
      | Ok failedWork => Ret (Write w (Encode (encode_Work failedWork)))
      end
  end.

Definition reset_ServeHTTP (cell : C) (w : ResponseWriter) (r : Request) : rep ResponseWriter :=
  let* err := cell_Reset cell in
  match err with
  | Some _ => Ret (WriteHeader w StatusInternalServerError)
  | None => Ret w
  end.

Definition StopLRPInstance_ServeHTTP (w : ResponseWriter) (r : Request) : rep ResponseWriter :=
  let processGuid := FormValue r ":process_guid" in
  let instanceGuid := FormValue r ":instance_guid" in
  if bool_decide (processGuid = "") then Ret (WriteHeader w StatusBadRequest)
  else if bool_decide (instanceGuid = "") then Ret (WriteHeader w StatusBadRequest)
  else
  Do (StopContainer (LRPContainerGuid processGuid instanceGuid)) (λ err, match err with
  | Some _ => Ret (WriteHeader w StatusInternalServerError)
  | None => Ret (WriteHeader w StatusAccepted)
  end).

(** The goroutine started by the handler; its errors are only logged. *)
Definition cancel_task_goroutine (taskGuid : string) : rep unit :=
  Do (DeleteContainer taskGuid) (λ _, Ret tt).

(** The response does not wait for the goroutine, whose only call is made here. *)
Definition CancelTask_ServeHTTP (w : ResponseWriter) (r : Request) : rep ResponseWriter :=
  let taskGuid := FormValue r ":task_guid" in
  let w := WriteHeader w StatusAccepted in
  let* _ := cancel_task_goroutine taskGuid in
  Ret w.

Definition Evacuation_ServeHTTP (w : ResponseWriter) (r : Request) : rep ResponseWriter :=
  Do Evacuate (λ _,
  Ret (Write (WriteHeader w StatusAccepted) (Marshal (JObject [("ping_path", JString "/ping")])))).

Definition Ping_ServeHTTP (w : ResponseWriter) (r : Request) : rep ResponseWriter :=
  Ret (WriteHeader w StatusOK).

(** ** handlers.go *)
Definition handler : Type := ResponseWriter → Request → rep ResponseWriter.

Definition New (localCellClient : C) (secure : bool) : gmap string handler :=
  if secure then
    <[StateRoute := state_ServeHTTP localCellClient]>
    (<[PerformRoute := perform_ServeHTTP localCellClient]>
    (<[Sim_ResetRoute := reset_ServeHTTP localCellClient]>
    (<[StopLRPInstanceRoute := StopLRPInstance_ServeHTTP]>
    (<[CancelTaskRoute := CancelTask_ServeHTTP]> ∅))))
  else
    <[PingRoute := Ping_ServeHTTP]> (<[EvacuateRoute := Evacuation_ServeHTTP]> ∅).

(** The loop copies the handlers of the secure server over the insecure ones. *)
Definition NewLegacy (localCellClient : C) : gmap string handler :=
  let insecureHandlers := New localCellClient false in
  let secureHandlers := New localCellClient true in
  secureHandlers ∪ insecureHandlers.

(** cmd/rep/main.go, [getHandlers]. *)
Definition getHandlers (cell : C) (enableLegacyAPIServer isSecureServer : bool) : gmap string handler :=
  if enableLegacyAPIServer && negb isSecureServer then NewLegacy cell else New cell isSecureServer.

(** A request to a server for a route it has: the router calls the route's handler. *)
Definition serve (cell : C) (legacy secure : bool) (name : string) (r : Request) : rep (option Response) :=
  match getHandlers cell legacy secure !! name with
  | None => Ret None
  | Some h => let* w := h NewResponseWriter r in Ret (Some (finish w))
  end.

End handlers.

Section handlers_facts.
Context `{Models, KeyFields} {C : Type} `{!AuctionCellClient C}.

(** The router accepts the two servers in every configuration: each route has a
    handler and each handler a route. *)
Lemma handlers_of_routes (cell : C) legacy secure name :
  is_Some (getHandlers cell legacy secure !! name) ↔ name ∈ route_Name <$> getRoutes legacy secure.
Proof.
  unfold getHandlers, NewLegacy, New, getRoutes. rewrite <-elem_of_dom.
  destruct legacy, secure; simpl; rewrite ?dom_union_L, ?dom_insert_L, ?dom_empty_L; set_solver.
Qed.

(** The two servers are consistent in every configuration of [main]: routes and
    handlers correspond, no name and no method with path is routed twice; health
    check and evacuation are served by the insecure server only, and the cell's
    work by the secure one, and by the insecure one only in legacy mode. *)
Theorem servers_are_consistent (cell : C) legacy secure :
  let routes := getRoutes legacy secure in
  let names := route_Name <$> routes in
  (∀ name, is_Some (getHandlers cell legacy secure !! name) ↔ name ∈ names) ∧
  NoDup names ∧ NoDup ((λ r, (Method r, Path r)) <$> routes) ∧
  (∀ name, name ∈ [PingRoute; EvacuateRoute] → name ∈ names ↔ secure = false) ∧
  (∀ name, name ∈ [StateRoute; PerformRoute; StopLRPInstanceRoute; CancelTaskRoute; Sim_ResetRoute] →
     name ∈ names ↔ secure = true ∨ legacy = true).
Proof.
  intros routes names. split; [apply handlers_of_routes|].
  destruct legacy, secure; (split_and!; [apply (bool_decide_unpack _); vm_compute; exact I..| |]);
    apply Forall_forall, (bool_decide_unpack _); vm_compute; exact I.
Qed.

(** A request to evacuate takes effect before it is answered, and the answer names a
    path at which the same server can be pinged until the rep is gone. *)
Theorem evacuation_request (cell : C) legacy r tr resp :
  exec (serve cell legacy false EvacuateRoute r) tr resp →
  tr = [ev Evacuate tt] ∧
  ∃ p, resp = Some (mkResponse StatusAccepted (Ok (Marshal (JObject [("ping_path", JString p)])))) ∧
       mkRoute p "GET" PingRoute ∈ getRoutes legacy false ∧
       exec (serve cell legacy false PingRoute r) [] (Some (mkResponse StatusOK (Ok ""))).
Proof.
  intros Hex. destruct legacy; simpl in Hex; destruct Hex as ([] & ? & -> & -> & ->);
    (split; [done|]); exists "/ping"; (split; [done|split; [set_solver|done]]).
Qed.

End handlers_facts.

#[local] Existing Instance example_models.

Lemma state_env_typed c n : amounts_typed (existT c (state_env c n).1).
Proof. destruct c; try exact I; intros amounts Ha; injection Ha as <-; split; discriminate. Qed.

Lemma placed_amounts_are_exact_witness :
  ∃ state, (run state_env (AuctionCellRep.State example_rep) 0%Z).1.2 = Ok (state, true) ∧
    ∃ avail, MemoryMB (cs_AvailableResources (foldl place state [PlaceLRP example_lrp; PlaceTask example_task])) =
      int32 (executor.MemoryMB avail - 1000).
Proof.
  assert (∃ state, (run state_env (AuctionCellRep.State example_rep) 0%Z).1.2 = Ok (state, true)) as [state Hs]
    by (eexists; vm_compute; reflexivity).
  exists state. split; [exact Hs|].
  destruct (placed_amounts_are_exact example_rep (run state_env (AuctionCellRep.State example_rep) 0%Z).1.1 state true
    [PlaceLRP example_lrp; PlaceTask example_task]) as (cs & total & avail & _ & Hm & _).
  - rewrite <-Hs. apply run_exec.
  - apply run_Forall, state_env_typed.
  - repeat constructor; vm_compute; discriminate.
  - exists avail. exact Hm.
Defined.
