(* ===== verification/Client.v ===== *)
(** client.go: the auctioneer's and the BBS's client of a rep.

    A request is created for a route and sent; both can fail, and the reply is a
    status with a body.  The theorems compose the client with the handlers of the
    cell over a connection that delivers the response. *)

From S2P Require Import Prelude GoInt GoStrings GoUrl GoJson GoJsonText Effects Services RootFS Resources Conversion.
From S2P Require Import AuctionCellRep Wire Routes Handlers.

(** ** Choosing an address *)
Record TLSConfig := mkTLSConfig {
  RequireTLS : bool; CertFile : string; KeyFile : string; CaCertFile : string; ClientCacheSize : Z }.

Definition hasCreds (config : TLSConfig) : bool :=
  negb (bool_decide (CaCertFile config = "")) && negb (bool_decide (KeyFile config = ""))
  && negb (bool_decide (CertFile config = "")).

Definition ErrHttpsNotSupported : error :=
  errors_New "https scheme not supported since certificates aren't provided".
Definition ErrHttpsRequired : error :=
  errors_New "https scheme is required but none of the addresses support it".

Definition pickURL (config : TLSConfig) (address repURL : string) : res string :=
  secure ← (if negb (bool_decide (repURL = ""))
            then match Parse repURL with
                 | Err err => Err (url_Error err)
                 | Ok url => Ok (bool_decide (Scheme url = "https"))
                 end
            else Ok false);
  if negb (RequireTLS config) && negb (hasCreds config) then
    if (secure : bool) then Err ErrHttpsNotSupported
    else if negb (bool_decide (repURL = "")) then Ok repURL
    else Ok address
  else if negb (RequireTLS config) then
    if negb (bool_decide (repURL = "")) then Ok repURL
    else Ok address
  else
    if negb secure then Err ErrHttpsRequired
    else Ok repURL.

(** ** The factory

    Of an [http.Client] matter here whether its transport is an [http.Transport] and
    whether that has been given the client certificate. *)
Record httpClient := mk_httpClient { plain_transport : bool; client_certificate : bool; timeout : Z }.

(** [newTLSConfig] is what [cfhttp.NewTLSConfig] returned for the three files. *)
Definition modifyTransport (tlsConfig : TLSConfig) (newTLSConfig : option error) (client : httpClient) : res httpClient :=
  if negb (hasCreds tlsConfig) then Ok client
  else if plain_transport client then
    match newTLSConfig with
    | Some err => Err err
    | None => Ok (mk_httpClient (plain_transport client) true (timeout client))
    end
  else Ok client.

Record clientFactory := mk_clientFactory {
  cf_httpClient : httpClient; cf_stateClient : httpClient; cf_tlsConfig : TLSConfig }.

Definition NewClientFactory (newTLSConfig : option error) (httpClient stateClient : httpClient)
    (tlsConfig : option TLSConfig) : res clientFactory :=
  let tlsConfig := default (mkTLSConfig false "" "" "" 0) tlsConfig in
  httpClient ← modifyTransport tlsConfig newTLSConfig httpClient;
  stateClient ← modifyTransport tlsConfig newTLSConfig stateClient;
  Ok (mk_clientFactory httpClient stateClient tlsConfig).

Record client := newClient { cl_client : httpClient; cl_stateClient : httpClient; cl_address : string }.

Definition SetStateClient (c : client) (stateClient : httpClient) : client :=
  newClient (cl_client c) stateClient (cl_address c).
Definition StateClientTimeout (c : client) : Z := timeout (cl_stateClient c).

Definition CreateClient (factory : clientFactory) (address url : string) : res client :=
  urlToUse ← pickURL (cf_tlsConfig factory) address url;
  Ok (newClient (cf_httpClient factory) (cf_stateClient factory) urlToUse).

(** ** Replies *)
Section client.
Context `{Models, KeyFields}.

(** [http.StatusText], of the standard library's table, only appears in messages. *)
Context (StatusText : Z → string).

Definition unexpected_status (code : Z) : error :=
  errors_New ("unexpected status code: " +:+ Itoa code).
Definition http_error (code : Z) : error :=
  errors_New ("http error: status code " +:+ Itoa code +:+ " (" +:+ StatusText code +:+ ")").

(** Each method, given what creating the request and sending it returned. *)
Definition client_State (order : gmap string json → list (string * json))
    (created : option error) (resp : res Response) : res CellState :=
  match created with
  | Some err => Err err
  | None =>
      match resp with
      | Err err => Err err
      | Ok resp =>
          if negb (bool_decide (StatusCode resp = StatusOK)) then Err (unexpected_status (StatusCode resp))
          else bs ← Body resp; Unmarshal (decode_CellState order) bs
      end
  end.

Definition client_Perform (created : option error) (resp : res Response) : res Work :=
  match created with
  | Some err => Err err
  | None =>
      match resp with
      | Err err => Err err
      | Ok resp =>
          if negb (bool_decide (StatusCode resp = StatusOK)) then Err (unexpected_status (StatusCode resp))
          else body ← Body resp; Decode decode_Work body
      end
  end.

Definition client_Reset (created : option error) (resp : res Response) : option error :=
  match created with
  | Some err => Some err
  | None =>
      match resp with
      | Err err => Some err
      | Ok resp =>
          if negb (bool_decide (StatusCode resp = StatusOK)) then Some (unexpected_status (StatusCode resp))
          else None
      end
  end.

Definition client_StopLRPInstance (created : option error) (resp : res Response) : option error :=
  match created with
  | Some err => Some err
  | None =>
      match resp with
      | Err err => Some err
      | Ok resp =>
          if negb (bool_decide (StatusCode resp = StatusAccepted)) then Some (http_error (StatusCode resp))
          else None
      end
  end.

Definition client_CancelTask (created : option error) (resp : res Response) : option error :=
  match created with
  | Some err => Some err
  | None =>
      match resp with
      | Err err => Some err
      | Ok resp =>
          if negb (bool_decide (StatusCode resp = StatusAccepted)) then Some (http_error (StatusCode resp))
          else None
      end
  end.

(** The parameters of the path of a stop request. *)
Definition stopParamsFromLRP (key : ActualLRPKey) (instanceKey : ActualLRPInstanceKey) : gmap string string :=
  {["process_guid" := ProcessGuid key; "instance_guid" := InstanceGuid instanceKey;
    "index" := Itoa (int (Index key))]}.

(** ** Over a connection *)
Context {C : Type} `{!AuctionCellClient C} (cell : C).

(** The router hands the parameter [name] of the path to the handler as the form
    value [":" ++ name]. *)
Definition routed_form (params : gmap string string) : gmap string string :=
  kmap (String ":"%char) params.

Definition delivered (w : ResponseWriter) : res Response := Ok (finish w).

Definition remote_State (order : gmap string json → list (string * json)) : rep (res CellState) :=
  let* w := state_ServeHTTP cell NewResponseWriter (mkRequest ∅ (Ok "")) in
  Ret (client_State order None (delivered w)).

Definition remote_Perform (work : Work) : rep (res Work) :=
  let* w := perform_ServeHTTP cell NewResponseWriter (mkRequest ∅ (Ok (Marshal (encode_Work work)))) in
  Ret (client_Perform None (delivered w)).

Definition remote_StopLRPInstance (key : ActualLRPKey) (instanceKey : ActualLRPInstanceKey) : rep (option error) :=
  let* w := StopLRPInstance_ServeHTTP NewResponseWriter
              (mkRequest (routed_form (stopParamsFromLRP key instanceKey)) (Ok "")) in
  Ret (client_StopLRPInstance None (delivered w)).

Definition remote_CancelTask (taskGuid : string) : rep (option error) :=
  let* w := CancelTask_ServeHTTP NewResponseWriter
              (mkRequest (routed_form {["task_guid" := taskGuid]}) (Ok "")) in
  Ret (client_CancelTask None (delivered w)).

Definition remote_Reset : rep (option error) :=
  let* w := reset_ServeHTTP cell NewResponseWriter (mkRequest ∅ (Ok "")) in
  Ret (client_Reset None (delivered w)).

End client.

(** ** Facts *)
Lemma work_fits_subset w w' :
  work_fits w → work_LRPs w' ⊆ work_LRPs w → work_Tasks w' ⊆ work_Tasks w → work_fits w'.
Proof. unfold work_fits. rewrite !Forall_forall. naive_solver. Qed.

(** Part of the work that arrived is sent back as it is. *)
Lemma part_arrived w w' :
  work_LRPs w' ⊆ work_LRPs (work_to_utf8 w) → work_Tasks w' ⊆ work_Tasks (work_to_utf8 w) → work_to_utf8 w' = w'.
Proof.
  intros Hl Ht. destruct w' as [lrps tasks]. unfold work_to_utf8 in *. simpl in *. f_equal.
  - apply (items_unchanged (λ x, x ∈ lrp_to_utf8 <$> work_LRPs w)); [|by apply Forall_forall].
    intros x (y & -> & _)%list_elem_of_fmap. apply lrp_arrived.
  - apply (items_unchanged (λ x, x ∈ task_to_utf8 <$> work_Tasks w)); [|by apply Forall_forall].
    intros x (y & -> & _)%list_elem_of_fmap. apply task_arrived.
Qed.

(** The handler reads the body. *)
Lemma perform_ServeHTTP_reads `{Models, KeyFields} {C : Type} `{!AuctionCellClient C} (cell : C) w form text work :
  Decode decode_Work text = Ok work →
  perform_ServeHTTP cell w (mkRequest form (Ok text)) =
    let* failedWork := cell_Perform cell work in
    match failedWork with
    | Err _ => Ret (WriteHeader w StatusInternalServerError)
    | Ok failedWork => Ret (Write w (Encode (encode_Work failedWork)))
    end.
Proof. intros Hw. unfold perform_ServeHTTP. simpl. by rewrite Hw. Qed.

(** What the client reads of a response that was written without setting a status. *)
Lemma client_Perform_reads `{KeyFields} text : client_Perform None (delivered (Write NewResponseWriter text)) = Decode decode_Work text.
Proof. reflexivity. Qed.

(** The part of the work that is sent back arrives. *)
Lemma part_returns `{KeyFieldsLaws} w w' :
  work_fits w → work_LRPs w' ⊆ work_LRPs (work_to_utf8 w) → work_Tasks w' ⊆ work_Tasks (work_to_utf8 w) →
  client_Perform None (delivered (Write NewResponseWriter (Encode (encode_Work w')))) = Ok w'.
Proof.
  intros Hfit Hl Ht. rewrite client_Perform_reads.
  assert (work_fits w') as Hf by by eapply work_fits_subset; [apply work_to_utf8_fits|..].
  by rewrite (proj2 (Work_arrives w' Hf)), (part_arrived w).
Qed.

Section client_facts.
Context `{Models, KeyFieldsLaws} {C : Type} `{!AuctionCellClient C, !HonestCell C} (cell : C).

Lemma remote_State_exec order tr r :
  (∀ m, iteration_of m (order m)) → Forall amounts_typed tr → exec (remote_State cell order) tr r →
  ∃ local, exec (cell_State cell) tr local ∧
    match local with
    | Err _ => r = Err (unexpected_status StatusInternalServerError)
    | Ok (_, false) => r = Err (unexpected_status StatusServiceUnavailable)
    | Ok (state, true) => ∃ root, r = Ok (state_to_utf8 root state) ∧
        (providers_text (cs_RootFSProviders state) → root = cs_RootFSProviders state)
    end.
Proof.
  intros Ho Htyped (tr1 & w & tr2 & -> & Hex & [-> ->])%exec_bind.
  apply exec_bind in Hex as (tr3 & local & tr4 & -> & Hex & Hw). exists local.
  destruct local as [[state []]|err]; destruct Hw as [-> ->]; rewrite !app_nil_r in *; (split; [done|]); try done.
  destruct (CellState_arrives order state Ho) as (root & Hr & Htext); [by eapply state_is_typed|].
  exists root. split; [exact Hr|done].
Qed.

(* Unfolded before the decoder, which is not to be evaluated on the unknown work. *)
#[local] Strategy expand [remote_Perform].

Lemma remote_Perform_exec work tr r :
  work_fits work → exec (remote_Perform cell work) tr r →
  ∃ local, exec (cell_Perform cell (work_to_utf8 work)) tr local ∧
    r = match local with
        | Ok failedWork => Ok failedWork
        | Err _ => Err (unexpected_status StatusInternalServerError)
        end.
Proof.
  intros Hfit Hex. unfold remote_Perform in Hex.
  rewrite (perform_ServeHTTP_reads cell _ _ _ _ (proj1 (Work_arrives work Hfit))), exec_bind in Hex.
  destruct Hex as (tr1 & w & tr2 & -> & Hex & [-> ->]). apply exec_bind in Hex as (tr3 & local & tr4 & -> & Hex & Hw). exists local.
  destruct local as [failed|err]; destruct Hw as [-> ->]; rewrite !app_nil_r in *; (split; [done|]); [|done].
  apply perform_returns_work in Hex as [Hl Ht]. by apply (part_returns work).
Qed.

(** C28 The auctioneer's view of a cell: asking over HTTP gives the state that the cell
    reports, when it is healthy and the strings in it are UTF-8: exactly that state
    (and otherwise the same amounts, with U+FFFD in its strings); an unhealthy cell's
    state, though sent, is not seen, and both that and a failure of the cell are
    errors. *)
Theorem remote_State_is_State order tr r :
  (∀ m, iteration_of m (order m)) → Forall amounts_typed tr → exec (remote_State cell order) tr r →
  ∃ local, exec (cell_State cell) tr local ∧
    match local with
    | Err _ => r = Err (unexpected_status StatusInternalServerError)
    | Ok (_, false) => r = Err (unexpected_status StatusServiceUnavailable)
    | Ok (state, true) => (∃ root, r = Ok (state_to_utf8 root state)) ∧ (state_text state → r = Ok state)
    end.
Proof.
  intros Ho Ht (local & Hex & Hr)%remote_State_exec; [|done..]. exists local. split; [done|].
  destruct local as [[state []]|]; [|done..]. destruct Hr as (root & -> & Htext). split; [by eexists|].
  intros Hs. rewrite Htext by apply Hs. by rewrite state_unchanged.
Qed.

(** C27 The auctioneer's work gets through: performing work over HTTP is performing on
    the cell the work as it arrives, which for UTF-8 strings is the work itself (and
    otherwise has U+FFFD in them); every item comes back as it arrived or not at all,
    and only a cell that fails altogether gives an error. *)
Theorem remote_Perform_is_Perform work tr r :
  work_fits work → exec (remote_Perform cell work) tr r →
  (work_text work → work_to_utf8 work = work) ∧
  ∃ local, exec (cell_Perform cell (work_to_utf8 work)) tr local ∧
    r = match local with
        | Ok failedWork => Ok failedWork
        | Err _ => Err (unexpected_status StatusInternalServerError)
        end.
Proof. intros Hf Hex. split; [apply work_unchanged|by apply remote_Perform_exec]. Qed.

Lemma routed_form_lookup params name r :
  FormValue (mkRequest (routed_form params) r) (String ":"%char name) = lookup_default "" params name.
Proof. unfold FormValue, lookup_default, routed_form. simpl. by rewrite lookup_kmap by (intros ?? [=]; done). Qed.

(** Stopping an instance and cancelling a task over HTTP: exactly the container of
    that instance is stopped, once, and the client learns whether it was; the
    task's container is deleted, once, whose failure the client does not learn. *)
Theorem remote_stop_and_cancel StatusText key ikey taskGuid tr tr' r r' :
  ProcessGuid key ≠ "" → InstanceGuid ikey ≠ "" →
  exec (remote_StopLRPInstance StatusText key ikey) tr r →
  exec (remote_CancelTask StatusText taskGuid) tr' r' →
  (∃ stopped, tr = [ev (StopContainer (LRPContainerGuid (ProcessGuid key) (InstanceGuid ikey))) stopped] ∧
     r = match stopped with None => None | Some _ => Some (http_error StatusText StatusInternalServerError) end) ∧
  (∃ deleted, tr' = [ev (DeleteContainer taskGuid) deleted] ∧ r' = None).
Proof.
  intros Hp Hi Hs Hc. split.
  - unfold remote_StopLRPInstance in Hs. rewrite exec_bind in Hs. destruct Hs as (tr1 & w & tr2 & -> & Hex & [-> ->]). rewrite app_nil_r.
    unfold StopLRPInstance_ServeHTTP in Hex. rewrite !routed_form_lookup in Hex.
    assert (lookup_default "" (stopParamsFromLRP key ikey) "process_guid" = ProcessGuid key) as Hpg by reflexivity.
    assert (lookup_default "" (stopParamsFromLRP key ikey) "instance_guid" = InstanceGuid ikey) as Hig by reflexivity.
    rewrite Hpg, Hig, (bool_decide_false (_ = "") Hp), (bool_decide_false (_ = "") Hi) in Hex.
    destruct Hex as (stopped & ? & -> & Hw). exists stopped. destruct stopped; destruct Hw as [-> ->]; done.
  - unfold remote_CancelTask in Hc. rewrite exec_bind in Hc. destruct Hc as (tr1 & w & tr2 & -> & Hex & [-> ->]). rewrite app_nil_r.
    unfold CancelTask_ServeHTTP in Hex. rewrite routed_form_lookup in Hex.
    assert (lookup_default "" {["task_guid" := taskGuid]} "task_guid" = taskGuid) as Ht by reflexivity.
    rewrite Ht in Hex. destruct Hex as (deleted & ? & -> & -> & ->). exists deleted. split; reflexivity.
Qed.

End client_facts.

(** The address a client uses: credentials without compulsion change nothing, a
    compulsory TLS client speaks only https, one without credentials never does,
    and otherwise the announced URL is preferred to the address; the error is the
    parser's or says which of the two rules was broken. *)
Theorem pickURL_spec config address repURL :
  let secure := if bool_decide (repURL = "") then Ok false
                else match Parse repURL with
                     | Err err => Err (url_Error err)
                     | Ok url => Ok (bool_decide (Scheme url = "https"))
                     end in
  pickURL config address repURL =
    match secure with
    | Err err => Err err
    | Ok secure =>
        if RequireTLS config && negb secure then Err ErrHttpsRequired
        else if negb (RequireTLS config) && negb (hasCreds config) && secure then Err ErrHttpsNotSupported
        else Ok (if bool_decide (repURL = "") then address else repURL)
    end.
Proof.
  intros secure. subst secure. unfold pickURL. destruct (decide (repURL = "")) as [->|Hne].
  - rewrite bool_decide_true by done. simpl. by destruct (RequireTLS config), (hasCreds config).
  - rewrite (bool_decide_false (repURL = "")) by done. simpl. destruct (Parse repURL) as [url|err]; [|done]. simpl.
    by destruct (RequireTLS config), (hasCreds config), (bool_decide (Scheme url = "https")).
Qed.

(** ** Witnesses *)
#[local] Existing Instance example_models.
#[local] Existing Instance example_key_fields.
#[local] Existing Instance example_key_fields_laws.

Lemma example_amounts_typed :
  Forall amounts_typed (run state_env (remote_State example_rep map_to_list) 0%Z).1.1.
Proof.
  apply run_Forall, state_env_typed.
Qed.

Lemma remote_State_is_State_witness :
  ∃ local, exec (cell_State example_rep) (run state_env (remote_State example_rep map_to_list) 0%Z).1.1 local ∧
    is_ok (run state_env (remote_State example_rep map_to_list) 0%Z).1.2 = true.
Proof.
  destruct (remote_State_is_State example_rep map_to_list _ _ (λ m, Permutation_refl _) example_amounts_typed
    (run_exec state_env (remote_State example_rep map_to_list) 0%Z)) as (local & Hex & _).
  exists local. split; [exact Hex | vm_compute; reflexivity].
Defined.

Lemma example_work_fits : work_fits example_work.
Proof.
  split; repeat (apply Forall_cons; split); try apply Forall_nil_2;
    unfold lrp_fits, task_fits, resource_fits, is_int32; simpl; lia.
Qed.

Lemma remote_Perform_is_Perform_witness :
  let r := (run example_env (remote_Perform example_rep example_work) 0%Z).1.2 in
  (∃ failed, r = Ok failed ∧ length (work_LRPs failed) = 2%nat) ∧
  ∃ local : res Work, r = match local with Ok w => Ok w | Err _ => Err (unexpected_status StatusInternalServerError) end.
Proof.
  intros r. split; [eexists; split; vm_compute; reflexivity|].
  destruct (remote_Perform_is_Perform example_rep example_work _ r example_work_fits
    (run_exec example_env (remote_Perform example_rep example_work) 0%Z)) as (_ & local & _ & Hr).
  exists local. exact Hr.
Defined.

Lemma remote_stop_and_cancel_witness :
  let text (_ : Z) := "text" in
  let key := mkActualLRPKey "process-guid" 3 "domain" in
  let ikey := mkActualLRPInstanceKey "instance-guid" "cell" in
  let env (c : call) (u : unit) := (quiet c, u) in
  ∃ stopped, (run env (remote_StopLRPInstance text key ikey) tt).1.1 = [ev (StopContainer "instance-guid") stopped].
Proof.
  intros text key ikey env.
  destruct (remote_stop_and_cancel text key ikey "task-guid" _ _ _ _ ltac:(discriminate) ltac:(discriminate)
    (run_exec env (remote_StopLRPInstance text key ikey) tt) (run_exec env (remote_CancelTask text "task-guid") tt))
    as [(stopped & Htr & _) _].
  exists stopped. exact Htr.
Defined.

Lemma CreateClient_Ok factory address url c :
  CreateClient factory address url = Ok c →
  ∃ urlToUse, pickURL (cf_tlsConfig factory) address url = Ok urlToUse ∧
    c = newClient (cf_httpClient factory) (cf_stateClient factory) urlToUse.
Proof. unfold CreateClient. destruct (pickURL _ _ _) as [u|]; [|done]. intros [= <-]. eauto. Qed.

(** Clients with credentials present them: a factory that has credentials and plain
    transports gives clients that present the certificate on both connections;
    one without leaves the transports alone, and then a client is made for an https
    address only if TLS is compulsory. *)
Lemma CreateClient_credentials newTLS hc sc config factory address url c :
  NewClientFactory newTLS hc sc (Some config) = Ok factory → CreateClient factory address url = Ok c →
  (if hasCreds config
   then plain_transport hc = true → plain_transport sc = true →
        newTLS = None ∧ client_certificate (cl_client c) = true ∧ client_certificate (cl_stateClient c) = true
   else cl_client c = hc ∧ cl_stateClient c = sc ∧
        (RequireTLS config = false → url ≠ "" → ∃ u, Parse url = Ok u ∧ Scheme u ≠ "https")).
Proof.
  intros Hf (u & Hu & ->)%CreateClient_Ok. simpl. unfold NewClientFactory, modifyTransport in Hf. simpl in Hf.
  destruct (hasCreds config) eqn:Hc; simpl in Hf.
  - intros Hh Hs. rewrite Hh, Hs in Hf. destruct newTLS; [done|]. by injection Hf as <-.
  - injection Hf as <-. split_and!; [done..|]. intros Hr Hne. rewrite pickURL_spec in Hu. simpl in Hu.
    rewrite Hr, Hc, (bool_decide_false (url = "")) in Hu by done.
    destruct (Parse url) as [p|]; [|done]. exists p. split; [done|]. intros Hs.
    by rewrite (bool_decide_true (Scheme p = "https")) in Hu.
Qed.
