(* ===== verification/Auction.v ===== *)
(** The auction of one cell: the auctioneer asks a cell for its state, places work
    on it, and sends the work; the cell asks its executor for the containers.

    This composes the client and the handlers ([Client], [Handlers]), the matching
    of the auctioneer ([Resources]) and the cell ([AuctionCellRep]), from the
    amounts that the executor reports to the containers that it is asked for. *)

From S2P Require Import Prelude GoInt GoStrings GoUrl GoJson GoJsonText Effects Services RootFS Resources Conversion.
From S2P Require Import AuctionCellRep Wire Handlers Client.

#[local] Open Scope Z_scope.

Section auction.
Context `{Models}.

(** ** What is requested, as sums over the placements *)

(** [amount] of a resource as the executor is asked for it, and as the auctioneer
    counted it. *)
Record measure := mk_measure { asked : executor.Resource → Z; counted : Resource → Z }.

Definition sound (m : measure) : Prop :=
  ∀ r path, resource_wf r → asked m (executor_NewResource r path) = counted m r ∧ 0 <= counted m r.

Definition memory : measure := mk_measure executor.res_MemoryMB res_MemoryMB.
Definition disk : measure := mk_measure executor.res_DiskMB res_DiskMB.
Definition containers : measure := mk_measure (λ _, 1) (λ _, 1).

Lemma memory_sound : sound memory.
Proof. intros r path Hr. pose proof (resource_wf_nonneg _ Hr). destruct Hr as (_ & ? & ?).
  split; [apply int_small; auto with rep|simpl; lia].
Qed.
Lemma disk_sound : sound disk.
Proof. intros r path Hr. pose proof (resource_wf_nonneg _ Hr). destruct Hr as (_ & ? & ?).
  split; [apply int_small; auto with rep|simpl; lia].
Qed.
Lemma containers_sound : sound containers.
Proof. done. Qed.

Definition total_asked (m : measure) (requests : list executor.AllocationRequest) : Z :=
  sum_Z (λ r, asked m (executor.ar_Resource r)) requests.

(** Items of which some became requests. *)
Lemma pairs_total {A} (resource : A → Resource) m (pairs : list (A * executor.AllocationRequest)) items rest :
  sound m →
  Forall (λ p, ∃ path, executor.ar_Resource p.2 = executor_NewResource (resource p.1) path) pairs →
  items ≡ₚ pairs.*1 ++ rest → Forall (λ x, resource_wf (resource x)) items →
  total_asked m pairs.*2 + sum_Z (λ x, counted m (resource x)) rest = sum_Z (λ x, counted m (resource x)) items ∧
  0 <= sum_Z (λ x, counted m (resource x)) rest.
Proof.
  intros Hm Hpairs Hitems Hwf. rewrite Hitems in Hwf |- *. apply Forall_app in Hwf as [Hwf Hrest]. split.
  - rewrite sum_Z_app. f_equal. unfold total_asked. rewrite !sum_Z_fmap. apply sum_Z_ext.
    rewrite Forall_forall in Hpairs. rewrite Forall_forall in Hwf. apply Forall_forall.
    intros p Hp. destruct (Hpairs p Hp) as [path ->].
    apply Hm, Hwf. by apply list_elem_of_fmap_2.
  - apply sum_Z_nonneg. eapply Forall_impl; [exact Hrest|]. intros x Hx. by apply (Hm _ "").
Qed.

(** The placements that became requests, and the others. *)
Lemma Perform_total a m ps tr failed :
  sound m → Forall (λ p, resource_wf (placement_resource p)) ps →
  exec (Perform a (mkWork (lrps_of ps) (tasks_of ps))) tr failed →
  total_asked m (requested tr) <= sum_Z (λ p, counted m (placement_resource p)) ps.
Proof.
  intros Hm Hwf Hex. rewrite sum_Z_placements.
  assert (Forall (λ lrp, resource_wf (lrp_Resource lrp)) (lrps_of ps) ∧
          Forall (λ task, resource_wf (task_Resource task)) (tasks_of ps)) as [Hwl Hwt].
  { split; apply Forall_forall; intros x ([] & Hp & [= ->])%list_elem_of_omap;
      rewrite Forall_forall in Hwf; exact (Hwf _ Hp). }
  apply Perform_requests in Hex. destruct (saw_evacuating tr).
  { rewrite Hex. cbn [total_asked sum_Z foldr].
    assert (∀ A (f : A → Resource) l, Forall (λ x, resource_wf (f x)) l → 0 <= sum_Z (λ x, counted m (f x)) l) as Hpos.
    { intros A f l Hl. apply sum_Z_nonneg. eapply Forall_impl; [exact Hl|]. intros x Hx. by apply (Hm _ ""). }
    apply Hpos in Hwl, Hwt. lia. }
  destruct Hex as (lrps & lrps' & tasks & tasks' & -> & Hl & Ht & Hlo & Hto & _). simpl in *.
  destruct (pairs_total lrp_Resource m lrps (lrps_of ps) lrps') as [Hl1 Hl2]; [done| |done..|].
  { eapply Forall_impl; [exact Hlo|]. intros [lrp r] (guid & path & _ & ->). by exists path. }
  destruct (pairs_total task_Resource m tasks (tasks_of ps) tasks') as [Ht1 Ht2]; [done| |done..|].
  { eapply Forall_impl; [exact Hto|]. intros [task r] (path & _ & ->). by exists path. }
  unfold total_asked in *. rewrite sum_Z_app. lia.
Qed.

End auction.

(** ** A round of the auction, over HTTP *)
Section round.
Context `{Models, KeyFieldsLaws} (a : AuctionCellRep).

(** The state that the auctioneer starts from, and what it was made of. *)
Lemma auctioned_state order tr state :
  (∀ m, iteration_of m (order m)) → Forall amounts_typed tr → exec (remote_State a order) tr (Ok state) →
  ∃ avail, ev RemainingResources (Ok avail) ∈ tr ∧
    cs_AvailableResources state = convertResources avail ∧
    (providers_text (acr_rootFSProviders a) → cs_RootFSProviders state = acr_rootFSProviders a) ∧
    ∀ avail', ev RemainingResources (Ok avail') ∈ tr → avail' = avail.
Proof.
  intros Ho Ht (local & Hex & Hr)%remote_State_exec; [|done..].
  destruct local as [[local []]|]; [destruct Hr as (root & [= ->] & Htext)|done..].
  apply State_exec in Hex as (cs & total & avail & drivers & evac & -> & ->). exists avail.
  split_and!; [|done..|].
  - by do 2 right; left.
  - intros avail' Hin. repeat apply elem_of_cons in Hin as [Hin|Hin]; try discriminate Hin; [|by apply elem_of_nil in Hin].
    by apply ev_RemainingResources_inj in Hin as [= ->].
Qed.

Lemma performed_work work tr r :
  work_fits work → exec (remote_Perform a work) tr r →
  ∃ failed, exec (Perform a (work_to_utf8 work)) tr failed ∧ r = Ok failed.
Proof.
  intros Hf (local & Hex & ->)%remote_Perform_exec; [|done].
  apply exec_bind in Hex as (tr1 & failed & tr2 & -> & Hex & [-> ->]). exists failed. by rewrite app_nil_r.
Qed.

(** Placements as they arrive: the same resources. *)
Definition placement_to_utf8 (p : placement) : placement :=
  match p with PlaceLRP lrp => PlaceLRP (lrp_to_utf8 lrp) | PlaceTask task => PlaceTask (task_to_utf8 task) end.

Lemma placements_arrive ps :
  work_to_utf8 (mkWork (lrps_of ps) (tasks_of ps)) =
    mkWork (lrps_of (placement_to_utf8 <$> ps)) (tasks_of (placement_to_utf8 <$> ps)).
Proof.
  unfold work_to_utf8. cbn [work_LRPs work_Tasks].
  f_equal; (induction ps as [|[x|x] ps IH]; [done|..]); cbn; f_equal; exact IH || done.
Qed.

Lemma arrived_resource p : placement_resource (placement_to_utf8 p) = placement_resource p.
Proof. by destruct p. Qed.

(** The executor's amounts as an auctioneer can count them: non-negative, and within
    the 32 bits of the reported state. *)
Definition countable (avail : executor.ExecutorResources) : Prop :=
  cell_resources_wf (mkResources (executor.MemoryMB avail) (executor.DiskMB avail) (executor.Containers avail)).

Lemma convertResources_countable avail :
  countable avail → convertResources avail = mkResources (executor.MemoryMB avail) (executor.DiskMB avail) (executor.Containers avail).
Proof.
  intros (_ & ? & _ & ? & _ & _). unfold convertResources. simpl in *. by rewrite !int32_small.
Qed.

(** C9 An auction never overcommits a cell.  Whatever an auctioneer places on the
    state that it got from a cell, checking [ResourceMatch] each time, and sends
    there: the memory, the disk and the number of all the containers that the cell
    then asks its executor to allocate are at most what the executor had reported as
    remaining, across both HTTP requests and every conversion of the amounts. *)
Theorem auction_never_overcommits order tr1 state avail ps state' tr2 r :
  (∀ m, iteration_of m (order m)) → Forall amounts_typed tr1 →
  exec (remote_State a order) tr1 (Ok state) →
  ev RemainingResources (Ok avail) ∈ tr1 → countable avail →
  placements state ps state' → Forall (λ p, resource_wf (placement_resource p)) ps →
  let work := mkWork (lrps_of ps) (tasks_of ps) in
  work_fits work → exec (remote_Perform a work) tr2 r →
  total_asked memory (requested tr2) <= executor.MemoryMB avail ∧
  total_asked disk (requested tr2) <= executor.DiskMB avail ∧
  Z.of_nat (length (requested tr2)) <= executor.Containers avail.
Proof.
  intros Ho Ht Hstate Hin Hc Hps Hwf work Hfit (failed & Hex & _)%performed_work; [|done].
  unfold work in Hex. rewrite placements_arrive in Hex. set (arrived := placement_to_utf8 <$> ps) in *.
  assert (Forall (λ p, resource_wf (placement_resource p)) arrived) as Hwf'
    by (apply Forall_fmap; eapply Forall_impl; [exact Hwf|]; intros p Hp; cbn; by rewrite arrived_resource).
  assert (∀ f : Resource → Z, sum_Z (λ p, f (placement_resource p)) arrived = sum_Z (λ p, f (placement_resource p)) ps) as Hsum
    by (intros f; unfold arrived; rewrite sum_Z_fmap; apply sum_Z_ext, Forall_forall; intros p _; by rewrite arrived_resource).
  pose proof (Perform_total a memory arrived tr2 failed memory_sound Hwf' Hex) as H1'.
  pose proof (Perform_total a disk arrived tr2 failed disk_sound Hwf' Hex) as H2'.
  pose proof (Perform_total a containers arrived tr2 failed containers_sound Hwf' Hex) as H3'.
  rewrite Hsum in H1', H2', H3'. clear Hex.
  destruct (auctioned_state _ _ _ Ho Ht Hstate) as (avail' & _ & Havail & _ & Huniq). clear Hstate.
  rewrite <-(Huniq _ Hin), (convertResources_countable _ Hc) in Havail.
  destruct (placements_sum _ _ _ Hps) as (Hleft & Hm & Hd & Hn & _); [by rewrite Havail|done|].
  rewrite Havail in Hm, Hd, Hn. simpl in *. destruct Hleft as (? & _ & ? & _ & ? & _).
  unfold total_asked in H3'. simpl in *. rewrite !sum_Z_one in H3'. lia.
Qed.

(** The root file system that a placement needs. *)
Definition placement_rootfs (p : placement) : string :=
  match p with
  | PlaceLRP lrp => pc_RootFs (lrp_PlacementConstraint lrp)
  | PlaceTask task => pc_RootFs (task_PlacementConstraint task)
  end.

End round.

Section delivery.
Context `{Models, KeyFieldsLaws}.

(** C35 Placed work is asked for.  When an auctioneer places work whose root file
    systems match the state it got from a cell, and sends it there, the cell asks its
    executor for a container for every LRP and every task of it, with the path that
    the cell has for that root file system, unless the cell is evacuating or a
    guid could not be generated: matching never promises what [Perform] cannot
    translate.  The strings of the work and the names of the cell's root file systems
    are UTF-8; others would not arrive as they are. *)
Theorem placed_work_is_requested cellID preloaded arbitrary zone tags opt order tr1 state ps tr2 r :
  let a := AuctionCellRep.New cellID preloaded arbitrary zone tags opt in
  (∀ m, iteration_of m (order m)) → Forall amounts_typed tr1 → providers_text (acr_rootFSProviders a) →
  exec (remote_State a order) tr1 (Ok state) →
  Forall (λ p, CellState_MatchRootFS state (placement_rootfs p) = Some true) ps →
  let work := mkWork (lrps_of ps) (tasks_of ps) in
  work_fits work → work_text work → exec (remote_Perform a work) tr2 r →
  saw_evacuating tr2 = false → (∀ err, ev GenerateInstanceGuid (Err err) ∉ tr2) →
  ∃ lrps tasks, requested tr2 = lrps.*2 ++ tasks.*2 ∧
    lrps_of ps ≡ₚ lrps.*1 ∧ tasks_of ps ≡ₚ tasks.*1 ∧
    Forall (lrp_pair_ok a) lrps ∧ Forall (task_pair_ok a) tasks.
Proof.
  intros a Ho Ht Hproviders Hstate Hmatch work Hfit Htext (failed & Hex & _)%performed_work Hev Hguid; [|done].
  rewrite work_unchanged in Hex by done.
  destruct (auctioned_state a _ _ _ Ho Ht Hstate) as (_ & _ & _ & Hp & _). specialize (Hp Hproviders).
  assert (∀ p, p ∈ ps → is_ok (PathForRootFS (placement_rootfs p) preloaded) = true) as Hpath.
  { intros p Hin. rewrite Forall_forall in Hmatch.
    by eapply (advertised_rootfs_has_path cellID preloaded arbitrary zone tags opt state), Hmatch. }
  apply Perform_requests in Hex. rewrite Hev in Hex.
  destruct Hex as (lrps & lrps' & tasks & tasks' & Hr & Hl & Hk & Hlo & Hto & Hlu & Htu). simpl in *.
  assert (lrps' = []) as ->.
  { destruct lrps' as [|lrp lrps']; [done|]. exfalso. apply Forall_cons in Hlu as [[Hno|[err Herr]] _]; [|by eapply Hguid].
    assert (lrp ∈ lrps_of ps) as ([] & Hin & [= ->])%list_elem_of_omap by (rewrite Hl; set_solver).
    apply Hpath in Hin. simpl in *. congruence. }
  assert (tasks' = []) as ->.
  { destruct tasks' as [|task tasks']; [done|]. exfalso. apply Forall_cons in Htu as [Hno _].
    assert (task ∈ tasks_of ps) as ([] & Hin & [= ->])%list_elem_of_omap by (rewrite Hk; set_solver).
    apply Hpath in Hin. unfold task_untranslatable in Hno. simpl in *. congruence. }
  rewrite !app_nil_r in *. by exists lrps, tasks.
Qed.

End delivery.

(** ** A round: one LRP and one task that together take all the memory *)
#[local] Existing Instance example_models.
#[local] Existing Instance example_key_fields.
#[local] Existing Instance example_key_fields_laws.

Definition auction_env (c : call) (n : Z) : reply c * Z :=
  match c return reply c * Z with
  | TotalResources | RemainingResources => (Ok (executor.mkExecutorResources 1000 2000 3), n)
  | GenerateInstanceGuid => (Ok ("guid-" +:+ Itoa n), n + 1)
  | c => (quiet c, n)
  end.

Definition auctioned : CellState :=
  NewCellState (acr_rootFSProviders example_rep) (mkResources 1000 2000 3) (mkResources 1000 2000 3)
    [] [] "z1" 0 false [] [] [].
Definition example_placements : list placement := [PlaceLRP example_lrp; PlaceTask example_task].

Definition auction_state_tr : trace reply := (run auction_env (remote_State example_rep map_to_list) 0).1.1.
Definition auction_work_tr : trace reply :=
  (run auction_env (remote_Perform example_rep (mkWork (lrps_of example_placements) (tasks_of example_placements))) 0).1.1.

Lemma auctioned_exec : exec (remote_State example_rep map_to_list) auction_state_tr (Ok auctioned).
Proof.
  assert ((run auction_env (remote_State example_rep map_to_list) 0).1.2 = Ok auctioned) as <-
    by (vm_compute; reflexivity).
  apply run_exec.
Qed.

Lemma auction_env_typed : Forall amounts_typed auction_state_tr.
Proof.
  apply run_Forall. intros [] n; try exact I; intros amounts Ha; injection Ha as <-; split; discriminate.
Qed.

Lemma example_placements_fit : work_fits (mkWork (lrps_of example_placements) (tasks_of example_placements)).
Proof.
  split; repeat (apply Forall_cons; split); try apply Forall_nil_2;
    unfold lrp_fits, task_fits, resource_fits, is_int32; simpl; lia.
Qed.

Lemma auction_never_overcommits_witness :
  total_asked memory (requested auction_work_tr) = 1000 ∧
  total_asked memory (requested auction_work_tr) <= 1000 ∧
  total_asked disk (requested auction_work_tr) <= 2000 ∧
  Z.of_nat (length (requested auction_work_tr)) <= 3.
Proof.
  split; [vm_compute; reflexivity|].
  eapply (auction_never_overcommits example_rep map_to_list auction_state_tr auctioned
    (executor.mkExecutorResources 1000 2000 3) example_placements).
  - intros m. unfold iteration_of. reflexivity.
  - exact auction_env_typed.
  - exact auctioned_exec.
  - do 2 right; left.
  - apply (bool_decide_unpack _). vm_compute. exact I.
  - repeat (constructor; [vm_compute; reflexivity|]). constructor.
  - repeat constructor; apply (bool_decide_unpack _); vm_compute; exact I.
  - exact example_placements_fit.
  - apply run_exec.
Defined.

Lemma example_providers_text : providers_text (acr_rootFSProviders example_rep).
Proof.
  assert (map_to_list (acr_rootFSProviders example_rep) =
    [("docker", Some ArbitraryRootFSProvider); ("preloaded+layer", Some (FixedSetRootFSProvider {["linux"]}));
     ("preloaded", Some (FixedSetRootFSProvider {["linux"]}))]) as Hl
    by (vm_compute; reflexivity).
  assert (set_Forall (λ s, utf8_text s) ({["linux"]} : gset string)) as Hset by (by apply set_Forall_singleton).
  assert (Forall (λ kv, utf8_text kv.1 ∧ provider_text kv.2) (map_to_list (acr_rootFSProviders example_rep))) as Hall
    by (rewrite Hl; repeat apply Forall_cons_2; [..|apply Forall_nil_2]; (split; [reflexivity|]); [exact I|exact Hset..]).
  intros k v Hv%elem_of_map_to_list. rewrite Forall_forall in Hall. exact (Hall _ Hv).
Qed.

Lemma example_placements_text : work_text (mkWork (lrps_of example_placements) (tasks_of example_placements)).
Proof.
  assert (constraint_text (mkPlacementConstraint [] [] "preloaded:linux")) as Hpc
    by (split_and!; [apply Forall_nil_2..|reflexivity]).
  split; apply Forall_singleton; split_and!; auto.
Qed.

Lemma placed_work_is_requested_witness :
  ∃ lrps tasks, requested auction_work_tr = lrps.*2 ++ tasks.*2 ∧
    lrps_of example_placements ≡ₚ lrps.*1 ∧ tasks_of example_placements ≡ₚ tasks.*1 ∧
    Forall (lrp_pair_ok example_rep) lrps ∧ Forall (task_pair_ok example_rep) tasks.
Proof.
  eapply (placed_work_is_requested "cell" {["linux" := "/data/rootfs/linux"]} ["docker"] "z1" [] [] map_to_list
    auction_state_tr auctioned example_placements).
  - intros m. unfold iteration_of. reflexivity.
  - exact auction_env_typed.
  - exact example_providers_text.
  - exact auctioned_exec.
  - repeat constructor.
  - exact example_placements_fit.
  - exact example_placements_text.
  - apply run_exec.
  - vm_compute. reflexivity.
  - assert (Forall (λ e : event reply, match e with existT c r =>
      match c return reply c → Prop with GenerateInstanceGuid => λ r, is_ok r = true | _ => λ _, True end r end)
      auction_work_tr) as Hok by (apply run_Forall; intros [] n; exact I || reflexivity).
    intros err Hin. rewrite Forall_forall in Hok. discriminate (Hok _ Hin).
Defined.
