(* ===== verification/Lifecycle.v ===== *)
(** From an auction to a running container: the work that [Perform] turned into
    allocation requests comes back, through the containers of the executor, to the
    processors, as the same LRPs and tasks. *)

From S2P Require Import Prelude GoInt GoStrings GoUrl GoJson Effects Services RootFS Resources Conversion AuctionCellRep.
From S2P Require Import ContainerDelegate OrdinaryLRPProcessor EvacuationLRPProcessor TaskProcessor LRPProcessor.
From S2P Require Import Operation Generator.

Section lifecycle.
Context `{Models}.

(** What the LRP processor does with a container of an LRP, whichever of the two
    processors it chooses. *)
Lemma lrpProcessor_local cellID ttl container key tr :
  exec (lrpProcessor_Process (NewLRPProcessor cellID ttl) container) tr tt →
  ActualLRPKeyFromTags (Container_Tags container) = Ok key →
  Forall (about_instance key (mkActualLRPInstanceKey (tag (Container_Tags container) InstanceGuidTag) cellID)) (calls tr).
Proof.
  intros (evac & rest & -> & Hlocal)%lrpProcessor_is_local Hkey. constructor; [done|].
  destruct (decide (rest = [])) as [->|Hne]; [constructor|].
  destruct (Hlocal Hne) as (key' & Hkey' & Habout). rewrite Hkey in Hkey'. by injection Hkey' as <-.
Qed.

(** A reserved container is claimed, or given up when the cell is evacuating. *)
Lemma lrpProcessor_reserved cellID ttl container key ikey tr :
  exec (lrpProcessor_Process (NewLRPProcessor cellID ttl) container) tr tt →
  Container_State container = StateReserved →
  ActualLRPKeyFromTags (Container_Tags container) = Ok key →
  ActualLRPInstanceKeyFromContainer container cellID = Ok ikey →
  ∃ (evacuating : bool) rest, calls tr =
    Evacuating :: (if evacuating then EvacuateClaimedActualLRP key ikey
                   else ClaimActualLRP (ProcessGuid key) (Index key) ikey) :: rest.
Proof.
  intros (evac & rest & -> & Hex) Hst Hkey Hikey.
  destruct (ActualLRPKeyFromTags_Ok _ _ Hkey) as (_ & _ & Hidx & _). exists evac. destruct evac.
  - to_wp Hex. unfold process, evacuation_processor, EvacuationLRPProcessor.Process. simpl.
    rewrite Hkey, Hikey, Hst. unfold_evacuation. cbn [lc_container lc_key lc_instanceKey].
    wp_go; eexists; reflexivity.
  - to_wp Hex. unfold process, ordinary_processor, OrdinaryLRPProcessor.Process. simpl.
    rewrite Hkey, Hikey, Hst. unfold_processor. cbn [lc_container lc_key lc_instanceKey].
    rewrite (int_small (Index key)) by auto with rep. wp_go; eexists; reflexivity.
Qed.

Lemma taskProcessor_local cellID container tr :
  exec (TaskProcessor.Process cellID container) tr tt →
  Forall (about_task (Guid container) cellID) (calls tr) ∧
  (Container_State container ∈ [StateReserved; StateInitializing; StateCreated; StateRunning] →
   ∃ rest, calls tr = StartTask (Guid container) cellID :: rest).
Proof.
  intros Hex. split; [by apply task_writes|]. intros Hst.
  assert (TaskProcessor.Process cellID container = processActiveContainer cellID container) as Hp
    by (unfold TaskProcessor.Process; destruct (Container_State container); set_solver).
  rewrite Hp in Hex. destruct Hex as (r & tr' & -> & _). by eexists.
Qed.

(** Every request is one for an item of the work. *)
Lemma request_origin a work tr failed req :
  exec (Perform a work) tr failed → req ∈ requested tr →
  (∃ lrp guid path, lrp ∈ work_LRPs work ∧ req = lrp_request lrp guid path) ∨
  (∃ task path, task ∈ work_Tasks work ∧ req = task_request task path).
Proof.
  intros Hex%Perform_requests Hin. destruct (saw_evacuating tr); [rewrite Hex in Hin; by apply elem_of_nil in Hin|].
  destruct Hex as (lrps & lrps' & tasks & tasks' & Hr & Hl & Ht & Hlo & Hto & _).
  rewrite Hr, elem_of_app, !list_elem_of_fmap in Hin. rewrite Forall_forall in Hlo. rewrite Forall_forall in Hto.
  destruct Hin as [([lrp r] & -> & Hin)|([task r] & -> & Hin)].
  - left. destruct (Hlo _ Hin) as (guid & path & _ & Heq). exists lrp, guid, path. split; [|done].
    rewrite Hl, elem_of_app, list_elem_of_fmap. left. by exists (lrp, r).
  - right. destruct (Hto _ Hin) as (path & _ & Heq). exists task, path. split; [|done].
    rewrite Ht, elem_of_app, list_elem_of_fmap. left. by exists (task, r).
Qed.


End lifecycle.

(** ** An LRP from its auction to its claim *)
#[local] Existing Instance example_models.

Definition auctioned_request : executor.AllocationRequest := lrp_request example_lrp "guid-0" "/data/rootfs/linux".
Definition auctioned_container : Container :=
  mkContainer "guid-0" StateReserved 600 500 (executor.ar_Tags auctioned_request) [] "" ""
    (executor.mkContainerRunResult false "" false).
Definition auctioned_execution : trace reply :=
  tail (run (one_container_env auctioned_container) (example_Execute (ContainerOperation "guid-0")) tt).1.1.

Lemma auctioned_execution_exec :
  exec (example_Execute (ContainerOperation "guid-0"))
    (ev (GetContainer "guid-0") (Ok auctioned_container) :: auctioned_execution) tt.
Proof.
  exact (run_unit_tt (one_container_env auctioned_container) (example_Execute (ContainerOperation "guid-0")) tt).
Qed.

