(* ===== verification/EvacuatedCell.v ===== *)
(** What a request to evacuate means for the rest of the rep.

    Evacuate sets a flag ([EvacuationContext]) that the auction cell and the LRP
    processor read.  [Flag] is what its readers rely on; the evacuation context
    keeps that promise, whatever the other services do.  The theorem is about any
    history in which somebody asked for evacuation and other threads run later. *)

From S2P Require Import Prelude GoInt GoStrings GoUrl GoJson Effects Concurrency Services RootFS Resources Conversion.
From S2P Require Import AuctionCellRep ContainerDelegate OrdinaryLRPProcessor EvacuationLRPProcessor TaskProcessor.
From S2P Require Import LRPProcessor Operation Routes Handlers.
From S2P Require EvacuationContext.

Section flag.
Context `{Models}.

Class Flag (St : Type) := {
  flag_answer : ∀ c, St → reply c * St;
  flag_valid : St → Prop;
  flag : St → bool;
  flag_answer_valid c s : flag_valid s → flag_valid (flag_answer c s).2;
  flag_is_read s : flag_valid s → (flag_answer Evacuating s).1 = flag s;
  flag_is_set s : flag_valid s → flag (flag_answer Evacuate s).2 = true;
  flag_stays c s : flag_valid s → flag s = true → flag (flag_answer c s).2 = true }.

Lemma history_flag {St} `{!Flag St} s tr s' :
  history flag_answer s tr s' → flag_valid s → flag_valid s' ∧ (flag s = true ∨ ev Evacuate tt ∈ tr → flag s' = true).
Proof.
  induction tr as [|[c r] tr IH] in s |- *; simpl.
  { intros -> Hs. split; [done|]. by intros [|?%elem_of_nil]. }
  intros [-> Hh] Hs. destruct (IH _ Hh) as [Hv Hf]; [by apply flag_answer_valid|]. split; [done|].
  intros [Ht|[Hin|Hin]%elem_of_cons]; apply Hf; [left; by apply flag_stays|left|by right].
  assert (c = Evacuate) as -> by exact (f_equal projT1 (eq_sym Hin)). by apply flag_is_set.
Qed.

(** Once set, every reading finds it set. *)
Lemma history_evacuating {St} `{!Flag St} s tr s' :
  history flag_answer s tr s' → flag_valid s → flag s = true → ∀ b, ev Evacuating b ∈ tr → b = true.
Proof.
  induction tr as [|[c r] tr IH] in s |- *; simpl; [by intros _ _ _ b ?%elem_of_nil|].
  intros [-> Hh] Hs Hf b [Hin|Hin]%elem_of_cons.
  - assert (c = Evacuating) as -> by exact (f_equal projT1 (eq_sym Hin)).
    apply ev_Evacuating_inj in Hin as ->. by rewrite flag_is_read.
  - eapply (IH _ Hh); eauto using flag_answer_valid, flag_stays.
Qed.

End flag.

(** ** The evacuation context, beside any other services *)
Section context.
Context `{Models} {St : Type} (h : ∀ c, St → reply c * St).

(** A call of [Evacuate] that runs to its end: at most four actions. *)
Fixpoint run_call (n : nat) (i : nat) (e : EvacuationContext.evacuationContext) : EvacuationContext.evacuationContext :=
  match n with
  | 0 => e
  | S n => match EvacuationContext.Evacuate i e with Some e => run_call n i e | None => e end
  end.
Definition whole_call (e : EvacuationContext.evacuationContext) : EvacuationContext.evacuationContext :=
  run_call 4 (length (EvacuationContext.threads e)) (EvacuationContext.call_Evacuate e).

Definition context_answer (c : call) (s : EvacuationContext.evacuationContext * St) :
    reply c * (EvacuationContext.evacuationContext * St) :=
  match c return reply c * (EvacuationContext.evacuationContext * St) with
  | Evacuating => (EvacuationContext.Evacuating s.1, s)
  | Evacuate => (tt, (whole_call s.1, s.2))
  | c => let (r, s') := h c s.2 in (r, (s.1, s'))
  end.

Lemma whole_call_spec e :
  EvacuationContext.mu e = None →
  EvacuationContext.mu (whole_call e) = None ∧ EvacuationContext.Evacuating (whole_call e) = true.
Proof.
  destruct e as [b m ts]. simpl. intros ->. unfold whole_call, EvacuationContext.call_Evacuate. simpl.
  assert (∀ p, (ts ++ [p]) !! length ts = Some p) as Hl by (intros p; by apply list_lookup_middle).
  assert (∀ p q, <[length ts := q]> (ts ++ [p]) = ts ++ [q]) as Hi
    by (intros p q; rewrite insert_app_r_alt, Nat.sub_diag by done; done).
  destruct b; repeat (unfold EvacuationContext.Evacuate at 1; simpl; rewrite ?Hl, ?Hi; simpl); done.
Qed.

#[global] Instance context_flag : Flag (EvacuationContext.evacuationContext * St).
Proof.
  refine {| flag_answer := context_answer; flag_valid := λ s, EvacuationContext.mu s.1 = None;
            flag := λ s, EvacuationContext.Evacuating s.1 |}.
  - intros c [e s] He. destruct c; simpl; try done; try (by destruct (h _ s)). by apply whole_call_spec.
  - done.
  - intros [e s] He. by apply whole_call_spec.
  - intros c [e s] He Hf. destruct c; simpl; try done; try (by destruct (h _ s)). by apply whole_call_spec.
Defined.

End context.

(** ** The cell after a request to evacuate *)
Section evacuated.
Context `{Models}.

(** Taking up an LRP: claiming or starting its instance. *)
Definition takes_up_lrp (c : call) : bool :=
  match c with ClaimActualLRP _ _ _ | StartActualLRP _ _ _ => true | _ => false end.

(** [tr] found the flag set whenever it read it. *)
Definition sees_evacuation (tr : trace reply) : Prop := ∀ b, ev Evacuating b ∈ tr → b = true.

Lemma sees_evacuation_thread i (tr : shared reply) : sees_evacuation tr.*2 → sees_evacuation (of_thread i tr).
Proof. intros Hs b Hb. by apply Hs, (of_thread_subseteq i). Qed.

Lemma evacuated_Perform a work tr failed :
  exec (Perform a work) tr failed → sees_evacuation tr → failed = work ∧ requested tr = [].
Proof.
  intros (evac & tr' & -> & Hex) Hs. assert (evac = true) as -> by (apply Hs; by left). by destruct Hex as [-> ->].
Qed.

Lemma evacuated_State a tr state healthy :
  exec (AuctionCellRep.State a) tr (Ok (state, healthy)) → sees_evacuation tr → cs_Evacuating state = true.
Proof. intros (cs & total & avail & drivers & evac & -> & ->)%State_exec Hs. apply Hs. by do 4 right; left. Qed.

Lemma taskProcessor_takes_up cellID container tr :
  exec (TaskProcessor.Process cellID container) tr tt →
  Forall (λ c, takes_up_lrp c = false) (calls tr) ∧ guarded started is_run tr = true.
Proof.
  intros Hex. split; [|by apply (task_runs_only_when_started cellID container)].
  to_wp Hex. unfold_task. wp_go; simpl; by repeat constructor.
Qed.

(** An operation takes up no LRP, and runs only what it started as a task. *)
Lemma evacuated_Execute cellID ttl o tr :
  exec (Execute (NewLRPProcessor cellID ttl) (NewTaskProcessor cellID) o) tr tt → sees_evacuation tr →
  Forall (λ c, takes_up_lrp c = false) (calls tr) ∧ guarded started is_run tr = true.
Proof.
  intros Hex Hs. destruct (residual o) eqn:Hres.
  { assert (Forall (λ e, takes_up_lrp (projT1 e) = false ∧ is_run e = false) tr) as Hno.
    { clear Hs. to_wp Hex. destruct o as [[] []|[] []|[] []|?|?]; [..|done];
        unfold Execute, ResidualInstanceLRP_Execute, ResidualEvacuatingLRP_Execute, ResidualJointLRP_Execute,
          ResidualTask_Execute, delegate_GetContainer; wp_go; by repeat constructor. }
    split; [apply Forall_fmap; eapply Forall_impl; [exact Hno|by intros ? []]|].
    apply guarded_never. eapply Forall_impl; [exact Hno|by intros ? []]. }
  destruct o as [| | | |guid]; try done. apply Container_Execute_inv in Hex as ([c|err] & rest & -> & Hex); [|by subst; repeat constructor].
  destruct Hex as [[_ Hex]|[[_ Hex]|(_ & _ & ->)]]; [| |by repeat constructor].
  - destruct Hex as (evac & rest' & -> & Hex). assert (evac = true) as -> by (apply Hs; by right; left).
    pose proof (evacuation_calls_only _ _ _ Hex) as Hc. split.
    + do 2 (constructor; [done|]). eapply Forall_impl; [exact Hc|]. by intros [].
    + apply guarded_never. do 2 (constructor; [done|]). apply Forall_fmap in Hc. eapply Forall_impl; [exact Hc|].
      by intros [[] ?].
  - pose proof (taskProcessor_takes_up _ _ _ Hex) as [H1 H2]. split; [by constructor|done].
Qed.

(** C12 After a request to evacuate the cell takes up nothing.  Take any history in
    which some thread called [Evacuate], and the threads that start after that, in
    any interleaving: every [Perform] hands all its work back and asks the executor
    for nothing; every state that is reported says that the cell is evacuating; and
    no operation claims or starts an LRP, whatever state its container is in, or
    runs a container other than that of a task it has just started. *)
Theorem evacuated_cell_takes_up_nothing {St} `{!Flag St} s0 (tr1 : shared reply) s1 (tr2 : shared reply) s2 :
  flag_valid s0 → history flag_answer s0 tr1.*2 s1 → ev Evacuate tt ∈ tr1.*2 → history flag_answer s1 tr2.*2 s2 →
  (∀ j a work failed, exec (Perform a work) (of_thread j tr2) failed →
     failed = work ∧ requested (of_thread j tr2) = []) ∧
  (∀ j a state healthy, exec (AuctionCellRep.State a) (of_thread j tr2) (Ok (state, healthy)) →
     cs_Evacuating state = true) ∧
  (∀ j cellID ttl o,
     exec (Execute (NewLRPProcessor cellID ttl) (NewTaskProcessor cellID) o) (of_thread j tr2) tt →
     Forall (λ c, takes_up_lrp c = false) (calls (of_thread j tr2)) ∧ guarded started is_run (of_thread j tr2) = true).
Proof.
  intros Hs0 Hh1 Hev Hh2. destruct (history_flag _ _ _ Hh1 Hs0) as [Hs1 Hflag]. specialize (Hflag (or_intror Hev)).
  pose proof (history_evacuating _ _ _ Hh2 Hs1 Hflag : sees_evacuation tr2.*2) as Hsee.
  split_and!; intros j; pose proof (sees_evacuation_thread j _ Hsee) as Hj; intros.
  - by eapply evacuated_Perform.
  - by eapply evacuated_State.
  - by eapply evacuated_Execute.
Qed.

End evacuated.

(** ** A reserved container and some work, after the request *)
#[local] Existing Instance example_models.

Definition evacuation_services : ∀ c, EvacuationContext.evacuationContext * unit →
    reply c * (EvacuationContext.evacuationContext * unit) :=
  context_answer (one_container_env (example_container StateReserved)).

#[local] Instance example_flag : Flag (EvacuationContext.evacuationContext * unit) :=
  context_flag (one_container_env (example_container StateReserved)).

Definition asked_to_evacuate : trace reply * ResponseWriter * (EvacuationContext.evacuationContext * unit) :=
  run evacuation_services (Evacuation_ServeHTTP NewResponseWriter (mkRequest ∅ (Err json_Error)))
    (EvacuationContext.New, tt).

Lemma evacuated_cell_takes_up_nothing_witness :
  let performed := run evacuation_services (Perform example_rep example_work) asked_to_evacuate.2 in
  let operated := run evacuation_services (example_Execute (ContainerOperation "instance-guid")) asked_to_evacuate.2 in
  performed.1.2 = example_work ∧
  Forall (λ c, takes_up_lrp c = false) (calls operated.1.1) ∧
  existsb is_delete operated.1.1 = true.
Proof.
  intros performed operated.
  pose proof (run_history evacuation_services (Evacuation_ServeHTTP NewResponseWriter (mkRequest ∅ (Err json_Error)))
    (EvacuationContext.New, tt)) as Hh1. fold asked_to_evacuate in Hh1.
  pose proof (λ tr2 s2 H, evacuated_cell_takes_up_nothing (EvacuationContext.New, tt)
    (by_thread 0 asked_to_evacuate.1.1) asked_to_evacuate.2 (by_thread 1 tr2) s2 (eq_refl : flag_valid (EvacuationContext.New, tt)) H) as Hstill.
  rewrite by_thread_events in Hstill.
  assert (ev Evacuate tt ∈ asked_to_evacuate.1.1) as Hev by by left.
  split_and!; [..|vm_compute; reflexivity].
  - destruct (Hstill performed.1.1 performed.2) as (Hp & _ & _); [exact Hh1|exact Hev| |].
    + rewrite by_thread_events. apply (run_history evacuation_services).
    + apply (Hp 1 example_rep). rewrite of_by_thread. apply run_exec.
  - destruct (Hstill operated.1.1 operated.2) as (_ & _ & Ho); [exact Hh1|exact Hev| |].
    + rewrite by_thread_events. apply (run_history evacuation_services).
    + rewrite <-(of_by_thread 1 operated.1.1).
      apply (Ho 1 "cell" 600%Z (ContainerOperation "instance-guid")). rewrite of_by_thread. apply run_unit_tt.
Defined.
