(* ===== verification/Config.v ===== *)
(** cmd/rep/config/config.go: the configuration file.

    [StackMap] has its own JSON form, a list of "stack:path" strings.  The types of
    the configurations of other repositories that [RepConfig] contains, their
    defaults and decoders are parameters, and so are the fields and methods of them
    that the rep reads; durations are nanoseconds, read by a function of
    [durationjson]. *)

From S2P Require Import Prelude GoInt GoStrings GoUrl GoJson GoJsonText Effects Services RootFS Resources Wire.

(** ** StackMap *)
Definition StackMap := gmap string string.

Definition ErrNotStackPath : error :=
  errors_New "Invalid preloaded RootFS value: not of the form 'stack-name:path'".
Definition ErrBlankStack : error := errors_New "Invalid preloaded RootFS value: blank stack".
Definition ErrBlankPath : error := errors_New "Invalid preloaded RootFS value: blank path".

(** The loop over the strings; an error leaves it at once. *)
Fixpoint stack_map_loop (arr : list string) (m : StackMap) : res StackMap :=
  match arr with
  | [] => Ok m
  | s :: arr =>
      match SplitN2 s ":"%char with
      | [stack; path] =>
          if bool_decide (stack = "") then Err ErrBlankStack
          else if bool_decide (path = "") then Err ErrBlankPath
          else stack_map_loop arr (<[stack := path]> m)
      | _ => Err ErrNotStackPath
      end
  end.

Definition StackMap_UnmarshalJSON (data : json) : res StackMap :=
  arr ← decode_list decode_string data;
  stack_map_loop arr ∅.

(** [order] is the order in which the loop ranges over the map. *)
Definition StackMap_MarshalJSON (order : StackMap → list (string * string)) (m : StackMap) : json :=
  JArray ((λ kv, JString (kv.1 +:+ ":" +:+ kv.2)) <$> order m).

(** ** RepConfig *)

(** What other repositories contribute: [locket], [durationjson], and the
    configurations of the packages that the rep is made of.  An embedded struct
    takes its members from the object of the whole configuration. *)
Class ConfigDefaults := {
  locket_RetryInterval : Z;
  locket_DefaultSessionTTL : Z;
  decode_duration : json → res Z;
  Loggregator : Type; DebugServerConfig : Type; ExecutorConfig : Type; LagerConfig : Type; ClientLocketConfig : Type;
  zero_Loggregator : Loggregator; zero_DebugServerConfig : DebugServerConfig;
  executorinit_DefaultConfiguration : ExecutorConfig; DefaultLagerConfig : LagerConfig;
  zero_ClientLocketConfig : ClientLocketConfig;
  decode_Loggregator : Loggregator → json → res Loggregator;
  decode_DebugServerConfig : DebugServerConfig → list (string * json) → res DebugServerConfig;
  decode_ExecutorConfig : ExecutorConfig → list (string * json) → res ExecutorConfig;
  decode_LagerConfig : LagerConfig → list (string * json) → res LagerConfig;
  decode_ClientLocketConfig : ClientLocketConfig → list (string * json) → res ClientLocketConfig;
  UseV2API : Loggregator → bool;
  debug_address : DebugServerConfig → string;
  ExecutorConfig_Validate : ExecutorConfig → bool;
  locket_address : ClientLocketConfig → string }.

Section config.
Context `{ConfigDefaults}.
Open Scope Z_scope.

Record RepConfig := mkRepConfig {
  AdvertiseDomain : string;
  BBSAddress : string; BBSCACertFile : string; BBSClientCertFile : string; BBSClientKeyFile : string;
  BBSClientSessionCacheSize : Z; BBSMaxIdleConnsPerHost : Z;
  cfg_CaCertFile : string; cfg_CellID : string;
  CommunicationTimeout : Z;
  ConsulCACert : string; ConsulClientCert : string; ConsulClientKey : string; ConsulCluster : string;
  DropsondePort : Z;
  EnableLegacyAPIServer : bool;
  EvacuationPollingInterval : Z; EvacuationTimeout : Z;
  ListenAddr : string; ListenAddrAdmin : string; ListenAddrSecurable : string;
  LockRetryInterval : Z; LockTTL : Z;
  cfg_OptionalPlacementTags : list string; cfg_PlacementTags : list string;
  PollingInterval : Z;
  PreloadedRootFS : StackMap;
  cfg_RequireTLS : bool;
  ServerCertFile : string; ServerKeyFile : string;
  SessionName : string;
  SupportedProviders : list string;
  cfg_Zone : string;
  cfg_LoggregatorConfig : Loggregator;
  cfg_DebugServerConfig : DebugServerConfig;
  cfg_ExecutorConfig : ExecutorConfig;
  cfg_LagerConfig : LagerConfig;
  cfg_ClientLocketConfig : ClientLocketConfig }.

(** The promoted fields of embedded structs. *)
Definition LocketAddress (c : RepConfig) : string := locket_address (cfg_ClientLocketConfig c).
Definition DebugAddress (c : RepConfig) : string := debug_address (cfg_DebugServerConfig c).

Definition Second : Z := 1000000000.

Definition defaultConfig : RepConfig := {|
  AdvertiseDomain := "cell.service.cf.internal";
  BBSAddress := ""; BBSCACertFile := ""; BBSClientCertFile := ""; BBSClientKeyFile := "";
  BBSClientSessionCacheSize := 0; BBSMaxIdleConnsPerHost := 0;
  cfg_CaCertFile := ""; cfg_CellID := "";
  CommunicationTimeout := 10 * Second;
  ConsulCACert := ""; ConsulClientCert := ""; ConsulClientKey := ""; ConsulCluster := "";
  DropsondePort := 3457;
  EnableLegacyAPIServer := true;
  EvacuationPollingInterval := 10 * Second; EvacuationTimeout := 10 * 60 * Second;
  ListenAddr := "0.0.0.0:1800"; ListenAddrAdmin := ""; ListenAddrSecurable := "0.0.0.0:1801";
  LockRetryInterval := locket_RetryInterval; LockTTL := locket_DefaultSessionTTL;
  cfg_OptionalPlacementTags := []; cfg_PlacementTags := [];
  PollingInterval := 30 * Second;
  PreloadedRootFS := ∅;
  cfg_RequireTLS := true;
  ServerCertFile := ""; ServerKeyFile := "";
  SessionName := "rep";
  SupportedProviders := [];
  cfg_Zone := "";
  cfg_LoggregatorConfig := zero_Loggregator;
  cfg_DebugServerConfig := zero_DebugServerConfig;
  cfg_ExecutorConfig := executorinit_DefaultConfiguration;
  cfg_LagerConfig := DefaultLagerConfig;
  cfg_ClientLocketConfig := zero_ClientLocketConfig |}.

(** A member of the file replaces a field; without one, or with null for a plain
    field, the field keeps the value it has. *)
Definition replace {A} (current : A) (dec : json → res A) (name : string) (fields : list (string * json)) : res A :=
  match struct_field name fields with
  | None => Ok current
  | Some JNull => Ok current
  | Some v => dec v
  end.

(** [Decode] into a configuration that has its defaults.  When several members are
    malformed, which of their errors is returned depends on the decoder. *)
Definition decode_RepConfig (c : RepConfig) (data : json) : res RepConfig :=
  fields ← decode_object data;
  let str := λ name cur, replace cur decode_string name fields in
  let num := λ name cur, replace cur decode_int name fields in
  let flag := λ name cur, replace cur decode_bool name fields in
  let dur := λ name cur, decode_field cur decode_duration name fields in
  let strs := λ name cur, replace cur (decode_list decode_string) name fields in
  domain ← str "advertise_domain" (AdvertiseDomain c);
  bbs ← str "bbs_address" (BBSAddress c);
  bbs_ca ← str "bbs_ca_cert_file" (BBSCACertFile c);
  bbs_cert ← str "bbs_client_cert_file" (BBSClientCertFile c);
  bbs_key ← str "bbs_client_key_file" (BBSClientKeyFile c);
  bbs_cache ← num "bbs_client_session_cache_size" (BBSClientSessionCacheSize c);
  bbs_idle ← num "bbs_max_idle_conns_per_host" (BBSMaxIdleConnsPerHost c);
  ca ← str "ca_cert_file" (cfg_CaCertFile c);
  cell ← str "cell_id" (cfg_CellID c);
  communication ← dur "communication_timeout" (CommunicationTimeout c);
  consul_ca ← str "consul_ca_cert" (ConsulCACert c);
  consul_cert ← str "consul_client_cert" (ConsulClientCert c);
  consul_key ← str "consul_client_key" (ConsulClientKey c);
  consul ← str "consul_cluster" (ConsulCluster c);
  dropsonde ← num "dropsonde_port" (DropsondePort c);
  legacy ← flag "enable_legacy_api_endpoints" (EnableLegacyAPIServer c);
  evac_interval ← dur "evacuation_polling_interval" (EvacuationPollingInterval c);
  evac_timeout ← dur "evacuation_timeout" (EvacuationTimeout c);
  listen ← str "listen_addr" (ListenAddr c);
  admin ← str "listen_addr_admin" (ListenAddrAdmin c);
  securable ← str "listen_addr_securable" (ListenAddrSecurable c);
  retry ← dur "lock_retry_interval" (LockRetryInterval c);
  ttl ← dur "lock_ttl" (LockTTL c);
  optional ← strs "optional_placement_tags" (cfg_OptionalPlacementTags c);
  tags ← strs "placement_tags" (cfg_PlacementTags c);
  polling ← dur "polling_interval" (PollingInterval c);
  preloaded ← decode_field (PreloadedRootFS c) StackMap_UnmarshalJSON "preloaded_root_fs" fields;
  tls ← flag "require_tls" (cfg_RequireTLS c);
  server_cert ← str "server_cert_file" (ServerCertFile c);
  server_key ← str "server_key_file" (ServerKeyFile c);
  session ← str "session_name" (SessionName c);
  providers ← strs "supported_providers" (SupportedProviders c);
  zone ← str "zone" (cfg_Zone c);
  loggregator ← replace (cfg_LoggregatorConfig c) (decode_Loggregator (cfg_LoggregatorConfig c)) "loggregator" fields;
  debug ← decode_DebugServerConfig (cfg_DebugServerConfig c) fields;
  exec_config ← decode_ExecutorConfig (cfg_ExecutorConfig c) fields;
  lager ← decode_LagerConfig (cfg_LagerConfig c) fields;
  locket ← decode_ClientLocketConfig (cfg_ClientLocketConfig c) fields;
  Ok (mkRepConfig domain bbs bbs_ca bbs_cert bbs_key bbs_cache bbs_idle ca cell communication
        consul_ca consul_cert consul_key consul dropsonde legacy evac_interval evac_timeout
        listen admin securable retry ttl optional tags polling preloaded tls server_cert server_key
        session providers zone loggregator debug exec_config lager locket).

(** [file]: the error of opening or reading the file, or its text. *)
Definition NewRepConfig (file : res string) : res RepConfig :=
  configFile ← file;
  Decode (decode_RepConfig defaultConfig) configFile.

End config.

(** ** Round trip *)

(** The maps that [UnmarshalJSON] can produce. *)
Definition stack_map_ok (m : StackMap) : Prop :=
  ∀ k v, m !! k = Some v → contains_byte k ":"%char = false ∧ k ≠ "" ∧ v ≠ "".

Lemma stack_map_loop_ok arr m m' : stack_map_loop arr m = Ok m' → stack_map_ok m → stack_map_ok m'.
Proof.
  induction arr as [|s arr IH] in m |- *; simpl; [by intros [= ->]|].
  unfold SplitN2. destruct (Cut s ":"%char) as [[k v]|] eqn:Hcut; [|done].
  apply Cut_Some in Hcut as [_ Hk]. do 2 (case_bool_decide; [done|]).
  intros Hl Hm. eapply IH; [done|]. intros k' v' [[<- <-]|[_ Hv]]%lookup_insert_Some; [done|eauto].
Qed.

Lemma stack_map_loop_entries l m :
  (∀ k v, (k, v) ∈ l → contains_byte k ":"%char = false ∧ k ≠ "" ∧ v ≠ "") →
  stack_map_loop ((λ kv, kv.1 +:+ ":" +:+ kv.2) <$> l) m = Ok (foldl (λ m kv, <[kv.1 := kv.2]> m) m l).
Proof.
  induction l as [|[k v] l IH] in m |- *; simpl; intros Hl; [done|].
  destruct (Hl k v ltac:(left)) as (Hk & Hk0 & Hv0).
  change (k +:+ ":" +:+ v) with (k +:+ String ":"%char v).
  unfold SplitN2. rewrite Cut_app by done. rewrite !bool_decide_false by done. apply IH. intros; apply Hl. by right.
Qed.

Definition entry_ok (s : string) : bool :=
  match Cut s ":"%char with
  | Some (stack, path) => negb (bool_decide (stack = "")) && negb (bool_decide (path = ""))
  | None => false
  end.

Lemma stack_map_loop_is_ok arr m : is_ok (stack_map_loop arr m) = forallb entry_ok arr.
Proof.
  induction arr as [|s arr IH] in m |- *; simpl; [done|]. unfold SplitN2, entry_ok.
  destruct (Cut s ":"%char) as [[k v]|]; [|done].
  repeat case_bool_decide; simpl; rewrite ?IH; done.
Qed.

(** A stack map survives writing and reading: whatever list of stacks was read
    from a configuration, the map written back in any order and read again is the
    same.  A list of strings is read exactly when each has a colon with a stack
    before the first one and a path after it. *)
Theorem StackMap_roundtrip order data m arr :
  (∀ m, iteration_of m (order m)) → StackMap_UnmarshalJSON data = Ok m →
  StackMap_UnmarshalJSON (StackMap_MarshalJSON order m) = Ok m ∧
  is_ok (StackMap_UnmarshalJSON (encode_strings arr)) = forallb entry_ok arr.
Proof.
  intros Ho Hm. split; [|unfold StackMap_UnmarshalJSON; rewrite decode_strings_encode; apply (stack_map_loop_is_ok arr ∅)].
  assert (stack_map_ok m) as Hok.
  { unfold StackMap_UnmarshalJSON in Hm. destruct (decode_list decode_string data); [|done].
    by eapply stack_map_loop_ok. }
  unfold StackMap_UnmarshalJSON, StackMap_MarshalJSON.
  rewrite (list_fmap_compose (λ kv, kv.1 +:+ ":" +:+ kv.2) JString), decode_list_encode by done. simpl.
  rewrite stack_map_loop_entries.
  - f_equal. by apply (members_map_iteration m).
  - intros k v Hin. apply Hok. by rewrite (Ho m), elem_of_map_to_list in Hin.
Qed.

(** Without a member for it, every setting has its default. *)
Lemma NewRepConfig_empty `{ConfigDefaults} :
  decode_DebugServerConfig zero_DebugServerConfig [] = Ok zero_DebugServerConfig →
  decode_ExecutorConfig executorinit_DefaultConfiguration [] = Ok executorinit_DefaultConfiguration →
  decode_LagerConfig DefaultLagerConfig [] = Ok DefaultLagerConfig →
  decode_ClientLocketConfig zero_ClientLocketConfig [] = Ok zero_ClientLocketConfig →
  NewRepConfig (Ok "{}") = Ok defaultConfig.
Proof.
  intros H1 H2 H3 H4. unfold NewRepConfig, Decode. change (first_value "{}") with (Some (JObject [])).
  unfold decode_RepConfig. simpl. by rewrite H1, H2, H3, H4.
Qed.

(** An instance for concrete runs. *)
#[local] Instance example_defaults : ConfigDefaults := {|
  locket_RetryInterval := 5000000000; locket_DefaultSessionTTL := 15000000000; decode_duration := decode_int;
  Loggregator := bool; DebugServerConfig := string; ExecutorConfig := bool; LagerConfig := string; ClientLocketConfig := string;
  zero_Loggregator := false; zero_DebugServerConfig := ""; executorinit_DefaultConfiguration := true;
  DefaultLagerConfig := "info"; zero_ClientLocketConfig := "";
  decode_Loggregator := λ cur v, fields ← decode_object v; decode_field cur decode_bool "use_v2_api" fields;
  decode_DebugServerConfig := λ cur, decode_field cur decode_string "debug_address";
  decode_ExecutorConfig := λ cur fields, Ok cur;
  decode_LagerConfig := λ cur, decode_field cur decode_string "log_level";
  decode_ClientLocketConfig := λ cur, decode_field cur decode_string "locket_address";
  UseV2API := id; debug_address := id; ExecutorConfig_Validate := id; locket_address := id |}%Z.

Example embedded_members :
  LocketAddress <$> NewRepConfig (Ok (Marshal (JObject [("cell_id", JString "cell"); ("locket_address", JString "locket:8891")])))
    = Ok "locket:8891".
Proof. vm_compute. reflexivity. Qed.

Lemma StackMap_roundtrip_witness :
  StackMap_UnmarshalJSON (StackMap_MarshalJSON map_to_list {["linux" := "/data:rootfs"; "windows" := "c:\"]}) =
    Ok {["linux" := "/data:rootfs"; "windows" := "c:\"]}.
Proof.
  apply (StackMap_roundtrip map_to_list (JArray [JString "windows:c:\"; JString "linux:/data:rootfs"]) _ []);
    [intros m; unfold iteration_of; reflexivity | vm_compute; reflexivity].
Defined.
