(* ===== verification/Main.v ===== *)
(** cmd/rep/main.go: how the configuration becomes addresses, servers and the
    cell's presence.  Starting the process group and constructing the clients of
    other services is not modelled. *)

From S2P Require Import Prelude GoInt GoStrings GoUrl GoJson Effects Services RootFS Resources Conversion.
From S2P Require Import AuctionCellRep Wire Routes Handlers Client Maintain Config.

(** ** Names and addresses *)
Definition repHost (cellID : string) : string := ReplaceAll cellID "_"%char "-"%char.

(** Splitting never gives an empty slice, so the first element exists. *)
Definition repBaseHostName (advertiseDomain : string) : string :=
  match Split advertiseDomain "."%char with name :: _ => name | [] => "" end.

Definition repURL (cellID advertiseDomain : string) : string :=
  repHost cellID +:+ "." +:+ advertiseDomain.

(** [strings.Split(address, ":")[1]]: [None] when the index is out of range and the
    program panics. *)
Definition port_of (address : string) : option string := Split address ":"%char !! 1.

Section addresses.
Context `{ConfigDefaults}.

(** The keys of the preloaded root file systems, in the order of the loop. *)
Definition preloadedRootFSes (order : StackMap → list (string * string)) (c : RepConfig) : list string :=
  (order (PreloadedRootFS c)).*1.

Definition gardenHealthcheckRootFS (c : RepConfig) (preloaded : list string) : string :=
  match preloaded with
  | [] => ""
  | k :: _ => lookup_default "" (PreloadedRootFS c) k
  end.

(** ** Servers *)
Record server := mkServer {
  listenAddress : string; tls : bool; server_address : string; server_routes : list Route }.

Definition initializeServer (c : RepConfig) (ip : string) (secure : bool) : option server :=
  let routes := getRoutes (EnableLegacyAPIServer c) secure in
  let listenAddress := if secure then ListenAddrSecurable c else ListenAddr c in
  port ← port_of listenAddress;
  if secure && cfg_RequireTLS c
  then Some (mkServer listenAddress true ("https://" +:+ ip +:+ ":" +:+ port) routes)
  else Some (mkServer listenAddress false ("http://" +:+ ip +:+ ":" +:+ port) routes).

End addresses.

(** ** Presence *)

(** The presence goes to locket or, through the maintainer, to consul. *)
Inductive presence_runner :=
| LocketPresence (payload : CellPresence) (Key Owner : string) (ttlInSeconds : Z)
| ConsulMaintainer (config : Maintain.Config) (lockTTL : Z).

Section presence.
Context `{Models, ConfigDefaults}.

Definition presence_url (c : RepConfig) (secure : bool) : option string :=
  port ← port_of (ListenAddrSecurable c);
  if secure && cfg_RequireTLS c
  then Some ("https://" +:+ repURL (cfg_CellID c) (AdvertiseDomain c) +:+ ":" +:+ port)
  else Some ("http://" +:+ repURL (cfg_CellID c) (AdvertiseDomain c) +:+ ":" +:+ port).

(** [locketClient] and [guid] are what constructing the client and generating the
    owner returned; an error of theirs or of the executor ends the program, and so
    does a listen address without a port ([None]). *)
Definition initializeCellPresence (address : string) (locketClient : option error) (guid : res string)
    (c : RepConfig) (preloaded : list string) (secure : bool) : rep (option (res presence_runner)) :=
  match presence_url c secure with
  | None => Ret None
  | Some repUrl =>
      if negb (bool_decide (LocketAddress c = "")) then
        match locketClient with
        | Some err => Ret (Some (Err err))
        | None =>
        match guid with
        | Err err => Ret (Some (Err err))
        | Ok guid =>
        Do TotalResources (λ resources, match resources with
        | Err err => Ret (Some (Err err))
        | Ok resources =>
            let cellCapacity := NewCellCapacity (int32 (executor.MemoryMB resources))
              (int32 (executor.DiskMB resources)) (int32 (executor.Containers resources)) in
            let cellPresence := NewCellPresence (cfg_CellID c) address repUrl (cfg_Zone c) cellCapacity
              (SupportedProviders c) preloaded (cfg_PlacementTags c) (cfg_OptionalPlacementTags c) in
            Ret (Some (Ok (LocketPresence cellPresence (cfg_CellID c) guid (Z.quot (LockTTL c) Second))))
        end)
        end end
      else
        Ret (Some (Ok (ConsulMaintainer
          (mkConfig (cfg_CellID c) address repUrl (cfg_Zone c) (LockRetryInterval c) (SupportedProviders c)
             preloaded (cfg_PlacementTags c) (cfg_OptionalPlacementTags c)) (LockTTL c))))
  end.

(** The configuration with another configuration of the locket client. *)
Definition with_locket (l : ClientLocketConfig) (c : RepConfig) : RepConfig :=
  {| AdvertiseDomain := AdvertiseDomain c; BBSAddress := BBSAddress c; BBSCACertFile := BBSCACertFile c;
     BBSClientCertFile := BBSClientCertFile c; BBSClientKeyFile := BBSClientKeyFile c;
     BBSClientSessionCacheSize := BBSClientSessionCacheSize c; BBSMaxIdleConnsPerHost := BBSMaxIdleConnsPerHost c;
     cfg_CaCertFile := cfg_CaCertFile c; cfg_CellID := cfg_CellID c; CommunicationTimeout := CommunicationTimeout c;
     ConsulCACert := ConsulCACert c; ConsulClientCert := ConsulClientCert c; ConsulClientKey := ConsulClientKey c;
     ConsulCluster := ConsulCluster c; DropsondePort := DropsondePort c;
     EnableLegacyAPIServer := EnableLegacyAPIServer c; EvacuationPollingInterval := EvacuationPollingInterval c;
     EvacuationTimeout := EvacuationTimeout c; ListenAddr := ListenAddr c; ListenAddrAdmin := ListenAddrAdmin c;
     ListenAddrSecurable := ListenAddrSecurable c; LockRetryInterval := LockRetryInterval c; LockTTL := LockTTL c;
     cfg_OptionalPlacementTags := cfg_OptionalPlacementTags c; cfg_PlacementTags := cfg_PlacementTags c;
     PollingInterval := PollingInterval c; PreloadedRootFS := PreloadedRootFS c; cfg_RequireTLS := cfg_RequireTLS c;
     ServerCertFile := ServerCertFile c; ServerKeyFile := ServerKeyFile c; SessionName := SessionName c;
     SupportedProviders := SupportedProviders c; cfg_Zone := cfg_Zone c;
     cfg_LoggregatorConfig := cfg_LoggregatorConfig c; cfg_DebugServerConfig := cfg_DebugServerConfig c;
     cfg_ExecutorConfig := cfg_ExecutorConfig c; cfg_LagerConfig := cfg_LagerConfig c;
     cfg_ClientLocketConfig := l |}.

(** The cell announces the same presence through either backend: with the same
    configuration and resources, the payload registered with locket is the
    presence that the maintainer would keep up in consul. *)
Theorem presence_same_in_both_backends address guid c preloaded secure l l' pres key owner ttl config lockTTL tr tr' :
  locket_address l ≠ "" → locket_address l' = "" →
  exec (initializeCellPresence address None (Ok guid) (with_locket l c) preloaded secure)
    tr (Some (Ok (LocketPresence pres key owner ttl))) →
  exec (initializeCellPresence address None (Ok guid) (with_locket l' c) preloaded secure)
    tr' (Some (Ok (ConsulMaintainer config lockTTL))) →
  ∃ resources, tr = [ev TotalResources (Ok resources)] ∧ tr' = [] ∧
    createHeartbeater config (Ok resources) = Ok pres ∧
    key = CellID config ∧ owner = guid ∧ ttl = Z.quot lockTTL Second.
Proof.
  intros Ha Ha'. unfold initializeCellPresence, presence_url, LocketAddress. simpl. rewrite Ha'.
  destruct (port_of (ListenAddrSecurable c)) as [port|]; simpl; [|by intros [_ ?]].
  rewrite (bool_decide_false (locket_address l = "")) by done.
  destruct (secure && cfg_RequireTLS c); simpl; intros ([resources|] & tr1 & -> & [-> Hl]) [-> Hc];
    simplify_eq; eauto 10.
Qed.

End presence.

(** ** Announced addresses *)
Lemma announced_scheme scheme rest url :
  scheme_name scheme = true → Parse (scheme +:+ "://" +:+ rest) = Ok url → Scheme url = scheme.
Proof. apply (Parse_Scheme scheme ("//" +:+ rest)). Qed.

(** The address a rep announces can be used by its clients: if the listen address
    has a port, a URL is announced whose scheme is https exactly when the server
    behind it speaks TLS, and when it parses, a client chooses it, unless it
    requires TLS of a rep without, or has no credentials for a rep with it. *)
Theorem announced_url_is_usable `{ConfigDefaults} c ip srv repUrl config address url :
  initializeServer c ip true = Some srv → presence_url c true = Some repUrl → Parse repUrl = Ok url →
  (Scheme url = if tls srv then "https" else "http") ∧
  pickURL config address repUrl =
    if tls srv then
      (if RequireTLS config || hasCreds config then Ok repUrl else Err ErrHttpsNotSupported)
    else (if RequireTLS config then Err ErrHttpsRequired else Ok repUrl).
Proof.
  unfold initializeServer, presence_url. simpl.
  destruct (port_of (ListenAddrSecurable c)) as [port|]; simpl; [|done].
  destruct (cfg_RequireTLS c); intros Hsrv Hurl Hp; simplify_eq; simpl.
  - assert (Scheme url = "https") as Hs by exact (announced_scheme "https" _ url eq_refl Hp). split; [done|].
    unfold pickURL. rewrite bool_decide_false by done. cbn [negb]. rewrite Hp. simpl.
    rewrite Hs, bool_decide_true by done. by destruct (RequireTLS config), (hasCreds config).
  - assert (Scheme url = "http") as Hs by exact (announced_scheme "http" _ url eq_refl Hp). split; [done|].
    unfold pickURL. rewrite bool_decide_false by done. cbn [negb]. rewrite Hp. simpl.
    rewrite Hs, bool_decide_false by done. by destruct (RequireTLS config), (hasCreds config).
Qed.

(** A listen address without a colon, such as a bare port, is not reported as an
    invalid configuration: the servers' constructor panics on it. *)
Theorem listen_address_without_colon_panics `{ConfigDefaults} c ip :
  contains_byte (ListenAddr c) ":"%char = false → initializeServer c ip false = None.
Proof.
  intros Hc. unfold initializeServer, port_of. simpl.
  assert (∀ s, contains_byte s ":"%char = false → Split s ":"%char = [s]) as Hs.
  { clear. induction s as [|a s IH]; simpl; [done|]. intros [-> Hs]%orb_false_iff. by rewrite IH. }
  by rewrite Hs.
Qed.

(** ** Witnesses *)
#[local] Existing Instance example_models.
#[local] Existing Instance example_defaults.

Definition quiet_env (c : call) (u : unit) : reply c * unit := (quiet c, u).

Lemma presence_same_in_both_backends_witness :
  ∃ resources pres, createHeartbeater
    (mkConfig "" "http://10.0.0.2:1800" "https://.cell.service.cf.internal:1801" "" (5 * Second)%Z [] [] [] [])
    (Ok resources) = Ok pres.
Proof.
  destruct (presence_same_in_both_backends "http://10.0.0.2:1800" "owner" defaultConfig [] true ("127.0.0.1:8891" : @ClientLocketConfig example_defaults)
    ("" : @ClientLocketConfig example_defaults) _ _ _ _ _ _ _ _ ltac:(discriminate) eq_refl
    (run_exec quiet_env (initializeCellPresence "http://10.0.0.2:1800" None (Ok "owner")
       (with_locket ("127.0.0.1:8891" : @ClientLocketConfig example_defaults) defaultConfig) [] true) tt)
    (run_exec quiet_env (initializeCellPresence "http://10.0.0.2:1800" None (Ok "owner")
       (with_locket ("" : @ClientLocketConfig example_defaults) defaultConfig) [] true) tt)) as (resources & _ & _ & Hpres & _).
  exists resources. eexists. exact Hpres.
Defined.

Lemma announced_url_is_usable_witness :
  pickURL (mkTLSConfig false "" "" "" 0) "http://10.0.0.2:1800" "https://.cell.service.cf.internal:1801"
    = Err ErrHttpsNotSupported.
Proof.
  apply (announced_url_is_usable defaultConfig "10.0.0.2"
    (mkServer "0.0.0.0:1801" true "https://10.0.0.2:1801" (NewRoutes true))
    "https://.cell.service.cf.internal:1801" (mkTLSConfig false "" "" "" 0) "http://10.0.0.2:1800"
    (mkURL "https" "" "")); vm_compute; reflexivity.
Defined.

Lemma listen_address_without_colon_panics_witness :
  initializeServer (mkRepConfig "" "" "" "" "" 0 0 "" "cell" 0 "" "" "" "" 0 false 0 0
    "1800" "" "" 0 0 [] [] 0 ∅ false "" "" "" [] "" zero_Loggregator zero_DebugServerConfig
    executorinit_DefaultConfiguration DefaultLagerConfig zero_ClientLocketConfig) "10.0.0.2" false = None.
Proof. apply listen_address_without_colon_panics. reflexivity. Defined.
