(* ===== verification/CellPresenceClient.v ===== *)
(** maintain/cell_presence_client.go: cell presences in consul.

    Consul's key-value store answers with pairs or an error ([KV]); the locks' schema
    ([locket.LockSchemaPath]), the JSON form of a presence ([models.ToJSON],
    [models.FromJSON]), the set of cells ([models.CellSet]) and the messages of consul's
    errors belong to other repositories and are parameters. *)

From S2P Require Import Prelude GoInt GoStrings GoUrl GoJson Effects Services Maintain.

Record kvPair := mkKVPair { Key : string; Value : string; Session : string }.

Inductive consul_error := KeyNotFoundError (key : string) | PrefixNotFoundError (prefix : string) | OtherConsulError (msg : string).

(** What [consulClient.KV()] answers: [Get] of a key gives a pair that may be nil,
    [List] of a prefix a slice that may be nil; both may fail. *)
Record KV := mk_KV {
  Get : string → result consul_error (option kvPair);
  List : string → option (list kvPair) * option consul_error }.

Class Consul := {
  LockSchemaPath : list string → string;
  ToJSON : CellPresence → string;
  FromJSON : string → res CellPresence;
  consul_Error : consul_error → string;  (* the method Error *)
  error_Error : error → string;
  CellSet : Type;
  NewCellSet : CellSet;
  CellSet_Add : CellSet → CellPresence → CellSet }.

(** The documented behaviour of the set: a map from cell ids, to which adding a
    presence replaces the one with the same id. *)
Class CellSetLaws `{Consul} := {
  CellSet_lookup : CellSet → string → option CellPresence;
  lookup_NewCellSet id : CellSet_lookup NewCellSet id = None;
  lookup_CellSet_Add set p id :
    CellSet_lookup (CellSet_Add set p) id = if decide (pres_CellId p = id) then Some p else CellSet_lookup set id }.

Section client.
Context `{Models, Consul}.

Definition CellSchemaKey : string := "cell".
Definition CellSchemaPath (cellID : string) : string := LockSchemaPath [CellSchemaKey; cellID].
Definition CellSchemaRoot : string := LockSchemaPath [CellSchemaKey].

Definition convertConsulError (err : consul_error) : error :=
  match err with
  | KeyNotFoundError _ => models_Error Error_ResourceNotFound (consul_Error err)
  | PrefixNotFoundError _ => models_Error Error_ResourceNotFound (consul_Error err)
  | OtherConsulError _ => models_Error Error_UnknownError (consul_Error err)
  end.

(** The path and the payload that the presence runner registers. *)
Definition NewCellPresenceRunner (cellPresence : CellPresence) : string * string :=
  (CellSchemaPath (pres_CellId cellPresence), ToJSON cellPresence).

(** The loop over the pairs: those without a session are not held by a live cell,
    and those that cannot be read are only logged. *)
Definition add_presence (cellPresences : CellSet) (kv : kvPair) : CellSet :=
  if bool_decide (Session kv = "") then cellPresences
  else match FromJSON (Value kv) with
       | Err _ => cellPresences
       | Ok presence => CellSet_Add cellPresences presence
       end.

Definition Cells (kv : KV) : res CellSet :=
  let (kvPairs, err) := List kv CellSchemaRoot in
  match (match err with
         | Some err =>
             let bbsErr := convertConsulError err in
             if negb (bool_decide (ConvertError_Type bbsErr = Error_ResourceNotFound)) then Some bbsErr else None
         | None => None
         end) with
  | Some bbsErr => Err bbsErr
  | None =>
      match (match kvPairs with
             | None =>
                 let bbsErr := convertConsulError (PrefixNotFoundError CellSchemaRoot) in
                 if negb (bool_decide (ConvertError_Type bbsErr = Error_ResourceNotFound)) then Some bbsErr else None
             | Some _ => None
             end) with
      | Some bbsErr => Err bbsErr
      | None => Ok (foldl add_presence NewCellSet (default [] kvPairs))
      end
  end.

Definition getAcquiredValue (kv : KV) (key : string) : result consul_error string :=
  match Get kv key with
  | Err err => Err err
  | Ok None => Err (KeyNotFoundError key)
  | Ok (Some kvPair) =>
      if bool_decide (Session kvPair = "") then Err (KeyNotFoundError key) else Ok (Value kvPair)
  end.

Definition CellById (kv : KV) (cellId : string) : res CellPresence :=
  match getAcquiredValue kv (CellSchemaPath cellId) with
  | Err err => Err (convertConsulError err)
  | Ok value =>
      match FromJSON value with
      | Err err => Err (models_Error Error_InvalidJSON (error_Error err))
      | Ok presence => Ok presence
      end
  end.

(** [path.Base]: the last element of a slash-separated path. *)
Fixpoint strip_slashes (s : string) : string :=
  match s with
  | EmptyString => EmptyString
  | String c s =>
      match strip_slashes s with
      | EmptyString => if bool_decide (c = "/"%char) then EmptyString else String c EmptyString
      | s => String c s
      end
  end.
Definition path_Base (path : string) : string :=
  if bool_decide (path = "") then "."
  else
    let s := match cut_last (strip_slashes path) "/"%char with Some (_, s) => s | None => strip_slashes path end in
    if bool_decide (s = "") then "/" else s.

(** The goroutine of [CellEvents]: one event with the cells' ids per batch of keys
    that disappeared. *)
Definition CellEvents (disappeared : list (list string)) : list (list string) :=
  map (map path_Base) disappeared.

End client.

(** ** Facts *)
Lemma strip_slashes_none t : contains_byte t "/"%char = false → strip_slashes t = t.
Proof.
  induction t as [|a t IH]; simpl; [done|]. intros [Ha Ht]%orb_false_iff.
  rewrite IH, Ha by done. by destruct t.
Qed.

Lemma strip_slashes_app s t : t ≠ "" → strip_slashes t = t → strip_slashes (s +:+ t) = s +:+ t.
Proof.
  intros Hne Ht. induction s as [|a s IH]; [done|].
  rewrite string_app_cons. simpl. rewrite IH.
  destruct (s +:+ t) eqn:Hst; [|done].
  destruct s; [by change ("" +:+ t) with t in Hst | by rewrite string_app_cons in Hst].
Qed.

(** The last element of a path. *)
Lemma path_Base_app root id :
  id ≠ "" → contains_byte id "/"%char = false → path_Base (root +:+ String "/"%char id) = id.
Proof.
  intros Hne Hid. unfold path_Base. rewrite bool_decide_false by (by destruct root).
  assert (strip_slashes (root +:+ String "/"%char id) = root +:+ String "/"%char id) as ->.
  { apply strip_slashes_app; [done|]. simpl. rewrite strip_slashes_none by done. by destruct id. }
  rewrite cut_last_app by done. by rewrite bool_decide_false.
Qed.

Lemma prefix_app s t : String.prefix s (s +:+ t) = true.
Proof. induction s as [|c s IH]; [by destruct t|]. rewrite string_app_cons. simpl. by destruct (Ascii.ascii_dec c c). Qed.

Section facts.
Context `{Models, Consul, !CellSetLaws}.
Context (ConvertError_models_Error : ∀ t msg, ConvertError_Type (models_Error t msg) = t).
Context (paths : ∀ id, LockSchemaPath [CellSchemaKey; id] = LockSchemaPath [CellSchemaKey] +:+ String "/"%char id).

(** The documented behaviour of consul: its answers are those of one store, which maps
    keys to values and the sessions that hold them. *)
Definition serves (kv : KV) (store : gmap string (string * string)) : Prop :=
  (∀ k, Get kv k = Ok ((λ vs, mkKVPair k vs.1 vs.2) <$> store !! k)) ∧
  ∀ prefix, ∃ l, List kv prefix = (if decide (l = []) then None else Some l, None) ∧ NoDup (Key <$> l) ∧
    ∀ x, x ∈ l ↔ store !! Key x = Some (Value x, Session x) ∧ String.prefix prefix (Key x) = true.

(** What cells leave there: a held presence that can be read is under the path of its
    cell, as [NewCellPresenceRunner] registers it. *)
Definition well_kept (store : gmap string (string * string)) : Prop :=
  ∀ k v s q, store !! k = Some (v, s) → String.prefix CellSchemaRoot k = true → s ≠ "" → FromJSON v = Ok q →
    k = CellSchemaPath (pres_CellId q).

Lemma CellSchemaPath_inj id id' : CellSchemaPath id = CellSchemaPath id' → id = id'.
Proof using paths. unfold CellSchemaPath. rewrite !paths. intros [= ?]%(inj (String.app _)). done. Qed.

Lemma CellSchemaPath_prefix id : String.prefix CellSchemaRoot (CellSchemaPath id) = true.
Proof using paths. unfold CellSchemaPath, CellSchemaRoot. rewrite paths. apply prefix_app. Qed.

(** The set made of pairs under different keys. *)
Lemma added_presences l id q :
  NoDup (Key <$> l) →
  (∀ x p, x ∈ l → Session x ≠ "" → FromJSON (Value x) = Ok p → Key x = CellSchemaPath (pres_CellId p)) →
  CellSet_lookup (foldl add_presence NewCellSet l) id = Some q ↔
  ∃ x, x ∈ l ∧ Session x ≠ "" ∧ FromJSON (Value x) = Ok q ∧ pres_CellId q = id.
Proof.
  induction l as [|y l IH] using rev_ind; intros Hnd Hkeys.
  { simpl. rewrite lookup_NewCellSet. split; [done|]. by intros (x & ?%elem_of_nil & _). }
  rewrite fmap_app, NoDup_app in Hnd. destruct Hnd as (Hnd & Hdisj & _).
  specialize (IH Hnd ltac:(intros x p ?; apply Hkeys, elem_of_app; by left)). rewrite foldl_app. simpl. unfold add_presence at 1.
  assert ((∃ x, x ∈ l ++ [y] ∧ Session x ≠ "" ∧ FromJSON (Value x) = Ok q ∧ pres_CellId q = id) ↔
    (∃ x, x ∈ l ∧ Session x ≠ "" ∧ FromJSON (Value x) = Ok q ∧ pres_CellId q = id) ∨
    (Session y ≠ "" ∧ FromJSON (Value y) = Ok q ∧ pres_CellId q = id)) as ->.
  { split.
    - intros (x & [Hx| ->%list_elem_of_singleton]%elem_of_app & Hx'); [left; by exists x|by right].
    - intros [(x & Hx & Hx')|Hy]; [exists x|exists y]; (split; [apply elem_of_app|done]); [by left|by right; left]. }
  rewrite <-IH. case_bool_decide as Hs; [naive_solver|]. destruct (FromJSON (Value y)) as [p|] eqn:Hp; [|naive_solver].
  rewrite lookup_CellSet_Add. case_decide as Hid; [|naive_solver].
  split; [intros [= ->]; by right|]. intros [Hq|(_ & [= ->] & _)]; [|done]. exfalso.
  apply IH in Hq as (x & Hx & Hsx & Hpx & Hqid).
  assert (Key x = Key y) as Heq.
  { transitivity (CellSchemaPath id); [rewrite <-Hqid; apply Hkeys; [|done..]|rewrite <-Hid; symmetry; apply Hkeys; [|done..]];
      apply elem_of_app; [by left|by right; left]. }
  apply (Hdisj (Key x)); [by apply list_elem_of_fmap_2|]. rewrite Heq. by apply list_elem_of_singleton.
Qed.

Lemma CellById_serves kv store id q :
  serves kv store →
  CellById kv id = Ok q ↔ ∃ v s, store !! CellSchemaPath id = Some (v, s) ∧ s ≠ "" ∧ FromJSON v = Ok q.
Proof.
  intros [Hget _]. unfold CellById, getAcquiredValue. rewrite Hget.
  destruct (store !! CellSchemaPath id) as [[v s]|]; simpl; [|split; [done|by intros (? & ? & ? & _)]].
  case_bool_decide as Hs; [split; [done|intros (? & ? & [= <- <-] & ? & _); done]|].
  destruct (FromJSON v) as [p|] eqn:Hp; split; try done.
  - intros [= ->]. by exists v, s.
  - intros (? & ? & [= <- <-] & _ & Hq). congruence.
  - intros (? & ? & [= <- <-] & _ & Hq). congruence.
Qed.

(** [Cells] and [CellById] agree. *)
Lemma Cells_serves kv store :
  serves kv store → well_kept store →
  ∃ set, Cells kv = Ok set ∧ ∀ id q, CellSet_lookup set id = Some q ↔ CellById kv id = Ok q.
Proof using ConvertError_models_Error paths.
  intros Hserves Hkept. destruct (proj2 Hserves CellSchemaRoot) as (l & Hlist & Hnd & Hl).
  exists (foldl add_presence NewCellSet l). split.
  { unfold Cells. rewrite Hlist. destruct (decide (l = [])) as [->|]; simpl; [|done]. by rewrite ConvertError_models_Error. }
  intros id q. rewrite (CellById_serves kv store) by done. rewrite added_presences; [ |done| ].
  - split.
    + intros (x & [Hx Hpre]%Hl & Hs & Hq & <-). exists (Value x), (Session x).
      rewrite <-(Hkept (Key x) (Value x) (Session x)); [done|done|done|done|done].
    + intros (v & s & Hst & Hs & Hq). exists (mkKVPair (CellSchemaPath id) v s). split_and!; [|done..|].
      * apply Hl. split; [done|]. apply CellSchemaPath_prefix.
      * symmetry. eapply CellSchemaPath_inj, Hkept; [done|apply CellSchemaPath_prefix|done..].
  - intros x p [Hx Hpre]%Hl Hs Hp. by eapply Hkept.
Qed.


End facts.

(** A registry whose payload is the cell's id and zone. *)
Definition example_consul : Consul := {|
  LockSchemaPath := λ l, "v1/locks/" +:+ Join l "/";
  ToJSON := λ p, pres_CellId p +:+ ":" +:+ pres_Zone p;
  FromJSON := λ v, match Cut v ":"%char with
                   | Some (id, zone) => Ok (NewCellPresence id "" "" zone (NewCellCapacity 0 0 0) [] [] [] [])
                   | None => Err json_Error
                   end;
  consul_Error := λ _, "consul";
  error_Error := λ _, "error";
  CellSet := gmap string CellPresence;
  NewCellSet := ∅;
  CellSet_Add := λ set p, <[pres_CellId p := p]> set |}.

#[local] Existing Instance example_models.
#[local] Existing Instance example_consul.

#[local] Instance example_cell_set_laws : CellSetLaws.
Proof.
  refine (Build_CellSetLaws example_consul (λ (set : gmap string CellPresence) id, set !! id) _ _); intros; simpl; [done|].
  apply lookup_insert.
Defined.

Definition example_presence : CellPresence :=
  NewCellPresence "cell-z1-0" "" "" "z1" (NewCellCapacity 0 0 0) [] [] [] [].

(** A consul with one pair. *)
Definition one_pair (k v s : string) : KV :=
  mk_KV (λ key, Ok (if decide (k = key) then Some (mkKVPair k v s) else None))
    (λ prefix, (if String.prefix prefix k then Some [mkKVPair k v s] else None, None)).

Lemma one_pair_serves k v s : serves (one_pair k v s) {[k := (v, s)]}.
Proof.
  split.
  - intros key. simpl. case_decide as Hk; [subst; by rewrite lookup_singleton_eq|by rewrite lookup_singleton_ne].
  - intros prefix. simpl. exists (if String.prefix prefix k then [mkKVPair k v s] else []).
    destruct (String.prefix prefix k) eqn:Hp; (split; [done|split]).
    + apply NoDup_singleton.
    + intros [k' v' s']. rewrite list_elem_of_singleton, lookup_singleton_Some. naive_solver.
    + constructor.
    + intros [k' v' s']. rewrite lookup_singleton_Some. simpl. split; [by intros ?%elem_of_nil|].
      intros [[<- _] Hk]. congruence.
Qed.

