(* ===== verification/Convergence.v ===== *)
(** Generator, bulker, queue and operations together: what a bulk sync achieves.

    The bulletin board and the executor are parameters, as a state that answers
    every call ([Board]); the laws say what the bulletin board documents of its
    records.  The theorem follows a record through a whole round: the three
    listings, the batch, and the execution of every operation of the batch, at the
    same time as each other and as everything else that uses the services. *)

From S2P Require Import Prelude GoInt GoStrings GoUrl GoJson Effects Services Conversion ContainerDelegate.
From S2P Require Import OrdinaryLRPProcessor EvacuationLRPProcessor TaskProcessor LRPProcessor Operation Generator.
From S2P Require Import Harmonizer Concurrency Queue.

(** ** Records of the bulletin board *)
Inductive record :=
| InstanceRecord (key : ActualLRPKey) (ikey : ActualLRPInstanceKey)
| EvacuatingRecord (key : ActualLRPKey) (ikey : ActualLRPInstanceKey)
| TaskRecord (guid cell : string).

#[global] Instance record_eq_dec : EqDecision record.
Proof. solve_decision. Defined.

(** The guid of the container that a record is about, and the cell it names. *)
Definition record_guid (r : record) : string :=
  match r with
  | InstanceRecord _ ikey | EvacuatingRecord _ ikey => InstanceGuid ikey
  | TaskRecord guid _ => guid
  end.
Definition record_cell (r : record) : string :=
  match r with
  | InstanceRecord _ ikey | EvacuatingRecord _ ikey => CellId ikey
  | TaskRecord _ cell => cell
  end.

(** The two records of one instance have the same subject. *)
Definition same_subject (r r' : record) : Prop :=
  match r, r' with
  | TaskRecord guid cell, TaskRecord guid' cell' => guid = guid' ∧ cell = cell'
  | (InstanceRecord k ik | EvacuatingRecord k ik), (InstanceRecord k' ik' | EvacuatingRecord k' ik') =>
      k = k' ∧ ik = ik'
  | _, _ => False
  end.

Definition record_index_ok (r : record) : Prop :=
  match r with
  | InstanceRecord key _ | EvacuatingRecord key _ => is_int32 (Index key)
  | TaskRecord _ _ => True
  end.

Section records.
Context `{Models}.

Definition removes (c : call) (r : record) : bool :=
  match c, r with
  | RemoveActualLRP pg idx ikey, InstanceRecord k ik =>
      bool_decide (pg = ProcessGuid k ∧ idx = Index k ∧ ikey = ik)
  | RemoveEvacuatingActualLRP key ikey, EvacuatingRecord k ik => bool_decide (key = k ∧ ikey = ik)
  | FailTask guid _, TaskRecord guid' _ => bool_decide (guid = guid')
  | _, _ => false
  end.

Definition creates (c : call) (r : record) : Prop :=
  match c, r with
  | ClaimActualLRP pg idx ikey, InstanceRecord k ik => pg = ProcessGuid k ∧ idx = Index k ∧ ikey = ik
  | StartActualLRP key ikey _, InstanceRecord k ik => key = k ∧ ikey = ik
  | EvacuateRunningActualLRP key ikey _ _, EvacuatingRecord k ik => key = k ∧ ikey = ik
  | StartTask guid cell, TaskRecord guid' cell' => guid = guid' ∧ cell = cell'
  | _, _ => False
  end.

(** Whether a removal was answered with a nil error. *)
Definition removal_ok (e : event reply) : bool :=
  match e with existT c r =>
    match c return reply c → bool with
    | RemoveActualLRP _ _ _ | RemoveEvacuatingActualLRP _ _ | FailTask _ _ =>
        λ r, match r with None => true | Some _ => false end
    | _ => λ _, false
    end r
  end.

(** ** The services as one state *)
Class Board (S : Type) := {
  answer : ∀ c, S → reply c * S;
  valid : S → Prop;
  has_record : S → record → Prop;
  answer_valid c s : valid s → valid (answer c s).2;
  (* a removal that succeeds has removed the record *)
  removal_takes_effect c s r :
    valid s → removes c r = true → removal_ok (existT c (answer c s).1) = true → ¬ has_record (answer c s).2 r;
  (* a record is only made by a call that asks for it *)
  records_are_asked_for c s r : valid s → has_record (answer c s).2 r → has_record s r ∨ creates c r;
  (* the listings of a cell's records are sound and complete *)
  instances_listed cell s gs k ik :
    valid s → (answer (ActualLRPGroups cell) s).1 = Ok gs →
    mkActualLRP k ik ∈ omap Instance_ gs ↔ has_record (answer (ActualLRPGroups cell) s).2 (InstanceRecord k ik) ∧ CellId ik = cell;
  evacuating_listed cell s gs k ik :
    valid s → (answer (ActualLRPGroups cell) s).1 = Ok gs →
    mkActualLRP k ik ∈ omap Evacuating_ gs ↔ has_record (answer (ActualLRPGroups cell) s).2 (EvacuatingRecord k ik) ∧ CellId ik = cell;
  tasks_listed cell s ts guid :
    valid s → (answer (TasksByCellID cell) s).1 = Ok ts →
    guid ∈ t_TaskGuid <$> ts ↔ has_record (answer (TasksByCellID cell) s).2 (TaskRecord guid cell);
  (* guids are unique, and indices have 32 bits *)
  guids_unique s r r' :
    valid s → has_record s r → has_record s r' → record_guid r = record_guid r' → same_subject r r';
  indices_fit s r : valid s → has_record s r → record_index_ok r }.

End records.

Section convergence.
Context `{Models} {S : Type} `{!Board S}.

(** The records on the bulletin board that some call of a conversation asked for. *)
Definition asked_for (tr : trace reply) (r : record) : Prop := caused (λ c, creates c r) tr.

Definition removal_failed (tr : trace reply) (r : record) : Prop :=
  ∃ e, e ∈ tr ∧ removes (projT1 e) r = true ∧ removal_ok e = false.

Lemma record_event s tr s' e r :
  history answer s tr s' → valid s → e ∈ tr → has_record s' r →
  asked_for tr r ∨ ∃ s1, valid s1 ∧ (answer (projT1 e) s1).1 = projT2 e ∧ has_record (answer (projT1 e) s1).2 r.
Proof.
  apply (history_event answer valid (λ s, has_record s r) (λ c, creates c r));
    eauto using answer_valid, records_are_asked_for.
Qed.

Lemma record_origin s tr s' r :
  history answer s tr s' → valid s → has_record s' r → asked_for tr r ∨ has_record s r.
Proof.
  apply (history_origin answer valid (λ s, has_record s r) (λ c, creates c r));
    eauto using answer_valid, records_are_asked_for.
Qed.

(** A record survives a call that removes it only by being asked for anew, or
    because the removal failed. *)
Lemma record_survives s tr s' e r :
  history answer s tr s' → valid s → e ∈ tr → has_record s' r → removes (projT1 e) r = true →
  asked_for tr r ∨ removal_failed tr r.
Proof.
  intros Hh Hs Hin Hr Hrem. destruct (removal_ok e) eqn:Hok; [|right; by exists e].
  destruct (record_event _ _ _ e r Hh Hs Hin Hr) as [|(s1 & Hs1 & Hans & Hr1)]; [by left|].
  exfalso. destruct e as [c rep]. simpl in *. subst. by eapply removal_takes_effect.
Qed.

(** What the listings of one round say about a record that outlives the round. *)
Definition listed_records (cellID : string) (gs : list ActualLRPGroup) (ts : list models_Task) (r : record) : Prop :=
  (∀ lrp, lrp ∈ omap Instance_ gs ∨ lrp ∈ omap Evacuating_ gs → lrp_guid lrp = record_guid r →
     same_subject r (InstanceRecord (lrp_key lrp) (lrp_instance_key lrp))) ∧
  match r with
  | InstanceRecord k ik => mkActualLRP k ik ∈ omap Instance_ gs
  | EvacuatingRecord k ik => mkActualLRP k ik ∈ omap Evacuating_ gs
  | TaskRecord guid _ => guid ∈ t_TaskGuid <$> ts
  end.

Lemma listed_at cellID sg st gs ts r :
  valid sg → valid st →
  (answer (ActualLRPGroups cellID) sg).1 = Ok gs → (answer (TasksByCellID cellID) st).1 = Ok ts →
  has_record (answer (ActualLRPGroups cellID) sg).2 r → has_record (answer (TasksByCellID cellID) st).2 r →
  record_cell r = cellID → listed_records cellID gs ts r.
Proof.
  intros Hsg Hst Hgs Hts Hrg Hrt Hcell. split.
  - intros [k ik] Hin Hguid. simpl.
    assert (∃ r', has_record (answer (ActualLRPGroups cellID) sg).2 r' ∧ record_guid r' = record_guid r ∧
              same_subject r' (InstanceRecord k ik)) as (r' & Hr' & Hg' & Hs').
    { destruct Hin as [Hin|Hin].
      - apply (instances_listed cellID sg) in Hin as [Hin _]; [|done..]. by exists (InstanceRecord k ik).
      - apply (evacuating_listed cellID sg) in Hin as [Hin _]; [|done..]. by exists (EvacuatingRecord k ik). }
    pose proof (guids_unique _ _ _ (answer_valid _ _ Hsg) Hrg Hr' (eq_sym Hg')) as Hsub.
    destruct r, r'; simpl in *; try done; naive_solver.
  - destruct r as [k ik|k ik|guid cell]; simpl in *; subst.
    + by apply (instances_listed (CellId ik) sg gs k ik).
    + by apply (evacuating_listed (CellId ik) sg gs k ik).
    + by apply (tasks_listed cellID st ts guid).
Qed.

(** Then the batch has the operation that removes it, unless a container is listed. *)
Lemma operation_for_record cellID cs gs ts r :
  listed_records cellID gs ts r →
  (∃ c, c ∈ cs ∧ Guid c = record_guid r) ∨
  ∃ o, operation_for cs gs ts (record_guid r) = Some o ∧ residual o = true ∧
    (record_index_ok r → index_in_range o) ∧ existsb (λ c, removes c r) (cleanup_calls o) = true.
Proof.
  intros [Hsub Hin]. unfold operation_for.
  destruct (find_last Guid cs (record_guid r)) as [c|] eqn:Hc; [left; apply find_last_Some in Hc; eauto|right].
  destruct (find_last lrp_guid (omap Instance_ gs) (record_guid r)) as [i|] eqn:Hi;
    [pose proof (find_last_Some _ _ _ _ Hi) as [Hi1 Hi2]; pose proof (Hsub _ (or_introl Hi1) Hi2) as Hsi|
     rewrite find_last_None in Hi];
  (destruct (find_last lrp_guid (omap Evacuating_ gs) (record_guid r)) as [e|] eqn:He;
    [pose proof (find_last_Some _ _ _ _ He) as [He1 He2]; pose proof (Hsub _ (or_intror He1) He2) as Hse|
     rewrite find_last_None in He]).
  all: destruct r as [k ik|k ik|guid cell]; simpl in *; try done; destruct_and?; subst.
  all: try (eexists; split_and!; [reflexivity|done|done|]; simpl; rewrite ?bool_decide_true by done; done).
  all: try (by exfalso; eapply Hi; [exact Hin|]).
  all: try (by exfalso; eapply He; [exact Hin|]).
  apply list_elem_of_fmap in Hin as (t & -> & Ht).
  destruct (find_last t_TaskGuid ts (t_TaskGuid t)) eqn:Hft.
  - eexists; split_and!; [reflexivity|done..|]. simpl. by rewrite bool_decide_true.
  - rewrite find_last_None in Hft. by apply Hft in Ht.
Qed.

(** What a bulk sync pushes, from what the three listings returned. *)
Lemma sync_lists (b : Bulker) order tr ops :
  (∀ m, iteration_of m (order m)) → exec (sync b order) tr ops →
  ∃ cs gs ts,
    ev ListContainers cs ∈ tr ∧ ev (ActualLRPGroups (gen_cellID (bulker_generator b))) gs ∈ tr ∧
    ev (TasksByCellID (gen_cellID (bulker_generator b))) ts ∈ tr ∧
    match cs, gs, ts with
    | Ok cs, Ok gs, Ok ts => ∀ o, o ∈ ops ↔ operation_for cs gs ts (Key o) = Some o
    | _, _, _ => ops = []
    end.
Proof.
  intros Ho Hex. apply sync_exec in Hex as (t0 & t1 & gen & made & sent & -> & Hgen & Hops); [|done].
  apply BatchOperations_exec in Hgen as (cs & gs & ts & Htr & Hr);
    [|apply gen_order_ok|apply gen_arrival_ok|apply gen_iteration_ok].
  exists cs, gs, ts. split_and!; [rewrite elem_of_cons, elem_of_app, Htr; set_solver..|].
  destruct cs as [cs|], gs as [gs|], ts as [ts|]; try (destruct Hr as (err & -> & _); done).
  destruct Hr as (m & -> & Hm). intros o. rewrite <-Hm. apply Hops.
Qed.

(** A residual operation whose container is found does nothing; otherwise it makes
    the calls that remove its records. *)
Lemma execute_residual {L T} `{!Processor L, !Processor T} (lrps : L) (tasks : T) ops tr o c :
  executed lrps tasks ops tr → o ∈ ops → residual o = true → index_in_range o → c ∈ cleanup_calls o →
  (∃ container, ev (GetContainer (Key o)) (Ok container) ∈ tr.*2) ∨ ∃ e, e ∈ tr.*2 ∧ projT1 e = c.
Proof.
  intros Hex Ho Hres Hidx Hc. destruct (Hex o Ho) as (i & Hi). pose proof (of_thread_subseteq i tr) as Hincl.
  apply residual_exec in Hi as (found & rest & Hi & Hcalls); [|done..]. rewrite Hi in Hincl.
  destruct found as [container|err]; [left; exists container; set_solver|right]. simpl in Hcalls.
  rewrite <-Hcalls in Hc. unfold calls in Hc. apply list_elem_of_fmap in Hc as (e & -> & He).
  exists e. split; [set_solver|done].
Qed.

(** A round that is played out: the sync, and then the batch on a scheduler. *)
Lemma scheduled_round {L T St} `{!Processor L, !Processor T} (lrps : L) (tasks : T) (h : ∀ c, St → reply c * St)
    (b : Bulker) order turns s0 :
  let '(tr1, pushed, s1) := run h (sync b order) s0 in
  let '(tr2, rest, s2) := schedule h turns (Execute lrps tasks <$> pushed) s1 in
  finished rest = true →
  history h s0 (by_thread 0 tr1).*2 s1 ∧ exec (sync b order) (of_thread 0 (by_thread 0 tr1)) pushed ∧
  history h s1 tr2.*2 s2 ∧ executed lrps tasks pushed tr2.
Proof.
  pose proof (run_exec h (sync b order) s0) as Hsync. pose proof (run_history h (sync b order) s0) as Hh1.
  destruct (run h (sync b order) s0) as [[tr1 pushed] s1].
  pose proof (schedule_executed lrps tasks h pushed turns s1) as Hsched.
  destruct (schedule h turns _ s1) as [[tr2 rest] s2]. rewrite of_by_thread, by_thread_events. naive_solver.
Qed.

(** Why a record of the cell is on the bulletin board after a round: [mine] are the
    calls of the sync, [tr1] and [tr2] all the calls until its end, and after it. *)
Definition record_remains (cellID : string) (mine tr1 tr2 : trace reply) (r : record) : Prop :=
  (∃ e, ev ListContainers (Err e) ∈ mine ∨ ev (ActualLRPGroups cellID) (Err e) ∈ mine ∨
        ev (TasksByCellID cellID) (Err e) ∈ mine) ∨
  asked_for (tr1 ++ tr2) r ∨
  (∃ cs c, ev ListContainers (Ok cs) ∈ mine ∧ c ∈ cs ∧ Guid c = record_guid r) ∨
  (∃ c, ev (GetContainer (record_guid r)) (Ok c) ∈ tr2) ∨
  removal_failed tr2 r.

Lemma round_record {L T} `{!Processor L, !Processor T} (lrps : L) (tasks : T) (b : Bulker) order
    s0 tr1 s1 tr2 s2 t pushed r :
  let cellID := gen_cellID (bulker_generator b) in
  (∀ m, iteration_of m (order m)) → valid s0 →
  history answer s0 tr1.*2 s1 → history answer s1 tr2.*2 s2 →
  exec (sync b order) (of_thread t tr1) pushed → executed lrps tasks pushed tr2 →
  has_record s2 r → record_cell r = cellID →
  record_remains cellID (of_thread t tr1) tr1.*2 tr2.*2 r.
Proof.
  intros cellID Hord Hs0 Hh1 Hh2 Hsync Hex Hr Hcell.
  assert (valid s1) as Hv by (eapply history_valid; eauto using answer_valid).
  destruct (sync_lists _ _ _ _ Hord Hsync) as (cs & gs & ts & Hcs & Hgs & Hts & Hops).
  destruct cs as [cs|e]; [|left; exists e; by left].
  destruct gs as [gs|e]; [|left; exists e; by right; left].
  destruct ts as [ts|e]; [|left; exists e; by right; right]. right.
  unfold asked_for, caused in *. rewrite Exists_app.
  destruct (record_origin _ _ _ _ Hh2 Hv Hr) as [|Hr1]; [by left; right|].
  destruct (record_event _ _ _ _ r Hh1 Hs0 (of_thread_subseteq _ _ _ Hgs) Hr1) as [|(sg & Hsg & Hag & Hrg)]; [by left; left|].
  destruct (record_event _ _ _ _ r Hh1 Hs0 (of_thread_subseteq _ _ _ Hts) Hr1) as [|(st & Hst & Hat & Hrt)]; [by left; left|]. simpl in *.
  assert (listed_records cellID gs ts r) as Hlisted by by apply (listed_at cellID sg st).
  destruct (operation_for_record _ cs _ _ _ Hlisted) as [(c & Hc & Hguid)|(o & Ho & Hres & Hidx & Hrem)];
    [right; left; by exists cs, c|].
  apply existsb_exists in Hrem as (c & Hc%list_elem_of_In & Hrem).
  pose proof (operation_for_key _ _ _ _ _ Ho) as [Hkey _]. rewrite <-Hkey in *. apply Hops in Ho.
  destruct (execute_residual _ _ _ _ o c Hex Ho Hres (Hidx (indices_fit _ _ Hv Hr1)) Hc) as [Hfound|(e & He & <-)];
    [by right; right; left|].
  destruct (record_survives _ _ _ e r Hh2 Hv He Hr Hrem); [by left; right|by right; right; right].
Qed.

(** C5 A round of synchronisation heals the bulletin board.  Some thread of the rep
    does a bulk sync, and later every operation of the batch it pushed is executed,
    with any processors; the operations run concurrently with each other and with
    anything else, in the rep or outside, that uses the services.  A record of the
    cell that is on the bulletin board in the end is there because one of the
    listings failed; or because some call asked for it meanwhile; or because its
    container was on the executor, in the listing or when somebody looked; or because
    the bulletin board refused to remove it.  Every other record is gone: nothing
    stale survives. *)
Theorem sync_converges {L T} `{!Processor L, !Processor T} (lrps : L) (tasks : T) (b : Bulker) order
    s0 tr1 s1 tr2 s2 t pushed r :
  let cellID := gen_cellID (bulker_generator b) in
  (∀ m, iteration_of m (order m)) → valid s0 →
  history answer s0 tr1.*2 s1 → history answer s1 tr2.*2 s2 →
  exec (sync b order) (of_thread t tr1) pushed → executed lrps tasks pushed tr2 →
  has_record s2 r → record_cell r = cellID →
  record_remains cellID (of_thread t tr1) tr1.*2 tr2.*2 r.
Proof. apply round_record. Qed.

End convergence.

(** ** A small board, and a round on it *)
#[local] Existing Instance example_models.

Record board := mk_board { b_containers : list Container; b_records : list record }.

Definition board_instances (cell : string) (r : record) : option ActualLRPGroup :=
  match r with
  | InstanceRecord k ik =>
      if bool_decide (CellId ik = cell) then Some (mkActualLRPGroup (Some (mkActualLRP k ik)) None) else None
  | EvacuatingRecord k ik =>
      if bool_decide (CellId ik = cell) then Some (mkActualLRPGroup None (Some (mkActualLRP k ik))) else None
  | TaskRecord _ _ => None
  end.
Definition board_tasks (cell : string) (r : record) : option models_Task :=
  match r with
  | TaskRecord guid cell' =>
      if bool_decide (cell' = cell)
      then Some (mk_models_Task guid "" "" 0 false "" "" "" [] None [] [] "" [] None None "" "") else None
  | _ => None
  end.

Definition board_removed (c : call) (s : board) : board :=
  mk_board (b_containers s) (filter (λ r, removes c r = false) (b_records s)).

Definition board_answer (c : call) (s : board) : reply c * board :=
  match c return reply c * board with
  | ListContainers => (Ok (b_containers s), s)
  | GetContainer guid =>
      (match filter (λ c, Guid c = guid) (b_containers s) with
       | container :: _ => Ok container
       | [] => Err executor_ErrContainerNotFound
       end, s)
  | ActualLRPGroups cell => (Ok (omap (board_instances cell) (b_records s)), s)
  | TasksByCellID cell => (Ok (omap (board_tasks cell) (b_records s)), s)
  | RemoveActualLRP pg idx ikey => (None, board_removed (RemoveActualLRP pg idx ikey) s)
  | RemoveEvacuatingActualLRP k ik => (None, board_removed (RemoveEvacuatingActualLRP k ik) s)
  | FailTask guid reason => (None, board_removed (FailTask guid reason) s)
  | c => (quiet c, s)
  end.

Definition board_valid (s : board) : Prop :=
  (∀ r r', r ∈ b_records s → r' ∈ b_records s → record_guid r = record_guid r' → same_subject r r') ∧
  (∀ r, r ∈ b_records s → record_index_ok r).

Lemma board_answer_records c s r : r ∈ b_records (board_answer c s).2 → r ∈ b_records s.
Proof. destruct c; simpl; try done; by intros [_ ?]%list_elem_of_filter. Qed.

#[local] Instance example_board : Board board.
Proof.
  refine {| answer := board_answer; valid := board_valid; has_record := λ s r, r ∈ b_records s |}.
  - intros c s [Hu Hi]. split; eauto using board_answer_records.
  - intros c s r _ Hrem Hok. destruct c; try done; simpl in *; intros [? _]%list_elem_of_filter; congruence.
  - intros c s r _ Hr. left. by eapply board_answer_records.
  - intros cell s gs k ik _ [= <-]. rewrite list_elem_of_omap. split.
    + intros (g & ([k' ik'|k' ik'|] & Hr & Hg)%list_elem_of_omap & Hi); simpl in Hg; try done;
        case_bool_decide; simplify_eq/=. done.
    + intros [Hr Hc]. exists (mkActualLRPGroup (Some (mkActualLRP k ik)) None). split; [|done].
      apply list_elem_of_omap. exists (InstanceRecord k ik). simpl. by rewrite bool_decide_true.
  - intros cell s gs k ik _ [= <-]. rewrite list_elem_of_omap. split.
    + intros (g & ([k' ik'|k' ik'|] & Hr & Hg)%list_elem_of_omap & Hi); simpl in Hg; try done;
        case_bool_decide; simplify_eq/=. done.
    + intros [Hr Hc]. exists (mkActualLRPGroup None (Some (mkActualLRP k ik))). split; [|done].
      apply list_elem_of_omap. exists (EvacuatingRecord k ik). simpl. by rewrite bool_decide_true.
  - intros cell s ts guid _ [= <-]. rewrite list_elem_of_fmap. split.
    + intros (t & -> & ([| |guid' cell'] & Hr & Ht)%list_elem_of_omap); simpl in Ht; try done.
      case_bool_decide; by simplify_eq/=.
    + intros Hr. eexists. split; [|apply list_elem_of_omap; exists (TaskRecord guid cell); split; [done|];
        simpl; by rewrite bool_decide_true]. done.
  - intros s r r' [Hu _]. apply Hu.
  - intros s r [_ Hi]. apply Hi.
Defined.

(** One running instance, one that lost its container, with both records, and a
    task without a container. *)
Definition live_key : ActualLRPInstanceKey := mkActualLRPInstanceKey "instance-guid" "cell".
Definition example_state : board :=
  let lost := mkActualLRPInstanceKey "lost" "cell" in
  let key := mkActualLRPKey "process-guid" 3 "domain" in
  mk_board [example_container StateRunning]
    [InstanceRecord key live_key; InstanceRecord key lost; EvacuatingRecord key lost; TaskRecord "task-guid" "cell"].

Definition live_record : record := InstanceRecord (mkActualLRPKey "process-guid" 3 "domain") live_key.

(** The operations of the batch take turns. *)
Definition example_turns : list nat := concat (replicate 6 [0; 1; 2]).

Lemma example_round :
  let '(_, pushed, s1) := run board_answer (sync example_bulker map_to_list) example_state in
  let '(tr2, rest, s2) := schedule board_answer example_turns (example_Execute <$> pushed) s1 in
  finished rest = true ∧ tr2.*1 = [0; 1; 2; 0; 1; 2; 0; 1] ∧ b_records s2 = [live_record].
Proof. vm_compute. split_and!; reflexivity. Qed.

Lemma example_state_valid : board_valid example_state.
Proof.
  split.
  - intros r r'. rewrite !list_elem_of_In. simpl. intros Hr Hr'.
    repeat destruct Hr as [<-|Hr]; repeat destruct Hr' as [<-|Hr']; try done.
  - intros r. rewrite list_elem_of_In. simpl. intros Hr. repeat destruct Hr as [<-|Hr]; try done.
Qed.

(** The round clears everything but the record of the running instance, which is
    accounted for by its container. *)
Lemma sync_converges_witness :
  ∃ tr1 pushed s1 tr2 rest s2,
    run board_answer (sync example_bulker map_to_list) example_state = (tr1, pushed, s1) ∧
    schedule board_answer example_turns (example_Execute <$> pushed) s1 = (tr2, rest, s2) ∧
    b_records s2 = [live_record] ∧
    record_remains "cell" tr1 tr1 tr2.*2 live_record.
Proof.
  pose proof example_round as Hround.
  pose proof (scheduled_round (NewLRPProcessor "cell" 600) (NewTaskProcessor "cell") board_answer example_bulker
    map_to_list example_turns example_state) as Hplayed.
  destruct (run board_answer (sync example_bulker map_to_list) example_state) as [[tr1 pushed] s1].
  change (Execute (NewLRPProcessor "cell" 600) (NewTaskProcessor "cell")) with example_Execute in Hplayed.
  destruct (schedule board_answer example_turns (example_Execute <$> pushed) s1) as [[tr2 rest] s2] eqn:Hexec.
  destruct Hround as (Hfin & _ & Hrecords). destruct (Hplayed Hfin) as (Hh1 & Hsync & Hh2 & Hexecuted).
  exists tr1, pushed, s1, tr2, rest, s2. split; [reflexivity|]. split; [exact Hexec|]. split; [exact Hrecords|].
  pose proof (sync_converges (NewLRPProcessor "cell" 600) (NewTaskProcessor "cell") example_bulker map_to_list
    example_state (by_thread 0 tr1) s1 tr2 s2 0 pushed live_record) as Hconv.
  cbv zeta in Hconv. rewrite of_by_thread, by_thread_events in *.
  apply Hconv; [intros m; unfold iteration_of; reflexivity | exact example_state_valid | exact Hh1 | exact Hh2 |
     exact Hsync | exact Hexecuted | | reflexivity].
  change (live_record ∈ b_records s2). rewrite Hrecords. by left.
Defined.
