(* ===== verification/Startup.v ===== *)
(** cmd/rep/main.go, [main]: from the configuration to the members of the process
    group.

    What the constructors of other repositories return is part of the input
    ([World]); the calls the program itself makes are calls of [Services].  Members
    are the processes of the group with the values they are made from. *)

From Stdlib Require Import Floats.SpecFloat.
From S2P Require Import Prelude GoInt GoStrings GoUrl GoJson GoJsonText Effects Services RootFS Resources Conversion.
From S2P Require Import AuctionCellRep Wire Routes Handlers Client EvacuationContext Cleanup Evacuator Harmonizer.
From S2P Require Import Maintain Config Main.

(** ** net.SplitHostPort *)
Definition contains_from (start : nat) (s : string) (c : Ascii.ascii) : bool :=
  contains_byte (String.substring start (String.length s) s) c.

(** The number of bytes before the first [c]. *)
Definition IndexByte (s : string) (c : Ascii.ascii) : option nat :=
  '(before, _) ← Cut s c; Some (String.length before).

Definition SplitHostPort (hostport : string) : option (string * string) :=
  '(before, port) ← cut_last hostport ":"%char;
  let i := String.length before in
  match hostport with
  | String "["%char _ =>
      end_ ← IndexByte hostport "]"%char;
      if bool_decide (S end_ = i) then
        if contains_from 1 hostport "["%char || contains_from (S end_) hostport "]"%char then None
        else Some (String.substring 1 (end_ - 1) hostport, port)
      else None
  | _ =>
      if contains_byte before ":"%char then None
      else if contains_byte hostport "["%char || contains_byte hostport "]"%char then None
      else Some (before, port)
  end.

(** ** uint64(time.Duration.Seconds()) *)
Definition Seconds (d : Z) : float64 :=
  fadd (float64_of_int (Z.quot d Second)) (fdiv (float64_of_int (Z.rem d Second)) (float64_of_int Second)).

(** Truncation; the conversion of a value that does not fit is left open by the
    language. *)
Definition uint64_of_float (x : float64) : option Z :=
  let n := match x with
           | S754_zero _ => Some 0%Z
           | S754_finite false m e => Some (Z.shiftl (Zpos m) e)
           | S754_finite true m e => if bool_decide (Z.shiftl (Zpos m) e = 0)%Z then Some 0%Z else None
           | _ => None
           end in
  n ← n; if bool_decide (n < 2 ^ 64)%Z then Some n else None.

Definition evacuationTTLInSeconds `{ConfigDefaults} (c : RepConfig) : option Z := uint64_of_float (Seconds (EvacuationTimeout c)).

(** The default of ten minutes, and that of a bit less than a second more. *)
Example evacuation_ttl_default : uint64_of_float (Seconds (10 * 60 * Second)) = Some 600%Z.
Proof. vm_compute. reflexivity. Qed.
Example evacuation_ttl_truncates : uint64_of_float (Seconds (10 * 60 * Second + 999999999)) = Some 600%Z.
Proof. vm_compute. reflexivity. Qed.

(** ** The clients of other services *)

(** How the program ends before the group runs: a panic of the runtime or of
    [main], [logger.Fatal], or [os.Exit(1)]. *)
Inductive failure := Panic | Fatal (action : string) | Exit1 (action : string).

Section clients.
Context `{ConfigDefaults}.

Record World := mk_World {
  configFile : res string;                   (* opening and reading the file *)
  zoneOverride : string;                     (* the flag *)
  IngressClient : Loggregator → option error;
  executorinit_Initialize : ExecutorConfig → string → res (list string);  (* the executor's own members *)
  consul_Parse : string → res string;        (* the scheme of the cluster's address *)
  NewConsulClient : bool → option error;     (* with or without TLS *)
  NewSecureBBSClient : option error;
  NewRouter : list Route → gset string → option error;   (* routes, names of the handlers *)
  LocalIP : res string;
  NewServerTLSConfig : option error;
  LookupPort : string → res Z;
  NewLocketClient : ClientLocketConfig → option error; NewV4 : res string }.

(** Which client is constructed, with or without TLS. *)
Definition initializeBBSClient (w : World) (c : RepConfig) : result failure bool :=
  match Parse (BBSAddress c) with
  | Err _ => Err (Fatal "Invalid BBS URL")
  | Ok bbsURL =>
      if negb (bool_decide (Scheme bbsURL = "https")) then Ok false
      else match NewSecureBBSClient w with
           | Some _ => Err (Fatal "Failed to configure secure BBS client")
           | None => Ok true
           end
  end.

Definition initializeConsulClient (w : World) (c : RepConfig) : result failure bool :=
  match consul_Parse w (ConsulCluster c) with
  | Err _ => Err (Fatal "parse-consul-cluster-failed")
  | Ok scheme =>
      let tls := bool_decide (scheme = "https") in
      match NewConsulClient w tls with
      | Some _ => Err (Fatal "new-client-failed")
      | None => Ok tls
      end
  end.

(** Whether dropsonde is initialised instead of an emitter; its destination. *)
Definition initializeDropsonde (dropsondePort : Z) : string := "localhost:" +:+ Itoa dropsondePort.

Definition initializeMetron (w : World) (c : RepConfig) : result failure (option string) :=
  match IngressClient w (cfg_LoggregatorConfig c) with
  | Some _ => Err (Exit1 "failed-to-initialize-metron-client")
  | None => Ok (if UseV2API (cfg_LoggregatorConfig c) then None else Some (initializeDropsonde (DropsondePort c)))
  end.

Record AgentServiceRegistration := mk_registration { reg_Name : string; reg_Port : Z; reg_TTL : string; reg_Tags : list string }.

Definition initializeRegistrationRunner (c : RepConfig) (port : Z) : AgentServiceRegistration :=
  mk_registration (repBaseHostName (AdvertiseDomain c)) port "3s" [repHost (cfg_CellID c)].

End clients.

(** ** main *)

(** The processes of the group, with the values they are made from.  Bulker and
    event consumer share the generator, made from the cell's id and the time the
    bulletin board keeps evacuating records, in seconds. *)
Inductive member :=
| DebugServer (address : string)
| ExecutorMember (name : string)
| PresenceMember (runner : presence_runner)
| HTTPServer (s : server)
| HTTPSServer (s : server)
| CleanupMember (cellID : string)
| BulkerMember (pollInterval evacuationPollInterval : Z) (cellID : string) (ttl : option Z)
| EventConsumerMember (cellID : string) (ttl : option Z)
| EvacuatorMember (e : Evacuator)
| RegistrationMember (r : AgentServiceRegistration).

Definition with_zone `{ConfigDefaults} (zone : string) (c : RepConfig) : RepConfig :=
  {| AdvertiseDomain := AdvertiseDomain c; BBSAddress := BBSAddress c; BBSCACertFile := BBSCACertFile c;
     BBSClientCertFile := BBSClientCertFile c; BBSClientKeyFile := BBSClientKeyFile c;
     BBSClientSessionCacheSize := BBSClientSessionCacheSize c; BBSMaxIdleConnsPerHost := BBSMaxIdleConnsPerHost c;
     cfg_CaCertFile := cfg_CaCertFile c; cfg_CellID := cfg_CellID c; CommunicationTimeout := CommunicationTimeout c;
     ConsulCACert := ConsulCACert c; ConsulClientCert := ConsulClientCert c; ConsulClientKey := ConsulClientKey c;
     ConsulCluster := ConsulCluster c; DropsondePort := DropsondePort c;
     EnableLegacyAPIServer := EnableLegacyAPIServer c; EvacuationPollingInterval := EvacuationPollingInterval c;
     EvacuationTimeout := EvacuationTimeout c; ListenAddr := ListenAddr c; ListenAddrAdmin := ListenAddrAdmin c;
     ListenAddrSecurable := ListenAddrSecurable c; LockRetryInterval := LockRetryInterval c; LockTTL := LockTTL c;
     cfg_OptionalPlacementTags := cfg_OptionalPlacementTags c; cfg_PlacementTags := cfg_PlacementTags c;
     PollingInterval := PollingInterval c; PreloadedRootFS := PreloadedRootFS c; cfg_RequireTLS := cfg_RequireTLS c;
     ServerCertFile := ServerCertFile c; ServerKeyFile := ServerKeyFile c; SessionName := SessionName c;
     SupportedProviders := SupportedProviders c; cfg_Zone := zone;
     cfg_LoggregatorConfig := cfg_LoggregatorConfig c; cfg_DebugServerConfig := cfg_DebugServerConfig c;
     cfg_ExecutorConfig := cfg_ExecutorConfig c; cfg_LagerConfig := cfg_LagerConfig c;
     cfg_ClientLocketConfig := cfg_ClientLocketConfig c |}.

Section main.
Context `{Models, KeyFields, ConfigDefaults}.

(** The configuration with the zone of the command line; a configuration that
    cannot be read panics. *)
Definition read_config (w : World) : result failure RepConfig :=
  match NewRepConfig (configFile w) with
  | Err _ => Err Panic
  | Ok c => Ok (if negb (bool_decide (zoneOverride w = "")) then with_zone (zoneOverride w) c else c)
  end.

(** [initializeServer] with its calls to other repositories. *)
Definition start_server (w : World) (c : RepConfig) (secure : bool) : result failure server :=
  let cell := AuctionCellRep.New (cfg_CellID c) (PreloadedRootFS c) (SupportedProviders c) (cfg_Zone c)
                (cfg_PlacementTags c) (cfg_OptionalPlacementTags c) in
  let handlers := getHandlers cell (EnableLegacyAPIServer c) secure in
  match NewRouter w (getRoutes (EnableLegacyAPIServer c) secure) (dom handlers) with
  | Some _ => Err (Fatal "failed-to-construct-router")
  | None =>
  match LocalIP w with
  | Err _ => Err (Fatal "failed-to-fetch-ip")
  | Ok ip =>
  match initializeServer c ip secure with
  | None => Err Panic
  | Some srv =>
      if tls srv then
        match NewServerTLSConfig w with
        | Some _ => Err (Fatal "tls-configuration-failed")
        | None => Ok srv
        end
      else Ok srv
  end end end.

Record prepared := mk_prepared {
  p_config : RepConfig; p_preloaded : list string; p_executor : list string;
  p_http : server; p_https : server; p_port : Z }.

(** [main] up to the deferred cleanup of the executor. *)
Definition initialize_executor (w : World) (order : StackMap → list (string * string)) :
    result failure (RepConfig * list string * list string) :=
  c ← read_config w;
  let preloaded := preloadedRootFSes order c in
  if negb (ExecutorConfig_Validate (cfg_ExecutorConfig c)) then Err (Fatal "")
  else if bool_decide (cfg_CellID c = "") then Err (Exit1 "invalid-cell-id")
  else
  _ ← initializeMetron w c;
  match executorinit_Initialize w (cfg_ExecutorConfig c) (gardenHealthcheckRootFS c preloaded) with
  | Err _ => Err (Exit1 "failed-to-initialize-executor")
  | Ok members => Ok (c, preloaded, members)
  end.

(** [main] up to the members. *)
Definition prepare (w : World) (order : StackMap → list (string * string)) : result failure prepared :=
  '(c, preloaded, executorMembers) ← initialize_executor w order;
  _ ← initializeConsulClient w c;
  _ ← initializeBBSClient w c;
  httpServer ← start_server w c false;
  httpsServer ← start_server w c true;
  portNum ← match SplitHostPort (ListenAddr c) with
            | None => Err (Fatal "failed-invalid-server-address")
            | Some (_, portString) =>
                match LookupPort w portString with
                | Err _ => Err (Fatal "failed-invalid-server-port")
                | Ok portNum => Ok portNum
                end
            end;
  Ok (mk_prepared c preloaded executorMembers httpServer httpsServer portNum).

(** Which of its calls made [initializeCellPresence] give up. *)
Definition presence_failure (w : World) (c : RepConfig) : failure :=
  match NewLocketClient w (cfg_ClientLocketConfig c), NewV4 w with
  | Some _, _ => Fatal "failed-to-construct-locket-client"
  | None, Err _ => Fatal "failed-to-generate-guid"
  | None, Ok _ => Fatal "failed-to-get-total-resources"
  end.

Definition members (p : prepared) (presence : presence_runner) : list member :=
  let c := p_config p in
  let ttl := evacuationTTLInSeconds c in
  let ms :=
    [PresenceMember presence;
     HTTPServer (p_http p);
     HTTPSServer (p_https p);
     CleanupMember (cfg_CellID c);
     BulkerMember (PollingInterval c) (EvacuationPollingInterval c) (cfg_CellID c) ttl;
     EventConsumerMember (cfg_CellID c) ttl;
     EvacuatorMember (NewEvacuator (EvacuationTimeout c) (EvacuationPollingInterval c));
     RegistrationMember (initializeRegistrationRunner c (p_port p))] in
  let ms := (ExecutorMember <$> p_executor p) ++ ms in
  if negb (bool_decide (DebugAddress c = "")) then DebugServer (DebugAddress c) :: ms else ms.

Definition main (w : World) (order : StackMap → list (string * string)) : rep (result failure (list member)) :=
  match prepare w order with
  | Err f => Ret (Err f)
  | Ok p =>
      let* runner := initializeCellPresence (server_address (p_http p)) (NewLocketClient w (cfg_ClientLocketConfig (p_config p))) (NewV4 w)
                       (p_config p) (p_preloaded p) true in
      match runner with
      | None => Ret (Err Panic)
      | Some (Err _) => Ret (Err (presence_failure w (p_config p)))
      | Some (Ok presence) => Ret (Ok (members p presence))
      end
  end.

(** The rest of [main]: the group runs until it is done ([group] is what waiting
    for it returned).  Functions deferred in [main] run when it returns and when it
    panics, as [logger.Fatal] does, but not on [os.Exit]. *)
Definition exits_at_once (f : failure) : bool :=
  match f with Exit1 _ => true | Panic | Fatal _ => false end.

Record exit := mk_exit { exit_failure : option failure; executor_cleaned : bool }.

Definition whole_main (w : World) (order : StackMap → list (string * string)) (group : list member → option error) : rep exit :=
  let deferred := is_ok (initialize_executor w order) in
  let fail f := mk_exit (Some f) (deferred && negb (exits_at_once f)) in
  let* started := main w order in
  match started with
  | Err f => Ret (fail f)
  | Ok ms =>
      match group ms with
      | Some _ => Ret (fail (Exit1 "exited-with-failure"))
      | None => Ret (mk_exit None deferred)
      end
  end.

End main.

(** ** Facts *)

(** The group stops its members in the reverse order. *)
Definition stopped_before (ms : list member) (first second : member) : Prop :=
  ∃ l1 l2 l3, ms = l1 ++ second :: l2 ++ first :: l3.

(** The members that make or execute operations on containers. *)
Definition is_worker (m : member) : bool :=
  match m with BulkerMember _ _ _ _ | EventConsumerMember _ _ | EvacuatorMember _ => true | _ => false end.
Definition is_server (m : member) : bool :=
  match m with HTTPServer _ | HTTPSServer _ => true | _ => false end.
Definition is_presence (m : member) : bool :=
  match m with PresenceMember _ => true | _ => false end.
Definition is_executor (m : member) : bool :=
  match m with ExecutorMember _ => true | _ => false end.

(** What the other cells and clients are told: address and URL. *)
Definition announced (p : presence_runner) : string * string :=
  match p with
  | LocketPresence payload _ _ _ => (pres_RepAddress payload, pres_RepUrl payload)
  | ConsulMaintainer config _ => (RepAddress config, RepUrl config)
  end.

Lemma stopped_before_app ms ms' a b : stopped_before ms' a b → stopped_before (ms ++ ms') a b.
Proof. intros (l1 & l2 & l3 & ->). exists (ms ++ l1), l2, l3. by rewrite <-app_assoc. Qed.

Lemma stopped_before_elem ms ms' a b : a ∈ ms' → b ∈ ms → stopped_before (ms ++ ms') a b.
Proof.
  intros (p1 & p2 & ->)%list_elem_of_split (q1 & q2 & ->)%list_elem_of_split.
  exists q1, (q2 ++ p1), p2. by rewrite <-!app_assoc, <-app_comm_cons.
Qed.

Lemma stopped_before_at ms i j a b :
  ms !! j = Some a → ms !! i = Some b → (i < j)%nat → stopped_before ms a b.
Proof.
  intros Ha Hb Hij. exists (take i ms), (take (j - i - 1) (drop (S i) ms)), (drop (S j) ms).
  rewrite <-(take_drop_middle ms i b Hb) at 1. f_equal. f_equal.
  rewrite <-(take_drop_middle (drop (S i) ms) (j - i - 1) a) at 1 by (rewrite lookup_drop, <-Ha; f_equal; lia).
  f_equal. f_equal. rewrite drop_drop. f_equal. lia.
Qed.

Section main_facts.
Context `{Models, KeyFields, ConfigDefaults}.

Lemma members_split p presence :
  ∃ pre, members p presence = pre ++ [PresenceMember presence; HTTPServer (p_http p); HTTPSServer (p_https p);
      CleanupMember (cfg_CellID (p_config p))] ++
      [BulkerMember (PollingInterval (p_config p)) (EvacuationPollingInterval (p_config p)) (cfg_CellID (p_config p))
         (evacuationTTLInSeconds (p_config p));
       EventConsumerMember (cfg_CellID (p_config p)) (evacuationTTLInSeconds (p_config p));
       EvacuatorMember (NewEvacuator (EvacuationTimeout (p_config p)) (EvacuationPollingInterval (p_config p)));
       RegistrationMember (initializeRegistrationRunner (p_config p) (p_port p))] ∧
    Forall (λ m, is_worker m || is_server m || is_presence m = false) pre.
Proof.
  unfold members.
  assert (Forall (λ m, is_worker m || is_server m || is_presence m = false) (ExecutorMember <$> p_executor p)) as He
    by by apply Forall_fmap, Forall_true.
  destruct (negb _); [exists (DebugServer (DebugAddress (p_config p)) :: (ExecutorMember <$> p_executor p))|
                      exists (ExecutorMember <$> p_executor p)]; (split; [done|]); [by constructor|done].
Qed.

Lemma start_server_Ok w c secure srv :
  start_server w c secure = Ok srv →
  ∃ ip, LocalIP w = Ok ip ∧ initializeServer c ip secure = Some srv ∧ tls srv = secure && cfg_RequireTLS c.
Proof.
  unfold start_server. destruct (NewRouter _ _ _); [done|]. destruct (LocalIP w) as [ip|]; [|done].
  destruct (initializeServer c ip secure) as [s|] eqn:Hs; [|done]. intros Hsrv. exists ip.
  assert (s = srv) as -> by (destruct (tls s), (NewServerTLSConfig w); by simplify_eq). split_and!; [done|done|].
  unfold initializeServer in Hs. destruct (port_of _); [|done]. simpl in Hs.
  destruct (secure && cfg_RequireTLS c); by simplify_eq.
Qed.

Lemma prepare_Ok w order p :
  prepare w order = Ok p →
  read_config w = Ok (p_config p) ∧ cfg_CellID (p_config p) ≠ "" ∧
  start_server w (p_config p) false = Ok (p_http p) ∧ start_server w (p_config p) true = Ok (p_https p) ∧
  (∃ host port, SplitHostPort (ListenAddr (p_config p)) = Some (host, port) ∧ LookupPort w port = Ok (p_port p)).
Proof.
  unfold prepare, initialize_executor. destruct (read_config w) as [c|]; [|done]. simpl. destruct (negb _); [done|].
  case_bool_decide; [done|]. destruct (initializeMetron w c); [|done]. simpl.
  destruct (executorinit_Initialize _ _ _); [|done]. simpl. destruct (initializeConsulClient w c); [|done]. simpl.
  destruct (initializeBBSClient w c); [|done]. simpl. destruct (start_server w c false) as [http|] eqn:Hs1; [|done]. simpl.
  destruct (start_server w c true) as [https|] eqn:Hs2; [|done]. simpl.
  destruct (SplitHostPort (ListenAddr c)) as [[host port]|] eqn:Hs3; [|done]. simpl.
  destruct (LookupPort w port) as [n|] eqn:Hs4; [|done]. intros [= <-]. simpl. eauto 10.
Qed.

Lemma initializeCellPresence_announces address e guid c preloaded tr presence :
  exec (initializeCellPresence address e guid c preloaded true) tr (Some (Ok presence)) →
  (announced presence).1 = address ∧ presence_url c true = Some (announced presence).2 ∧
  Forall (λ c, c = TotalResources) (calls tr).
Proof.
  unfold initializeCellPresence. destruct (presence_url c true) as [url|]; [|by intros [_ ?]].
  destruct (negb _); [|intros [-> [= ->]]; by repeat constructor].
  destruct e; [by intros [_ ?]|]. destruct guid; [|by intros [_ ?]].
  intros ([r|] & tr' & -> & [-> ?]); simplify_eq. by repeat constructor.
Qed.

(** C40 If the rep starts, it starts right.  The cell has an id; the plain server
    never speaks TLS and the other one exactly when required; the presence announces
    the address of the plain server and a URL for the other's port; the evacuator and
    the bulker are given the configured times; and the members are in an order such
    that on exit what works on containers stops before the cleanup after the
    evacuation, the cleanup runs while both servers still answer, and the presence
    is given up after the servers and before the executor. *)
Theorem main_starts w order tr ms :
  exec (main w order) tr (Ok ms) →
  ∃ c http https presence,
    read_config w = Ok c ∧ cfg_CellID c ≠ "" ∧ Forall (λ c, c = TotalResources) (calls tr) ∧
    start_server w c false = Ok http ∧ tls http = false ∧ HTTPServer http ∈ ms ∧
    start_server w c true = Ok https ∧ tls https = cfg_RequireTLS c ∧ HTTPSServer https ∈ ms ∧
    PresenceMember presence ∈ ms ∧ (announced presence).1 = server_address http ∧
    presence_url c true = Some (announced presence).2 ∧
    EvacuatorMember (NewEvacuator (EvacuationTimeout c) (EvacuationPollingInterval c)) ∈ ms ∧
    BulkerMember (PollingInterval c) (EvacuationPollingInterval c) (cfg_CellID c) (evacuationTTLInSeconds c) ∈ ms ∧
    (∀ m, m ∈ ms → is_worker m = true → stopped_before ms m (CleanupMember (cfg_CellID c))) ∧
    (∀ m, m ∈ ms → is_server m = true →
       stopped_before ms (CleanupMember (cfg_CellID c)) m ∧ stopped_before ms m (PresenceMember presence)) ∧
    (∀ m, m ∈ ms → is_executor m = true → stopped_before ms (PresenceMember presence) m).
Proof.
  unfold main. destruct (prepare w order) as [p|] eqn:Hp; [|by intros [_ ?]].
  intros (tr1 & runner & tr2 & -> & Hrun & Hms)%exec_bind. destruct runner as [[presence|]|];
    destruct Hms as [-> Hms]; simplify_eq. rewrite app_nil_r.
  apply initializeCellPresence_announces in Hrun as (Haddr & Hurl & Hcalls).
  apply prepare_Ok in Hp as (Hc & Hid & Hh & Hs & _).
  destruct (start_server_Ok _ _ _ _ Hh) as (_ & _ & _ & Ht1), (start_server_Ok _ _ _ _ Hs) as (_ & _ & _ & Ht2).
  destruct (members_split p presence) as (pre & Hms & Hpre). rewrite Hms. rewrite Forall_forall in Hpre.
  exists (p_config p), (p_http p), (p_https p), presence. split_and!; try done.
  all: try (apply elem_of_app; right; set_solver).
  - intros m [?%Hpre|[Hin|Hin]%elem_of_app]%elem_of_app Hw.
    + by rewrite Hw in *.
    + repeat (apply elem_of_cons in Hin as [->|Hin]; [done|]). by apply elem_of_nil in Hin.
    + apply stopped_before_app, stopped_before_elem; [done|set_solver].
  - intros m [?%Hpre|[Hin|Hin]%elem_of_app]%elem_of_app Hw.
    + rewrite Hw, orb_true_r in *. done.
    + repeat (apply elem_of_cons in Hin as [->|Hin]; [try done|]); [..|by apply elem_of_nil in Hin].
      * split; apply stopped_before_app; [apply (stopped_before_at _ 1 3)|apply (stopped_before_at _ 0 1)]; first [lia|done].
      * split; apply stopped_before_app; [apply (stopped_before_at _ 2 3)|apply (stopped_before_at _ 0 2)]; first [lia|done].
    + by repeat (apply elem_of_cons in Hin as [->|Hin]; [done|]); apply elem_of_nil in Hin.
  - intros m [Hin|Hin]%elem_of_app Hw.
    + apply stopped_before_elem; [by left|done].
    + by repeat (apply elem_of_cons in Hin as [->|Hin]; [done|]); apply elem_of_nil in Hin.
Qed.
Lemma start_server_no_port w c :
  contains_byte (ListenAddr c) ":"%char = false →
  ∃ f, start_server w c false = Err f ∧ f ≠ Fatal "failed-invalid-server-address".
Proof.
  intros Hcolon. unfold start_server. destruct (NewRouter _ _ _); [by eexists|].
  destruct (LocalIP w) as [ip|]; [|by eexists]. rewrite listen_address_without_colon_panics by done. by eexists.
Qed.

(** The check of the address in [main] comes too late: without a colon in the listen
    address the servers' constructor has panicked before [net.SplitHostPort] could
    refuse it, so the message about an invalid address is never given for that. *)
Lemma invalid_address_is_not_reported w order c tr r :
  read_config w = Ok c → contains_byte (ListenAddr c) ":"%char = false → exec (main w order) tr r →
  SplitHostPort (ListenAddr c) = None ∧
  ∃ f, r = Err f ∧ f ≠ Fatal "failed-invalid-server-address".
Proof.
  intros Hc Hcolon. unfold main, prepare, initialize_executor. rewrite Hc. simpl. intros Hex.
  split; [unfold SplitHostPort; by rewrite cut_last_None|]. revert Hex.
  destruct (negb _); [intros [_ ->]; by eexists|]. case_bool_decide; [intros [_ ->]; by eexists|].
  unfold initializeMetron. destruct (IngressClient _ _); [intros [_ ->]; by eexists|]. simpl.
  destruct (executorinit_Initialize _ _ _); [|intros [_ ->]; by eexists]. simpl.
  unfold initializeConsulClient. destruct (consul_Parse _ _); [|intros [_ ->]; by eexists]. simpl.
  destruct (NewConsulClient _ _); [intros [_ ->]; by eexists|]. simpl.
  unfold initializeBBSClient. destruct (Parse (BBSAddress c)) as [u|]; [|intros [_ ->]; by eexists]. simpl.
  assert (∀ k : bool → result failure prepared,
    (if negb (bool_decide (Scheme u = "https")) then Ok false
     else match NewSecureBBSClient w with Some _ => Err (Fatal "Failed to configure secure BBS client") | None => Ok true end) ≫= k
    = Err (Fatal "Failed to configure secure BBS client") ∨
    ∃ b, (if negb (bool_decide (Scheme u = "https")) then Ok false
     else match NewSecureBBSClient w with Some _ => Err (Fatal "Failed to configure secure BBS client") | None => Ok true end) ≫= k
    = k b) as Hbbs by (intros k; repeat case_match; simpl; eauto).
  match goal with |- context [mbind ?k (if negb _ then _ else _)] => destruct (Hbbs k) as [->|[b ->]] end;
    [intros [_ ->]; by eexists|].
  destruct (start_server_no_port w c Hcolon) as (f & -> & Hf). intros [_ ->]. by exists f.
Qed.

Lemma prepare_needs_executor w order p : prepare w order = Ok p → is_ok (initialize_executor w order) = true.
Proof. unfold prepare. by destruct (initialize_executor w order). Qed.

(** When the executor is left as it is: [main] cleans it up exactly when it was
    initialised and the program does not end through [os.Exit].  So a rep whose
    group failed, unlike one that stopped in order, does not. *)
Theorem executor_is_cleaned_up w order group tr e :
  exec (whole_main w order group) tr e →
  executor_cleaned e = is_ok (initialize_executor w order) &&
    match exit_failure e with Some f => negb (exits_at_once f) | None => true end ∧
  (exit_failure e = None → executor_cleaned e = true).
Proof.
  unfold whole_main. rewrite exec_bind. intros (tr1 & started & tr2 & -> & Hm & He).
  assert (∀ ms, started = Ok ms → is_ok (initialize_executor w order) = true) as Hinit.
  { intros ms ->. unfold main in Hm. destruct (prepare w order) eqn:Hp; [by eapply prepare_needs_executor|by destruct Hm]. }
  destruct started as [ms|f].
  - rewrite (Hinit ms) in * by done. by destruct (group ms); destruct He as [-> ->].
  - by destruct He as [-> ->].
Qed.

End main_facts.

(** An IPv6 listen address passes the check, but is announced without its port. *)
Example ipv6_port : SplitHostPort "[::1]:1800" = Some ("::1", "1800") ∧ port_of "[::1]:1800" = Some "".
Proof. split; vm_compute; reflexivity. Qed.


(** ** Witness: the default configuration with a cell id, everything else going well *)
#[local] Existing Instance example_models.
#[local] Existing Instance example_key_fields.
#[local] Existing Instance example_defaults.

Definition example_world : World := {|
  configFile := Ok (Marshal (JObject [("cell_id", JString "cell_z1"); ("preloaded_root_fs", JArray [JString "linux:/rootfs"]);
                                      ("bbs_address", JString "http://bbs:8889")]));
  zoneOverride := "z1"; IngressClient := λ _, None;
  executorinit_Initialize := λ _ rootfs, Ok ["garden"; "metrics"];
  consul_Parse := λ _, Ok "http"; NewConsulClient := λ _, None; NewSecureBBSClient := None;
  NewRouter := λ routes handlers, if bool_decide (list_to_set (route_Name <$> routes) = handlers) then None else Some (errors_New "router");
  LocalIP := Ok "10.0.0.2"; NewServerTLSConfig := None;
  LookupPort := λ port, match Atoi port with Some n => Ok n | None => Err (errors_New "port") end;
  NewLocketClient := λ _, None; NewV4 := Ok "guid" |}.

Lemma main_starts_witness :
  ∃ ms c, (run (λ c (u : unit), (quiet c, u)) (main example_world map_to_list) tt).1.2 = Ok ms ∧
    length ms = 10%nat ∧ cfg_CellID c = "cell_z1" ∧
    ∀ m, m ∈ ms → is_worker m = true → stopped_before ms m (CleanupMember (cfg_CellID c)).
Proof.
  pose proof (run_exec (λ c (u : unit), (quiet c, u)) (main example_world map_to_list) tt) as Hex.
  assert (match (run (λ c (u : unit), (quiet c, u)) (main example_world map_to_list) tt).1.2 with
          | Ok ms => length ms = 10%nat | Err _ => False end) as Hlen by (vm_compute; reflexivity).
  destruct ((run (λ c (u : unit), (quiet c, u)) (main example_world map_to_list) tt).1.2) as [ms|]; [|destruct Hlen].
  destruct (main_starts example_world map_to_list _ ms Hex) as (c & _ & _ & _ & Hc & _ & _ & _ & _ & _ & _ & _ & _ & _ & _ & _ & _ & _ & Hw & _).
  exists ms, c. split; [reflexivity|]. split; [exact Hlen|]. split; [|exact Hw].
  assert (match read_config example_world with Ok c => cfg_CellID c = "cell_z1" | Err _ => False end) as Hid
    by (vm_compute; reflexivity).
  rewrite Hc in Hid. exact Hid.
Defined.

(** A group that fails leaves the executor as it is; one that stops in order does not. *)
Example failed_group_leaves_executor :
  (run (λ c (u : unit), (quiet c, u)) (whole_main example_world map_to_list (λ _, Some (errors_New "a member failed"))) tt).1.2
    = mk_exit (Some (Exit1 "exited-with-failure")) false ∧
  (run (λ c (u : unit), (quiet c, u)) (whole_main example_world map_to_list (λ _, None)) tt).1.2 = mk_exit None true.
Proof. split; vm_compute; reflexivity. Qed.

Lemma executor_is_cleaned_up_witness :
  let e := (run (λ c (u : unit), (quiet c, u)) (whole_main example_world map_to_list (λ _, None)) tt).1.2 in
  exit_failure e = None ∧ executor_cleaned e = true.
Proof.
  intros e. assert (exit_failure e = None) as He by (vm_compute; reflexivity). split; [exact He|].
  refine (proj2 (executor_is_cleaned_up example_world map_to_list (λ _, None) _ e _) He).
  apply (run_exec (λ c (u : unit), (quiet c, u))).
Defined.
