(* ===== verification/Drain.v ===== *)
(** Evacuation as a whole: what a round of synchronisation does to the containers of
    a cell that is being evacuated.

    The executor is a parameter, as a state that answers every call ([Cell]).  The
    theorem follows a container through the listing, the batch, and the operation on
    it, down to the evacuation processor, while other threads run. *)

From S2P Require Import Prelude GoInt GoStrings GoUrl GoJson Effects Services Conversion ContainerDelegate.
From S2P Require Import OrdinaryLRPProcessor EvacuationLRPProcessor TaskProcessor LRPProcessor Operation Generator.
From S2P Require Import Harmonizer Concurrency Queue Convergence.
From S2P Require Evacuator.

Section cell.
Context `{Models}.

Definition allocates (c : call) (guid : string) : Prop :=
  match c with
  | AllocateContainers requests => guid ∈ executor.ar_Guid <$> requests
  | _ => False
  end.

(** Deleting a container that is not there is not a failure. *)
Definition delete_failed (e : event reply) : bool :=
  match e with existT c r =>
    match c return reply c → bool with
    | DeleteContainer _ => λ r, match r with None => false | Some err => negb (bool_decide (err = executor_ErrContainerNotFound)) end
    | _ => λ _, false
    end r
  end.

Class Cell (S : Type) := {
  cell_answer : ∀ c, S → reply c * S;
  cell_valid : S → Prop;
  has_container : S → string → Prop;
  cell_answer_valid c s : cell_valid s → cell_valid (cell_answer c s).2;
  containers_are_allocated c s guid :
    cell_valid s → has_container (cell_answer c s).2 guid → has_container s guid ∨ allocates c guid;
  containers_listed s cs guid :
    cell_valid s → (cell_answer ListContainers s).1 = Ok cs →
    has_container (cell_answer ListContainers s).2 guid ↔ guid ∈ Guid <$> cs;
  lookups_as_asked s guid c :
    cell_valid s → (cell_answer (GetContainer guid) s).1 = Ok c → Guid c = guid;
  lookups_find s guid :
    cell_valid s → (cell_answer (GetContainer guid) s).1 = Err executor_ErrContainerNotFound →
    ¬ has_container (cell_answer (GetContainer guid) s).2 guid;
  delete_takes_effect s guid :
    cell_valid s → delete_failed (existT (DeleteContainer guid) (cell_answer (DeleteContainer guid) s).1) = false →
    ¬ has_container (cell_answer (DeleteContainer guid) s).2 guid }.

End cell.

Section drain.
Context `{Models} {S : Type} `{!Cell S}.

Definition allocated (tr : trace reply) (guid : string) : Prop := caused (λ c, allocates c guid) tr.

Lemma container_event s tr s' e guid :
  history cell_answer s tr s' → cell_valid s → e ∈ tr → has_container s' guid →
  allocated tr guid ∨
  ∃ s1, cell_valid s1 ∧ (cell_answer (projT1 e) s1).1 = projT2 e ∧ has_container (cell_answer (projT1 e) s1).2 guid.
Proof.
  apply (history_event cell_answer cell_valid (λ s, has_container s guid) (λ c, allocates c guid));
    eauto using cell_answer_valid, containers_are_allocated.
Qed.

Lemma container_origin s tr s' guid :
  history cell_answer s tr s' → cell_valid s → has_container s' guid → allocated tr guid ∨ has_container s guid.
Proof.
  apply (history_origin cell_answer cell_valid (λ s, has_container s guid) (λ c, allocates c guid));
    eauto using cell_answer_valid, containers_are_allocated.
Qed.

(** Why the processor [p] leaves a container alone when evacuating, given the container
    that was looked up.  A running one is kept only when the bulletin board, asked about
    this very instance, with its key and network information, answered so. *)
Definition stays (p : evacuationLRPProcessor) (tr : trace reply) (c : Container) : Prop :=
  tag (Container_Tags c) LifecycleTag ≠ LRPLifecycle ∨
  is_ok (ActualLRPKeyFromTags (Container_Tags c)) = false ∨
  is_ok (ActualLRPInstanceKeyFromContainer c (cellID p)) = false ∨
  (∃ s, Container_State c = StateOther s) ∨
  (Container_State c = StateRunning ∧
    ((∃ err, ActualLRPNetInfoFromContainer c = Err err) ∨
     ∃ key ikey netInfo err, ActualLRPKeyFromTags (Container_Tags c) = Ok key ∧
       ActualLRPInstanceKeyFromContainer c (cellID p) = Ok ikey ∧ ActualLRPNetInfoFromContainer c = Ok netInfo ∧
       ev (EvacuateRunningActualLRP key ikey netInfo (evacuationTTLInSeconds p)) (true, err) ∈ tr)).

Lemma process_deletes p c tr :
  exec (EvacuationLRPProcessor.Process p c) tr tt → tag (Container_Tags c) LifecycleTag = LRPLifecycle →
  stays p tr c ∨ ∃ e, e ∈ tr ∧ projT1 e = DeleteContainer (Guid c).
Proof.
  intros Hex Hl. destruct (existsb is_delete tr) eqn:Hd.
  - right. apply existsb_exists in Hd as (e & He%list_elem_of_In & Hd). exists e. split; [done|].
    pose proof (evacuation_touches _ _ _ Hex) as Ht. unfold only_touches in Ht.
    rewrite Forall_forall in Ht. specialize (Ht e He). destruct e as [[] ?]; simpl in *; try done. by rewrite (Ht _ eq_refl).
  - left. unfold stays. destruct (ActualLRPKeyFromTags (Container_Tags c)) as [key|] eqn:Hkey; [|auto].
    destruct (ActualLRPInstanceKeyFromContainer c (cellID p)) as [ikey|] eqn:Hikey; [|auto].
    pose proof (evacuation_deletes _ _ _ _ _ Hex Hkey Hikey) as Hdel. rewrite Hd in Hdel.
    do 3 right. destruct (Container_State c) eqn:Hs; try done; [right|by left; eexists]. split; [done|].
    destruct (evacuation_keeps p c key ikey tr) as [Herr|(ni & err & Hni & He)]; [done..|by left|right].
    by exists key, ikey, ni, err.
Qed.

Lemma stays_mono p tr tr' c : tr ⊆ tr' → stays p tr c → stays p tr' c.
Proof.
  intros Hincl. unfold stays.
  intros [?|[?|[?|[?|[? [?|(key & ikey & ni & err & ? & ? & ? & He)]]]]]];
    [by left | by right; left | by do 2 right; left | by do 3 right; left | do 4 right; split; [done|] ..].
  - by left.
  - right. exists key, ikey, ni, err. split_and!; [done..|]. by apply Hincl.
Qed.

Lemma operation_for_listed cs gs ts guid :
  guid ∈ Guid <$> cs → operation_for cs gs ts (Key (ContainerOperation guid)) = Some (ContainerOperation guid).
Proof.
  intros (c & -> & Hc)%list_elem_of_fmap. unfold operation_for. simpl.
  assert (is_Some (find_last Guid cs (Guid c))) as [x ->]; [|done]. apply find_last_is_Some. by exists c.
Qed.

(** An operation on an evacuating cell, whose calls the executor answered. *)
Lemma evacuated_operation (p : lrpProcessor) {T} `{!Processor T} (tasks : T) guid tr :
  exec (Execute p tasks (ContainerOperation guid)) tr tt →
  (∀ e, e ∈ tr → ∃ s, cell_valid s ∧ (cell_answer (projT1 e) s).1 = projT2 e) →
  (∀ s, cell_valid s → (cell_answer Evacuating s).1 = true) →
  (∃ err, ev (GetContainer guid) (Err err) ∈ tr) ∨
  (∃ c, ev (GetContainer guid) (Ok c) ∈ tr ∧ stays (evacuationProcessor p) tr c) ∨
  ∃ e, e ∈ tr ∧ projT1 e = DeleteContainer guid.
Proof.
  intros ([c|err] & rest & -> & Hrest)%Container_Execute_inv Hans Hflag; [|left; exists err; by left].
  destruct (Hans (ev (GetContainer guid) (Ok c))) as (sc & Hsc & Hac); [by left|]. simpl in Hac.
  pose proof (lookups_as_asked _ _ _ Hsc Hac) as Hguid. right.
  destruct (decide (tag (Container_Tags c) LifecycleTag = LRPLifecycle)) as [Hl|Hl];
    [|left; exists c; split; [by left|by left]].
  destruct Hrest as [[_ Hrest]|[[Hl' _]|(Hl' & _)]]; [|rewrite Hl in Hl'; done|done].
  destruct Hrest as (evac & rest' & -> & Hrest).
  destruct (Hans (ev Evacuating evac)) as (se & Hse & Hae); [by right; left|].
  simpl in Hae. rewrite Hflag in Hae by done. subst evac.
  destruct (process_deletes _ _ _ Hrest Hl) as [Hstay|(e & He & Hdel)].
  - left. exists c. split; [by left|]. eapply stays_mono; [|done]. set_solver.
  - right. exists e. rewrite Hguid in Hdel. split; [set_solver|done].
Qed.

(** Why a container is on the executor after a round of an evacuating cell; the
    traces are those of [record_remains]. *)
Definition container_remains (cellID : string) (p : evacuationLRPProcessor) (mine tr1 tr2 : trace reply) (guid : string) : Prop :=
  (∃ e, ev ListContainers (Err e) ∈ mine ∨ ev (ActualLRPGroups cellID) (Err e) ∈ mine ∨
        ev (TasksByCellID cellID) (Err e) ∈ mine) ∨
  allocated (tr1 ++ tr2) guid ∨
  (∃ err, err ≠ executor_ErrContainerNotFound ∧ ev (GetContainer guid) (Err err) ∈ tr2) ∨
  (∃ c, ev (GetContainer guid) (Ok c) ∈ tr2 ∧ stays p tr2 c) ∨
  (∃ e, e ∈ tr2 ∧ projT1 e = DeleteContainer guid ∧ delete_failed e = true).

Lemma round_survivor (p : lrpProcessor) {T} `{!Processor T} (tasks : T) (b : Bulker) order
    s0 tr1 s1 tr2 s2 t pushed guid :
  let cellID := gen_cellID (bulker_generator b) in
  (∀ m, iteration_of m (order m)) → cell_valid s0 →
  (∀ s, cell_valid s → (cell_answer Evacuating s).1 = true) →
  history cell_answer s0 tr1.*2 s1 → history cell_answer s1 tr2.*2 s2 →
  exec (sync b order) (of_thread t tr1) pushed → executed p tasks pushed tr2 →
  has_container s2 guid →
  container_remains cellID (evacuationProcessor p)
    (of_thread t tr1) tr1.*2 tr2.*2 guid.
Proof.
  intros cellID Hord Hs0 Hflag Hh1 Hh2 Hsync Hex Hc.
  assert (cell_valid s1) as Hv by (eapply history_valid; eauto using cell_answer_valid).
  destruct (sync_lists _ _ _ _ Hord Hsync) as (cs & gs & ts & Hcs & Hgs & Hts & Hops).
  destruct cs as [cs|e]; [|left; exists e; by left].
  destruct gs as [gs|e]; [|left; exists e; by right; left].
  destruct ts as [ts|e]; [|left; exists e; by right; right]. right.
  unfold allocated, caused in *. rewrite Exists_app.
  destruct (container_origin _ _ _ _ Hh2 Hv Hc) as [|Hc1]; [by left; right|].
  destruct (container_event _ _ _ _ guid Hh1 Hs0 (of_thread_subseteq _ _ _ Hcs) Hc1) as [|(sl & Hsl & Hal & Hcl)];
    [by left; left|]. simpl in *.
  pose proof (proj1 (containers_listed _ _ _ Hsl Hal) Hcl) as Hin.
  destruct (Hex (ContainerOperation guid)) as (i & Hsub); [by apply Hops, operation_for_listed|].
  pose proof (of_thread_subseteq i tr2) as Hincl.
  apply evacuated_operation in Hsub as [(err & Herr)|[(c & Hfound & Hstay)|(e & He & Hdel)]]; [..|done].
  - apply Hincl in Herr. destruct (decide (err = executor_ErrContainerNotFound)) as [->|Hne]; [|right; left; by exists err].
    destruct (container_event _ _ _ _ guid Hh2 Hv Herr Hc) as [|(sf & Hsf & Haf & Hcf)]; [by left; right|]. exfalso.
    simpl in *. by eapply (lookups_find sf).
  - right; right; left. exists c. split; [by apply Hincl|]. by eapply stays_mono.
  - apply Hincl in He. destruct (delete_failed e) eqn:Hfail; [right; right; right; by exists e|].
    destruct (container_event _ _ _ e guid Hh2 Hv He Hc) as [|(sd & Hsd & Had & Hcd)]; [by left; right|]. exfalso.
    destruct e as [d r]. simpl in *. subst d. subst r. by eapply delete_takes_effect.
  - intros e He. eapply (history_answered cell_answer cell_valid); eauto using cell_answer_valid.
Qed.

(** C7 Evacuation empties the cell.  While the cell is evacuating, some thread of
    the rep does a bulk sync, and later every operation of its batch is executed,
    concurrently with each other and with anything else that uses the services.  A
    container that is still on the executor in the end is there because a listing
    failed; because it was allocated meanwhile; because looking it up failed when its
    turn came, otherwise than by not finding it; because it is not an evacuable LRP: a
    task, one with unreadable tags or in an unknown state; because it is running and
    the bulletin board, asked about this very instance, wants it kept until it runs
    elsewhere (or its network information is invalid); or because deleting it failed.
    Every other container is gone. *)
Theorem evacuation_round_empties (p : lrpProcessor) {T} `{!Processor T} (tasks : T) (b : Bulker) order
    s0 tr1 s1 tr2 s2 t pushed guid :
  let cellID := gen_cellID (bulker_generator b) in
  (∀ m, iteration_of m (order m)) → cell_valid s0 →
  (∀ s, cell_valid s → (cell_answer Evacuating s).1 = true) →
  history cell_answer s0 tr1.*2 s1 → history cell_answer s1 tr2.*2 s2 →
  exec (sync b order) (of_thread t tr1) pushed → executed p tasks pushed tr2 →
  has_container s2 guid →
  container_remains cellID (evacuationProcessor p)
    (of_thread t tr1) tr1.*2 tr2.*2 guid.
Proof. apply round_survivor. Qed.

(** An evacuation that can complete does complete.  The evacuator of an evacuating
    cell has listed the containers and waits for its next poll.  Suppose that a round
    of synchronisation with the execution of its batch goes through without failures:
    listings and deletions succeed, lookups find the container or find that there is
    none, nothing is allocated any more, and every container that is looked up is one
    that may go.  Then no container is left,
    and the next poll of the evacuator, when its timer fires, finds that out and ends
    it with success. *)
Theorem evacuation_completes (p : lrpProcessor) {T} `{!Processor T} (tasks : T) (b : Bulker) order
    s0 tr1 s1 tr2 s2 t pushed :
  let cellID := gen_cellID (bulker_generator b) in
  (∀ m, iteration_of m (order m)) → cell_valid s0 →
  (∀ s, cell_valid s → (cell_answer Evacuating s).1 = true) →
  history cell_answer s0 tr1.*2 s1 → history cell_answer s1 tr2.*2 s2 →
  exec (sync b order) (of_thread t tr1) pushed → executed p tasks pushed tr2 →
  (∀ e, ev ListContainers (Err e) ∉ tr1.*2 ∧ ev (ActualLRPGroups cellID) (Err e) ∉ tr1.*2 ∧
        ev (TasksByCellID cellID) (Err e) ∉ tr1.*2) →
  (∀ guid, ¬ allocated (tr1.*2 ++ tr2.*2) guid) →
  (∀ guid err, ev (GetContainer guid) (Err err) ∈ tr2.*2 → err = executor_ErrContainerNotFound) →
  (∀ guid c, ev (GetContainer guid) (Ok c) ∈ tr2.*2 →
     ¬ stays (evacuationProcessor p) tr2.*2 c) →
  (∀ e, e ∈ tr2.*2 → delete_failed e = false) →
  (∀ guid, ¬ has_container s2 guid) ∧
  ∀ e st started deadline tm until cs,
    Evacuator.Run_phase st = Evacuator.Evacuating_ started deadline (Evacuator.Waiting tm) → Evacuator.armed tm = Some until →
    (cell_answer ListContainers s2).1 = Ok cs →
    let wait := Z.max 0 (until - Evacuator.now st) in
    Evacuator.Run_all e st [Evacuator.Tick wait; Evacuator.PollTimer; Evacuator.Listed (Ok cs); Evacuator.DoneCh]
      = Some (Evacuator.mk_evacuator_state (Evacuator.now st + wait) (Evacuator.Exited Evacuator.EvacuationComplete)).
Proof.
  intros cellID Hord Hs0 Hflag Hh1 Hh2 Hsync Hex Hlist Halloc Hlook Hstay Hdel.
  assert (∀ guid, ¬ has_container s2 guid) as Hempty.
  { intros guid Hc.
    destruct (round_survivor p tasks b order s0 tr1 s1 tr2 s2 t pushed guid)
      as [[e He]|[Ha|[(err & Hne & He)|[(c & Hc' & Hs)|(e & He & _ & Hd)]]]]; [done..| | | | |].
    - destruct (Hlist e) as (H1 & H2 & H3). by destruct He as [?%of_thread_subseteq|[?%of_thread_subseteq|?%of_thread_subseteq]].
    - by eapply Halloc.
    - by eapply Hne, Hlook.
    - by eapply Hstay.
    - by rewrite Hdel in Hd. }
  split; [done|]. intros e [n ph] started deadline tm until cs Hst Htm Hcs wait. simpl in Hst. subst ph.
  assert (cs = []) as ->.
  { destruct cs as [|c cs]; [done|]. exfalso.
    assert (cell_valid s2) as Hv by (eapply history_valid; [..|eapply history_valid]; eauto using cell_answer_valid).
    destruct (containers_are_allocated ListContainers s2 (Guid c)) as [Hc|[]]; [done| |by eapply Hempty].
    apply (containers_listed _ _ _ Hv Hcs). set_solver. }
  unfold wait, Evacuator.Run_all, Evacuator.Run. simpl. rewrite bool_decide_true by lia. simpl.
  unfold Evacuator.receive, Evacuator.fire. rewrite Htm. by rewrite bool_decide_true by lia.
Qed.

End drain.

(** ** A small executor, and a round on it *)
#[local] Existing Instance example_models.

Definition executor_answer (c : call) (s : list Container) : reply c * list Container :=
  match c return reply c * list Container with
  | ListContainers => (Ok s, s)
  | GetContainer guid =>
      (match filter (λ c, Guid c = guid) s with
       | container :: _ => Ok container
       | [] => Err executor_ErrContainerNotFound
       end, s)
  | DeleteContainer guid => (None, filter (λ c, Guid c ≠ guid) s)
  | Evacuating => (true, s)
  | EvacuateRunningActualLRP _ _ _ _ => ((true, None), s)
  | c => (quiet c, s)
  end.

#[local] Instance example_cell_state : Cell (list Container).
Proof.
  refine {| cell_answer := executor_answer; cell_valid := λ _, True; has_container := λ s guid, guid ∈ Guid <$> s |}.
  - done.
  - intros c s guid _ Hg. left. destruct c; simpl in *; try done.
    apply list_elem_of_fmap in Hg as (x & -> & [_ Hx]%list_elem_of_filter). by apply list_elem_of_fmap_2.
  - by intros s cs guid _ [= <-].
  - intros s guid c _. simpl. destruct (filter _ s) as [|x l] eqn:Hf; [done|]. intros [= <-].
    assert (x ∈ filter (λ c, Guid c = guid) s) as [? _]%list_elem_of_filter by (rewrite Hf; by left). done.
  - intros s guid _. simpl. destruct (filter _ s) as [|x l] eqn:Hf; [|done].
    intros _ (x & -> & Hx)%list_elem_of_fmap. apply (not_elem_of_nil x). rewrite <-Hf. by apply list_elem_of_filter.
  - intros s guid _ _. simpl. intros (x & -> & [Hx _]%list_elem_of_filter)%list_elem_of_fmap. done.
Defined.

(** A reserved instance, a running one, and a task. *)
Definition example_cell_containers : list Container :=
  let tags guid := Some {[LifecycleTag := LRPLifecycle; DomainTag := "domain"; ProcessGuidTag := "process-guid";
                          ProcessIndexTag := "7"; InstanceGuidTag := guid]} in
  let result := executor.mkContainerRunResult false "" false in
  [mkContainer "reserved" StateReserved 64 128 (tags "reserved") [] "" "" result;
   mkContainer "running" StateRunning 64 128 (tags "running") [] "10.255.0.7" "10.0.0.2" result;
   mkContainer "task" StateRunning 64 128 (Some {[LifecycleTag := TaskLifecycle]}) [] "" "" result].

Lemma example_drain :
  let '(_, pushed, s1) := run executor_answer (sync example_bulker map_to_list) example_cell_containers in
  let '(_, rest, s2) := schedule executor_answer example_turns (example_Execute <$> pushed) s1 in
  finished rest = true ∧ Guid <$> s2 = ["running"; "task"].
Proof. vm_compute. split; reflexivity. Qed.

Lemma evacuation_round_empties_witness :
  ∃ tr1 pushed s1 tr2 rest s2,
    run executor_answer (sync example_bulker map_to_list) example_cell_containers = (tr1, pushed, s1) ∧
    schedule executor_answer example_turns (example_Execute <$> pushed) s1 = (tr2, rest, s2) ∧
    Guid <$> s2 = ["running"; "task"] ∧
    container_remains "cell" (newEvacuationLRPProcessor "cell" 600) tr1 tr1 tr2.*2 "running".
Proof.
  pose proof example_drain as Hround.
  pose proof (scheduled_round (NewLRPProcessor "cell" 600) (NewTaskProcessor "cell") executor_answer example_bulker
    map_to_list example_turns example_cell_containers) as Hplayed.
  destruct (run executor_answer (sync example_bulker map_to_list) example_cell_containers) as [[tr1 pushed] s1].
  change (Execute (NewLRPProcessor "cell" 600) (NewTaskProcessor "cell")) with example_Execute in Hplayed.
  destruct (schedule executor_answer example_turns (example_Execute <$> pushed) s1) as [[tr2 rest] s2] eqn:Hexec.
  destruct Hround as (Hfin & Hleft). destruct (Hplayed Hfin) as (Hh1 & Hsync & Hh2 & Hexecuted).
  exists tr1, pushed, s1, tr2, rest, s2. split; [reflexivity|]. split; [exact Hexec|]. split; [exact Hleft|].
  pose proof (evacuation_round_empties (NewLRPProcessor "cell" 600) (NewTaskProcessor "cell") example_bulker map_to_list
    example_cell_containers (by_thread 0 tr1) s1 tr2 s2 0 pushed "running") as Hdrain.
  cbv zeta in Hdrain. rewrite of_by_thread, by_thread_events in *.
  apply Hdrain; [intros m; unfold iteration_of; reflexivity | exact I | intros s _; reflexivity | exact Hh1 | exact Hh2 |
    exact Hsync | exact Hexecuted |].
  change ("running" ∈ Guid <$> s2). rewrite Hleft. by left.
Defined.
