(* ===== verification/Rounds.v ===== *)
(** A round of synchronisation, played to its end on services that work.

    [Convergence] and [Drain] say what a round leaves behind when any call may fail
    and anything may happen meanwhile.  Here the round is run: the bulk sync, and then
    its operations in turns.  Whatever the turns, if each operation gets seven, the
    round ends; and services that work leave no exception. *)

From S2P Require Import Prelude GoInt GoStrings GoUrl GoJson Effects Concurrency Services Conversion.
From S2P Require Import ContainerDelegate OrdinaryLRPProcessor EvacuationLRPProcessor TaskProcessor LRPProcessor.
From S2P Require Import Operation Queue Generator Harmonizer Convergence Drain.
From S2P Require Evacuator.

Section round.
Context `{Models}.

(** ** The calls of a round *)
Definition sync_call (c : call) : bool :=
  match c with
  | ClockNow | ListContainers | ActualLRPGroups _ | TasksByCellID _ | SendDuration _ _ => true
  | _ => false
  end.

Lemma sync_calls (b : Bulker) order tr pushed :
  (∀ m, iteration_of m (order m)) → exec (sync b order) tr pushed → Forall (λ e, sync_call (projT1 e) = true) tr.
Proof.
  intros Ho Hex. apply sync_exec in Hex as (t0 & t1 & gen & made & sent & -> & Hgen & _); [|done].
  apply BatchOperations_exec in Hgen as (cs & gs & ts & Htr & _);
    [|apply gen_order_ok|apply gen_arrival_ok|apply gen_iteration_ok].
  constructor; [done|]. apply Forall_app. split; [rewrite Htr|]; by repeat constructor.
Qed.

Definition is_allocate (e : event reply) : bool :=
  match projT1 e with AllocateContainers _ => true | _ => false end.

Lemma Execute_allocates_nothing (cellID : string) (ttl : Z) o tr :
  exec (Execute (NewLRPProcessor cellID ttl) (NewTaskProcessor cellID) o) tr tt →
  Forall (λ e, is_allocate e = false) tr.
Proof.
  intros Hex. to_wp Hex.
  destruct o as [[] []|[] []|[] []|guid|guid]; unfold Execute, ResidualInstanceLRP_Execute, ResidualEvacuatingLRP_Execute,
    ResidualJointLRP_Execute, ResidualTask_Execute, Container_Execute, delegate_GetContainer;
    [wp_go; by repeat constructor..|].
  unfold process, lrp_processor, task_processor, lrpProcessor_Process, process, evacuation_processor, ordinary_processor.
  unfold_task. unfold_processor. unfold_evacuation. wp_go; by repeat constructor.
Qed.

(** The container is the one that a record of this cell is about. *)
Definition container_of (c : Container) (r : record) : Prop :=
  match r with
  | InstanceRecord k ik | EvacuatingRecord k ik =>
      tag (Container_Tags c) LifecycleTag = LRPLifecycle ∧
      InstanceGuid ik = tag (Container_Tags c) InstanceGuidTag ∧
      ∃ key, ActualLRPKeyFromTags (Container_Tags c) = Ok key ∧ ProcessGuid key = ProcessGuid k ∧ Index key = Index k
  | TaskRecord guid _ => tag (Container_Tags c) LifecycleTag = TaskLifecycle ∧ Guid c = guid
  end.

(** An operation asks for a record only for the container that it found. *)
Lemma Execute_creates (cellID : string) (ttl : Z) o tr e r :
  exec (Execute (NewLRPProcessor cellID ttl) (NewTaskProcessor cellID) o) tr tt →
  e ∈ tr → creates (projT1 e) r →
  ∃ c, ev (GetContainer (Key o)) (Ok c) ∈ tr ∧ container_of c r.
Proof.
  intros Hex He Hc. destruct (residual o) eqn:Hres.
  { exfalso. assert (Forall (λ e, ∀ r, ¬ creates (projT1 e) r) tr) as Hno.
    { to_wp Hex. destruct o as [[] []|[] []|[] []|?|?]; [..|done];
        unfold Execute, ResidualInstanceLRP_Execute, ResidualEvacuatingLRP_Execute, ResidualJointLRP_Execute,
          ResidualTask_Execute, delegate_GetContainer; wp_go; repeat (apply Forall_nil_2 || (apply Forall_cons_2; [intros [] []|])). }
    rewrite Forall_forall in Hno. by eapply Hno. }
  destruct o as [| | | |guid]; try done. clear Hres.
  apply Container_Execute_inv in Hex as ([c|err] & rest & -> & Hex);
    [|subst; by apply list_elem_of_singleton in He as ->].
  apply elem_of_cons in He as [->|He]; [done|]. exists c. split; [by left|].
  pose proof (list_elem_of_fmap_2 projT1 _ _ He : projT1 e ∈ calls rest) as Hcall.
  destruct Hex as [[Hl Hex]|[[Hl Hex]|(_ & _ & ->)]]; [| |by apply elem_of_nil in He].
  - apply lrpProcessor_is_local in Hex as (evac & rest' & -> & Hlocal).
    apply elem_of_cons in He as [->|He]; [done|].
    destruct Hlocal as (key & Hkey & Habout); [by intros ->; apply elem_of_nil in He|].
    rewrite Forall_forall in Habout. specialize (Habout _ (list_elem_of_fmap_2 projT1 _ _ He)).
    destruct (projT1 e), r; simpl in *; try done; naive_solver.
  - apply task_writes in Hex. rewrite Forall_forall in Hex. specialize (Hex _ Hcall).
    destruct (projT1 e), r; simpl in *; try done; naive_solver.
Qed.

(** ** The round, played *)
Section play.
Context {St : Type} (h : ∀ c, St → reply c * St) (cellID : string) (ttl : Z).
Context (b : Bulker (G := generator)) (order : batch → list (string * Operation)).

Notation operate := (Execute (NewLRPProcessor cellID ttl) (NewTaskProcessor cellID)).

(** Seven turns for every operation, in any order. *)
Definition fair_turns (pushed : list Operation) (turns : list nat) : Prop :=
  ∀ i, i < length pushed → 7 ≤ turns_of i turns.

(** What the playing of a round says of it: it is one of the rounds of
    [Convergence], and it contains the calls of its operations only. *)
Lemma played_round turns s0 :
  let '(tr1, pushed, s1) := run h (sync b order) s0 in
  fair_turns pushed turns →
  let '(tr2, rest, s2) := schedule h turns (operate <$> pushed) s1 in
  (finished rest = true ∧ length tr2 ≤ 7 * length pushed) ∧
  (history h s0 (by_thread 0 tr1).*2 s1 ∧ exec (sync b order) (of_thread 0 (by_thread 0 tr1)) pushed ∧
   history h s1 tr2.*2 s2 ∧ executed (NewLRPProcessor cellID ttl) (NewTaskProcessor cellID) pushed tr2) ∧
  ∀ e, e ∈ tr2.*2 → ∃ o tr, o ∈ pushed ∧ e ∈ tr ∧ tr ⊆ tr2.*2 ∧ exec (operate o) tr tt.
Proof.
  pose proof (scheduled_round (NewLRPProcessor cellID ttl) (NewTaskProcessor cellID) h b order turns s0) as Hplayed.
  destruct (run h (sync b order) s0) as [[tr1 pushed] s1]. intros Hturns.
  assert (Forall (calls_at_most 7) (operate <$> pushed)) as Hcalls
    by (apply Forall_fmap, Forall_true; intros o; apply Execute_calls).
  pose proof (schedule_all_return h 7 turns _ s1 Hcalls) as Hfin. rewrite length_fmap in Hfin. specialize (Hfin Hturns).
  pose proof (schedule_calls_each h 7 turns _ s1 Hcalls) as Hlen. rewrite length_fmap in Hlen.
  pose proof (λ e, schedule_events h operate pushed turns s1 e Hfin) as Hev.
  destruct (schedule h turns (operate <$> pushed) s1) as [[tr2 rest] s2]. simpl in *. split; [done|].
  split; [by apply Hplayed|]. intros e He. destruct (Hev e He) as (o & i & [] & Ho & Hin & Hex).
  exists o, (of_thread i tr2). split_and!; [done..|apply of_thread_subseteq|done].
Qed.

End play.

(** ** Services that work *)

(** The container of an instance whose identity, and address if it runs, can be read. *)
Definition may_leave (cellID : string) (c : Container) : Prop :=
  tag (Container_Tags c) LifecycleTag = LRPLifecycle ∧ is_ok (ActualLRPKeyFromTags (Container_Tags c)) = true ∧
  is_ok (ActualLRPInstanceKeyFromContainer c cellID) = true ∧
  match Container_State c with
  | StateOther _ => False
  | StateRunning => is_ok (ActualLRPNetInfoFromContainer c) = true
  | _ => True
  end.

Record board_works {S : Type} `{!Board S} (cellID : string) : Prop := {
  board_lists s : valid s →
    is_ok (answer ListContainers s).1 = true ∧ is_ok (answer (ActualLRPGroups cellID) s).1 = true ∧
    is_ok (answer (TasksByCellID cellID) s).1 = true;
  board_removes c s r : valid s → removes c r = true → removal_ok (existT c (answer c s).1) = true }.

Record cell_evacuates {S : Type} `{!Cell S} (cellID : string) : Prop := {
  cell_flag s : cell_valid s → (cell_answer Evacuating s).1 = true;
  cell_lists s : cell_valid s →
    is_ok (cell_answer ListContainers s).1 = true ∧ is_ok (cell_answer (ActualLRPGroups cellID) s).1 = true ∧
    is_ok (cell_answer (TasksByCellID cellID) s).1 = true;
  cell_looks_up s guid : cell_valid s →
    match (cell_answer (GetContainer guid) s).1 with
    | Ok c => may_leave cellID c
    | Err err => err = executor_ErrContainerNotFound
    end;
  cell_deletes c s : cell_valid s → delete_failed (existT c (cell_answer c s).1) = false;
  cell_lets_go key ikey netInfo t s : cell_valid s → (cell_answer (EvacuateRunningActualLRP key ikey netInfo t) s).1.1 = false }.

(** Every call of a history was answered by a valid state. *)
Lemma board_answered {S} `{!Board S} s tr s' c r :
  history answer s tr s' → valid s → ev c r ∈ tr → ∃ s1, valid s1 ∧ (answer c s1).1 = r.
Proof. intros Hh Hs He. exact (history_answered answer valid s tr s' (ev c r) (λ c s, answer_valid c s) Hh Hs He). Qed.

Lemma cell_answered {S} `{!Cell S} s tr s' c r :
  history cell_answer s tr s' → cell_valid s → ev c r ∈ tr → ∃ s1, cell_valid s1 ∧ (cell_answer c s1).1 = r.
Proof. intros Hh Hs He. exact (history_answered cell_answer cell_valid s tr s' (ev c r) (λ c s, cell_answer_valid c s) Hh Hs He). Qed.

(** C6 A round of synchronisation ends, and leaves the bulletin board right.  Play a
    bulk sync against an executor and a bulletin board whose listings and removals
    work, and then the operations of its batch in any order of turns that gives each
    of them seven.  Then all of them return, after at most seven calls each, and
    every record of the cell that is left on the bulletin board is that of a
    container, which the executor listed or returned during the round. *)
Theorem round_heals {S} `{!Board S} (b : Bulker) order ttl turns s0 :
  let cellID := gen_cellID (bulker_generator b) in
  (∀ m, iteration_of m (order m)) → valid s0 → board_works cellID →
  let '(tr1, pushed, s1) := run answer (sync b order) s0 in
  fair_turns pushed turns →
  let '(tr2, rest, s2) := schedule answer turns
                            (Execute (NewLRPProcessor cellID ttl) (NewTaskProcessor cellID) <$> pushed) s1 in
  finished rest = true ∧ length tr2 ≤ 7 * length pushed ∧
  ∀ r, has_record s2 r → record_cell r = cellID →
    ∃ c, (∃ cs, ev ListContainers (Ok cs) ∈ tr1 ∧ c ∈ cs ∧ Guid c = record_guid r) ∨
         (∃ guid, ev (GetContainer guid) (Ok c) ∈ tr2.*2 ∧ (guid = record_guid r ∨ container_of c r)).
Proof.
  intros cellID Hord Hs0 [Hlists Hremoves]. pose proof (played_round answer cellID ttl b order turns s0) as Hplayed.
  destruct (run answer (sync b order) s0) as [[tr1 pushed] s1]. intros Hturns. specialize (Hplayed Hturns).
  destruct (schedule answer turns _ s1) as [[tr2 rest] s2].
  destruct Hplayed as ([Hfin Hlen] & (Hh1 & Hsync & Hh2 & Hexec) & Hevents). split_and!; [done..|]. intros r Hr Hcell.
  assert (valid s1) as Hs1 by (eapply history_valid; [|done..]; apply answer_valid).
  pose proof (round_record _ _ b order s0 _ s1 tr2 s2 0 pushed r Hord Hs0 Hh1 Hh2 Hsync Hexec Hr Hcell) as Hremains.
  rewrite of_by_thread, by_thread_events in *.
  destruct Hremains as [[err Herr]|[Hasked|[(cs & c & Hcs & Hc & Hguid)|[[c Hc]|([c rep] & He & Hrem & Hno)]]]].
  - exfalso. destruct Herr as [He|[He|He]]; apply (board_answered _ _ _ _ _ Hh1 Hs0) in He as (s & Hs & Ha);
      destruct (Hlists s Hs) as (H1 & H2 & H3); unfold cellID in *; rewrite Ha in *; done.
  - unfold asked_for, caused in Hasked. rewrite Exists_app, !Exists_exists in Hasked.
    destruct Hasked as [(e & He & Hc)|(e & He & Hc)].
    + exfalso. pose proof (sync_calls _ _ _ _ Hord Hsync) as Hcalls. rewrite Forall_forall in Hcalls.
      specialize (Hcalls e He). by destruct (projT1 e).
    + destruct (Hevents e He) as (o & tr & _ & Hin & Hincl & Hex).
      destruct (Execute_creates _ _ _ _ _ _ Hex Hin Hc) as (c & Hget & Hof). exists c. right. exists (Key o). auto.
  - exists c. left. by exists cs.
  - exists c. right. eauto.
  - exfalso. apply (board_answered _ _ _ _ _ Hh2 Hs1) in He as (s & Hs & Ha). simpl in *.
    pose proof (Hremoves c s r Hs Hrem) as Hok. rewrite Ha in Hok. congruence.
Qed.

(** On such a cell every container that is looked up may go. *)
Lemma nothing_stays {S} `{!Cell S} (p : evacuationLRPProcessor) s tr s' guid c :
  cell_evacuates (EvacuationLRPProcessor.cellID p) → history cell_answer s tr s' → cell_valid s →
  ev (GetContainer guid) (Ok c) ∈ tr → ¬ stays p tr c.
Proof.
  intros Hw Hh Hs He. destruct (cell_answered _ _ _ _ _ Hh Hs He) as (s1 & Hs1 & Ha).
  pose proof (cell_looks_up _ Hw s1 guid Hs1) as Hc. rewrite Ha in Hc. destruct Hc as (Hl & Hk & Hi & Hst).
  intros [?|[?|[?|[[st Hst']|[Hst' [[err Hni]|(key & ikey & ni & err & _ & _ & _ & Hev)]]]]]]; [done|congruence|congruence|..].
  - by rewrite Hst' in Hst.
  - rewrite Hst', Hni in Hst. done.
  - destruct (cell_answered _ _ _ _ _ Hh Hs Hev) as (s2 & Hs2 & Ha2).
    pose proof (cell_lets_go _ Hw key ikey ni (evacuationTTLInSeconds p) s2 Hs2) as Hgo. rewrite Ha2 in Hgo. done.
Qed.

(** C8 Evacuation ends.  On a cell that is being evacuated, whose services work and
    whose containers may all go, play a bulk sync and then the operations of its
    batch in any order of turns that gives each of them seven.  Then all of them
    return, no container is left, and the evacuator, which was waiting for its next
    poll, polls when its timer fires and ends with success. *)
Theorem evacuation_ends {S} `{!Cell S} (b : Bulker) order ttl turns s0 :
  let cellID := gen_cellID (bulker_generator b) in
  (∀ m, iteration_of m (order m)) → cell_valid s0 → cell_evacuates cellID →
  let '(_, pushed, s1) := run cell_answer (sync b order) s0 in
  fair_turns pushed turns →
  let '(_, rest, s2) := schedule cell_answer turns
                          (Execute (NewLRPProcessor cellID ttl) (NewTaskProcessor cellID) <$> pushed) s1 in
  finished rest = true ∧ (∀ guid, ¬ has_container s2 guid) ∧
  ∀ e st started deadline tm until,
    Evacuator.Run_phase st = Evacuator.Evacuating_ started deadline (Evacuator.Waiting tm) → Evacuator.armed tm = Some until →
    let wait := Z.max 0 (until - Evacuator.now st) in
    Evacuator.Run_all e st [Evacuator.Tick wait; Evacuator.PollTimer;
                            Evacuator.Listed (cell_answer ListContainers s2).1; Evacuator.DoneCh]
      = Some (Evacuator.mk_evacuator_state (Evacuator.now st + wait) (Evacuator.Exited Evacuator.EvacuationComplete)).
Proof.
  intros cellID Hord Hs0 Hw. pose proof (played_round cell_answer cellID ttl b order turns s0) as Hplayed.
  destruct (run cell_answer (sync b order) s0) as [[tr1 pushed] s1]. intros Hturns. specialize (Hplayed Hturns).
  destruct (schedule cell_answer turns _ s1) as [[tr2 rest] s2].
  destruct Hplayed as ([Hfin _] & (Hh1 & Hsync & Hh2 & Hexec) & Hevents). split; [done|].
  assert (cell_valid s1) as Hs1 by (eapply history_valid; [|done..]; apply cell_answer_valid).
  assert (cell_valid s2) as Hs2 by (eapply history_valid; [|done..]; apply cell_answer_valid).
  destruct (evacuation_completes (NewLRPProcessor cellID ttl) (NewTaskProcessor cellID) b order s0 _ s1 tr2 s2 0 pushed
    Hord Hs0 (cell_flag _ Hw) Hh1 Hh2 Hsync Hexec) as [Hempty Hends].
  - rewrite by_thread_events in *. intros err. split_and!; intros He; apply (cell_answered _ _ _ _ _ Hh1 Hs0) in He as (s & Hs & Ha);
      destruct (cell_lists _ Hw s Hs) as (H1 & H2 & H3); unfold cellID in *; rewrite Ha in *; done.
  - rewrite by_thread_events in *. intros guid. unfold allocated, caused. rewrite Exists_app, !Exists_exists.
    intros [(e & He & Hc)|(e & He & Hc)].
    + pose proof (sync_calls _ _ _ _ Hord Hsync) as Hcalls. rewrite of_by_thread, Forall_forall in Hcalls.
      specialize (Hcalls e He). by destruct (projT1 e).
    + destruct (Hevents e He) as (o & tr & _ & Hin & _ & Hex).
      apply Execute_allocates_nothing in Hex. rewrite Forall_forall in Hex. specialize (Hex e Hin).
      unfold is_allocate in Hex. by destruct (projT1 e).
  - intros guid err He. destruct (cell_answered _ _ _ _ _ Hh2 Hs1 He) as (s & Hs & Ha).
    pose proof (cell_looks_up _ Hw s guid Hs) as Hc. by rewrite Ha in Hc.
  - intros guid c He. by eapply (nothing_stays (newEvacuationLRPProcessor cellID ttl)).
  - intros [c r] He. destruct (cell_answered _ _ _ _ _ Hh2 Hs1 He) as (s & Hs & <-). by apply (cell_deletes _ Hw).
  - split; [done|]. intros e st started deadline tm until Hst Htm wait.
    destruct (cell_lists _ Hw s2 Hs2) as [Hl _]. destruct (cell_answer ListContainers s2).1 as [cs|] eqn:Hcs; [|done].
    by apply (Hends e st started deadline tm until cs).
Qed.

End round.

(** ** The rounds of the examples *)
#[local] Existing Instance example_models.
#[local] Existing Instance example_board.

Definition seven_each : list nat := concat (replicate 7 [2; 0; 1]).

Lemma seven_each_fair (pushed : list Operation) : length pushed ≤ 3 → fair_turns pushed seven_each.
Proof. intros Hl [|[|[|i]]] Hi; [vm_compute; lia..|exfalso; lia]. Qed.

Lemma example_board_works : board_works (S := board) "cell".
Proof. split; [done|]. intros c s r _ Hr. by destruct c. Qed.

(** Of the four records of [example_state] one is left, and its container was found. *)
Lemma round_heals_witness :
  let '(tr1, pushed, s1) := run board_answer (sync example_bulker map_to_list) example_state in
  let '(tr2, rest, s2) := schedule board_answer seven_each (example_Execute <$> pushed) s1 in
  finished rest = true ∧ b_records s2 = [live_record] ∧
  ∃ c, (∃ cs, ev ListContainers (Ok cs) ∈ tr1 ∧ c ∈ cs ∧ Guid c = "instance-guid") ∨
       (∃ guid, ev (GetContainer guid) (Ok c) ∈ tr2.*2 ∧ (guid = "instance-guid" ∨ container_of c live_record)).
Proof.
  pose proof (round_heals example_bulker map_to_list 600 seven_each example_state) as Hround. cbv zeta in Hround.
  change (gen_cellID (bulker_generator example_bulker)) with "cell" in Hround.
  specialize (Hround ltac:(intros m; unfold iteration_of; reflexivity) example_state_valid example_board_works).
  change (answer (S := board)) with board_answer in Hround.
  change (Execute (NewLRPProcessor "cell" 600) (NewTaskProcessor "cell")) with example_Execute in Hround.
  assert (length (run board_answer (sync example_bulker map_to_list) example_state).1.2 = 3) as Hlen by (vm_compute; reflexivity).
  assert (b_records (schedule board_answer seven_each
    (example_Execute <$> (run board_answer (sync example_bulker map_to_list) example_state).1.2)
    (run board_answer (sync example_bulker map_to_list) example_state).2).2 = [live_record]) as Hleft by (vm_compute; reflexivity).
  destruct (run board_answer (sync example_bulker map_to_list) example_state) as [[tr1 pushed] s1]. cbn [fst snd] in *.
  specialize (Hround (seven_each_fair pushed ltac:(lia))).
  destruct (schedule board_answer seven_each (example_Execute <$> pushed) s1) as [[tr2 rest] s2]. cbn [fst snd] in *.
  destruct Hround as (Hfin & _ & Hrecords). split; [exact Hfin|]. split; [exact Hleft|].
  apply (Hrecords live_record); [|reflexivity]. change (live_record ∈ b_records s2). rewrite Hleft. by left.
Defined.

(** An executor all of whose containers are instances that may go. *)
Definition drain_answer (c : call) (s : list Container) : reply c * list Container :=
  match c return reply c * list Container with
  | EvacuateRunningActualLRP _ _ _ _ => ((false, None), s)
  | c => executor_answer c s
  end.

#[local] Instance drainable_cell : Cell (list Container).
Proof.
  refine {| cell_answer := drain_answer; cell_valid := Forall (may_leave "cell"); has_container := λ s guid, guid ∈ Guid <$> s |}.
  - intros c s Hs. destruct c; try done. simpl. rewrite Forall_forall in Hs |- *. by intros x [_ ?%Hs]%list_elem_of_filter.
  - intros c s guid _ Hc. apply (containers_are_allocated (Cell := example_cell_state) c s guid I). by destruct c.
  - intros s cs guid _. apply (containers_listed (Cell := example_cell_state) s cs guid I).
  - intros s guid c _. apply (lookups_as_asked (Cell := example_cell_state) s guid c I).
  - intros s guid _. apply (lookups_find (Cell := example_cell_state) s guid I).
  - intros s guid _. apply (delete_takes_effect (Cell := example_cell_state) s guid I).
Defined.

Lemma drainable_cell_evacuates : cell_evacuates (S := list Container) "cell".
Proof.
  split; try done.
  - intros s guid Hs. simpl. destruct (filter _ s) as [|x l] eqn:Hf; [done|].
    assert (x ∈ filter (λ c, Guid c = guid) s) as [_ Hx]%list_elem_of_filter by (rewrite Hf; by left).
    cbv [cell_valid drainable_cell] in Hs. rewrite Forall_forall in Hs. exact (Hs x Hx).
  - intros c s _. by destruct c.
Qed.

(** A reserved, a running and a completed instance. *)
Definition leaving_containers : list Container :=
  let tags guid := Some {[LifecycleTag := LRPLifecycle; DomainTag := "domain"; ProcessGuidTag := "process-guid";
                          ProcessIndexTag := "7"; InstanceGuidTag := guid]} in
  let result := executor.mkContainerRunResult false "" true in
  [mkContainer "reserved" StateReserved 64 128 (tags "reserved") [] "" "" result;
   mkContainer "running" StateRunning 64 128 (tags "running") [] "10.255.0.7" "10.0.0.2" result;
   mkContainer "completed" StateCompleted 64 128 (tags "completed") [] "" "" result].

Lemma evacuation_ends_witness :
  let '(_, pushed, s1) := run drain_answer (sync example_bulker map_to_list) leaving_containers in
  let '(_, rest, s2) := schedule drain_answer seven_each (example_Execute <$> pushed) s1 in
  length pushed = 3 ∧ finished rest = true ∧ (∀ guid, guid ∉ Guid <$> s2) ∧
  Evacuator.Run_all Evacuator.example_evacuator
    (Evacuator.mk_evacuator_state 100 (Evacuator.Evacuating_ 0 600 (Evacuator.Waiting (Evacuator.mk_timer (Some 107%Z) false))))
    [Evacuator.Tick 7; Evacuator.PollTimer; Evacuator.Listed (Ok s2); Evacuator.DoneCh]
  = Some (Evacuator.mk_evacuator_state 107 (Evacuator.Exited Evacuator.EvacuationComplete)).
Proof.
  assert (length (run drain_answer (sync example_bulker map_to_list) leaving_containers).1.2 = 3) as Hlen by (vm_compute; reflexivity).
  assert (Forall (may_leave "cell") leaving_containers) as Hvalid by (by repeat constructor).
  pose proof (evacuation_ends example_bulker map_to_list 600 seven_each leaving_containers
    ltac:(intros m; unfold iteration_of; reflexivity) Hvalid drainable_cell_evacuates) as Hround.
  change (gen_cellID (bulker_generator example_bulker)) with "cell" in Hround.
  change (cell_answer (S := list Container)) with drain_answer in Hround.
  change (Execute (NewLRPProcessor "cell" 600) (NewTaskProcessor "cell")) with example_Execute in Hround.
  destruct (run drain_answer (sync example_bulker map_to_list) leaving_containers) as [[tr1 pushed] s1]. cbn [fst snd] in *.
  specialize (Hround (seven_each_fair pushed ltac:(lia))).
  destruct (schedule drain_answer seven_each (example_Execute <$> pushed) s1) as [[tr2 rest] s2].
  destruct Hround as (Hfin & Hempty & Hends). split; [exact Hlen|]. split; [exact Hfin|]. split; [exact Hempty|].
  exact (Hends Evacuator.example_evacuator
    (Evacuator.mk_evacuator_state 100 (Evacuator.Evacuating_ 0 600 (Evacuator.Waiting (Evacuator.mk_timer (Some 107%Z) false)))) 0%Z 600%Z _ 107%Z eq_refl eq_refl).
Defined.
