(* ===== verification/TestRunner.v ===== *)
(** cmd/rep/testrunner/runner.go: how a test suite starts and stops a rep.

    A [Runner] keeps one session, a process of the rep's binary.  The temporary files
    and the processes are a shared world; what the operating system, the encoder and
    gexec answer comes with each call.  A process may exit at any time.  A failed
    expectation ends the test, a panic too, so each call has an outcome. *)

From S2P Require Import Prelude GoInt GoStrings GoUrl GoJson Effects Services RootFS Resources Wire Config.

Section runner.
Context `{ConfigDefaults}.

(** [json.Encoder]'s text of a configuration; the embedded types are other
    repositories'. *)
Context (encode_config : RepConfig → res string).

(** A session is known by its process. *)
Record Runner := mk_Runner {
  binPath : string; Session : option nat; StartCheck : string;
  repConfig : RepConfig; repConfigFilePath : string }.

Definition New (binPath : string) (repConfig : RepConfig) : Runner :=
  mk_Runner binPath None "rep.started" repConfig "".

(** A process with its command line, and its exit code once it has ended. *)
Record process := mk_process { command : list string; exit_code : option N }.
Inductive signal := Interrupt | Kill.

Record world := mk_world {
  runner : Runner; files : gmap string string; processes : gmap nat process; signals : list (nat * signal) }.

Inductive outcome := Returned | Panicked | Failed.

(** gexec's exit code is -1 as long as the process runs. *)
Definition running (w : world) (s : nat) : bool :=
  match processes w !! s with Some p => bool_decide (exit_code p = None) | None => false end.
Definition ExitCode (w : world) (s : nat) : Z :=
  match processes w !! s with Some (mk_process _ (Some code)) => Z.of_N code | _ => -1 end.

Definition set_file (path text : string) (w : world) : world :=
  mk_world (runner w) (<[path := text]> (files w)) (processes w) (signals w).
Definition set_path (path : string) (w : world) : world :=
  let r := runner w in
  mk_world (mk_Runner (binPath r) (Session r) (StartCheck r) (repConfig r) path) (files w) (processes w) (signals w).
(** [StartCheck] is exported; suites set it. *)
Definition set_check (text : string) (w : world) : world :=
  let r := runner w in
  mk_world (mk_Runner (binPath r) (Session r) text (repConfig r) (repConfigFilePath r)) (files w) (processes w) (signals w).
Definition spawn (args : list string) (w : world) : world :=
  let r := runner w in
  let s := fresh (dom (processes w)) in
  mk_world (mk_Runner (binPath r) (Some s) (StartCheck r) (repConfig r) (repConfigFilePath r)) (files w)
    (<[s := mk_process (binPath r :: args) None]> (processes w)) (signals w).

(** What [Start] is told: the name of a new temporary file, whether the binary could
    be run, and whether its output had [StartCheck] within two seconds. *)
Record start_env := mk_start_env { TempFile : res string; gexec_Start : option error; Say : string → bool }.

Definition Start (env : start_env) (w : world) : outcome * world :=
  if match Session (runner w) with Some s => bool_decide (ExitCode w s = -1)%Z | None => false end
  then (Panicked, w)
  else
  match TempFile env with
  | Err _ => (Failed, w)
  | Ok name =>
  let w := set_file name "" w in
  match encode_config (repConfig (runner w)) with
  | Err _ => (Failed, w)
  | Ok text =>
  let w := set_path name (set_file name text w) in
  let args := ["--config"; repConfigFilePath (runner w)] in
  match gexec_Start env with
  | Some _ => (Failed, w)
  | None =>
  let w := spawn args w in
  if Say env (StartCheck (runner w)) then (Returned, w) else (Failed, w)
  end end end.

(** Removing the configuration file; signalling a process that runs and waiting five
    seconds for it, which fails when it does not exit; one that has ended is not
    signalled. *)
Record stop_env := mk_stop_env { RemoveAll : option error; exits : option N }.

Definition remove_file (w : world) : world :=
  mk_world (runner w) (delete (repConfigFilePath (runner w)) (files w)) (processes w) (signals w).

Definition signal_and_wait (sig : signal) (exits : option N) (s : nat) (w : world) : outcome * world :=
  match processes w !! s with
  | Some (mk_process cmd None) =>
      let sent := signals w ++ [(s, sig)] in
      match exits with
      | Some code => (Returned, mk_world (runner w) (files w) (<[s := mk_process cmd (Some code)]> (processes w)) sent)
      | None => (Failed, mk_world (runner w) (files w) (processes w) sent)
      end
  | _ => (Returned, w)
  end.

Definition end_session (sig : signal) (env : stop_env) (w : world) : outcome * world :=
  match RemoveAll env with
  | Some _ => (Failed, w)
  | None =>
      let w := remove_file w in
      match Session (runner w) with
      | Some s => signal_and_wait sig (exits env) s w
      | None => (Returned, w)
      end
  end.

Definition Stop : stop_env → world → outcome * world := end_session Interrupt.
Definition KillWithFire : stop_env → world → outcome * world := end_session Kill.

(** ** What a suite can do with a runner *)
Inductive step (w : world) : world → Prop :=
| step_start env : step w (Start env w).2
| step_stop env : step w (Stop env w).2
| step_kill env : step w (KillWithFire env w).2
| step_check text : step w (set_check text w)
| step_exits s cmd code :
    processes w !! s = Some (mk_process cmd None) →
    step w (mk_world (runner w) (files w) (<[s := mk_process cmd (Some code)]> (processes w)) (signals w)).

Definition fresh_world (r : Runner) : world := mk_world r ∅ ∅ [].

(** ** One rep at a time *)

(** Every process that runs is the runner's session, and its session exists. *)
Definition single (w : world) : Prop :=
  (∀ s, running w s = true → Session (runner w) = Some s) ∧
  ∀ s, Session (runner w) = Some s → is_Some (processes w !! s).

Lemma ExitCode_running w s : is_Some (processes w !! s) → ExitCode w s = (-1)%Z ↔ running w s = true.
Proof. intros [[cmd [code|]] Hs]; unfold ExitCode, running; rewrite Hs; simpl; [split; [lia|done]|done]. Qed.

Lemma single_spawn args w :
  single w → (∀ s, Session (runner w) = Some s → running w s = false) → single (spawn args w).
Proof.
  intros [Hr _] Hidle. split; [|simpl; intros s [= <-]; by rewrite lookup_insert_eq].
  intros s. unfold running, spawn. simpl. destruct (decide (s = fresh (dom (processes w)))) as [->|Hne]; [done|].
  rewrite lookup_insert_ne by done. intros Hs. specialize (Hr s Hs). apply Hidle in Hr. unfold running in Hr. congruence.
Qed.

Lemma single_ends w s cmd code sent :
  processes w !! s = Some (mk_process cmd None) → single w →
  single (mk_world (runner w) (files w) (<[s := mk_process cmd (Some code)]> (processes w)) sent).
Proof.
  intros Hs [Hr He]. split.
  - intros s'. unfold running. simpl. destruct (decide (s' = s)) as [->|Hne]; [by rewrite lookup_insert_eq|].
    rewrite lookup_insert_ne by done. apply Hr.
  - intros s' Hs'. simpl. destruct (decide (s' = s)) as [->|Hne]; [by rewrite lookup_insert_eq|].
    rewrite lookup_insert_ne by done. by apply He.
Qed.

Lemma Start_single env w : single w → single (Start env w).2.
Proof.
  intros Hw. unfold Start. set (busy := match Session _ with Some _ => _ | None => _ end).
  destruct busy eqn:Hbusy; [done|]. destruct (TempFile env) as [name|]; [|done].
  destruct (encode_config _) as [text|]; [|exact Hw]. destruct (gexec_Start env); [exact Hw|].
  enough (single (spawn ["--config"; name] (set_path name (set_file name text (set_file name "" w))))) by (simpl; by destruct (Say _ _)).
  apply single_spawn; [exact Hw|]. intros s Hs. simpl in Hs. subst busy. rewrite Hs, bool_decide_eq_false in Hbusy.
  rewrite ExitCode_running in Hbusy by by apply Hw. by apply not_true_is_false.
Qed.

Lemma end_session_single sig env w : single w → single (end_session sig env w).2.
Proof.
  intros Hw. unfold end_session. destruct (RemoveAll env); [done|]. simpl.
  destruct (Session (runner w)) as [s|]; [|exact Hw]. unfold signal_and_wait. simpl.
  destruct (processes w !! s) as [[cmd [code|]]|] eqn:Hs; [exact Hw| |exact Hw].
  destruct (exits env) as [code|]; [|exact Hw]. by apply (single_ends (remove_file w)).
Qed.

Lemma step_single w w' : step w w' → single w → single w'.
Proof.
  intros [env|env|env|text|s cmd code Hs] Hw;
    [by apply Start_single|by apply end_session_single..|exact Hw|by apply single_ends].
Qed.

Lemma reachable_single r w : Session r = None → rtc step (fresh_world r) w → single w.
Proof.
  intros Hr Hw. assert (single (fresh_world r)) as H0.
  { split; simpl; [done|by rewrite Hr]. }
  induction Hw as [|? ? ? Hstep _ IH]; [done|]. by eapply IH, step_single.
Qed.

(** However a suite starts, stops and kills the rep of a runner, and whenever the
    processes exit, at most one of them runs. *)
Theorem one_rep_at_a_time bin config w s s' :
  rtc step (fresh_world (New bin config)) w → running w s = true → running w s' = true → s = s'.
Proof. intros [Hr _]%reachable_single Hs Hs'; [|done]. apply Hr in Hs, Hs'. congruence. Qed.

(** When [Start] returns, a rep runs with a file that holds the configuration; it
    panics exactly when one runs already. *)
Theorem Start_spec env w :
  single w →
  ((Start env w).1 = Panicked ↔ ∃ s, running w s = true) ∧
  ((Start env w).1 = Returned →
   ∃ s name text, Session (runner (Start env w).2) = Some s ∧ running (Start env w).2 s = true ∧
     encode_config (repConfig (runner w)) = Ok text ∧ files (Start env w).2 !! name = Some text ∧
     command <$> processes (Start env w).2 !! s = Some [binPath (runner w); "--config"; name]).
Proof.
  intros [Hr He]. unfold Start. set (busy := match Session _ with Some _ => _ | None => _ end).
  assert (busy = true ↔ ∃ s, running w s = true) as Hbusy.
  { subst busy. split.
    - destruct (Session (runner w)) as [s|] eqn:Hs; [|done]. rewrite bool_decide_eq_true. exists s.
      by rewrite <-ExitCode_running by by apply He.
    - intros [s Hs]. rewrite (Hr s Hs). apply bool_decide_eq_true, ExitCode_running; [|done]. by apply He, Hr. }
  destruct busy; [by split; [rewrite <-Hbusy|]|]. rewrite <-Hbusy.
  destruct (TempFile env) as [name|]; [|done]. destruct (encode_config _) as [text|] eqn:Htext; [|done].
  destruct (gexec_Start env); [done|]. simpl. destruct (Say _ _); [|done]. split; [done|]. intros _.
  eexists _, name, text. split; [reflexivity|]. simpl. unfold running. simpl. rewrite !lookup_insert_eq. by split_and!.
Qed.

(** [Stop] or [KillWithFire] returned: either no session ran, or it was signalled and
    has ended. *)
Lemma end_session_returned sig env w w' :
  end_session sig env w = (Returned, w') →
  (w' = remove_file w ∧ ∀ s, Session (runner w) = Some s → running w s = false) ∨
  ∃ s cmd code, Session (runner w) = Some s ∧ processes w !! s = Some (mk_process cmd None) ∧
    w' = mk_world (runner w) (files (remove_file w)) (<[s := mk_process cmd (Some code)]> (processes w))
           (signals w ++ [(s, sig)]).
Proof.
  unfold end_session, signal_and_wait, running. destruct (RemoveAll env); [done|]. simpl.
  destruct (Session (runner w)) as [s|]; [|intros [= <-]; by left].
  destruct (processes w !! s) as [[cmd [code|]]|] eqn:Hp.
  - intros [= <-]. left. split; [done|]. intros s' [= <-]. by rewrite Hp.
  - destruct (exits env) as [code|]; intros [= <-]. right. by exists s, cmd, code.
  - intros [= <-]. left. split; [done|]. intros s' [= <-]. by rewrite Hp.
Qed.

(** When [Stop] or [KillWithFire] returns, no rep runs and the configuration file is
    gone, so that the next [Start] does not panic; the only signal sent is an
    interrupt or a kill, to a rep that ran. *)
Theorem end_session_spec sig env w w' :
  single w → end_session sig env w = (Returned, w') →
  (∀ s, running w' s = false) ∧ files w' !! repConfigFilePath (runner w') = None ∧
  (∃ sent, signals w' = signals w ++ sent ∧ ∀ s x, (s, x) ∈ sent → x = sig ∧ running w s = true) ∧
  ∀ start, (Start start w').1 ≠ Panicked.
Proof.
  intros Hw Hend. pose proof (end_session_single sig env w Hw) as Hw'. rewrite Hend in Hw'. simpl in Hw'.
  apply end_session_returned in Hend as Hcases.
  assert (∀ s, running w' s = false) as Hidle.
  { intros s. apply not_true_is_false. intros Hs. pose proof (proj1 Hw' s Hs) as Hsess.
    destruct Hcases as [[-> Hnot]|(s0 & cmd & code & Hs0 & _ & ->)]; simpl in Hsess.
    - apply Hnot in Hsess. unfold running in *. simpl in Hs. congruence.
    - assert (s = s0) as -> by congruence. unfold running in Hs. simpl in Hs. by rewrite lookup_insert_eq in Hs. }
  split_and!; [done|..|intros start Hp; apply Start_spec in Hp as [s Hs]; [by rewrite Hidle in Hs|done]];
    destruct Hcases as [[-> _]|(s0 & cmd & code & _ & Hp & ->)]; simpl; rewrite ?lookup_delete_eq; try done.
  - exists []. rewrite app_nil_r. split; [done|]. by intros s x ?%elem_of_nil.
  - exists [(s0, sig)]. split; [done|]. intros s x [[= -> ->]|[]%elem_of_nil]%elem_of_cons.
    split; [done|]. unfold running. by rewrite Hp.
Qed.

End runner.

(** Two runs of a runner: the second [Start] panics while the first rep runs, and
    works after [Stop]; a rep that has to be killed and one that exits by itself. *)
Example two_runs `{ConfigDefaults} :
  let w0 := fresh_world (New "rep" defaultConfig) in
  let start name := Start (λ _, Ok "{}") (mk_start_env (Ok name) None (λ text, bool_decide (text = "rep.started"))) in
  let w1 := (start "/tmp/rep1" w0).2 in
  let w2 := (Stop (mk_stop_env None (Some 0%N)) w1).2 in
  let w3 := (start "/tmp/rep2" w2).2 in
  let w4 := (Stop (mk_stop_env None None) w3).2 in
  let w5 := (KillWithFire (mk_stop_env None (Some 137%N)) w4).2 in
  (start "/tmp/rep2" w1).1 = Panicked ∧ (start "/tmp/rep2" w2).1 = Returned ∧
  (Stop (mk_stop_env None None) w3).1 = Failed ∧ (start "/tmp/rep3" w4).1 = Panicked ∧
  files w5 = ∅ ∧ signals w5 = [(0, Interrupt); (1, Interrupt); (1, Kill)].
Proof. split_and!; reflexivity. Qed.
